(** * athame: a weekly time-window DSL, its lexer, parser and evaluator

    A shallow embedding of the Python package [athame] (modules [trie],
    [lexer], [parser] and [ast]) together with the properties that its
    specification states about it.

    Conventions of the embedding.
    - A Python [str] is a list of characters; a character is a code point
      below 256, so that [str.lower] is the Latin-1 case folding, which acts
      character by character.
    - Python integers are [Z].
    - A Python exception is a value of [exn]; code that may raise returns an
      [outcome].  Loops that Python writes with [while] take a fuel argument,
      and [OutOfFuel] is the outcome of a loop that did not finish with the
      fuel it was given.
    - A Python class becomes a module holding a record and its methods under
      their Python names.
    - The trie's nodes are dictionaries keyed by single characters; they are
      finite maps ([gmap]).  The string-keyed entry [is_terminal] that Python
      keeps in the same dictionary is a separate field, absent ([None]) on a
      dictionary that never received it. *)

From Stdlib Require Import ZArith List Ascii String Lia DecimalString Permutation Sorted.
From stdpp Require Import base option list gmap strings.
Import ListNotations.
Local Open Scope Z_scope.

(** ** Python values and built-ins *)

Definition str := list ascii.

(** A string literal of the source. *)
Notation "'$' s" := (list_ascii_of_string s) (at level 1, s at level 0, format "'$' s").

Inductive exn :=
| LexerError (message : str)
| ParserError (message : str)
| ScheduleError (message : str)
| ValueError (message : str)
| TypeError
| IndexError
| AttributeError.

Inductive outcome (A : Type) :=
| Ok (a : A)
| Raise (e : exn)
| OutOfFuel.
Arguments Ok {A} a.
Arguments Raise {A} e.
Arguments OutOfFuel {A}.

Definition bind {A B} (m : outcome A) (k : A -> outcome B) : outcome B :=
  match m with
  | Ok a => k a
  | Raise e => Raise e
  | OutOfFuel => OutOfFuel
  end.

Notation "'let*' p ':=' m 'in' k" := (bind m (fun p => k))
  (at level 10, p pattern, m at level 100, k at level 200).

Module Py.

Definition code (c : ascii) : Z := Z.of_N (N_of_ascii c).

(** [str.lower] on one character: A-Z, and the Latin-1 capitals
    U+00C0-U+00D6 and U+00D8-U+00DE, move 32 code points up. *)
Definition lower_char (c : ascii) : ascii :=
  let n := code c in
  if ((65 <=? n) && (n <=? 90)) || ((192 <=? n) && (n <=? 214)) || ((216 <=? n) && (n <=? 222))
  then ascii_of_N (Z.to_N (n + 32))
  else c.

Definition lower (s : str) : str := map lower_char s.

Definition len (s : str) : Z := Z.of_nat (length s).

(** [s[i]]: negative indices count from the end; [None] is IndexError. *)
Definition getitem (s : str) (i : Z) : option ascii :=
  if (0 <=? i) && (i <? len s) then nth_error s (Z.to_nat i)
  else if (- len s <=? i) && (i <? 0) then nth_error s (Z.to_nat (i + len s))
  else None.

(** The bound of a slice, clamped as Python does. *)
Definition clamp (n i : Z) : Z :=
  if i <? 0 then Z.max 0 (i + n) else Z.min i n.

(** [s[i:j]]. *)
Definition slice (s : str) (i j : Z) : str :=
  let a := clamp (len s) i in
  let b := clamp (len s) j in
  firstn (Z.to_nat (b - a)) (skipn (Z.to_nat a) s).

(** [s[i:]]. *)
Definition slice_from (s : str) (i : Z) : str :=
  skipn (Z.to_nat (clamp (len s) i)) s.

(** [c * n] for a one-character string [c]. *)
Definition times (c : ascii) (n : Z) : str := repeat c (Z.to_nat n).

(** [s.rstrip(c)] for a one-character string [c]. *)
Fixpoint rstrip (s : str) (c : ascii) : str :=
  match s with
  | [] => []
  | x :: rest =>
      match rstrip rest c with
      | [] => if Ascii.eqb x c then [] else [x]
      | r => x :: r
      end
  end.

(** [sep.join(parts)]. *)
Fixpoint join (sep : str) (parts : list str) : str :=
  match parts with
  | [] => []
  | [p] => p
  | p :: rest => p ++ sep ++ join sep rest
  end.

(** [str(n)] for an integer. *)
Definition str_of_int (n : Z) : str :=
  list_ascii_of_string (NilZero.string_of_int (Z.to_int n)).

Definition is_digit (c : ascii) : bool := (48 <=? code c) && (code c <=? 57).

(** [int(s)] on a string of decimal digits; the lexer hands over nothing
    else.  Any other string is a ValueError of the model. *)
Definition int_of_str (s : str) : outcome Z :=
  match s with
  | [] => Raise (ValueError $"invalid literal for int()")
  | _ =>
      if forallb is_digit s
      then Ok (fold_left (fun acc c => 10 * acc + (code c - 48)) s 0)
      else Raise (ValueError $"invalid literal for int()")
  end.

(** [string.ascii_letters]. *)
Definition ascii_letters : str :=
  $"abcdefghijklmnopqrstuvwxyzABCDEFGHIJKLMNOPQRSTUVWXYZ".

(** [c in seq] by equality on characters. *)
Definition char_in (c : ascii) (seq : list ascii) : bool := existsb (Ascii.eqb c) seq.

Definition str_eqb (a b : str) : bool := bool_decide (a = b).

(** [s in seq] for a tuple of strings. *)
Definition str_in (s : str) (seq : list str) : bool := existsb (str_eqb s) seq.

(** [sorted(l)] with the order given by [leb]: a stable insertion sort. *)
Section Sorted.
Context {A : Type} (leb : A -> A -> bool).

Fixpoint insert_sorted (x : A) (l : list A) : list A :=
  match l with
  | [] => [x]
  | y :: rest => if leb x y then x :: y :: rest else y :: insert_sorted x rest
  end.

Definition sorted (l : list A) : list A := fold_right insert_sorted [] l.
End Sorted.

Definition char_leb (a b : ascii) : bool := code a <=? code b.

(** Truth value of [None], [False] and [True]. *)
Definition truthy (v : option bool) : bool :=
  match v with
  | Some b => b
  | None => false
  end.

End Py.

(** ** trie.py *)

Module Trie.

(** A node is the Python dictionary [{char: node, ..., "is_terminal": bool}]. *)
#[warnings="-register-all"]
Inductive node := Node { is_terminal : option bool; children : gmap ascii node }.

(** [class Trie]: the root dictionary. *)
Record t := Build { root : node }.

(** [Trie()] : [self.root = dict()]. *)
Definition new : t := Build (Node None ∅).

(** The loop of [__contains__], followed by its last line. *)
Fixpoint contains_loop (current : node) (string : str) : option bool :=
  match string with
  | [] => is_terminal current
  | char :: rest =>
      match children current !! char with
      | None => Some false
      | Some nxt => contains_loop nxt rest
      end
  end.

Definition dunder_contains (self : t) (string : str) : option bool :=
  contains_loop (root self) (Py.lower string).

(** [string in trie]. *)
Definition contains (self : t) (string : str) : bool :=
  Py.truthy (dunder_contains self string).

(** The loop of [add]: [setdefault] enters a fresh [dict(is_terminal=False)]
    where the character has no entry; the last node gets
    [is_terminal = True].  The dictionaries are updated in place, which on a
    tree is the rebuilding of the path from the root. *)
Fixpoint add_loop (current : node) (string : str) : node :=
  match string with
  | [] => Node (Some true) (children current)
  | char :: rest =>
      let child :=
        match children current !! char with
        | Some n => n
        | None => Node (Some false) ∅
        end in
      Node (is_terminal current) (<[char := add_loop child rest]> (children current))
  end.

Definition add (self : t) (string : str) : t :=
  Build (add_loop (root self) (Py.lower string)).

(** [Trie.from_strings]: every string is added in turn to a new trie. *)
Definition from_strings (strings : list str) : t :=
  fold_left add strings new.

Fixpoint contains_prefix_loop (current : node) (string : str) : bool :=
  match string with
  | [] => true
  | char :: rest =>
      match children current !! char with
      | None => false
      | Some nxt => contains_prefix_loop nxt rest
      end
  end.

Definition contains_prefix (self : t) (string : str) : bool :=
  contains_prefix_loop (root self) (Py.lower string).

(** The keys of a node other than [is_terminal]. *)
Definition char_keys (current : node) : list ascii :=
  (map_to_list (children current)).*1.

Fixpoint chars_after_loop (current : node) (string : str) : list ascii :=
  match string with
  | [] => Py.sorted Py.char_leb (char_keys current)
  | char :: rest =>
      match children current !! char with
      | None => []
      | Some nxt => chars_after_loop nxt rest
      end
  end.

Definition chars_after (self : t) (string : str) : list ascii :=
  chars_after_loop (root self) (Py.lower string).

Fixpoint max_match_for_loop (current : node) (buffer : str) (string : str) : str :=
  match string with
  | [] => buffer
  | char :: rest =>
      match children current !! char with
      | None => buffer
      | Some nxt => max_match_for_loop nxt (buffer ++ [char]) rest
      end
  end.

Definition max_match_for (self : t) (string : str) : str :=
  max_match_for_loop (root self) [] (Py.lower string).

End Trie.

(** ** pendulum: the calendar library, as far as [ast.py] uses it

    A [DateTime] is an instant and the zone it is expressed in.  The instant
    is counted in microseconds from a reference instant that is a Sunday at
    00:00 UTC (2017-01-01 will do).  A zone is the offset from UTC in force
    before its first transition, and its transitions in order of time: each
    is the instant at which the clocks of the zone change (a daylight-saving
    change, or any other change of the offset) and the offset in force from
    then on.  Offsets are in microseconds.  The zones of the model are the
    regular ones: every offset within a day of UTC, the transitions in order
    and at least two days apart, as in the IANA time zone database, whose
    offsets stay within sixteen hours of UTC and whose changes of offset are
    days apart.

    A date and a time of day become an instant as pendulum does by default
    (its rule [POST_TRANSITION]): a reading that the clocks show twice,
    because they were set back, is the later of the two instants; a reading
    that the clocks skip, because they were set forward, is moved forward by
    what was skipped.  [add(days=n)], [at] and [start_of("day")] work on the
    wall clock and go through this conversion; [add(minutes=n)] adds to the
    instant.  Days of the week are numbered as pendulum 2 does, Sunday = 0
    to Saturday = 6. *)

Module pendulum.

Definition US_PER_MINUTE : Z := 60000000.
Definition US_PER_HOUR : Z := 3600000000.
Definition US_PER_DAY : Z := 86400000000.

(** The offset in force at the instant [ts], when [off] is the offset
    before the transitions [trs]. *)
Fixpoint offset_from (off : Z) (trs : list (Z * Z)) (ts : Z) : Z :=
  match trs with
  | [] => off
  | (instant, off') :: rest =>
      if ts <? instant then off else offset_from off' rest ts
  end.

(** The instant of the wall-clock reading [w]: the reading is taken on the
    clock in force before the first transition that, on the clock it
    starts, comes after [w]. *)
Fixpoint instant_from (off : Z) (trs : list (Z * Z)) (w : Z) : Z :=
  match trs with
  | [] => w - off
  | (instant, off') :: rest =>
      if w <? instant + off' then w - off else instant_from off' rest w
  end.

(** The offsets are within a day of UTC, and every transition comes two
    days or more after the one before it. *)
Fixpoint regular_from (off : Z) (trs : list (Z * Z)) : bool :=
  (- US_PER_DAY <=? off) && (off <=? US_PER_DAY)
  && match trs with
     | [] => true
     | (instant, off') :: rest =>
         match rest with
         | [] => true
         | (instant', _) :: _ => instant + 2 * US_PER_DAY <=? instant'
         end
         && regular_from off' rest
     end.

(** A zone: the offset before its first transition, its transitions, and
    the fact that it is regular. *)
Record Timezone := Zone {
  initial : Z;
  transitions : list (Z * Z);
  regular : regular_from initial transitions = true
}.

(** UTC: no offset and no transition. *)
Definition UTC : Timezone := Zone 0 [] eq_refl.

Record DateTime := Build { timestamp : Z; tz : Timezone }.

(** [dt.utcoffset()]. *)
Definition utcoffset (dt : DateTime) : Z :=
  offset_from (initial (tz dt)) (transitions (tz dt)) (timestamp dt).

(** The wall-clock reading, in microseconds since the reference midnight. *)
Definition wall (dt : DateTime) : Z := timestamp dt + utcoffset dt.

(** The DateTime of the zone [z] for the wall-clock reading [w]. *)
Definition of_wall (w : Z) (z : Timezone) : DateTime :=
  Build (instant_from (initial z) (transitions z) w) z.

(** Days elapsed on the wall calendar since the reference Sunday. *)
Definition day_number (dt : DateTime) : Z := wall dt / US_PER_DAY.

Definition day_of_week (dt : DateTime) : Z := day_number dt mod 7.
Definition hour (dt : DateTime) : Z := (wall dt mod US_PER_DAY) / US_PER_HOUR.
Definition minute (dt : DateTime) : Z := (wall dt mod US_PER_HOUR) / US_PER_MINUTE.

(** [dt.in_tz(tz)]: the same instant in the zone named [tz]; [tzdata] is the
    zone database, which gives the zone of every zone identifier. *)
Definition in_tz (tzdata : str -> Timezone) (dt : DateTime) (tz : str) : DateTime :=
  Build (timestamp dt) (tzdata tz).

(** [dt.at(hour, minute)]: same date, seconds and microseconds zero. *)
Definition at_ (dt : DateTime) (h m : Z) : outcome DateTime :=
  if (0 <=? h) && (h <=? 23) && (0 <=? m) && (m <=? 59)
  then Ok (of_wall (day_number dt * US_PER_DAY + h * US_PER_HOUR + m * US_PER_MINUTE)
                   (tz dt))
  else Raise (ValueError $"hour must be in 0..23, minute in 0..59").

(** [dt.add(days=n)] and [dt.add(minutes=n)]. *)
Definition add_days (dt : DateTime) (n : Z) : DateTime :=
  of_wall (wall dt + n * US_PER_DAY) (tz dt).
Definition add_minutes (dt : DateTime) (n : Z) : DateTime :=
  Build (timestamp dt + n * US_PER_MINUTE) (tz dt).

(** [dt.start_of("day")]. *)
Definition start_of_day (dt : DateTime) : DateTime :=
  of_wall (day_number dt * US_PER_DAY) (tz dt).

(** [while dt.day_of_week != day_of_week: dt = dt.add(days=1)]. *)
Fixpoint next_loop (fuel : nat) (dt : DateTime) (dow : Z) : outcome DateTime :=
  match fuel with
  | O => OutOfFuel
  | S fuel' =>
      if negb (day_of_week dt =? dow) then next_loop fuel' (add_days dt 1) dow
      else Ok dt
  end.

(** [dt.next(day_of_week, keep_time)]: the first later date that falls on
    the given day of the week, never the date of [dt] itself.  The loop gets
    seven rounds, and seven more for every transition of the zone, which is
    always enough. *)
Definition next (dt : DateTime) (dow : Z) (keep_time : bool) : outcome DateTime :=
  if (dow <? 0) || (dow >? 6) then Raise (ValueError $"Invalid day of week")
  else
    let dt := if keep_time then dt else start_of_day dt in
    let dt := add_days dt 1 in
    next_loop (7 * S (length (transitions (tz dt)))) dt dow.

(** Comparison of two DateTimes compares their instants. *)
Definition leb (a b : DateTime) : bool := timestamp a <=? timestamp b.
Definition ltb (a b : DateTime) : bool := timestamp a <? timestamp b.

End pendulum.

(** [[f(x) for x in l]] where [f] may raise. *)
Fixpoint mapM {A B} (f : A -> outcome B) (l : list A) : outcome (list B) :=
  match l with
  | [] => Ok []
  | x :: rest =>
      let* y := f x in
      let* ys := mapM f rest in
      Ok (y :: ys)
  end.

(** ** ast.py *)

Module Time.

Record t := Build { hour : Z; minute : Z }.

(** The constraints [conint(ge=0, le=23)] and [conint(ge=0, le=59)]. *)
Definition valid (x : t) : bool :=
  (0 <=? hour x) && (hour x <=? 23) && (0 <=? minute x) && (minute x <=? 59).

(** [Time(hour=h, minute=m)]: pydantic validates the fields. *)
Definition make (h m : Z) : outcome t :=
  if valid (Build h m) then Ok (Build h m)
  else Raise (ValueError $"validation error for Time").

Definition from_string (string : str) : outcome t :=
  let* h := Py.int_of_str (Py.slice string 0 2) in
  let* m := Py.int_of_str (Py.slice_from string 2) in
  make h m.

Definition start_of_day : t := Build 0 0.
Definition end_of_day : t := Build 23 59.

End Time.

Module Interval.
Record t := Build { start : Time.t; end_ : Time.t }.
Definition valid (x : t) : bool := Time.valid (start x) && Time.valid (end_ x).
End Interval.

Module Directive.
Inductive t := ALLOW | FORBID.
End Directive.

Module Agenda.
Record t := Build { intervals : list Interval.t; directive : Directive.t }.
End Agenda.

Module WeekdayInterval.

Record t := Build { day_of_week : Z; interval : Interval.t }.

(** What pydantic has checked of every WeekdayInterval that exists. *)
Definition valid (x : t) : bool :=
  (0 <=? day_of_week x) && (day_of_week x <=? 6) && Interval.valid (interval x).

(** [WeekdayInterval(day_of_week=d, interval=i)]. *)
Definition make (d : Z) (i : Interval.t) : outcome t :=
  if (0 <=? d) && (d <=? 6) then Ok (Build d i)
  else Raise (ValueError $"validation error for WeekdayInterval").

(** [dt in self]. *)
Definition contains (self : t) (dt : pendulum.DateTime) : bool :=
  let s := Interval.start (interval self) in
  let e := Interval.end_ (interval self) in
  (day_of_week self =? pendulum.day_of_week dt)
  && (((Time.hour s <? pendulum.hour dt) && (pendulum.hour dt <? Time.hour e))
      || ((Time.hour s =? pendulum.hour dt) && negb (pendulum.hour dt =? Time.hour e)
          && (Time.minute s <=? pendulum.minute dt))
      || (negb (Time.hour s =? pendulum.hour dt) && (pendulum.hour dt =? Time.hour e)
          && (Time.minute e >=? pendulum.minute dt))
      || ((Time.hour s =? Time.hour e) && (Time.hour e =? pendulum.hour dt)
          && ((Time.minute s <=? pendulum.minute dt)
              && (pendulum.minute dt <=? Time.minute e)))).

Definition next_start_after (self : t) (moment : pendulum.DateTime)
  : outcome pendulum.DateTime :=
  let s := Interval.start (interval self) in
  if pendulum.day_of_week moment =? day_of_week self then
    let* time_shifted_moment := pendulum.at_ moment (Time.hour s) (Time.minute s) in
    if pendulum.leb moment time_shifted_moment
    then Ok time_shifted_moment
    else pendulum.next time_shifted_moment (day_of_week self) true
  else
    let* d := pendulum.next moment (day_of_week self) false in
    pendulum.at_ d (Time.hour s) (Time.minute s).

Definition next_end_after (self : t) (moment : pendulum.DateTime)
  : outcome pendulum.DateTime :=
  let e := Interval.end_ (interval self) in
  if pendulum.day_of_week moment =? day_of_week self then
    let* shifted := pendulum.at_ moment (Time.hour e) (Time.minute e) in
    let time_shifted_moment := pendulum.add_minutes shifted 1 in
    if pendulum.ltb moment time_shifted_moment
    then Ok time_shifted_moment
    else pendulum.next time_shifted_moment (day_of_week self) true
  else
    let* d := pendulum.next moment (day_of_week self) false in
    let* d' := pendulum.at_ d (Time.hour e) (Time.minute e) in
    Ok (pendulum.add_minutes d' 1).

End WeekdayInterval.

(** Modelled from the spec: [athame.exceptions] is not among the sources.
    [ScheduleError.handle_errors(message, exception_class=ValueError)] is the
    context manager around the unpacking in [next_moment_allowed_after]; the
    spec gives its effect: a failure inside it is a schedule-evaluation error
    carrying [message]. *)
Definition ScheduleError_handle_errors {A} (message : str) (body : outcome A) : outcome A :=
  match body with
  | Raise (ValueError _) => Raise (ScheduleError message)
  | other => other
  end.

(** [best, *_ = l]: the head of [l]; ValueError on the empty list. *)
Definition unpack_first {A} (l : list A) : outcome A :=
  match l with
  | [] => Raise (ValueError $"not enough values to unpack (expected at least 1, got 0)")
  | best :: _ => Ok best
  end.

Module Schedule.

Record t := Build {
  allowed : list WeekdayInterval.t;
  forbidden : list WeekdayInterval.t;
  tz : str
}.

Definition valid (self : t) : bool :=
  forallb WeekdayInterval.valid (allowed self)
  && forallb WeekdayInterval.valid (forbidden self).

(** [Schedule()] in the zone [tz]. *)
Definition new (tz : str) : t := Build [] [] tz.

(** [itertools.product(a, b)]: the first component varies slowest. *)
Definition product {A B} (a : list A) (b : list B) : list (A * B) :=
  flat_map (fun x => map (fun y => (x, y)) b) a.

(** The directive is one of the two members of the enumeration, so the
    [else] branch of the source, which raises, has no input. *)
Definition add_agenda_on_days (self : t) (agenda : Agenda.t) (days : list Z) : outcome t :=
  let* weekday_intervals :=
    mapM (fun '(interval, day_of_week) => WeekdayInterval.make day_of_week interval)
         (product (Agenda.intervals agenda) days) in
  match Agenda.directive agenda with
  | Directive.ALLOW =>
      Ok (Build (allowed self ++ weekday_intervals) (forbidden self) (tz self))
  | Directive.FORBID =>
      Ok (Build (allowed self) (forbidden self ++ weekday_intervals) (tz self))
  end.

Fixpoint add_agendas_on_days (self : t) (agendas : list Agenda.t) (days : list Z)
  : outcome t :=
  match agendas with
  | [] => Ok self
  | agenda :: rest =>
      let* self' := add_agenda_on_days self agenda days in
      add_agendas_on_days self' rest days
  end.

(** [Schedule.always_allowed(tz)]; [local_timezone] is
    [pendulum.local_timezone().name], taken when [tz] is empty. *)
Definition always_allowed (local_timezone : str) (tz : str) : outcome t :=
  let* allowed :=
    mapM (fun day_of_week =>
            WeekdayInterval.make day_of_week
              (Interval.Build Time.start_of_day Time.end_of_day))
         (map Z.of_nat (seq 0 7)) in
  let tz := match tz with [] => local_timezone | _ => tz end in
  Ok (Build allowed [] tz).

Section Evaluation.
(** The zone database: the zone of every zone identifier. *)
Context (tzdata : str -> pendulum.Timezone).

Definition is_allowed_at (self : t) (moment : pendulum.DateTime) : bool :=
  let moment := pendulum.in_tz tzdata moment (tz self) in
  existsb (fun weekday_interval => WeekdayInterval.contains weekday_interval moment)
          (allowed self)
  && negb (existsb (fun weekday_interval => WeekdayInterval.contains weekday_interval moment)
                   (forbidden self)).

Definition next_moment_allowed_after (self : t) (moment : pendulum.DateTime)
  : outcome pendulum.DateTime :=
  let moment := pendulum.in_tz tzdata moment (tz self) in
  let* allowed_starts :=
    mapM (fun wdi => WeekdayInterval.next_start_after wdi moment) (allowed self) in
  let* forbidden_ends :=
    mapM (fun wdi => WeekdayInterval.next_end_after wdi moment) (forbidden self) in
  let candidates := [moment] ++ allowed_starts ++ forbidden_ends in
  let allowed_only := List.filter (is_allowed_at self) candidates in
  ScheduleError_handle_errors $"no allowed intervals in the schedule"
    (unpack_first (Py.sorted pendulum.leb allowed_only)).
End Evaluation.

End Schedule.

(** ** lexer.py *)

Module TokenType.
Inductive t := END_INPUT | ALLOW | FORBID | DAY_OF_WEEK | TIME | DASH.

Definition eqb (a b : t) : bool :=
  match a, b with
  | END_INPUT, END_INPUT | ALLOW, ALLOW | FORBID, FORBID
  | DAY_OF_WEEK, DAY_OF_WEEK | TIME, TIME | DASH, DASH => true
  | _, _ => false
  end.

(** [token_type.name]. *)
Definition name (x : t) : str :=
  match x with
  | END_INPUT => $"END_INPUT"
  | ALLOW => $"ALLOW"
  | FORBID => $"FORBID"
  | DAY_OF_WEEK => $"DAY_OF_WEEK"
  | TIME => $"TIME"
  | DASH => $"DASH"
  end.
End TokenType.

Module Position.
Record t := Build { column : Z; lineno : Z }.
End Position.

Module Token.
Record t := Build { type : TokenType.t; lexeme : str; position : Position.t }.
End Token.

Module Lexer.

Definition NL : ascii := "010"%char.

Definition HOUR_STARTS : list ascii := $"012".
Definition HOUR_ENDS : list ascii := $"0123456789".
Definition HOUR_ENDS_2X : list ascii := $"0123".
Definition MINUTE_STARTS : list ascii := $"012345".
Definition MINUTE_ENDS : list ascii := $"0123456789".
Definition DAYS_OF_WEEK : list str :=
  [ $"sunday"; $"sun"; $"monday"; $"mon"; $"tuesday"; $"tue"; $"wednesday"; $"wed";
    $"thursday"; $"thu"; $"friday"; $"fri"; $"saturday"; $"sat" ].
Definition KEYWORDS : Trie.t :=
  Trie.from_strings ([ $"allow"; $"forbid" ] ++ DAYS_OF_WEEK).

(** The lexer's fields.  [source] is what the stream has not yet handed
    out; [whitespace] is the set of whitespace characters. *)
Record t := Build {
  source : str;
  whitespace : list ascii;
  end_of_line : ascii;
  line : str;
  char : option ascii;
  lineno : Z;
  column : Z;
  token : option Token.t;
  position : option Position.t
}.

Definition set_line (self : t) (src l : str) : t :=
  Build src (whitespace self) (end_of_line self) l (char self) (lineno self)
        (column self) (token self) (position self).
Definition set_char (self : t) (c : option ascii) : t :=
  Build (source self) (whitespace self) (end_of_line self) (line self) c (lineno self)
        (column self) (token self) (position self).
Definition set_lineno (self : t) (n : Z) : t :=
  Build (source self) (whitespace self) (end_of_line self) (line self) (char self) n
        (column self) (token self) (position self).
Definition set_column (self : t) (n : Z) : t :=
  Build (source self) (whitespace self) (end_of_line self) (line self) (char self)
        (lineno self) n (token self) (position self).
Definition set_token (self : t) (tok : option Token.t) : t :=
  Build (source self) (whitespace self) (end_of_line self) (line self) (char self)
        (lineno self) (column self) tok (position self).
Definition set_position (self : t) (pos : option Position.t) : t :=
  Build (source self) (whitespace self) (end_of_line self) (line self) (char self)
        (lineno self) (column self) (token self) pos.

(** [source.readline()] on a text stream: the line with its newline, and
    the rest of the stream; the empty string at the end of the stream. *)
Fixpoint readline (src : str) : str * str :=
  match src with
  | [] => ([], [])
  | c :: rest =>
      if Ascii.eqb c NL then ([c], rest)
      else let '(l, r) := readline rest in (c :: l, r)
  end.

Definition next_char (self : t) : outcome t :=
  match line self with
  | [] => Ok (set_char (set_column self 0) None)
  | _ =>
      if column self + 1 >=? Py.len (line self) then
        Ok (set_column (set_char self (Some (end_of_line self))) (column self + 1))
      else
        let self := set_column self (column self + 1) in
        match Py.getitem (line self) (column self) with
        | Some c => Ok (set_char self (Some c))
        | None => Raise IndexError
        end
  end.

(** [Lexer(source, whitespace=..., end_of_line=...)]. *)
Definition init (src : str) (ws : list ascii) (eol : ascii) : outcome t :=
  let '(l, rest) := readline src in
  next_char (Build rest ws eol l None 0 (-1) None None).

(** [Lexer.from_string(string)] with the default keyword arguments. *)
Definition from_string (string : str) : outcome t :=
  init string [" "%char; "009"%char; "012"%char] NL.

Definition next_line (self : t) : outcome t :=
  let '(l, rest) := readline (source self) in
  let self := set_line self rest l in
  let self := set_column self (-1) in
  let self := set_lineno self (lineno self + 1) in
  next_char self.

(** [self.char in self.whitespace]; [None] is in no set of characters. *)
Definition char_is_whitespace (self : t) : bool :=
  match char self with
  | Some c => Py.char_in c (whitespace self)
  | None => false
  end.

(** [self.char == self.end_of_line]. *)
Definition char_is_end_of_line (self : t) : bool :=
  match char self with
  | Some c => Ascii.eqb c (end_of_line self)
  | None => false
  end.

Fixpoint skip_whitespace (fuel : nat) (self : t) : outcome t :=
  match fuel with
  | O => OutOfFuel
  | S fuel' =>
      if char_is_whitespace self || char_is_end_of_line self then
        if char_is_end_of_line self then
          let* self := next_line self in skip_whitespace fuel' self
        else
          let* self := next_char self in skip_whitespace fuel' self
      else Ok self
  end.

(** Fuel for the loops that read characters and tokens: more rounds than
    the characters left in the current line and in the stream allow. *)
Definition fuel_of (self : t) : nat :=
  (3 * (length (line self) + length (source self)) + 3)%nat.

Definition mark_position (self : t) : t :=
  set_position self (Some (Position.Build (column self) (lineno self))).

Definition build_error_string (self : t) (column : Z) : str :=
  let col_start := Z.max 0 (column - 39) in
  let line_part :=
    Py.rstrip (Py.slice (line self) col_start (col_start + 80)) (end_of_line self) in
  let arrow_part := Py.times " "%char (column - col_start) ++ $"^" in
  let padding := Py.times " "%char 5 in
  let error_string := padding ++ line_part in
  let error_string := error_string ++ [NL] in
  let error_string := error_string ++ padding ++ arrow_part in
  error_string.

Definition build_position_error_string (self : t) : outcome str :=
  match position self with
  | Some p => Ok (build_error_string self (Position.column p))
  | None => Raise AttributeError
  end.

(** ["expected one of: {}".format(", ".join(f"'{exp}'" for exp in expected))]. *)
Definition expected_one_of (expected : list str) : str :=
  $"expected one of: " ++ Py.join $", " expected.

Definition quoted (c : ascii) : str := $"'" ++ [c] ++ $"'".

(** The message of [unexpected_char_error]. *)
Definition unexpected_char_message (self : t) (expected : option (list ascii))
                                   (offset : Z) : str :=
  let column := column self + offset in
  let message :=
    $"missing or unexpected character in input stream on line "
    ++ Py.str_of_int (lineno self) ++ $" column " ++ Py.str_of_int column in
  let message := message ++ [NL; NL] in
  let message := message ++ build_error_string self column in
  match expected with
  | Some expected =>
      let message := message ++ [NL; NL] in
      message ++ expected_one_of (map quoted expected)
  | None => message
  end.

Definition unexpected_char_error {A} (self : t) (expected : option (list ascii))
                                 (offset : Z) : outcome A :=
  Raise (LexerError (unexpected_char_message self expected offset)).

Definition is_ascii_identifier_start (c : ascii) : bool := Py.char_in c Py.ascii_letters.
Definition is_hour_start (c : option ascii) : bool :=
  match c with Some c => Py.char_in c HOUR_STARTS | None => false end.
Definition is_hour_end (c : option ascii) (hour : option ascii) : bool :=
  match c with
  | Some c =>
      if bool_decide (hour = Some "2"%char) then Py.char_in c HOUR_ENDS_2X
      else Py.char_in c HOUR_ENDS
  | None => false
  end.
Definition is_minute_start (c : option ascii) : bool :=
  match c with Some c => Py.char_in c MINUTE_STARTS | None => false end.
Definition is_minute_end (c : option ascii) : bool :=
  match c with Some c => Py.char_in c MINUTE_ENDS | None => false end.

(** [Token(type=ty, lexeme=lexeme, position=self.position)]. *)
Definition make_token (self : t) (ty : TokenType.t) (lexeme : str) : outcome Token.t :=
  match position self with
  | Some p => Ok (Token.Build ty lexeme p)
  | None => Raise (ValueError $"validation error for Token")
  end.

(** [buffer += self.char] where either may be [None]. *)
Definition concat_chars (buffer : option str) (c : option ascii) : outcome str :=
  match buffer, c with
  | Some b, Some c => Ok (b ++ [c])
  | _, _ => Raise TypeError
  end.

Definition hour_partial (self : t) : outcome (str * t) :=
  let buffer := char self in
  let* self := next_char self in
  if negb (is_hour_end (char self) buffer) then
    let expected :=
      if bool_decide (buffer = Some "2"%char) then HOUR_ENDS_2X else HOUR_ENDS in
    unexpected_char_error self (Some expected) 0
  else
    let* buffer := concat_chars (option_map (fun c => [c]) buffer) (char self) in
    let* self := next_char self in
    Ok (buffer, self).

Definition minute_partial (self : t) : outcome (str * t) :=
  if negb (is_minute_start (char self)) then
    unexpected_char_error self (Some MINUTE_STARTS) 0
  else
    let buffer := char self in
    let* self := next_char self in
    if negb (is_minute_end (char self)) then
      unexpected_char_error self (Some MINUTE_ENDS) 0
    else
      let* buffer := concat_chars (option_map (fun c => [c]) buffer) (char self) in
      let* self := next_char self in
      Ok (buffer, self).

Definition time_token (self : t) : outcome t :=
  let* (hour_part, self) := hour_partial self in
  let* (minute_part, self) := minute_partial self in
  let lexeme := hour_part ++ minute_part in
  let* tok := make_token self TokenType.TIME lexeme in
  Ok (set_token self (Some tok)).

(** [while self.char and self.char in ascii_letters: self.next_char()]. *)
Fixpoint extract_loop (fuel : nat) (self : t) : outcome t :=
  match fuel with
  | O => OutOfFuel
  | S fuel' =>
      match char self with
      | Some c =>
          if Py.char_in c Py.ascii_letters then
            let* self := next_char self in extract_loop fuel' self
          else Ok self
      | None => Ok self
      end
  end.

Definition extract_ascii_identifier (self : t) : outcome (str * t) :=
  let start := column self in
  let* self := extract_loop (fuel_of self) self in
  Ok (Py.slice (line self) start (column self), self).

Definition allow_or_forbid_or_day_of_week_token (self : t) : outcome t :=
  let* (lexeme, self) := extract_ascii_identifier self in
  if negb (Trie.contains KEYWORDS lexeme) then
    if Trie.contains_prefix KEYWORDS lexeme then
      let expected := Trie.chars_after KEYWORDS lexeme in
      unexpected_char_error self (Some expected) 0
    else
      let max_match := Trie.max_match_for KEYWORDS lexeme in
      let offset := Py.len max_match - Py.len lexeme in
      unexpected_char_error self None offset
  else if Py.str_eqb (Py.lower lexeme) $"allow" then
    let* tok := make_token self TokenType.ALLOW lexeme in
    Ok (set_token self (Some tok))
  else if Py.str_eqb (Py.lower lexeme) $"forbid" then
    let* tok := make_token self TokenType.FORBID lexeme in
    Ok (set_token self (Some tok))
  else if Py.str_in (Py.lower lexeme) DAYS_OF_WEEK then
    let* tok := make_token self TokenType.DAY_OF_WEEK lexeme in
    Ok (set_token self (Some tok))
  else Ok self.

Definition next_token (self : t) : outcome t :=
  let self := set_token self None in
  let* self := skip_whitespace (fuel_of self) self in
  let self := mark_position self in
  let* self :=
    match char self with
    | None =>
        let* self := next_char self in
        let* tok := make_token self TokenType.END_INPUT [] in
        Ok (set_token self (Some tok))
    | Some c =>
        if is_ascii_identifier_start c then allow_or_forbid_or_day_of_week_token self
        else if is_hour_start (Some c) then time_token self
        else if Ascii.eqb c "-"%char then
          let* self := next_char self in
          let* tok := make_token self TokenType.DASH $"-" in
          Ok (set_token self (Some tok))
        else Ok self
    end in
  match token self with
  | None => unexpected_char_error self None 0
  | Some _ => Ok self
  end.

End Lexer.

(** ** parser.py *)

Module Parser.

(** [self.lexer.token.type]. *)
Definition token_type (lexer : Lexer.t) : outcome TokenType.t :=
  match Lexer.token lexer with
  | Some tok => Ok (Token.type tok)
  | None => Raise AttributeError
  end.

(** [self.lexer.token.lexeme]. *)
Definition token_lexeme (lexer : Lexer.t) : outcome str :=
  match Lexer.token lexer with
  | Some tok => Ok (Token.lexeme tok)
  | None => Raise AttributeError
  end.

Definition unexpected_token {A} (lexer : Lexer.t) (expected : list TokenType.t) : outcome A :=
  let message :=
    $"missing or unexpected token in token stream on line "
    ++ Py.str_of_int (Lexer.lineno lexer) ++ $" column "
    ++ Py.str_of_int (Lexer.column lexer) in
  let message := message ++ [Lexer.NL; Lexer.NL] in
  let* position_error_string := Lexer.build_position_error_string lexer in
  let message := message ++ position_error_string in
  let message := message ++ [Lexer.NL; Lexer.NL] in
  let message := message ++ Lexer.expected_one_of (map TokenType.name expected) in
  let message := message ++ [Lexer.NL] in
  let* ty := token_type lexer in
  let message := message ++ $"got: " ++ TokenType.name ty in
  Raise (ParserError message).

(** [dow_int_map]. *)
Definition dow_int_map : list (str * Z) :=
  [ ($"sunday", 0); ($"sun", 0); ($"monday", 1); ($"mon", 1); ($"tuesday", 2);
    ($"tue", 2); ($"wednesday", 3); ($"wed", 3); ($"thursday", 4); ($"thu", 4);
    ($"friday", 5); ($"fri", 5); ($"saturday", 6); ($"sat", 6) ].

(** [dow_int_map.get(key)]. *)
Fixpoint dict_get (d : list (str * Z)) (key : str) : option Z :=
  match d with
  | [] => None
  | (k, v) :: rest => if Py.str_eqb k key then Some v else dict_get rest key
  end.

(** The day number of a DAY_OF_WEEK lexeme.  The lexer gives that type to
    the keys of [dow_int_map] only, in any letter case; on any other
    lexeme Python would go on with [None], where this model stops with
    TypeError. *)
Definition day_of_lexeme (lexeme : str) : outcome Z :=
  match dict_get dow_int_map (Py.lower lexeme) with
  | Some d => Ok d
  | None => Raise TypeError
  end.

(** [while days[-1] != last_day: days.append(next_day); next_day = (next_day + 1) % 7]. *)
Fixpoint days_loop (fuel : nat) (days : list Z) (next_day last_day : Z)
  : outcome (list Z) :=
  match fuel with
  | O => OutOfFuel
  | S fuel' =>
      match last days with
      | None => Raise IndexError
      | Some d =>
          if negb (d =? last_day)
          then days_loop fuel' (days ++ [next_day]) ((next_day + 1) mod 7) last_day
          else Ok days
      end
  end.

Definition parse_days (lexer : Lexer.t) : outcome (list Z * Lexer.t) :=
  let* ty := token_type lexer in
  if negb (TokenType.eqb ty TokenType.DAY_OF_WEEK) then
    unexpected_token lexer [TokenType.DAY_OF_WEEK]
  else
    let* lexeme := token_lexeme lexer in
    let* first_day := day_of_lexeme lexeme in
    let days := [first_day] in
    let* lexer := Lexer.next_token lexer in
    let* ty := token_type lexer in
    if TokenType.eqb ty TokenType.DASH then
      let* lexer := Lexer.next_token lexer in
      let* ty := token_type lexer in
      if negb (TokenType.eqb ty TokenType.DAY_OF_WEEK) then
        unexpected_token lexer [TokenType.DAY_OF_WEEK]
      else
        let* lexeme := token_lexeme lexer in
        let* last_day := day_of_lexeme lexeme in
        let* lexer := Lexer.next_token lexer in
        let next_day := (first_day + 1) mod 7 in
        let* days := days_loop 7 days next_day last_day in
        Ok (days, lexer)
    else Ok (days, lexer).

Definition parse_interval (lexer : Lexer.t) : outcome (Interval.t * Lexer.t) :=
  let* ty := token_type lexer in
  if TokenType.eqb ty TokenType.TIME then
    let* lexeme := token_lexeme lexer in
    let* start := Time.from_string lexeme in
    let* lexer := Lexer.next_token lexer in
    let* ty := token_type lexer in
    if TokenType.eqb ty TokenType.DASH then
      let* lexer := Lexer.next_token lexer in
      let* ty := token_type lexer in
      if negb (TokenType.eqb ty TokenType.TIME) then
        unexpected_token lexer [TokenType.TIME]
      else
        let* lexeme := token_lexeme lexer in
        let* end_ := Time.from_string lexeme in
        let* lexer := Lexer.next_token lexer in
        Ok (Interval.Build start end_, lexer)
    else
      let end_ := Time.end_of_day in
      Ok (Interval.Build start end_, lexer)
  else if TokenType.eqb ty TokenType.DASH then
    let* lexer := Lexer.next_token lexer in
    let* ty := token_type lexer in
    if negb (TokenType.eqb ty TokenType.TIME) then
      unexpected_token lexer [TokenType.TIME]
    else
      let start := Time.start_of_day in
      let* lexeme := token_lexeme lexer in
      let* end_ := Time.from_string lexeme in
      let* lexer := Lexer.next_token lexer in
      Ok (Interval.Build start end_, lexer)
  else unexpected_token lexer [TokenType.TIME; TokenType.DASH].

(** The loop of [parse_intervals]. *)
Fixpoint parse_intervals_loop (fuel : nat) (intervals : list Interval.t) (lexer : Lexer.t)
  : outcome (list Interval.t * Lexer.t) :=
  match fuel with
  | O => OutOfFuel
  | S fuel' =>
      let* ty := token_type lexer in
      if TokenType.eqb ty TokenType.TIME || TokenType.eqb ty TokenType.DASH then
        let* (interval, lexer) := parse_interval lexer in
        parse_intervals_loop fuel' (intervals ++ [interval]) lexer
      else Ok (intervals, lexer)
  end.

Definition parse_intervals (lexer : Lexer.t) : outcome (list Interval.t * Lexer.t) :=
  let intervals := [] in
  let* (interval, lexer) := parse_interval lexer in
  let intervals := intervals ++ [interval] in
  parse_intervals_loop (Lexer.fuel_of lexer) intervals lexer.

Definition parse_agenda (lexer : Lexer.t) : outcome (Agenda.t * Lexer.t) :=
  let* ty := token_type lexer in
  if TokenType.eqb ty TokenType.ALLOW then
    let* lexer := Lexer.next_token lexer in
    let* (intervals, lexer) := parse_intervals lexer in
    Ok (Agenda.Build intervals Directive.ALLOW, lexer)
  else if TokenType.eqb ty TokenType.FORBID then
    let* lexer := Lexer.next_token lexer in
    let* (intervals, lexer) := parse_intervals lexer in
    Ok (Agenda.Build intervals Directive.FORBID, lexer)
  else unexpected_token lexer [TokenType.ALLOW; TokenType.FORBID].

(** The loop of [parse_agendas]. *)
Fixpoint parse_agendas_loop (fuel : nat) (agendas : list Agenda.t) (lexer : Lexer.t)
  : outcome (list Agenda.t * Lexer.t) :=
  match fuel with
  | O => OutOfFuel
  | S fuel' =>
      let* ty := token_type lexer in
      if existsb (TokenType.eqb ty) [TokenType.ALLOW; TokenType.FORBID] then
        let* (agenda, lexer) := parse_agenda lexer in
        parse_agendas_loop fuel' (agendas ++ [agenda]) lexer
      else Ok (agendas, lexer)
  end.

Definition parse_agendas (lexer : Lexer.t) : outcome (list Agenda.t * Lexer.t) :=
  let agendas := [] in
  let* (agenda, lexer) := parse_agenda lexer in
  let agendas := agendas ++ [agenda] in
  parse_agendas_loop (Lexer.fuel_of lexer) agendas lexer.

(** The loop of [parse_schedule]. *)
Fixpoint parse_schedule_loop (fuel : nat) (schedule : Schedule.t) (lexer : Lexer.t)
  : outcome (Schedule.t * Lexer.t) :=
  match fuel with
  | O => OutOfFuel
  | S fuel' =>
      let* ty := token_type lexer in
      if TokenType.eqb ty TokenType.DAY_OF_WEEK then
        let* (days, lexer) := parse_days lexer in
        let* (agendas, lexer) := parse_agendas lexer in
        let* schedule := Schedule.add_agendas_on_days schedule agendas days in
        parse_schedule_loop fuel' schedule lexer
      else Ok (schedule, lexer)
  end.

Section Parse.
(** [pendulum.local_timezone().name], the zone of a new Schedule. *)
Context (local_timezone : str).

Definition parse_schedule (lexer : Lexer.t) : outcome (Schedule.t * Lexer.t) :=
  let schedule := Schedule.new local_timezone in
  let* (days, lexer) := parse_days lexer in
  let* (agendas, lexer) := parse_agendas lexer in
  let* schedule := Schedule.add_agendas_on_days schedule agendas days in
  parse_schedule_loop (Lexer.fuel_of lexer) schedule lexer.

Definition parse (lexer : Lexer.t) : outcome (Schedule.t * Lexer.t) :=
  let* lexer := Lexer.next_token lexer in
  parse_schedule lexer.
End Parse.

End Parser.

(** ** __init__.py *)

(** [from_dsl(string, tz)]; [local_timezone] is the zone that [Schedule()]
    gives the schedule before [schedule.tz = tz]. *)
Definition from_dsl (local_timezone : str) (string : str) (tz : str) : outcome Schedule.t :=
  let* lexer := Lexer.from_string string in
  let* (schedule, _) := Parser.parse local_timezone lexer in
  Ok (Schedule.Build (Schedule.allowed schedule) (Schedule.forbidden schedule) tz).

(** ** Definitions that follow the words of the specification *)

(** A moment in UTC: [h:mi] on the [day]-th day after the reference Sunday,
    so that [moment_at 0 h mi] is a Sunday and [moment_at 7 h mi] the Sunday
    of the following week. *)
Definition moment_at (day h mi : Z) : pendulum.DateTime :=
  pendulum.Build (day * pendulum.US_PER_DAY + h * pendulum.US_PER_HOUR
                  + mi * pendulum.US_PER_MINUTE) pendulum.UTC.

(** The time of day [t] on the date [k] days after the date of [m], in the
    zone of [m]. *)
Definition occurrence (m : pendulum.DateTime) (k : Z) (t : Time.t) : pendulum.DateTime :=
  pendulum.of_wall ((pendulum.day_number m + k) * pendulum.US_PER_DAY
                    + Time.hour t * pendulum.US_PER_HOUR
                    + Time.minute t * pendulum.US_PER_MINUTE)
                   (pendulum.tz m).

(** The candidates of [next_moment_allowed_after] for the moment [m], already
    in the schedule's zone: the moment itself, the next start of every
    allowed WeekdayInterval, the next end of every forbidden one. *)
Definition is_candidate (s : Schedule.t) (m c : pendulum.DateTime) : Prop :=
  c = m
  \/ (exists w, In w (Schedule.allowed s) /\ WeekdayInterval.next_start_after w m = Ok c)
  \/ (exists w, In w (Schedule.forbidden s) /\ WeekdayInterval.next_end_after w m = Ok c).

(** The message of the schedule-evaluation error. *)
Definition no_allowed_intervals : exn :=
  ScheduleError $"no allowed intervals in the schedule".

(** One WeekdayInterval per pair of an interval and a day, the interval
    varying slowest. *)
Definition weekday_intervals_of (intervals : list Interval.t) (days : list Z)
  : list WeekdayInterval.t :=
  flat_map (fun i => map (fun d => WeekdayInterval.Build d i) days) intervals.

(** The character that the lexer reads [k] positions after the current
    one: nothing at the end of the stream, the end-of-line character past
    the end of the line. *)
Definition lookahead (lexer : Lexer.t) (k : Z) : option ascii :=
  match Lexer.line lexer with
  | [] => None
  | _ =>
      if Lexer.column lexer + k >=? Py.len (Lexer.line lexer)
      then Some (Lexer.end_of_line lexer)
      else Py.getitem (Lexer.line lexer) (Lexer.column lexer + k)
  end.

(** [c] is a decimal digit between 0 and [hi]. *)
Definition digit_upto (hi : Z) (c : option ascii) : bool :=
  match c with
  | Some d => (48 <=? Py.code d) && (Py.code d <=? 48 + hi)
  | None => false
  end.

(** The days from [first] to [last] inclusive, each the successor modulo 7
    of the one before. *)
Definition day_range (first last : Z) : list Z :=
  map (fun i => (first + Z.of_nat i) mod 7) (seq 0 (S (Z.to_nat ((last - first) mod 7)))).

(** The lexer on [string], after its first [next_token]. *)
Definition lexer_on (string : str) : outcome Lexer.t :=
  let* lexer := Lexer.from_string string in
  Lexer.next_token lexer.

(** The text of the schedule of the specification's example. *)
Definition example_dsl : str :=
  $"sunday allow 0000" ++ [Lexer.NL]
  ++ $"monday-friday allow 0000 forbid 0800-2000" ++ [Lexer.NL]
  ++ $"saturday allow -1400".

(** The lexer that an outcome holds, for the examples. *)
Definition lexer_of (o : outcome Lexer.t) : Lexer.t :=
  match o with
  | Ok lexer => lexer
  | _ => Lexer.Build [] [] Lexer.NL [] None 0 0 None None
  end.

(** The lexer on [string] after [n] more tokens than the first. *)
Fixpoint lexer_after (n : nat) (string : str) : Lexer.t :=
  match n with
  | O => lexer_of (lexer_on string)
  | S n' => lexer_of (Lexer.next_token (lexer_after n' string))
  end.

(** [parse_days] on the text [string]: the days, and the type of the token
    that follows them. *)
Definition parse_days_of (string : str) : outcome (list Z * TokenType.t) :=
  let* lexer := lexer_on string in
  let* (days, lexer) := Parser.parse_days lexer in
  let* ty := Parser.token_type lexer in
  Ok (days, ty).

(** What [skip_whitespace] has left to do: a bound on its rounds, from the
    characters of the stream not yet read, those of the line after the current
    column, and whether the current character is the end of a line. *)
Definition skip_measure (lexer : Lexer.t) : nat :=
  (3 * length (Lexer.source lexer)
   + match Lexer.line lexer with
     | [] => 0
     | _ => Z.to_nat (Py.len (Lexer.line lexer) - Lexer.column lexer)
     end
   + if Lexer.char_is_end_of_line lexer then 0 else 1)%nat.

(** ** Notions of the further properties *)

(** The minutes elapsed on the wall clock of [dt] since the reference
    midnight, and the minute of the week: 0 at Sunday 00:00, 10079 at
    Saturday 23:59. *)
Definition minute_index (dt : pendulum.DateTime) : Z :=
  pendulum.wall dt / pendulum.US_PER_MINUTE.

Definition minute_of_week (dt : pendulum.DateTime) : Z := minute_index dt mod 10080.

(** The minutes of the week in which a WeekdayInterval starts and ends. *)
Definition first_minute (w : WeekdayInterval.t) : Z :=
  1440 * WeekdayInterval.day_of_week w
  + 60 * Time.hour (Interval.start (WeekdayInterval.interval w))
  + Time.minute (Interval.start (WeekdayInterval.interval w)).

Definition last_minute (w : WeekdayInterval.t) : Z :=
  1440 * WeekdayInterval.day_of_week w
  + 60 * Time.hour (Interval.end_ (WeekdayInterval.interval w))
  + Time.minute (Interval.end_ (WeekdayInterval.interval w)).

(** A WeekdayInterval that does not end before it starts, and a schedule
    of such WeekdayIntervals. *)
Definition ordered_interval (w : WeekdayInterval.t) : bool :=
  first_minute w <=? last_minute w.

Definition ordered_schedule (s : Schedule.t) : bool :=
  forallb ordered_interval (Schedule.allowed s)
  && forallb ordered_interval (Schedule.forbidden s).

(** The minute of index [k] lies between the first and the last minute of
    [w]; a schedule allows it when an allowed WeekdayInterval covers it and
    no forbidden one does. *)
Definition covers (w : WeekdayInterval.t) (k : Z) : bool :=
  (first_minute w <=? k mod 10080) && (k mod 10080 <=? last_minute w).

Definition allowed_minute (s : Schedule.t) (k : Z) : bool :=
  existsb (fun w => covers w k) (Schedule.allowed s)
  && negb (existsb (fun w => covers w k) (Schedule.forbidden s)).

(** The WeekdayIntervals that the agendas of one directive give on the
    days [days], in the order of the agendas. *)
Definition agenda_weekday_intervals (directive : Directive.t) (agendas : list Agenda.t)
    (days : list Z) : list WeekdayInterval.t :=
  flat_map (fun agenda =>
              match directive, Agenda.directive agenda with
              | Directive.ALLOW, Directive.ALLOW | Directive.FORBID, Directive.FORBID =>
                  weekday_intervals_of (Agenda.intervals agenda) days
              | _, _ => []
              end) agendas.

(** The end-of-line character is none of the characters of a token: not
    a letter, not a digit, not the dash. *)
Definition eol_ok (c : ascii) : bool :=
  negb (Py.char_in c Py.ascii_letters) && negb (Py.char_in c Lexer.HOUR_ENDS)
  && negb (Ascii.eqb c "-"%char).

(** What holds of a lexer between two calls of its methods: the current
    character is the one at the current column, and the current line is
    empty only at the end of the stream. *)
Definition lexer_ok (lexer : Lexer.t) : Prop :=
  eol_ok (Lexer.end_of_line lexer) = true
  /\ 0 <= Lexer.column lexer
  /\ Lexer.char lexer = lookahead lexer 0
  /\ (Lexer.line lexer = [] -> Lexer.source lexer = []).

(** The characters that the lexer has not passed yet: those of the stream
    and those of the current line from the current column on, the end of
    the line counting for one. *)
Definition remaining (lexer : Lexer.t) : nat :=
  (length (Lexer.source lexer)
   + match Lexer.line lexer with
     | [] => 0
     | _ => Z.to_nat (Py.len (Lexer.line lexer) - Lexer.column lexer) + 1
     end)%nat.

(** The current token is END_INPUT. *)
Definition token_is_end (lexer : Lexer.t) : bool :=
  match Lexer.token lexer with
  | Some tok => TokenType.eqb (Token.type tok) TokenType.END_INPUT
  | None => false
  end.

(** The tokens that the parser has not consumed yet, at most: the current
    one unless it is END_INPUT, and one per character not passed. *)
Definition pending (lexer : Lexer.t) : nat :=
  (remaining lexer + if token_is_end lexer then 0 else 1)%nat.

(** The lexer holds a token and its position; the lexeme of a TIME token
    is a time of day, that of a DAY_OF_WEEK token a day. *)
Definition token_ok (lexer : Lexer.t) : Prop :=
  exists tok pos,
    Lexer.token lexer = Some tok
    /\ Lexer.position lexer = Some pos
    /\ (Token.type tok = TokenType.TIME ->
        exists t, Time.from_string (Token.lexeme tok) = Ok t /\ Time.valid t = true)
    /\ (Token.type tok = TokenType.DAY_OF_WEEK ->
        exists d, Parser.day_of_lexeme (Token.lexeme tok) = Ok d /\ 0 <= d <= 6)
    /\ (Token.type tok = TokenType.END_INPUT -> remaining lexer = 0%nat).

(** The type of the current token is one of [types]. *)
Definition token_type_in (lexer : Lexer.t) (types : list TokenType.t) : bool :=
  match Lexer.token lexer with
  | Some tok => existsb (TokenType.eqb (Token.type tok)) types
  | None => false
  end.

(** An agenda as the parser builds it: some intervals, all of times of
    day. *)
Definition agenda_ok (agenda : Agenda.t) : Prop :=
  Agenda.intervals agenda <> []
  /\ Forall (fun i => Interval.valid i = true) (Agenda.intervals agenda).

(** The outcome is a lexical error or a syntax error. *)
Definition dsl_error {A} (o : outcome A) : Prop :=
  (exists message, o = Raise (LexerError message))
  \/ (exists message, o = Raise (ParserError message)).

(** The outcome of a method of the parser: a value that satisfies [post]
    with a lexer in order that holds a token, or an error of the DSL. *)
Definition parsed {A} (post : A -> Lexer.t -> Prop) (o : outcome (A * Lexer.t)) : Prop :=
  (exists a l, o = Ok (a, l) /\ lexer_ok l /\ token_ok l /\ post a l) \/ dsl_error o.

(** A character that [skip_whitespace] passes with the default settings:
    a space, a tab, a form feed or a newline. *)
Definition is_blank (c : ascii) : bool :=
  Py.char_in c [" "%char; "009"%char; "012"%char] || Ascii.eqb c Lexer.NL.

(** The lexer, made by [from_string], has the text [text] left to read:
    the rest of the current line from the current column on, and what is
    left in the stream. *)
Definition at_text (lexer : Lexer.t) (text : str) : Prop :=
  lexer_ok lexer
  /\ Lexer.end_of_line lexer = Lexer.NL
  /\ Lexer.whitespace lexer = [" "%char; "009"%char; "012"%char]
  /\ exists pre,
       Lexer.line lexer = pre ++ (Lexer.readline text).1
       /\ (Lexer.line lexer <> [] -> Lexer.column lexer = Py.len pre)
       /\ Lexer.source lexer = (Lexer.readline text).2.

(** The text is empty or starts with a character that is no letter. *)
Definition no_letter_ahead (text : str) : Prop :=
  match text with
  | [] => True
  | c :: _ => Py.char_in c Py.ascii_letters = false
  end.

(** The type that the lexer gives a keyword, from its lower-case form. *)
Definition keyword_type (word : str) : option TokenType.t :=
  if Py.str_eqb word $"allow" then Some TokenType.ALLOW
  else if Py.str_eqb word $"forbid" then Some TokenType.FORBID
  else if Py.str_in word Lexer.DAYS_OF_WEEK then Some TokenType.DAY_OF_WEEK
  else None.

(** *** The text of a schedule *)

(** The decimal digit [n]. *)
Definition digit (n : Z) : ascii := ascii_of_N (Z.to_N (48 + n)).

(** A time of day as the DSL writes it: HHMM. *)
Definition time_text (t : Time.t) : str :=
  [digit (Time.hour t / 10); digit (Time.hour t mod 10);
   digit (Time.minute t / 10); digit (Time.minute t mod 10)].

(** The name of the day number [d]. *)
Definition day_name (d : Z) : str :=
  nth (Z.to_nat d)
      [$"sunday"; $"monday"; $"tuesday"; $"wednesday"; $"thursday"; $"friday"; $"saturday"]
      [].

(** The days of a group of agendas are one day, or the range from a
    first day to a last. *)
Definition group_days (days : Z * option Z) : list Z :=
  match days with
  | (d, None) => [d]
  | (d, Some e) => day_range d e
  end.

(** A token to write, with the blanks to write in front of it. *)
Definition interval_tokens (i : Interval.t) : list (str * (TokenType.t * str)) :=
  [($" ", (TokenType.TIME, time_text (Interval.start i)));
   ([], (TokenType.DASH, $"-"));
   ([], (TokenType.TIME, time_text (Interval.end_ i)))].

Definition directive_token (d : Directive.t) : TokenType.t * str :=
  match d with
  | Directive.ALLOW => (TokenType.ALLOW, $"allow")
  | Directive.FORBID => (TokenType.FORBID, $"forbid")
  end.

Definition agenda_tokens (a : Agenda.t) : list (str * (TokenType.t * str)) :=
  ($" ", directive_token (Agenda.directive a)) :: flat_map interval_tokens (Agenda.intervals a).

Definition days_tokens (sep : str) (days : Z * option Z) : list (str * (TokenType.t * str)) :=
  match days with
  | (d, None) => [(sep, (TokenType.DAY_OF_WEEK, day_name d))]
  | (d, Some e) =>
      [(sep, (TokenType.DAY_OF_WEEK, day_name d));
       ([], (TokenType.DASH, $"-"));
       ([], (TokenType.DAY_OF_WEEK, day_name e))]
  end.

Definition group_tokens (sep : str) (g : (Z * option Z) * list Agenda.t)
  : list (str * (TokenType.t * str)) :=
  days_tokens sep g.1 ++ flat_map agenda_tokens g.2.

(** The tokens of a schedule: one group of days and agendas per line. *)
Definition schedule_tokens (groups : list ((Z * option Z) * list Agenda.t))
  : list (str * (TokenType.t * str)) :=
  match groups with
  | [] => []
  | g :: rest => group_tokens [] g ++ flat_map (group_tokens [Lexer.NL]) rest
  end.

(** The text of a list of tokens, and of a schedule: every interval is
    written HHMM-HHMM, every day by its full name. *)
Definition render (toks : list (str * (TokenType.t * str))) : str :=
  flat_map (fun t => t.1 ++ t.2.2) toks.

Definition unparse (groups : list ((Z * option Z) * list Agenda.t)) : str :=
  render (schedule_tokens groups).

(** The schedule that the groups describe. *)
Definition schedule_of (tz : str) (groups : list ((Z * option Z) * list Agenda.t))
  : Schedule.t :=
  Schedule.Build
    (flat_map (fun g => agenda_weekday_intervals Directive.ALLOW g.2 (group_days g.1)) groups)
    (flat_map (fun g => agenda_weekday_intervals Directive.FORBID g.2 (group_days g.1)) groups)
    tz.

(** A group that can be written: days of the week, and some agendas, each
    of some intervals of times of day. *)
Definition days_ok (days : Z * option Z) : Prop :=
  0 <= days.1 <= 6 /\ match days.2 with Some e => 0 <= e <= 6 | None => True end.

Definition group_ok (g : (Z * option Z) * list Agenda.t) : Prop :=
  days_ok g.1 /\ g.2 <> [] /\ Forall agenda_ok g.2.

(** The type of the first of the tokens, END_INPUT when there is none. *)
Definition head_type (toks : list (TokenType.t * str)) : TokenType.t :=
  match toks with
  | [] => TokenType.END_INPUT
  | (ty, _) :: _ => ty
  end.

(** The lexer holds the first of the tokens and gives the others, one
    after the other, and END_INPUT after the last. *)
Fixpoint stream (toks : list (TokenType.t * str)) (l : Lexer.t) : Prop :=
  match toks with
  | [] => Parser.token_type l = Ok TokenType.END_INPUT
  | (ty, lexeme) :: rest =>
      Parser.token_type l = Ok ty
      /\ Parser.token_lexeme l = Ok lexeme
      /\ exists l', Lexer.next_token l = Ok l' /\ stream rest l'
  end.

(** The lexer reads the token [t] with its blanks when the text [after]
    follows. *)
Definition lexable (t : str * (TokenType.t * str)) (after : str) : Prop :=
  Forall (fun c => is_blank c = true) t.1
  /\ match t.2.1 with
     | TokenType.ALLOW | TokenType.FORBID | TokenType.DAY_OF_WEEK =>
         t.2.2 <> []
         /\ Forall (fun c => Py.char_in c Py.ascii_letters = true) t.2.2
         /\ keyword_type (Py.lower t.2.2) = Some t.2.1
         /\ no_letter_ahead after
     | TokenType.TIME =>
         exists c1 c2 c3 c4,
           t.2.2 = [c1; c2; c3; c4]
           /\ Py.char_in c1 Lexer.HOUR_STARTS = true
           /\ Lexer.is_hour_end (Some c2) (Some c1) = true
           /\ Lexer.is_minute_start (Some c3) = true
           /\ Lexer.is_minute_end (Some c4) = true
     | TokenType.DASH => t.2.2 = $"-"
     | TokenType.END_INPUT => False
     end.

Fixpoint all_lexable (toks : list (str * (TokenType.t * str))) (after : str) : Prop :=
  match toks with
  | [] => True
  | t :: rest => lexable t (render rest ++ after) /\ all_lexable rest after
  end.

(** *** Zones and the wall clock *)

(** The transitions of a zone whose new clock starts after the reading [w]. *)
Definition ahead (z : pendulum.Timezone) (w : Z) : list (Z * Z) :=
  List.filter (fun p => w <? fst p + snd p) (pendulum.transitions z).

(** The zone of [dt] skips none of the readings of the wall clock of [dt]
    on the [k] dates that follow its date: [j] days added to [dt] are [j]
    times 24 hours on the wall clock. *)
Definition steady_days (dt : pendulum.DateTime) (k : Z) : Prop :=
  forall j, 0 <= j <= k ->
    pendulum.wall (pendulum.add_days dt j) = pendulum.wall dt + j * pendulum.US_PER_DAY.

(** The reading of the wall clock at the time of day [t] on the date [k]
    days after the date of [m]. *)
Definition reading (m : pendulum.DateTime) (k : Z) (t : Time.t) : Z :=
  (pendulum.day_number m + k) * pendulum.US_PER_DAY
  + Time.hour t * pendulum.US_PER_HOUR
  + Time.minute t * pendulum.US_PER_MINUTE.

(** The zone [z] has no transition from the instant [lo] to the instant
    [hi]. *)
Definition quiet (z : pendulum.Timezone) (lo hi : Z) : bool :=
  forallb (fun p => (fst p <? lo) || (hi <? fst p)) (pendulum.transitions z).

(** The zone of [dt] has no transition from three days before [dt] to
    eleven days after it: the clocks of the zone are neither set forward nor
    set back in the days that a search from [dt] looks at.  A zone without
    transitions is calm at every moment. *)
Definition calm (dt : pendulum.DateTime) : bool :=
  quiet (pendulum.tz dt) (pendulum.timestamp dt - 3 * pendulum.US_PER_DAY)
        (pendulum.timestamp dt + 11 * pendulum.US_PER_DAY).

(** The zone America/New_York in 2017, counted from the reference Sunday
    2017-01-01: five hours behind UTC; four hours behind from 2017-03-12
    07:00 UTC, when its clocks go from 02:00 to 03:00; five hours behind
    again from 2017-11-05 06:00 UTC, when they go from 02:00 back to 01:00. *)
Definition America_New_York : pendulum.Timezone :=
  pendulum.Zone (-5 * pendulum.US_PER_HOUR)
    [(70 * pendulum.US_PER_DAY + 7 * pendulum.US_PER_HOUR, -4 * pendulum.US_PER_HOUR);
     (308 * pendulum.US_PER_DAY + 6 * pendulum.US_PER_HOUR, -5 * pendulum.US_PER_HOUR)]
    eq_refl.

(** [h:mi] on the [day]-th day after the reference Sunday, on the clocks of
    New York. *)
Definition new_york_at (day h mi : Z) : pendulum.DateTime :=
  pendulum.of_wall (day * pendulum.US_PER_DAY + h * pendulum.US_PER_HOUR
                    + mi * pendulum.US_PER_MINUTE) America_New_York.

(** * Properties *)

(** ** The calendar *)

Lemma us_per_day_eq : pendulum.US_PER_DAY = 24 * pendulum.US_PER_HOUR.
Proof. reflexivity. Qed.

Lemma us_per_hour_eq : pendulum.US_PER_HOUR = 60 * pendulum.US_PER_MINUTE.
Proof. reflexivity. Qed.

(** *** Zones *)

(** What a regular zone is, transition by transition: the offsets are
    within a day of UTC, and the transitions after the first are at least
    two days after it. *)
Lemma regular_from_eq off trs :
  pendulum.regular_from off trs
  = (- pendulum.US_PER_DAY <=? off) && (off <=? pendulum.US_PER_DAY)
    && match trs with
       | [] => true
       | (instant, off') :: rest =>
           match rest with
           | [] => true
           | (instant', _) :: _ => instant + 2 * pendulum.US_PER_DAY <=? instant'
           end
           && pendulum.regular_from off' rest
       end.
Proof. destruct trs; reflexivity. Qed.

Lemma regular_from_cons off instant off' rest :
  pendulum.regular_from off ((instant, off') :: rest) = true ->
  - pendulum.US_PER_DAY <= off <= pendulum.US_PER_DAY
  /\ - pendulum.US_PER_DAY <= off' <= pendulum.US_PER_DAY
  /\ pendulum.regular_from off' rest = true
  /\ Forall (fun p => instant + 2 * pendulum.US_PER_DAY <= fst p
                      /\ - pendulum.US_PER_DAY <= snd p <= pendulum.US_PER_DAY) rest.
Proof.
  revert off instant off'.
  induction rest as [|[instant' off''] rest IH]; intros off instant off' H;
    rewrite regular_from_eq in H;
    apply andb_true_iff in H as [Hoff H]; apply andb_true_iff in H as [Hgap H];
    rewrite andb_true_iff, !Z.leb_le in Hoff.
  - pose proof H as H'. rewrite regular_from_eq, andb_true_r, andb_true_iff, !Z.leb_le in H'.
    split; [lia|]. split; [lia|]. split; [exact H | constructor].
  - apply Z.leb_le in Hgap.
    destruct (IH _ _ _ H) as (Hoff' & Hoff'' & Hreg & Hall).
    split; [lia|]. split; [lia|]. split; [exact H|].
    constructor; [cbn [fst snd]; lia|].
    eapply Forall_impl; [exact Hall|]. cbn beta. unfold pendulum.US_PER_DAY. intros p Hp. lia.
Qed.

Lemma offset_from_before off trs ts :
  Forall (fun p => ts < fst p) trs -> pendulum.offset_from off trs ts = off.
Proof.
  destruct trs as [|[instant off'] rest]; [reflexivity|].
  intros H. inversion H as [|? ? Hlt _]; subst. cbn [fst] in Hlt. cbn.
  apply Z.ltb_lt in Hlt. rewrite Hlt. reflexivity.
Qed.

(** The instant of a reading is not before a bound that the reading, on
    the first clock, and every transition respect. *)
Lemma instant_from_lower trs : forall off w lb,
  lb <= w - off -> Forall (fun p => lb <= fst p) trs ->
  lb <= pendulum.instant_from off trs w.
Proof.
  induction trs as [|[instant off'] rest IH]; intros off w lb Hw Hall; cbn; [exact Hw|].
  inversion Hall as [|? ? Hhead Hrest]; subst. cbn [fst] in Hhead.
  destruct (Z.ltb_spec w (instant + off')); [exact Hw|].
  apply IH; [lia | exact Hrest].
Qed.

(** The reading at an instant is not before a bound that the instant, on
    the first clock, and the new clock at every transition respect. *)
Lemma offset_from_lower trs : forall off ts lb,
  lb <= ts + off -> Forall (fun p => lb <= fst p + snd p) trs ->
  lb <= ts + pendulum.offset_from off trs ts.
Proof.
  induction trs as [|[instant off'] rest IH]; intros off ts lb Hts Hall; cbn; [exact Hts|].
  inversion Hall as [|? ? Hhead Hrest]; subst. cbn [fst snd] in Hhead.
  destruct (Z.ltb_spec ts instant); [exact Hts|].
  apply IH; [lia | exact Hrest].
Qed.

(** In a regular zone the instant of a reading is the last one with that
    reading: no instant whose reading is at most [w] comes after it. *)
Lemma instant_from_last trs : forall off ts w,
  pendulum.regular_from off trs = true ->
  ts + pendulum.offset_from off trs ts <= w ->
  ts <= pendulum.instant_from off trs w.
Proof.
  induction trs as [|[instant off'] rest IH]; intros off ts w Hreg Hle; cbn in *; [lia|].
  destruct (regular_from_cons _ _ _ _ Hreg) as (Hoff & Hoff' & Hreg' & Hall).
  destruct (Z.ltb_spec ts instant) as [Hts|Hts], (Z.ltb_spec w (instant + off')) as [Hw|Hw].
  - lia.
  - assert (instant <= pendulum.instant_from off' rest w); [| lia].
    apply instant_from_lower; [lia|].
    eapply Forall_impl; [exact Hall|]. cbn beta. unfold pendulum.US_PER_DAY. intros p Hp. lia.
  - exfalso.
    assert (instant + off' <= ts + pendulum.offset_from off' rest ts); [| lia].
    apply offset_from_lower; [lia|].
    eapply Forall_impl; [exact Hall|]. cbn beta. unfold pendulum.US_PER_DAY in *.
    intros p Hp. lia.
  - apply IH; assumption.
Qed.

(** In a regular zone the clock shows, at the instant of a reading, that
    reading, unless the reading was skipped at a transition: then it shows
    a later one, past the skipped readings. *)
Lemma instant_from_reading trs : forall off w,
  pendulum.regular_from off trs = true ->
  let ts := pendulum.instant_from off trs w in
  ts + pendulum.offset_from off trs ts = w
  \/ exists p, In p trs /\ w < fst p + snd p <= ts + pendulum.offset_from off trs ts.
Proof.
  induction trs as [|[instant off'] rest IH]; intros off w Hreg; cbn zeta.
  - left. cbn. lia.
  - destruct (regular_from_cons _ _ _ _ Hreg) as (Hoff & Hoff' & Hreg' & Hall).
    cbn [pendulum.instant_from].
    destruct (Z.ltb_spec w (instant + off')) as [Hw|Hw].
    + cbn [pendulum.offset_from].
      destruct (Z.ltb_spec (w - off) instant) as [Hts|Hts]; [left; lia|].
      rewrite offset_from_before.
      * right. exists (instant, off'). split; [left; reflexivity|]. cbn [fst snd]. lia.
      * eapply Forall_impl; [exact Hall|]. cbn beta. unfold pendulum.US_PER_DAY in *.
        intros p Hp. lia.
    + assert (Hlb : instant <= pendulum.instant_from off' rest w).
      { apply instant_from_lower; [lia|].
        eapply Forall_impl; [exact Hall|]. cbn beta. unfold pendulum.US_PER_DAY.
        intros p Hp. lia. }
      cbn [pendulum.offset_from].
      destruct (Z.ltb_spec (pendulum.instant_from off' rest w) instant); [lia|].
      destruct (IH off' w Hreg') as [Heq | (p & Hp & Hgap)]; [left; exact Heq|].
      right. exists p. split; [right; exact Hp | exact Hgap].
Qed.

Lemma ahead_length z w : (length (ahead z w) <= length (pendulum.transitions z))%nat.
Proof. apply filter_length_le. Qed.

Lemma day_of_week_range dt : 0 <= pendulum.day_of_week dt <= 6.
Proof. unfold pendulum.day_of_week. pose proof (Z.mod_pos_bound (pendulum.day_number dt) 7). lia. Qed.

(** The clock of the zone shows, at the instant that a reading becomes,
    that reading or, when the zone skips it, a later one. *)
Lemma wall_of_wall w z : w <= pendulum.wall (pendulum.of_wall w z).
Proof.
  destruct z as [off trs Hreg]. unfold pendulum.wall, pendulum.utcoffset, pendulum.of_wall.
  cbn [pendulum.timestamp pendulum.tz pendulum.initial pendulum.transitions].
  destruct (instant_from_reading trs off w Hreg) as [H | (p & _ & H)]; lia.
Qed.

Lemma wall_of_wall_cases w z :
  pendulum.wall (pendulum.of_wall w z) = w
  \/ exists p, In p (pendulum.transitions z)
               /\ w < fst p + snd p <= pendulum.wall (pendulum.of_wall w z).
Proof.
  destruct z as [off trs Hreg]. unfold pendulum.wall, pendulum.utcoffset, pendulum.of_wall.
  cbn [pendulum.timestamp pendulum.tz pendulum.initial pendulum.transitions].
  exact (instant_from_reading trs off w Hreg).
Qed.

(** The instant that a reading becomes is not before any instant of the
    zone at which the clock shows that reading or an earlier one. *)
Lemma of_wall_not_before dt w :
  pendulum.wall dt <= w ->
  pendulum.timestamp dt <= pendulum.timestamp (pendulum.of_wall w (pendulum.tz dt)).
Proof.
  destruct dt as [ts [off trs Hreg]]. unfold pendulum.wall, pendulum.utcoffset, pendulum.of_wall.
  cbn [pendulum.timestamp pendulum.tz pendulum.initial pendulum.transitions].
  apply instant_from_last, Hreg.
Qed.

(** After the instant of a reading the clock shows later readings. *)
Lemma wall_after dt w :
  pendulum.timestamp (pendulum.of_wall w (pendulum.tz dt)) < pendulum.timestamp dt ->
  w < pendulum.wall dt.
Proof.
  intros Hlt. destruct (Z_lt_le_dec w (pendulum.wall dt)) as [H|H]; [exact H|].
  apply of_wall_not_before in H. lia.
Qed.

Lemma filter_length_mono {A} (f g : A -> bool) l :
  (forall x, In x l -> g x = true -> f x = true) ->
  (length (List.filter g l) <= length (List.filter f l))%nat.
Proof.
  induction l as [|x l IH]; intros H; cbn; [lia|].
  assert (IH' := IH (fun y Hy => H y (or_intror Hy))).
  destruct (g x) eqn:Hg; [rewrite (H x (or_introl eq_refl) Hg); cbn; lia|].
  destruct (f x); cbn; lia.
Qed.

Lemma filter_length_less {A} (f g : A -> bool) l x :
  (forall y, In y l -> g y = true -> f y = true) ->
  In x l -> f x = true -> g x = false ->
  (length (List.filter g l) < length (List.filter f l))%nat.
Proof.
  induction l as [|y l IH]; intros H Hx Hf Hg; [destruct Hx|].
  assert (Hl := fun z Hz => H z (or_intror Hz)).
  pose proof (filter_length_mono f g l Hl) as Hmono.
  cbn. destruct Hx as [-> | Hx].
  - rewrite Hf, Hg. cbn. lia.
  - specialize (IH Hl Hx Hf Hg).
    destruct (g y) eqn:Hgy; [rewrite (H y (or_introl eq_refl) Hgy); cbn; lia|].
    destruct (f y); cbn; lia.
Qed.

Lemma ahead_mono z w w' : w <= w' -> (length (ahead z w') <= length (ahead z w))%nat.
Proof.
  intros Hle. apply filter_length_mono. intros p _ Hp.
  apply Z.ltb_lt in Hp. apply Z.ltb_lt. lia.
Qed.

Lemma ahead_less z w w' p :
  In p (pendulum.transitions z) -> w < fst p + snd p <= w' ->
  (length (ahead z w') < length (ahead z w))%nat.
Proof.
  intros Hp Hgap. apply (filter_length_less _ _ _ p); [| exact Hp | |].
  - intros q _ Hq. apply Z.ltb_lt in Hq. apply Z.ltb_lt. lia.
  - apply Z.ltb_lt. lia.
  - apply Z.ltb_ge. lia.
Qed.

(** A day added: the date is the next one, unless a transition of the zone
    skips the reading; there is then one transition less ahead. *)
Lemma add_days_step dt :
  let dt' := pendulum.add_days dt 1 in
  pendulum.tz dt' = pendulum.tz dt
  /\ pendulum.wall dt + pendulum.US_PER_DAY <= pendulum.wall dt'
  /\ ((pendulum.day_number dt' = pendulum.day_number dt + 1
       /\ (length (ahead (pendulum.tz dt) (pendulum.wall dt'))
           <= length (ahead (pendulum.tz dt) (pendulum.wall dt)))%nat)
      \/ (length (ahead (pendulum.tz dt) (pendulum.wall dt'))
          < length (ahead (pendulum.tz dt) (pendulum.wall dt)))%nat).
Proof.
  intros dt'. subst dt'. unfold pendulum.add_days. rewrite Z.mul_1_l.
  split; [reflexivity|].
  pose proof (wall_of_wall (pendulum.wall dt + pendulum.US_PER_DAY) (pendulum.tz dt)) as Hle.
  split; [exact Hle|].
  destruct (wall_of_wall_cases (pendulum.wall dt + pendulum.US_PER_DAY) (pendulum.tz dt))
    as [Heq | (p & Hp & Hgap)].
  - left. split.
    + unfold pendulum.day_number. rewrite Heq.
      replace (pendulum.wall dt + pendulum.US_PER_DAY)
        with (pendulum.wall dt + 1 * pendulum.US_PER_DAY) by lia.
      apply Z.div_add. discriminate.
    + apply ahead_mono. unfold pendulum.US_PER_DAY in *. lia.
  - right. apply (ahead_less _ _ _ p Hp). unfold pendulum.US_PER_DAY in *. lia.
Qed.

(** The loop of [next] ends with the fuel it is given: a round brings the
    wanted day of the week one day nearer, or passes a transition. *)
Lemma next_loop_total fuel : forall dt dow,
  0 <= dow <= 6 ->
  7 * Z.of_nat (length (ahead (pendulum.tz dt) (pendulum.wall dt)))
  + (dow - pendulum.day_of_week dt) mod 7 < Z.of_nat fuel ->
  exists r,
    pendulum.next_loop fuel dt dow = Ok r
    /\ pendulum.tz r = pendulum.tz dt
    /\ pendulum.day_of_week r = dow
    /\ (r = dt
        \/ exists prev, r = pendulum.add_days prev 1
                        /\ pendulum.tz prev = pendulum.tz dt
                        /\ pendulum.wall dt <= pendulum.wall prev).
Proof.
  induction fuel as [|fuel IH]; intros dt dow Hdow Hfuel.
  - pose proof (Z.mod_pos_bound (dow - pendulum.day_of_week dt) 7). lia.
  - cbn [pendulum.next_loop].
    destruct (Z.eqb_spec (pendulum.day_of_week dt) dow) as [Heq|Hne]; cbn [negb].
    + exists dt. repeat split; [exact Heq | left; reflexivity].
    + destruct (add_days_step dt) as (Htz & Hwall & Hstep). cbn zeta in *.
      set (dt' := pendulum.add_days dt 1) in *.
      pose proof (day_of_week_range dt) as Hr. pose proof (day_of_week_range dt') as Hr'.
      destruct (IH dt' dow Hdow) as (r & Hr1 & Hr2 & Hr3 & Hr4).
      * rewrite Htz. destruct Hstep as [[Hday Hlen] | Hlen].
        -- assert ((dow - pendulum.day_of_week dt') mod 7
                   = (dow - pendulum.day_of_week dt) mod 7 - 1).
           { unfold pendulum.day_of_week in *. rewrite Hday. Z.div_mod_to_equations. lia. }
           lia.
        -- pose proof (Z.mod_pos_bound (dow - pendulum.day_of_week dt') 7).
           pose proof (Z.mod_pos_bound (dow - pendulum.day_of_week dt) 7). lia.
      * exists r. split; [exact Hr1|]. split; [congruence|]. split; [exact Hr3|].
        right. destruct Hr4 as [-> | (prev & Hp1 & Hp2 & Hp3)].
        -- exists dt. split; [reflexivity|]. split; [reflexivity | lia].
        -- exists prev. split; [exact Hp1|]. split; [congruence|].
           unfold pendulum.US_PER_DAY in *. lia.
Qed.

Lemma day_guard dow : 0 <= dow <= 6 -> (dow <? 0) || (dow >? 6) = false.
Proof.
  intros H. rewrite Z.gtb_ltb. apply orb_false_iff. split; apply Z.ltb_ge; lia.
Qed.

(** [next] returns, in every zone: a DateTime of the wanted day of the
    week, reached by adding a day to one that is not before the start. *)
Lemma next_total dt dow keep_time :
  0 <= dow <= 6 ->
  exists r prev,
    pendulum.next dt dow keep_time = Ok r
    /\ r = pendulum.add_days prev 1
    /\ pendulum.tz prev = pendulum.tz dt
    /\ pendulum.day_of_week r = dow
    /\ pendulum.wall (if keep_time then dt else pendulum.start_of_day dt) <= pendulum.wall prev.
Proof.
  intros Hdow. unfold pendulum.next. rewrite (day_guard dow Hdow).
  set (dt0 := if keep_time then dt else pendulum.start_of_day dt).
  assert (Htz0 : pendulum.tz dt0 = pendulum.tz dt) by (subst dt0; destruct keep_time; reflexivity).
  set (dt1 := pendulum.add_days dt0 1).
  destruct (next_loop_total (7 * S (length (pendulum.transitions (pendulum.tz dt1)))) dt1 dow Hdow)
    as (r & Hr1 & Hr2 & Hr3 & Hr4).
  - pose proof (ahead_length (pendulum.tz dt1) (pendulum.wall dt1)).
    pose proof (Z.mod_pos_bound (dow - pendulum.day_of_week dt1) 7). lia.
  - destruct Hr4 as [-> | (prev & Hp1 & Hp2 & Hp3)].
    + exists dt1, dt0. repeat split; [exact Hr1 | exact Htz0 | exact Hr3 | lia].
    + exists r, prev. split; [exact Hr1|]. split; [exact Hp1|].
      split; [rewrite Hp2; exact Htz0|]. split; [exact Hr3|].
      destruct (add_days_step dt0) as (_ & Hw & _). cbn zeta in Hw. fold dt1 in Hw.
      unfold pendulum.US_PER_DAY in *. lia.
Qed.

(** *** The arithmetic of the calendar *)

Ltac calendar :=
  unfold pendulum.day_of_week, pendulum.hour, pendulum.minute, pendulum.day_number,
    pendulum.US_PER_DAY, pendulum.US_PER_HOUR, pendulum.US_PER_MINUTE in *;
  Z.div_mod_to_equations; lia.

Lemma at_valid dt (t : Time.t) :
  Time.valid t = true ->
  pendulum.at_ dt (Time.hour t) (Time.minute t) = Ok (occurrence dt 0 t).
Proof.
  unfold Time.valid, pendulum.at_, occurrence. intros ->.
  rewrite Z.add_0_r. reflexivity.
Qed.

Lemma time_valid_bounds (t : Time.t) :
  Time.valid t = true -> 0 <= Time.hour t <= 23 /\ 0 <= Time.minute t <= 59.
Proof. unfold Time.valid. rewrite !andb_true_iff, !Z.leb_le. lia. Qed.

(** *** WeekdayInterval *)

Lemma weekday_interval_valid_bounds (w : WeekdayInterval.t) :
  WeekdayInterval.valid w = true ->
  0 <= WeekdayInterval.day_of_week w <= 6
  /\ Time.valid (Interval.start (WeekdayInterval.interval w)) = true
  /\ Time.valid (Interval.end_ (WeekdayInterval.interval w)) = true.
Proof.
  unfold WeekdayInterval.valid, Interval.valid.
  rewrite !andb_true_iff, !Z.leb_le. tauto.
Qed.

(** C3.  The containment test of a WeekdayInterval holds exactly when the
    day of the week matches and one of the four boundary branches does:
    the hour strictly between the start and end hours; the hour equal to
    the start hour and not the end hour, with the minute at or after the
    start minute; the hour equal to the end hour and not the start hour,
    with the minute at or before the end minute; all three hours equal, with
    the minute between the two minutes inclusive.  Sunday 02:15-14:45
    contains Sunday 02:15, 14:45 and 08:30 and excludes Sunday 00:00, 02:14,
    14:46 and Monday 08:30. *)
Theorem weekday_interval_contains_spec :
  (forall (w : WeekdayInterval.t) (dt : pendulum.DateTime),
      let s := Interval.start (WeekdayInterval.interval w) in
      let e := Interval.end_ (WeekdayInterval.interval w) in
      let h := pendulum.hour dt in
      let mi := pendulum.minute dt in
      WeekdayInterval.contains w dt = true <->
      pendulum.day_of_week dt = WeekdayInterval.day_of_week w
      /\ ((Time.hour s < h /\ h < Time.hour e)
          \/ (h = Time.hour s /\ h <> Time.hour e /\ Time.minute s <= mi)
          \/ (h = Time.hour e /\ h <> Time.hour s /\ mi <= Time.minute e)
          \/ (Time.hour s = Time.hour e /\ Time.hour e = h
              /\ Time.minute s <= mi /\ mi <= Time.minute e)))
  /\ (let w := WeekdayInterval.Build 0 (Interval.Build (Time.Build 2 15) (Time.Build 14 45)) in
      WeekdayInterval.contains w (moment_at 0 2 15) = true
      /\ WeekdayInterval.contains w (moment_at 0 14 45) = true
      /\ WeekdayInterval.contains w (moment_at 0 8 30) = true
      /\ WeekdayInterval.contains w (moment_at 0 0 0) = false
      /\ WeekdayInterval.contains w (moment_at 0 2 14) = false
      /\ WeekdayInterval.contains w (moment_at 0 14 46) = false
      /\ WeekdayInterval.contains w (moment_at 1 8 30) = false).
Proof.
  split.
  - intros w dt s e h mi. unfold WeekdayInterval.contains.
    fold s e h mi.
    rewrite !andb_true_iff, !orb_true_iff, !andb_true_iff, !negb_true_iff.
    rewrite !Z.eqb_eq, !Z.ltb_lt, !Z.leb_le, !Z.eqb_neq, Z.geb_le.
    lia.
  - repeat split; reflexivity.
Qed.

Lemma wall_day dt :
  pendulum.day_number dt * pendulum.US_PER_DAY <= pendulum.wall dt
  < (pendulum.day_number dt + 1) * pendulum.US_PER_DAY.
Proof.
  unfold pendulum.day_number, pendulum.US_PER_DAY. Z.div_mod_to_equations. lia.
Qed.

Lemma reading_bounds day (t : Time.t) :
  Time.valid t = true ->
  day * pendulum.US_PER_DAY
  <= day * pendulum.US_PER_DAY + Time.hour t * pendulum.US_PER_HOUR
     + Time.minute t * pendulum.US_PER_MINUTE
  < (day + 1) * pendulum.US_PER_DAY.
Proof.
  intros H%time_valid_bounds.
  unfold pendulum.US_PER_DAY, pendulum.US_PER_HOUR, pendulum.US_PER_MINUTE. lia.
Qed.

(** The occurrence of a time of day on the date of a moment, or after it:
    its zone is that of the moment, and its reading is not before the
    reading asked for. *)
Lemma occurrence_reading m k (t : Time.t) :
  Time.valid t = true ->
  pendulum.tz (occurrence m k t) = pendulum.tz m
  /\ (pendulum.day_number m + k) * pendulum.US_PER_DAY <= pendulum.wall (occurrence m k t).
Proof.
  intros Ht. split; [reflexivity|]. unfold occurrence.
  pose proof (wall_of_wall ((pendulum.day_number m + k) * pendulum.US_PER_DAY
                            + Time.hour t * pendulum.US_PER_HOUR
                            + Time.minute t * pendulum.US_PER_MINUTE) (pendulum.tz m)).
  pose proof (reading_bounds (pendulum.day_number m + k) t Ht). lia.
Qed.

(** A day added to a DateTime that is on the date of [m] or after it gives
    an instant after [m], in the zone of [m]. *)
Lemma add_days_after m prev :
  pendulum.tz prev = pendulum.tz m ->
  pendulum.day_number m * pendulum.US_PER_DAY <= pendulum.wall prev ->
  pendulum.tz (pendulum.add_days prev 1) = pendulum.tz m
  /\ pendulum.timestamp m <= pendulum.timestamp (pendulum.add_days prev 1)
  /\ pendulum.day_number m + 1 <= pendulum.day_number (pendulum.add_days prev 1).
Proof.
  intros Htz Hwall. pose proof (wall_day m) as Hm.
  unfold pendulum.add_days. rewrite Htz, Z.mul_1_l.
  split; [reflexivity|]. split.
  - apply of_wall_not_before. lia.
  - pose proof (wall_of_wall (pendulum.wall prev + pendulum.US_PER_DAY) (pendulum.tz m)) as Hw.
    unfold pendulum.day_number at 2.
    apply Z.div_le_lower_bound; [reflexivity|]. lia.
Qed.

(** [next_start_after] and [next_end_after] return in every zone, for every
    moment: a DateTime of the zone of the moment that is not before the
    moment, and is after it for [next_end_after]. *)
Lemma next_after_total (w : WeekdayInterval.t) (m : pendulum.DateTime) :
  WeekdayInterval.valid w = true ->
  (exists r, WeekdayInterval.next_start_after w m = Ok r
             /\ pendulum.tz r = pendulum.tz m
             /\ pendulum.timestamp m <= pendulum.timestamp r)
  /\ (exists r, WeekdayInterval.next_end_after w m = Ok r
                /\ pendulum.tz r = pendulum.tz m
                /\ pendulum.timestamp m < pendulum.timestamp r).
Proof.
  intros Hw. destruct (weekday_interval_valid_bounds w Hw) as (Hd & Hs & He).
  set (s := Interval.start (WeekdayInterval.interval w)) in *.
  set (e := Interval.end_ (WeekdayInterval.interval w)) in *.
  assert (Hlater : forall d (t : Time.t),
             Time.valid t = true ->
             pendulum.tz d = pendulum.tz m ->
             pendulum.day_number m + 1 <= pendulum.day_number d ->
             pendulum.timestamp m <= pendulum.timestamp (occurrence d 0 t)).
  { intros d t Ht Htz Hday. unfold occurrence. rewrite Htz.
    apply of_wall_not_before.
    pose proof (wall_day m). pose proof (reading_bounds (pendulum.day_number d + 0) t Ht).
    unfold pendulum.US_PER_DAY in *. lia. }
  split.
  - unfold WeekdayInterval.next_start_after. fold s.
    destruct (pendulum.day_of_week m =? WeekdayInterval.day_of_week w).
    + rewrite at_valid by exact Hs. cbn [bind].
      destruct (occurrence_reading m 0 s Hs) as [Htz Hwall]. rewrite Z.add_0_r in Hwall.
      unfold pendulum.leb. destruct (Z.leb_spec (pendulum.timestamp m)
                                        (pendulum.timestamp (occurrence m 0 s))) as [Hle|Hgt].
      * eexists. split; [reflexivity|]. split; [exact Htz | exact Hle].
      * destruct (next_total (occurrence m 0 s) (WeekdayInterval.day_of_week w) true Hd)
          as (r & prev & Hnext & -> & Hp & _ & Hprev).
        destruct (add_days_after m prev) as (A1 & A2 & _); [exact Hp | lia |].
        exists (pendulum.add_days prev 1). split; [exact Hnext|]. split; assumption.
    + destruct (next_total m (WeekdayInterval.day_of_week w) false Hd)
        as (d & prev & Hnext & -> & Hp & _ & Hprev).
      rewrite Hnext. cbn [bind]. rewrite at_valid by exact Hs.
      assert (Hsod : pendulum.day_number m * pendulum.US_PER_DAY <= pendulum.wall prev).
      { pose proof (wall_of_wall (pendulum.day_number m * pendulum.US_PER_DAY) (pendulum.tz m)).
        unfold pendulum.start_of_day in Hprev. lia. }
      destruct (add_days_after m prev Hp Hsod) as (A1 & _ & A3).
      eexists. split; [reflexivity|]. split; [exact A1|].
      apply Hlater; assumption.
  - unfold WeekdayInterval.next_end_after. fold e.
    destruct (pendulum.day_of_week m =? WeekdayInterval.day_of_week w).
    + rewrite at_valid by exact He. cbn [bind].
      destruct (occurrence_reading m 0 e He) as [Htz Hwall]. rewrite Z.add_0_r in Hwall.
      set (shifted := pendulum.add_minutes (occurrence m 0 e) 1).
      unfold pendulum.ltb. destruct (Z.ltb_spec (pendulum.timestamp m)
                                        (pendulum.timestamp shifted)) as [Hlt|Hge].
      * eexists. split; [reflexivity|]. split; [exact Htz | exact Hlt].
      * destruct (next_total shifted (WeekdayInterval.day_of_week w) true Hd)
          as (r & prev & Hnext & -> & Hp & _ & Hprev).
        assert (Hshifted : pendulum.day_number m * pendulum.US_PER_DAY <= pendulum.wall shifted).
        { assert (Hafter : (pendulum.day_number m + 0) * pendulum.US_PER_DAY
                           + Time.hour e * pendulum.US_PER_HOUR
                           + Time.minute e * pendulum.US_PER_MINUTE < pendulum.wall shifted).
          { apply wall_after. subst shifted. unfold occurrence, pendulum.add_minutes.
            cbn [pendulum.tz pendulum.timestamp pendulum.of_wall].
            unfold pendulum.US_PER_MINUTE. lia. }
          pose proof (reading_bounds (pendulum.day_number m + 0) e He). lia. }
        destruct (add_days_after m prev) as (A1 & A2 & A3); [exact Hp | lia |].
        exists (pendulum.add_days prev 1). split; [exact Hnext|]. split; [exact A1|].
        (* the moment is on the date of the interval, the result on a later date *)
        destruct (Z.eq_dec (pendulum.timestamp m) (pendulum.timestamp (pendulum.add_days prev 1)))
          as [Heq|Hne]; [| lia].
        exfalso. assert (Hsame : pendulum.add_days prev 1 = m).
        { destruct m as [ts z], (pendulum.add_days prev 1) as [ts' z']. cbn in *. congruence. }
        rewrite Hsame in A3. lia.
    + destruct (next_total m (WeekdayInterval.day_of_week w) false Hd)
        as (d & prev & Hnext & -> & Hp & _ & Hprev).
      rewrite Hnext. cbn [bind]. rewrite at_valid by exact He. cbn [bind].
      assert (Hsod : pendulum.day_number m * pendulum.US_PER_DAY <= pendulum.wall prev).
      { pose proof (wall_of_wall (pendulum.day_number m * pendulum.US_PER_DAY) (pendulum.tz m)).
        unfold pendulum.start_of_day in Hprev. lia. }
      destruct (add_days_after m prev Hp Hsod) as (A1 & _ & A3).
      eexists. split; [reflexivity|]. split; [exact A1|].
      pose proof (Hlater _ e He A1 A3) as Hle.
      unfold pendulum.add_minutes, pendulum.US_PER_MINUTE. cbn [pendulum.timestamp]. lia.
Qed.

(** *** Days added where the zone skips nothing *)

Lemma add_days_steady dt k j :
  steady_days dt k -> 0 <= j <= k ->
  pendulum.add_days (pendulum.add_days dt j) 1 = pendulum.add_days dt (j + 1)
  /\ pendulum.day_number (pendulum.add_days dt j) = pendulum.day_number dt + j.
Proof.
  intros Hsteady Hj. specialize (Hsteady j Hj). split.
  - unfold pendulum.add_days at 1. rewrite Hsteady.
    unfold pendulum.add_days. cbn [pendulum.tz pendulum.of_wall]. f_equal. lia.
  - unfold pendulum.day_number. rewrite Hsteady. apply Z.div_add. discriminate.
Qed.

(** The loop of [next], from the [j]-th date after that of [dt], stops on
    the first date that falls on the wanted day of the week. *)
Lemma next_loop_steady (n : nat) : forall (fuel : nat) dt dow j,
  (n < fuel)%nat -> 0 <= j ->
  steady_days dt (j + Z.of_nat n) ->
  (forall i, j <= i < j + Z.of_nat n -> (pendulum.day_number dt + i) mod 7 <> dow) ->
  (pendulum.day_number dt + (j + Z.of_nat n)) mod 7 = dow ->
  pendulum.next_loop fuel (pendulum.add_days dt j) dow
  = Ok (pendulum.add_days dt (j + Z.of_nat n)).
Proof.
  induction n as [|n IH]; intros fuel dt dow j Hfuel Hj Hsteady Hbefore Hat;
    (destruct fuel as [|fuel]; [lia|]); cbn [pendulum.next_loop];
    destruct (add_days_steady dt _ j Hsteady ltac:(lia)) as [Hstep Hday];
    unfold pendulum.day_of_week at 1; rewrite Hday.
  - rewrite Z.add_0_r in Hat. apply Z.eqb_eq in Hat. rewrite Hat. cbn [negb].
    rewrite Z.add_0_r. reflexivity.
  - specialize (Hbefore j ltac:(lia)) as Hne. apply Z.eqb_neq in Hne. rewrite Hne. cbn [negb].
    rewrite Hstep.
    replace (j + Z.of_nat (S n)) with (j + 1 + Z.of_nat n) in * by lia.
    apply IH; [lia | lia | exact Hsteady | | exact Hat].
    intros i Hi. apply Hbefore. lia.
Qed.

(** [next] where the zone skips nothing: the date [k] days after the start,
    the first that falls on the wanted day of the week. *)
Lemma next_steady dt dow (keep_time : bool) k :
  0 <= dow <= 6 -> 1 <= k <= 7 ->
  let start := if keep_time then dt else pendulum.start_of_day dt in
  steady_days start k ->
  (forall i, 1 <= i < k -> (pendulum.day_number start + i) mod 7 <> dow) ->
  (pendulum.day_number start + k) mod 7 = dow ->
  pendulum.next dt dow keep_time = Ok (pendulum.add_days start k).
Proof.
  intros Hdow Hk start Hsteady Hbefore Hat. unfold pendulum.next.
  rewrite (day_guard dow Hdow). fold start.
  replace k with (1 + Z.of_nat (Z.to_nat (k - 1))) in * by lia.
  apply next_loop_steady; [lia | lia | exact Hsteady | | exact Hat].
  intros i Hi. apply Hbefore. lia.
Qed.

(** The cases of [next_start_after] and [next_end_after] on a valid
    WeekdayInterval, in every zone, where the zone skips none of the
    readings that the days added pass through. *)
Lemma next_after_steady (w : WeekdayInterval.t) (moment : pendulum.DateTime) :
  WeekdayInterval.valid w = true ->
  let s := Interval.start (WeekdayInterval.interval w) in
  let e := Interval.end_ (WeekdayInterval.interval w) in
  let past m := pendulum.add_minutes m 1 in
  let k := (WeekdayInterval.day_of_week w - pendulum.day_of_week moment) mod 7 in
  (pendulum.day_of_week moment = WeekdayInterval.day_of_week w ->
   pendulum.timestamp moment <= pendulum.timestamp (occurrence moment 0 s) ->
   WeekdayInterval.next_start_after w moment = Ok (occurrence moment 0 s))
  /\ (pendulum.day_of_week moment = WeekdayInterval.day_of_week w ->
      pendulum.timestamp (occurrence moment 0 s) < pendulum.timestamp moment ->
      pendulum.day_of_week (occurrence moment 0 s) = WeekdayInterval.day_of_week w ->
      steady_days (occurrence moment 0 s) 7 ->
      WeekdayInterval.next_start_after w moment
      = Ok (pendulum.add_days (occurrence moment 0 s) 7))
  /\ (pendulum.day_of_week moment <> WeekdayInterval.day_of_week w ->
      pendulum.day_number (pendulum.start_of_day moment) = pendulum.day_number moment ->
      steady_days (pendulum.start_of_day moment) k ->
      1 <= k <= 6
      /\ WeekdayInterval.next_start_after w moment = Ok (occurrence moment k s))
  /\ (pendulum.day_of_week moment = WeekdayInterval.day_of_week w ->
      pendulum.timestamp moment < pendulum.timestamp (past (occurrence moment 0 e)) ->
      WeekdayInterval.next_end_after w moment = Ok (past (occurrence moment 0 e)))
  /\ (pendulum.day_of_week moment = WeekdayInterval.day_of_week w ->
      pendulum.timestamp (past (occurrence moment 0 e)) <= pendulum.timestamp moment ->
      pendulum.day_of_week (past (occurrence moment 0 e)) = WeekdayInterval.day_of_week w ->
      steady_days (past (occurrence moment 0 e)) 7 ->
      WeekdayInterval.next_end_after w moment
      = Ok (pendulum.add_days (past (occurrence moment 0 e)) 7))
  /\ (pendulum.day_of_week moment <> WeekdayInterval.day_of_week w ->
      pendulum.day_number (pendulum.start_of_day moment) = pendulum.day_number moment ->
      steady_days (pendulum.start_of_day moment) k ->
      1 <= k <= 6
      /\ WeekdayInterval.next_end_after w moment = Ok (past (occurrence moment k e))).
Proof.
  intros Hw s e past k.
  destruct (weekday_interval_valid_bounds w Hw) as (Hd & Hs & He).
  fold s in Hs. fold e in He.
  pose proof (day_of_week_range moment) as Hr.
  assert (Hweek : forall dt,
            pendulum.day_of_week dt = WeekdayInterval.day_of_week w ->
            steady_days dt 7 ->
            pendulum.next dt (WeekdayInterval.day_of_week w) true
            = Ok (pendulum.add_days dt 7)).
  { intros dt Hdow Hsteady. apply (next_steady dt _ true 7); [exact Hd | lia | exact Hsteady | |];
      unfold pendulum.day_of_week in Hdow.
    - intros i Hi. Z.div_mod_to_equations. lia.
    - Z.div_mod_to_equations. lia. }
  assert (Hother : pendulum.day_of_week moment <> WeekdayInterval.day_of_week w ->
            pendulum.day_number (pendulum.start_of_day moment) = pendulum.day_number moment ->
            steady_days (pendulum.start_of_day moment) k ->
            1 <= k <= 6
            /\ exists d, pendulum.next moment (WeekdayInterval.day_of_week w) false = Ok d
                 /\ forall t, occurrence d 0 t = occurrence moment k t).
  { intros Hne Hsod Hsteady.
    assert (Hk : 1 <= k <= 6) by (subst k; Z.div_mod_to_equations; lia).
    split; [exact Hk|]. eexists. split.
    - apply (next_steady moment _ false k); [exact Hd | lia | exact Hsteady | |];
        cbn zeta; rewrite Hsod; unfold pendulum.day_of_week in *; subst k.
      + intros i Hi. Z.div_mod_to_equations. lia.
      + Z.div_mod_to_equations. lia.
    - intros t. destruct (add_days_steady _ k k Hsteady ltac:(lia)) as [_ Hday].
      unfold occurrence. rewrite Hday, Hsod. cbn [pendulum.tz pendulum.add_days pendulum.of_wall
                                                   pendulum.start_of_day].
      f_equal. lia. }
  split; [| split; [| split; [| split; [| split]]]].
  - intros Heq Hle. unfold WeekdayInterval.next_start_after. fold s.
    rewrite Heq, Z.eqb_refl, at_valid by assumption. cbn [bind].
    unfold pendulum.leb. apply Z.leb_le in Hle. rewrite Hle. reflexivity.
  - intros Heq Hlt Hdow Hsteady. unfold WeekdayInterval.next_start_after. fold s.
    rewrite Heq, Z.eqb_refl, at_valid by assumption. cbn [bind].
    unfold pendulum.leb. apply Z.leb_gt in Hlt. rewrite Hlt.
    apply Hweek; assumption.
  - intros Hne Hsod Hsteady. destruct (Hother Hne Hsod Hsteady) as (Hk & d & Hnext & Hocc).
    split; [exact Hk|]. unfold WeekdayInterval.next_start_after. fold s.
    apply Z.eqb_neq in Hne. rewrite Hne, Hnext. cbn [bind].
    rewrite at_valid, Hocc by assumption. reflexivity.
  - intros Heq Hlt. unfold WeekdayInterval.next_end_after. fold e.
    rewrite Heq, Z.eqb_refl, at_valid by assumption. cbn [bind].
    unfold pendulum.ltb. apply Z.ltb_lt in Hlt. fold (past (occurrence moment 0 e)).
    rewrite Hlt. reflexivity.
  - intros Heq Hle Hdow Hsteady. unfold WeekdayInterval.next_end_after. fold e.
    rewrite Heq, Z.eqb_refl, at_valid by assumption. cbn [bind].
    unfold pendulum.ltb. apply Z.ltb_ge in Hle. fold (past (occurrence moment 0 e)).
    rewrite Hle. apply Hweek; assumption.
  - intros Hne Hsod Hsteady. destruct (Hother Hne Hsod Hsteady) as (Hk & d & Hnext & Hocc).
    split; [exact Hk|]. unfold WeekdayInterval.next_end_after. fold e.
    apply Z.eqb_neq in Hne. rewrite Hne, Hnext. cbn [bind].
    rewrite at_valid, Hocc by assumption. reflexivity.
Qed.

Lemma occurrence_on_clock m k (t : Time.t) :
  Time.valid t = true ->
  pendulum.wall (occurrence m k t) = reading m k t ->
  pendulum.day_number (occurrence m k t) = pendulum.day_number m + k
  /\ pendulum.hour (occurrence m k t) = Time.hour t
  /\ pendulum.minute (occurrence m k t) = Time.minute t.
Proof.
  intros Ht%time_valid_bounds Hwall.
  unfold pendulum.day_number at 1, pendulum.hour, pendulum.minute. rewrite Hwall.
  unfold reading, pendulum.US_PER_DAY, pendulum.US_PER_HOUR, pendulum.US_PER_MINUTE.
  repeat split; Z.div_mod_to_equations; lia.
Qed.

(** *** Days without a transition *)

Lemma offset_from_bound trs : forall off ts,
  pendulum.regular_from off trs = true ->
  - pendulum.US_PER_DAY <= pendulum.offset_from off trs ts <= pendulum.US_PER_DAY.
Proof.
  induction trs as [|[instant off'] rest IH]; intros off ts Hreg.
  - rewrite regular_from_eq, andb_true_r, andb_true_iff, !Z.leb_le in Hreg. cbn. lia.
  - destruct (regular_from_cons _ _ _ _ Hreg) as (Hoff & Hoff' & Hreg' & _). cbn.
    destruct (ts <? instant); [lia | apply IH, Hreg'].
Qed.

(** Between two instants with no transition from the one to the other the
    offset does not change. *)
Lemma offset_from_quiet trs : forall off lo hi t t',
  forallb (fun p => (fst p <? lo) || (hi <? fst p)) trs = true ->
  lo <= t <= hi -> lo <= t' <= hi ->
  pendulum.offset_from off trs t = pendulum.offset_from off trs t'.
Proof.
  induction trs as [|[instant off'] rest IH]; intros off lo hi t t' Hq Ht Ht'; [reflexivity|].
  cbn [forallb fst] in Hq. apply andb_true_iff in Hq as [Hhead Hrest].
  apply orb_true_iff in Hhead. rewrite !Z.ltb_lt in Hhead. cbn [pendulum.offset_from].
  destruct (Z.ltb_spec t instant), (Z.ltb_spec t' instant); try lia.
  apply (IH _ lo hi); assumption.
Qed.

(** Two days and more away from every transition a reading is the reading
    of one instant, on the clock in force there. *)
Lemma instant_from_quiet trs : forall off lo hi t w,
  pendulum.regular_from off trs = true ->
  forallb (fun p => (fst p <? lo) || (hi <? fst p)) trs = true ->
  lo <= t <= hi ->
  lo + 2 * pendulum.US_PER_DAY <= w - pendulum.offset_from off trs t
  <= hi - 2 * pendulum.US_PER_DAY ->
  pendulum.instant_from off trs w = w - pendulum.offset_from off trs t.
Proof.
  induction trs as [|[instant off'] rest IH]; intros off lo hi t w Hreg Hq Ht Hw; [reflexivity|].
  destruct (regular_from_cons _ _ _ _ Hreg) as (Hoff & Hoff' & Hreg' & _).
  pose proof (offset_from_bound rest off' t Hreg') as Hb.
  cbn [forallb fst] in Hq. apply andb_true_iff in Hq as [Hhead Hrest].
  apply orb_true_iff in Hhead. rewrite !Z.ltb_lt in Hhead.
  cbn [pendulum.offset_from pendulum.instant_from] in *.
  destruct (Z.ltb_spec t instant) as [Hlt|Hge].
  - destruct (Z.ltb_spec w (instant + off')); [reflexivity | lia].
  - destruct (Z.ltb_spec w (instant + off')); [lia|].
    apply (IH _ lo hi); assumption.
Qed.


Lemma utcoffset_bound dt :
  - pendulum.US_PER_DAY <= pendulum.utcoffset dt <= pendulum.US_PER_DAY.
Proof. destruct dt as [ts [off trs Hreg]]. apply offset_from_bound, Hreg. Qed.

(** Around a calm moment the offset is that of the moment. *)
Lemma calm_offset m t :
  calm m = true ->
  pendulum.timestamp m - 3 * pendulum.US_PER_DAY <= t
  <= pendulum.timestamp m + 11 * pendulum.US_PER_DAY ->
  pendulum.utcoffset (pendulum.Build t (pendulum.tz m)) = pendulum.utcoffset m.
Proof.
  intros Hq Ht. unfold pendulum.utcoffset. cbn [pendulum.tz pendulum.timestamp].
  apply (offset_from_quiet _ _ (pendulum.timestamp m - 3 * pendulum.US_PER_DAY)
           (pendulum.timestamp m + 11 * pendulum.US_PER_DAY) _ _ Hq);
    unfold pendulum.US_PER_DAY in *; lia.
Qed.

Lemma calm_wall m t :
  calm m = true ->
  pendulum.timestamp m - 3 * pendulum.US_PER_DAY <= t
  <= pendulum.timestamp m + 11 * pendulum.US_PER_DAY ->
  pendulum.wall (pendulum.Build t (pendulum.tz m)) = t + pendulum.utcoffset m.
Proof. intros Hq Ht. unfold pendulum.wall. rewrite calm_offset by assumption. reflexivity. Qed.

(** A reading from the day before a calm moment to nine days after it is
    the reading of one instant, on the clock of the moment. *)
Lemma calm_of_wall m w :
  calm m = true ->
  pendulum.wall m - pendulum.US_PER_DAY <= w <= pendulum.wall m + 9 * pendulum.US_PER_DAY ->
  pendulum.of_wall w (pendulum.tz m)
  = pendulum.Build (w - pendulum.utcoffset m) (pendulum.tz m).
Proof.
  intros Hq Hw. unfold pendulum.of_wall. f_equal.
  destruct m as [ts [off trs Hreg]]. unfold pendulum.wall, pendulum.utcoffset in *.
  cbn [pendulum.timestamp pendulum.tz pendulum.initial pendulum.transitions] in *.
  apply (instant_from_quiet trs off (ts - 3 * pendulum.US_PER_DAY)
           (ts + 11 * pendulum.US_PER_DAY) ts w Hreg Hq);
    unfold pendulum.US_PER_DAY in *; lia.
Qed.

Lemma calm_wall_of_wall m w :
  calm m = true ->
  pendulum.wall m - pendulum.US_PER_DAY <= w <= pendulum.wall m + 9 * pendulum.US_PER_DAY ->
  pendulum.wall (pendulum.of_wall w (pendulum.tz m)) = w.
Proof.
  intros Hq Hw. rewrite calm_of_wall by assumption.
  unfold pendulum.wall in Hw. unfold pendulum.US_PER_DAY in *.
  rewrite calm_wall; [lia | exact Hq | unfold pendulum.US_PER_DAY; lia].
Qed.

(** The wall clock of a DateTime of the zone of a calm moment, near it. *)
Lemma calm_near m dt :
  calm m = true -> pendulum.tz dt = pendulum.tz m ->
  pendulum.timestamp m - 3 * pendulum.US_PER_DAY <= pendulum.timestamp dt
  <= pendulum.timestamp m + 11 * pendulum.US_PER_DAY ->
  pendulum.utcoffset dt = pendulum.utcoffset m
  /\ pendulum.wall dt = pendulum.timestamp dt + pendulum.utcoffset m.
Proof.
  intros Hq Htz Ht. destruct dt as [t z]. cbn [pendulum.tz pendulum.timestamp] in *. subst z.
  split; [apply calm_offset | apply calm_wall]; assumption.
Qed.

Lemma calm_steady m dt k :
  calm m = true -> pendulum.tz dt = pendulum.tz m ->
  pendulum.timestamp m - pendulum.US_PER_DAY <= pendulum.timestamp dt ->
  pendulum.timestamp dt + k * pendulum.US_PER_DAY
  <= pendulum.timestamp m + 9 * pendulum.US_PER_DAY ->
  steady_days dt k.
Proof.
  intros Hq Htz Hlo Hhi j Hj. unfold pendulum.add_days. rewrite Htz.
  destruct (calm_near m dt Hq Htz) as [_ Hwall]; [unfold pendulum.US_PER_DAY in *; lia|].
  apply calm_wall_of_wall; [exact Hq|].
  rewrite Hwall. unfold pendulum.wall, pendulum.US_PER_DAY in *. lia.
Qed.

(** The occurrences of a time of day on the date of a calm moment and on
    the seven dates after it: each is at its time of day. *)
Lemma calm_occurrence m k (t : Time.t) :
  calm m = true -> Time.valid t = true -> 0 <= k <= 7 ->
  occurrence m k t = pendulum.Build (reading m k t - pendulum.utcoffset m) (pendulum.tz m)
  /\ pendulum.wall (occurrence m k t) = reading m k t
  /\ pendulum.wall (pendulum.add_minutes (occurrence m k t) 1)
     = reading m k t + pendulum.US_PER_MINUTE
  /\ pendulum.timestamp m - pendulum.US_PER_DAY < pendulum.timestamp (occurrence m k t)
     < pendulum.timestamp m + (k + 1) * pendulum.US_PER_DAY.
Proof.
  intros Hq Ht Hk.
  pose proof (wall_day m) as Hm. pose proof (reading_bounds (pendulum.day_number m + k) t Ht) as Hr.
  fold (reading m k t) in Hr.
  assert (Hw : pendulum.wall m - pendulum.US_PER_DAY <= reading m k t
               <= pendulum.wall m + 9 * pendulum.US_PER_DAY)
    by (unfold pendulum.US_PER_DAY in *; lia).
  assert (Hocc : occurrence m k t
                 = pendulum.Build (reading m k t - pendulum.utcoffset m) (pendulum.tz m))
    by (apply calm_of_wall; assumption).
  split; [exact Hocc|]. split; [apply calm_wall_of_wall; assumption|].
  rewrite Hocc. unfold pendulum.add_minutes. cbn [pendulum.timestamp pendulum.tz].
  unfold pendulum.wall in Hm, Hw.
  split.
  - rewrite calm_wall; [lia | exact Hq |].
    unfold pendulum.US_PER_DAY, pendulum.US_PER_MINUTE in *. lia.
  - unfold pendulum.US_PER_DAY in *. lia.
Qed.

Lemma occurrence_day_number m k (t : Time.t) :
  calm m = true -> Time.valid t = true -> 0 <= k <= 7 ->
  pendulum.day_number (occurrence m k t) = pendulum.day_number m + k.
Proof.
  intros Hq Ht Hk. destruct (calm_occurrence m k t Hq Ht Hk) as (_ & Hwall & _).
  apply (occurrence_on_clock m k t Ht Hwall).
Qed.

(** The cases of [next_start_after] and [next_end_after] on a valid
    WeekdayInterval, at a calm moment. *)
Lemma next_after_cases :
  forall (w : WeekdayInterval.t) (moment : pendulum.DateTime),
      WeekdayInterval.valid w = true ->
      calm moment = true ->
      let s := Interval.start (WeekdayInterval.interval w) in
      let e := Interval.end_ (WeekdayInterval.interval w) in
      let past m := pendulum.add_minutes m 1 in
      (pendulum.day_of_week moment = WeekdayInterval.day_of_week w ->
       pendulum.timestamp moment <= pendulum.timestamp (occurrence moment 0 s) ->
       WeekdayInterval.next_start_after w moment = Ok (occurrence moment 0 s))
      /\ (pendulum.day_of_week moment = WeekdayInterval.day_of_week w ->
          pendulum.timestamp (occurrence moment 0 s) < pendulum.timestamp moment ->
          WeekdayInterval.next_start_after w moment = Ok (occurrence moment 7 s))
      /\ (pendulum.day_of_week moment <> WeekdayInterval.day_of_week w ->
          exists k, 1 <= k <= 6
            /\ pendulum.day_of_week (occurrence moment k s) = WeekdayInterval.day_of_week w
            /\ WeekdayInterval.next_start_after w moment = Ok (occurrence moment k s))
      /\ (pendulum.day_of_week moment = WeekdayInterval.day_of_week w ->
          pendulum.timestamp moment < pendulum.timestamp (past (occurrence moment 0 e)) ->
          WeekdayInterval.next_end_after w moment = Ok (past (occurrence moment 0 e)))
      /\ (pendulum.day_of_week moment = WeekdayInterval.day_of_week w ->
          pendulum.timestamp (past (occurrence moment 0 e)) <= pendulum.timestamp moment ->
          WeekdayInterval.next_end_after w moment = Ok (past (occurrence moment 7 e)))
      /\ (pendulum.day_of_week moment <> WeekdayInterval.day_of_week w ->
          exists k, 1 <= k <= 6
            /\ pendulum.day_of_week (occurrence moment k e) = WeekdayInterval.day_of_week w
            /\ WeekdayInterval.next_end_after w moment = Ok (past (occurrence moment k e))).
Proof.
  intros w moment Hw Hq s e past.
  destruct (weekday_interval_valid_bounds w Hw) as (Hd & Hs & He).
  fold s in Hs. fold e in He.
  destruct (next_after_steady w moment Hw) as (S1 & S2 & S3 & E1 & E2 & E3).
  fold s in S1, S2, S3. fold e past in E1, E2, E3.
  pose proof (day_of_week_range moment) as Hr.
  pose proof (wall_day moment) as Hm.
  assert (Hmid : pendulum.start_of_day moment
                 = pendulum.Build (pendulum.day_number moment * pendulum.US_PER_DAY
                                   - pendulum.utcoffset moment) (pendulum.tz moment)).
  { unfold pendulum.start_of_day. apply calm_of_wall; [exact Hq|].
    unfold pendulum.US_PER_DAY in *. lia. }
  assert (Hsod : pendulum.day_number (pendulum.start_of_day moment) = pendulum.day_number moment).
  { unfold pendulum.day_number at 1, pendulum.start_of_day.
    rewrite calm_wall_of_wall; [apply Z.div_mul; discriminate | exact Hq |].
    unfold pendulum.US_PER_DAY in *. lia. }
  assert (Hsteady : forall k, 0 <= k <= 6 -> steady_days (pendulum.start_of_day moment) k).
  { intros k Hk. apply (calm_steady moment); [exact Hq | reflexivity | |];
      rewrite Hmid; cbn [pendulum.timestamp]; unfold pendulum.wall, pendulum.US_PER_DAY in *; lia. }
  assert (Hday : forall t k, Time.valid t = true -> 0 <= k <= 7 ->
            pendulum.day_of_week (occurrence moment k t)
            = (pendulum.day_of_week moment + k) mod 7).
  { intros t k Ht Hk. unfold pendulum.day_of_week.
    rewrite occurrence_day_number by assumption. Z.div_mod_to_equations. lia. }
  assert (Hk : pendulum.day_of_week moment <> WeekdayInterval.day_of_week w ->
            (pendulum.day_of_week moment
             + (WeekdayInterval.day_of_week w - pendulum.day_of_week moment) mod 7) mod 7
            = WeekdayInterval.day_of_week w)
    by (intros _; Z.div_mod_to_equations; lia).
  assert (Hrange : 0 <= (WeekdayInterval.day_of_week w - pendulum.day_of_week moment) mod 7 <= 6)
    by (pose proof (Z.mod_pos_bound (WeekdayInterval.day_of_week w
                                     - pendulum.day_of_week moment) 7); lia).
  split; [exact S1|]. split; [| split; [| split; [exact E1 | split]]].
  - intros Heq Hlt.
    destruct (calm_occurrence moment 0 s Hq Hs ltac:(lia)) as (Hocc & Hwall & _ & Hts).
    rewrite S2; [| assumption | assumption | |].
    + unfold pendulum.add_days. rewrite Hwall. unfold occurrence, reading.
      cbn [pendulum.tz pendulum.of_wall]. f_equal.
      apply f_equal2; [unfold pendulum.US_PER_DAY; lia | reflexivity].
    + rewrite Hday, Z.add_0_r, Z.mod_small by (assumption || lia). exact Heq.
    + apply (calm_steady moment); [exact Hq | reflexivity | lia |].
      unfold pendulum.US_PER_DAY in *. lia.
  - intros Hne. destruct (S3 Hne Hsod) as [Hk' Hnext]; [apply Hsteady, Hrange|].
    eexists. split; [exact Hk'|]. split; [| exact Hnext].
    rewrite Hday by (assumption || lia). apply Hk, Hne.
  - intros Heq Hle. subst past. cbv beta in *.
    destruct (calm_occurrence moment 0 e Hq He ltac:(lia)) as (Hocc & Hwall & Hpast & Hts).
    destruct (calm_occurrence moment 7 e Hq He ltac:(lia)) as (Hocc7 & _).
    assert (Hpts : pendulum.timestamp (pendulum.add_minutes (occurrence moment 0 e) 1)
                   = reading moment 0 e - pendulum.utcoffset moment + pendulum.US_PER_MINUTE).
    { rewrite Hocc. unfold pendulum.add_minutes. cbn [pendulum.timestamp]. lia. }
    pose proof (reading_bounds (pendulum.day_number moment + 0) e He) as Hrb.
    fold (reading moment 0 e) in Hrb.
    assert (Hsame : pendulum.day_of_week (pendulum.add_minutes (occurrence moment 0 e) 1)
                    = WeekdayInterval.day_of_week w).
    { rewrite <- Heq. unfold pendulum.day_of_week. f_equal.
      unfold pendulum.day_number at 1. rewrite Hpast. symmetry.
      apply Z.div_unique with (r := reading moment 0 e + pendulum.US_PER_MINUTE
                                     - pendulum.day_number moment * pendulum.US_PER_DAY);
        unfold pendulum.wall, pendulum.US_PER_DAY, pendulum.US_PER_MINUTE in *; lia. }
    rewrite E2; [| assumption | assumption | exact Hsame |].
    + f_equal. unfold pendulum.add_days. rewrite Hpast, Hocc7.
      unfold occurrence, pendulum.add_minutes.
      cbn [pendulum.tz pendulum.of_wall pendulum.timestamp].
      rewrite calm_of_wall; [f_equal; unfold reading, pendulum.US_PER_DAY; lia | exact Hq |].
      unfold pendulum.wall, pendulum.US_PER_DAY, pendulum.US_PER_MINUTE in *. lia.
    + apply (calm_steady moment); [exact Hq | reflexivity | |];
        rewrite Hpts; unfold pendulum.wall, pendulum.US_PER_DAY, pendulum.US_PER_MINUTE in *; lia.
  - intros Hne. destruct (E3 Hne Hsod) as [Hk' Hnext]; [apply Hsteady, Hrange|].
    eexists. split; [exact Hk'|]. split; [| exact Hnext].
    rewrite Hday by (assumption || lia). apply Hk, Hne.
Qed.




(** ** Python's [sorted] *)

Section SortedFacts.
Context {A : Type} (leb : A -> A -> bool).
Hypothesis leb_total : forall a b, leb a b = true \/ leb b a = true.
Hypothesis leb_trans : forall a b c, leb a b = true -> leb b c = true -> leb a c = true.

Lemma insert_sorted_perm x l : Permutation (Py.insert_sorted leb x l) (x :: l).
Proof.
  induction l as [|y l IH]; cbn; [reflexivity|].
  destruct (leb x y); [reflexivity|].
  rewrite IH. apply perm_swap.
Qed.

Lemma sorted_perm l : Permutation (Py.sorted leb l) l.
Proof.
  induction l as [|x l IH]; cbn; [reflexivity|].
  fold (Py.sorted leb l). rewrite insert_sorted_perm, IH. reflexivity.
Qed.

Lemma insert_sorted_sorted x l :
  StronglySorted (fun a b => leb a b = true) l ->
  StronglySorted (fun a b => leb a b = true) (Py.insert_sorted leb x l).
Proof.
  induction 1 as [|y l Hl IH Hy]; cbn.
  - constructor; constructor.
  - destruct (leb x y) eqn:Hxy.
    + constructor; [constructor; assumption|].
      constructor; [assumption|].
      eapply Forall_impl; [exact Hy|]. intros z Hz. eauto.
    + constructor; [assumption|].
      rewrite insert_sorted_perm.
      constructor; [| assumption].
      destruct (leb_total x y) as [H|H]; congruence.
Qed.

Lemma sorted_sorted l : StronglySorted (fun a b => leb a b = true) (Py.sorted leb l).
Proof.
  induction l as [|x l IH]; cbn; [constructor|].
  apply insert_sorted_sorted, IH.
Qed.

(** The head of [sorted(l)] is an element of [l] below every other. *)
Lemma sorted_head best rest l :
  Py.sorted leb l = best :: rest ->
  In best l /\ forall c, In c l -> leb best c = true.
Proof.
  intros Heq. pose proof (sorted_perm l) as Hp. pose proof (sorted_sorted l) as Hs.
  rewrite Heq in Hp, Hs. split.
  - eapply Permutation_in; [exact Hp | left; reflexivity].
  - intros c Hc. apply (Permutation_in _ (Permutation_sym Hp)) in Hc.
    destruct Hc as [<- | Hc].
    + destruct (leb_total best best); assumption.
    + inversion Hs as [|? ? _ Hall]; subst.
      rewrite List.Forall_forall in Hall. auto.
Qed.

Lemma sorted_nil l : Py.sorted leb l = [] -> l = [].
Proof.
  intros Heq. pose proof (sorted_perm l) as Hp. rewrite Heq in Hp.
  apply Permutation_nil in Hp. exact Hp.
Qed.
End SortedFacts.

Lemma datetime_leb_total a b : pendulum.leb a b = true \/ pendulum.leb b a = true.
Proof. unfold pendulum.leb. rewrite !Z.leb_le. lia. Qed.

Lemma datetime_leb_trans a b c :
  pendulum.leb a b = true -> pendulum.leb b c = true -> pendulum.leb a c = true.
Proof. unfold pendulum.leb. rewrite !Z.leb_le. lia. Qed.

(** ** List comprehensions that may raise *)

Lemma mapM_map {A B} (f : A -> outcome B) (g : A -> B) l :
  (forall x, In x l -> f x = Ok (g x)) -> mapM f l = Ok (map g l).
Proof.
  induction l as [|x l IH]; intros H; cbn; [reflexivity|].
  rewrite (H x) by (left; reflexivity). cbn.
  rewrite IH by (intros y Hy; apply H; right; exact Hy). reflexivity.
Qed.

Lemma mapM_total {A B} (f : A -> outcome B) l :
  (forall x, In x l -> exists y, f x = Ok y) ->
  exists ys, mapM f l = Ok ys
             /\ forall y, In y ys <-> exists x, In x l /\ f x = Ok y.
Proof.
  induction l as [|x l IH]; intros H; cbn.
  - exists []. split; [reflexivity|]. intros y; split; [intros [] | intros (x & [] & _)].
  - destruct (H x (or_introl eq_refl)) as (y & Hy).
    destruct IH as (ys & Hys & Hin); [intros z Hz; apply H; right; exact Hz|].
    exists (y :: ys). rewrite Hy, Hys. split; [reflexivity|].
    intros z; split.
    + intros [<- | Hz]; [exists x; split; [left; reflexivity | exact Hy]|].
      apply Hin in Hz as (x' & Hx' & Hfx'). exists x'. split; [right|]; assumption.
    + intros (x' & [<- | Hx'] & Hfx'); [left; congruence|].
      right. apply Hin. exists x'. split; assumption.
Qed.

(** ** Schedule *)

Section ScheduleFacts.
Context (tzdata : str -> pendulum.Timezone).

Lemma is_allowed_at_iff (s : Schedule.t) (moment : pendulum.DateTime) :
  let m := pendulum.in_tz tzdata moment (Schedule.tz s) in
  Schedule.is_allowed_at tzdata s moment = true <->
  (exists w, In w (Schedule.allowed s) /\ WeekdayInterval.contains w m = true)
  /\ (forall w, In w (Schedule.forbidden s) -> WeekdayInterval.contains w m = false).
Proof.
  intros m. unfold Schedule.is_allowed_at. fold m.
  rewrite andb_true_iff, negb_true_iff, existsb_exists.
  split; intros [Ha Hf]; (split; [exact Ha|]).
  - intros w Hw. destruct (WeekdayInterval.contains w m) eqn:Hc; [|reflexivity].
    assert (Hex : existsb (fun wi => WeekdayInterval.contains wi m) (Schedule.forbidden s) = true)
      by (apply existsb_exists; exists w; split; assumption).
    congruence.
  - destruct (existsb _ (Schedule.forbidden s)) eqn:Hex; [|reflexivity].
    apply existsb_exists in Hex as (w & Hw & Hc). rewrite (Hf w Hw) in Hc. discriminate.
Qed.

Lemma schedule_valid_in (s : Schedule.t) :
  Schedule.valid s = true ->
  (forall w, In w (Schedule.allowed s) -> WeekdayInterval.valid w = true)
  /\ (forall w, In w (Schedule.forbidden s) -> WeekdayInterval.valid w = true).
Proof.
  unfold Schedule.valid. rewrite andb_true_iff, !forallb_forall. tauto.
Qed.

(** The search of [next_moment_allowed_after], on a schedule of valid
    WeekdayIntervals: the candidates are computed without failure, those
    that are not allowed are dropped, the others are sorted and the first
    is taken. *)
Lemma next_moment_allowed_after_unfold (s : Schedule.t) (moment : pendulum.DateTime) :
  Schedule.valid s = true ->
  let m := pendulum.in_tz tzdata moment (Schedule.tz s) in
  exists candidates,
    (forall c, In c candidates <-> is_candidate s m c)
    /\ Schedule.next_moment_allowed_after tzdata s moment
       = ScheduleError_handle_errors $"no allowed intervals in the schedule"
           (unpack_first
              (Py.sorted pendulum.leb
                 (List.filter (Schedule.is_allowed_at tzdata s) candidates))).
Proof.
  intros Hs m. destruct (schedule_valid_in s Hs) as [Ha Hf].
  destruct (mapM_total (fun wdi => WeekdayInterval.next_start_after wdi m) (Schedule.allowed s))
    as (starts & Hstarts & Hin_s).
  { intros w Hw. destruct (next_after_total w m (Ha w Hw)) as [(r & Hr & _) _].
    exists r. exact Hr. }
  destruct (mapM_total (fun wdi => WeekdayInterval.next_end_after wdi m) (Schedule.forbidden s))
    as (ends & Hends & Hin_e).
  { intros w Hw. destruct (next_after_total w m (Hf w Hw)) as [_ (r & Hr & _)].
    exists r. exact Hr. }
  exists ([m] ++ starts ++ ends). split.
  - intros c. unfold is_candidate. rewrite !in_app_iff, Hin_s, Hin_e. cbn.
    intuition (subst; auto).
  - unfold Schedule.next_moment_allowed_after. fold m.
    rewrite Hstarts. cbn [bind]. rewrite Hends. reflexivity.
Qed.

(** What the search returns, in terms of the candidates. *)
Lemma next_moment_allowed_after_cases (s : Schedule.t) (moment : pendulum.DateTime) :
  Schedule.valid s = true ->
  let m := pendulum.in_tz tzdata moment (Schedule.tz s) in
  ((forall c, is_candidate s m c -> Schedule.is_allowed_at tzdata s c = false) ->
   Schedule.next_moment_allowed_after tzdata s moment = Raise no_allowed_intervals)
  /\ ((exists c, is_candidate s m c /\ Schedule.is_allowed_at tzdata s c = true) ->
      exists best,
        Schedule.next_moment_allowed_after tzdata s moment = Ok best
        /\ is_candidate s m best
        /\ Schedule.is_allowed_at tzdata s best = true
        /\ forall c, is_candidate s m c -> Schedule.is_allowed_at tzdata s c = true ->
                     pendulum.timestamp best <= pendulum.timestamp c).
Proof.
  intros Hs m.
  destruct (next_moment_allowed_after_unfold s moment Hs) as (cands & Hin & Heq).
  fold m in Hin. rewrite Heq. clear Heq.
  destruct (Py.sorted pendulum.leb (List.filter (Schedule.is_allowed_at tzdata s) cands))
    as [|best rest] eqn:Hsorted; cbn [unpack_first ScheduleError_handle_errors].
  - apply sorted_nil in Hsorted. split; [reflexivity|].
    intros (c & Hc & Hallowed). exfalso.
    assert (Hf : In c (List.filter (Schedule.is_allowed_at tzdata s) cands))
      by (apply filter_In; split; [apply Hin|]; assumption).
    rewrite Hsorted in Hf. destruct Hf.
  - apply (sorted_head pendulum.leb datetime_leb_total datetime_leb_trans) in Hsorted
      as [Hbest Hmin].
    apply filter_In in Hbest as [Hbest Hallowed]. split.
    + intros Hnone. rewrite (Hnone best) in Hallowed by (apply Hin; exact Hbest).
      discriminate.
    + intros _. exists best. repeat split; [apply Hin; exact Hbest | exact Hallowed |].
      intros c Hc Hca. apply Z.leb_le. apply (Hmin c).
      apply filter_In. split; [apply Hin|]; assumption.
Qed.
End ScheduleFacts.

(** C2.  [is_allowed_at] converts the moment to the schedule's zone and is
    true exactly when the converted moment lies in at least one allowed
    WeekdayInterval and in no forbidden one; a forbidden interval that
    contains the moment overrides every allowed one, and the order of the
    entries of the two lists does not matter. *)
Theorem is_allowed_at_spec (tzdata : str -> pendulum.Timezone) :
  (forall (s : Schedule.t) (moment : pendulum.DateTime),
      let m := pendulum.in_tz tzdata moment (Schedule.tz s) in
      Schedule.is_allowed_at tzdata s moment = true <->
      (exists w, In w (Schedule.allowed s) /\ WeekdayInterval.contains w m = true)
      /\ (forall w, In w (Schedule.forbidden s) -> WeekdayInterval.contains w m = false))
  /\ (forall (s : Schedule.t) (moment : pendulum.DateTime) (w : WeekdayInterval.t),
         In w (Schedule.forbidden s) ->
         WeekdayInterval.contains w (pendulum.in_tz tzdata moment (Schedule.tz s)) = true ->
         Schedule.is_allowed_at tzdata s moment = false)
  /\ (forall (s s' : Schedule.t) (moment : pendulum.DateTime),
         Permutation (Schedule.allowed s) (Schedule.allowed s') ->
         Permutation (Schedule.forbidden s) (Schedule.forbidden s') ->
         Schedule.tz s = Schedule.tz s' ->
         Schedule.is_allowed_at tzdata s moment = Schedule.is_allowed_at tzdata s' moment).
Proof.
  split; [exact (is_allowed_at_iff tzdata)|]. split.
  - intros s moment w Hw Hc.
    destruct (Schedule.is_allowed_at tzdata s moment) eqn:Ha; [|reflexivity].
    apply is_allowed_at_iff in Ha as [_ Hf]. rewrite (Hf w Hw) in Hc. discriminate.
  - intros s s' moment Hpa Hpf Htz.
    apply eq_true_iff_eq. rewrite !is_allowed_at_iff, Htz.
    split; intros [(w & Hw & Hc) Hf]; split.
    + exists w. split; [eapply Permutation_in; eassumption | exact Hc].
    + intros w' Hw'. apply Hf. eapply Permutation_in; [symmetry|]; eassumption.
    + exists w. split; [eapply Permutation_in; [symmetry|]; eassumption | exact Hc].
    + intros w' Hw'. apply Hf. eapply Permutation_in; eassumption.
Qed.



(** C9.  A schedule whose allowed list is empty allows no moment, whatever
    its forbidden list holds, and so (its WeekdayIntervals being valid) has
    no next allowed moment: the search raises the schedule-evaluation error.
    The parser accepts such a schedule: a text with FORBID agendas only. *)
Theorem schedule_without_allowed_spec (tzdata : str -> pendulum.Timezone) :
  (forall (s : Schedule.t) (moment : pendulum.DateTime),
      Schedule.allowed s = [] -> Schedule.is_allowed_at tzdata s moment = false)
  /\ (forall (s : Schedule.t) (moment : pendulum.DateTime),
         Schedule.allowed s = [] -> Schedule.valid s = true ->
         Schedule.next_moment_allowed_after tzdata s moment = Raise no_allowed_intervals)
  /\ from_dsl $"UTC" $"monday-tue forbid 0800-2000 2200" $"UTC"
     = Ok (Schedule.Build []
             (weekday_intervals_of
                [Interval.Build (Time.Build 8 0) (Time.Build 20 0);
                 Interval.Build (Time.Build 22 0) Time.end_of_day] [1; 2])
             $"UTC").
Proof.
  assert (Hnever : forall s moment,
             Schedule.allowed s = [] -> Schedule.is_allowed_at tzdata s moment = false).
  { intros s moment Hs. unfold Schedule.is_allowed_at. rewrite Hs. reflexivity. }
  split; [exact Hnever|]. split.
  - intros s moment Hs Hv. apply (next_moment_allowed_after_cases tzdata s moment Hv).
    intros c _. apply Hnever, Hs.
  - vm_compute. reflexivity.
Qed.

Lemma schedule_without_allowed_spec_witness :
  let s := Schedule.Build []
             [WeekdayInterval.Build 3 (Interval.Build Time.start_of_day Time.end_of_day)]
             $"UTC" in
  Schedule.allowed s = [] /\ Schedule.valid s = true
  /\ Schedule.is_allowed_at (fun _ => pendulum.UTC) s (moment_at 3 12 0) = false
  /\ Schedule.next_moment_allowed_after (fun _ => pendulum.UTC) s (moment_at 3 12 0)
     = Raise no_allowed_intervals.
Proof.
  intros s. split; [reflexivity|]. split; [reflexivity|].
  destruct (schedule_without_allowed_spec (fun _ => pendulum.UTC)) as (H1 & H2 & _). split.
  - apply H1. reflexivity.
  - apply H2; reflexivity.
Defined.

(** ** Building a schedule *)

Lemma product_weekday_intervals (intervals : list Interval.t) (days : list Z) :
  map (fun '(interval, day_of_week) => WeekdayInterval.Build day_of_week interval)
      (Schedule.product intervals days)
  = weekday_intervals_of intervals days.
Proof.
  unfold Schedule.product, weekday_intervals_of.
  induction intervals as [|i rest IH]; cbn; [reflexivity|].
  rewrite map_app, map_map, IH. reflexivity.
Qed.

Lemma in_product {A B} (a : list A) (b : list B) x y :
  In (x, y) (Schedule.product a b) -> In x a /\ In y b.
Proof.
  unfold Schedule.product. rewrite in_flat_map. intros (x' & Hx' & Hin).
  apply in_map_iff in Hin as (y' & [= <- <-] & Hy'). split; assumption.
Qed.

Lemma length_weekday_intervals_of (intervals : list Interval.t) (days : list Z) :
  length (weekday_intervals_of intervals days) = (length intervals * length days)%nat.
Proof.
  unfold weekday_intervals_of.
  induction intervals as [|i rest IH]; cbn; [reflexivity|].
  rewrite length_app, length_map, IH. reflexivity.
Qed.

(** A list comprehension raises what its first failing element raises. *)
Lemma mapM_raise {A B} (f : A -> outcome B) (e : exn) l x :
  (forall y, In y l -> (exists b, f y = Ok b) \/ f y = Raise e) ->
  In x l -> f x = Raise e -> mapM f l = Raise e.
Proof.
  induction l as [|y l IH]; intros Hall Hx Hfx; [destruct Hx|].
  cbn [mapM]. destruct (Hall y (or_introl eq_refl)) as [(b & Hb) | Hb]; rewrite Hb; cbn [bind];
    [| reflexivity].
  destruct Hx as [-> | Hx]; [congruence|].
  rewrite IH; [reflexivity | | exact Hx | exact Hfx].
  intros z Hz. apply Hall. right. exact Hz.
Qed.

Lemma product_in {A B} (a : list A) (b : list B) x y :
  In x a -> In y b -> In (x, y) (Schedule.product a b).
Proof.
  intros Hx Hy. unfold Schedule.product. apply in_flat_map. exists x. split; [exact Hx|].
  apply in_map. exact Hy.
Qed.

(** C10.  For days of the week (0 to 6), [add_agenda_on_days] appends one
    WeekdayInterval per pair of the product of the agenda's intervals (outer)
    and the days (inner): to the allowed list when the directive is ALLOW,
    leaving the forbidden list and the zone as they are, and to the forbidden
    list when it is FORBID, leaving the allowed list and the zone as they are.
    What the lists held stays in place, in front of the new entries.  When a
    day is not a day of the week and the agenda has an interval, the
    validation of the WeekdayInterval raises and nothing is appended. *)
Theorem add_agenda_on_days_spec (s : Schedule.t) (agenda : Agenda.t) (days : list Z) :
  ((forall d, In d days -> 0 <= d <= 6) ->
   let added := weekday_intervals_of (Agenda.intervals agenda) days in
   length added = (length (Agenda.intervals agenda) * length days)%nat
   /\ (Agenda.directive agenda = Directive.ALLOW ->
       Schedule.add_agenda_on_days s agenda days
       = Ok (Schedule.Build (Schedule.allowed s ++ added) (Schedule.forbidden s)
                            (Schedule.tz s)))
   /\ (Agenda.directive agenda = Directive.FORBID ->
       Schedule.add_agenda_on_days s agenda days
       = Ok (Schedule.Build (Schedule.allowed s) (Schedule.forbidden s ++ added)
                            (Schedule.tz s))))
  /\ (Agenda.intervals agenda <> [] ->
      (exists d, In d days /\ ~ 0 <= d <= 6) ->
      Schedule.add_agenda_on_days s agenda days
      = Raise (ValueError $"validation error for WeekdayInterval")).
Proof.
  split.
  - intros Hdays added.
    assert (Hmap : mapM (fun '(interval, day_of_week) =>
                           WeekdayInterval.make day_of_week interval)
                        (Schedule.product (Agenda.intervals agenda) days)
                   = Ok added).
    { subst added. rewrite <- product_weekday_intervals. apply mapM_map.
      intros [i d] Hin. apply in_product in Hin as [_ Hd]. apply Hdays in Hd.
      unfold WeekdayInterval.make.
      replace ((0 <=? d) && (d <=? 6)) with true; [reflexivity|].
      symmetry. apply andb_true_iff. split; apply Z.leb_le; lia. }
    split; [apply length_weekday_intervals_of|].
    split; intros Hdir; unfold Schedule.add_agenda_on_days; rewrite Hmap, Hdir; reflexivity.
  - intros Hsome (d & Hd & Hout). unfold Schedule.add_agenda_on_days.
    destruct (Agenda.intervals agenda) as [|i rest] eqn:Hi; [congruence|].
    rewrite (mapM_raise _ (ValueError $"validation error for WeekdayInterval") _ (i, d));
      [reflexivity | | apply product_in; [left; reflexivity | exact Hd] |].
    + intros [i' d'] _. unfold WeekdayInterval.make.
      destruct ((0 <=? d') && (d' <=? 6)); [left; eexists; reflexivity | right; reflexivity].
    + unfold WeekdayInterval.make.
      replace ((0 <=? d) && (d <=? 6)) with false; [reflexivity|].
      symmetry. apply andb_false_iff.
      destruct (Z_lt_dec d 0); [left; apply Z.leb_gt | right; apply Z.leb_gt]; lia.
Qed.

(** Days 1 and 7: 7 is no day of the week, the WeekdayInterval for it is
    refused, and the schedule gets no new entry. *)
Lemma add_agenda_on_days_day_out_of_range :
  let s := Schedule.new $"UTC" in
  let agenda := Agenda.Build [Interval.Build Time.start_of_day Time.end_of_day]
                             Directive.ALLOW in
  Schedule.add_agenda_on_days s agenda [1; 7]
  = Raise (ValueError $"validation error for WeekdayInterval")
  /\ Schedule.add_agenda_on_days s agenda [1; 7]
     <> Ok (Schedule.Build
              (Schedule.allowed s ++ weekday_intervals_of (Agenda.intervals agenda) [1; 7])
              (Schedule.forbidden s) (Schedule.tz s)).
Proof. split; [reflexivity | discriminate]. Qed.

Lemma add_agenda_on_days_spec_witness :
  let s := Schedule.Build
             [WeekdayInterval.Build 0 (Interval.Build Time.start_of_day Time.end_of_day)]
             [] $"UTC" in
  let agenda := Agenda.Build [Interval.Build (Time.Build 8 0) (Time.Build 20 0);
                              Interval.Build (Time.Build 22 0) (Time.Build 23 0)]
                             Directive.FORBID in
  (forall d, In d [1; 2; 3] -> 0 <= d <= 6)
  /\ Schedule.add_agenda_on_days s agenda [1; 2; 3]
     = Ok (Schedule.Build (Schedule.allowed s)
             (Schedule.forbidden s ++ weekday_intervals_of (Agenda.intervals agenda) [1; 2; 3])
             (Schedule.tz s))
  /\ Schedule.add_agenda_on_days s agenda [1; 2; 9]
     = Raise (ValueError $"validation error for WeekdayInterval").
Proof.
  intros s agenda.
  assert (Hdays : forall d, In d [1; 2; 3] -> 0 <= d <= 6) by (cbn; intros d H; lia).
  split; [exact Hdays|]. split.
  - apply (proj1 (add_agenda_on_days_spec s agenda [1; 2; 3]) Hdays). reflexivity.
  - apply (proj2 (add_agenda_on_days_spec s agenda [1; 2; 9])); [discriminate|].
    exists 9. split; [cbn; tauto | lia].
Defined.

(** ** Trie *)

Lemma lower_char_idem c : Py.lower_char (Py.lower_char c) = Py.lower_char c.
Proof. destruct c as [[] [] [] [] [] [] [] []]; reflexivity. Qed.

Lemma lower_idem s : Py.lower (Py.lower s) = Py.lower s.
Proof.
  unfold Py.lower. rewrite map_map. apply map_ext. intros c. apply lower_char_idem.
Qed.

Lemma lower_app a b : Py.lower (a ++ b) = Py.lower a ++ Py.lower b.
Proof. apply map_app. Qed.

Lemma length_lower s : length (Py.lower s) = length s.
Proof. apply length_map. Qed.

(** A prefix of a lower-case string is in lower case. *)
Lemma lower_prefix p k : p `prefix_of` Py.lower k -> Py.lower p = p.
Proof.
  intros [r Hr]. pose proof (lower_idem k) as Hk. rewrite Hr, lower_app in Hk.
  apply app_inj_1 in Hk; [tauto | apply length_lower].
Qed.

Lemma code_inj a b : Py.code a = Py.code b -> a = b.
Proof.
  unfold Py.code. intros H%N2Z.inj.
  rewrite <- (ascii_N_embedding a), <- (ascii_N_embedding b), H. reflexivity.
Qed.

Lemma char_leb_total a b : Py.char_leb a b = true \/ Py.char_leb b a = true.
Proof. unfold Py.char_leb. rewrite !Z.leb_le. lia. Qed.

Lemma char_leb_trans a b c :
  Py.char_leb a b = true -> Py.char_leb b c = true -> Py.char_leb a c = true.
Proof. unfold Py.char_leb. rewrite !Z.leb_le. lia. Qed.

(** Sorted without repetition is strictly sorted. *)
Lemma strictly_sorted (l : list ascii) :
  StronglySorted (fun a b => Py.char_leb a b = true) l -> List.NoDup l ->
  StronglySorted (fun a b => Py.code a < Py.code b) l.
Proof.
  induction 1 as [|x l Hl IH Hx]; intros Hnd; [constructor|].
  inversion Hnd as [|? ? Hnotin Hnd']; subst.
  constructor; [apply IH, Hnd'|].
  rewrite List.Forall_forall in Hx |- *. intros y Hy.
  specialize (Hx y Hy). unfold Py.char_leb in Hx. apply Z.leb_le in Hx.
  destruct (Z.eq_dec (Py.code x) (Py.code y)) as [Heq%code_inj|]; [| lia].
  subst y. contradiction.
Qed.

Lemma char_keys_in (n : Trie.node) c :
  In c (Trie.char_keys n) <-> is_Some (Trie.children n !! c).
Proof.
  unfold Trie.char_keys. rewrite <- list_elem_of_In, list_elem_of_fmap. split.
  - intros ([k v] & -> & Hin). apply elem_of_map_to_list in Hin. cbn. eauto.
  - intros [v Hv]. exists (c, v). split; [reflexivity|]. apply elem_of_map_to_list, Hv.
Qed.

Lemma sorted_char_keys (n : Trie.node) :
  StronglySorted (fun a b => Py.code a < Py.code b) (Py.sorted Py.char_leb (Trie.char_keys n)).
Proof.
  apply strictly_sorted.
  - apply sorted_sorted; [apply char_leb_total | apply char_leb_trans].
  - apply (Permutation.Permutation_NoDup (l := Trie.char_keys n)).
    + symmetry. apply sorted_perm.
    + apply NoDup_ListNoDup, NoDup_fst_map_to_list.
Qed.

Lemma chars_after_loop_sorted s : forall n,
  StronglySorted (fun a b => Py.code a < Py.code b) (Trie.chars_after_loop n s).
Proof.
  induction s as [|c s IH]; intros n; cbn.
  - apply sorted_char_keys.
  - destruct (Trie.children n !! c); [apply IH | constructor].
Qed.

(** The characters after a path are the one-character extensions of the
    path that are paths too. *)
Lemma chars_after_loop_in s : forall n c,
  In c (Trie.chars_after_loop n s) <-> Trie.contains_prefix_loop n (s ++ [c]) = true.
Proof.
  induction s as [|a s IH]; intros n c; cbn.
  - transitivity (In c (Trie.char_keys n)).
    { split; apply Permutation_in; [| symmetry]; apply sorted_perm. }
    rewrite char_keys_in.
    destruct (Trie.children n !! c); split; intros H;
      solve [reflexivity | eauto | discriminate | destruct H; discriminate].
  - destruct (Trie.children n !! a); [apply IH|]. split; [intros [] | discriminate].
Qed.

Lemma chars_after_loop_no_path s : forall n,
  Trie.contains_prefix_loop n s = false -> Trie.chars_after_loop n s = [].
Proof.
  induction s as [|a s IH]; intros n; cbn; [discriminate|].
  destruct (Trie.children n !! a); [apply IH | reflexivity].
Qed.

(** [max_match_for] stops at the longest prefix that is a path. *)
Lemma max_match_for_loop_spec s : forall n buffer,
  exists k, (k <= length s)%nat
    /\ Trie.max_match_for_loop n buffer s = buffer ++ take k s
    /\ Trie.contains_prefix_loop n (take k s) = true
    /\ forall m, (k < m <= length s)%nat -> Trie.contains_prefix_loop n (take m s) = false.
Proof.
  induction s as [|a s IH]; intros n buffer.
  - exists 0%nat. cbn. rewrite app_nil_r. repeat split; [lia | intros m; lia].
  - cbn [Trie.max_match_for_loop]. destruct (Trie.children n !! a) as [nxt|] eqn:Hlook.
    + destruct (IH nxt (buffer ++ [a])) as (k & Hk & Heq & Hpath & Hmax).
      exists (S k). cbn [take length firstn Trie.contains_prefix_loop]. rewrite Hlook.
      repeat split; [lia | rewrite Heq, <- app_assoc; reflexivity | exact Hpath |].
      intros [|m] Hm; [lia|]. cbn. rewrite Hlook. apply Hmax. lia.
    + exists 0%nat. cbn [take length firstn Trie.contains_prefix_loop].
      rewrite app_nil_r. repeat split; [lia|].
      intros [|m] Hm; [lia|]. cbn. rewrite Hlook. reflexivity.
Qed.

(** The paths of a trie after [add]: the paths it had, and the prefixes of
    the string added. *)
Lemma add_loop_paths s : forall n p,
  Trie.contains_prefix_loop (Trie.add_loop n s) p = true
  <-> Trie.contains_prefix_loop n p = true \/ p `prefix_of` s.
Proof.
  induction s as [|a s IH]; intros n p.
  - cbn. destruct p as [|c p]; cbn.
    + split; [left; reflexivity | reflexivity].
    + split; [left; assumption | intros [H | H%prefix_nil_inv]; [assumption | discriminate]].
  - destruct p as [|c p]; cbn.
    + split; [left; reflexivity | reflexivity].
    + destruct (decide (a = c)) as [->|Hne].
      * rewrite lookup_insert_eq, IH.
        destruct (Trie.children n !! c) as [nxt|] eqn:Hlook.
        -- split; (intros [H | H]; [left; exact H | right]).
           ++ apply prefix_cons, H.
           ++ apply prefix_cons_inv_2 in H. exact H.
        -- split.
           ++ intros [H | H]; [| right; apply prefix_cons, H].
              destruct p; [right; apply prefix_cons, prefix_nil|].
              cbn in H. rewrite lookup_empty in H. discriminate.
           ++ intros [H | H]; [discriminate|]. right. apply prefix_cons_inv_2 in H. exact H.
      * rewrite lookup_insert_ne by exact Hne.
        split; [left; assumption|]. intros [H | H]; [assumption|].
        apply prefix_cons_inv_1 in H. congruence.
Qed.

Lemma fold_add_paths keywords : forall (t : Trie.t) p,
  Trie.contains_prefix_loop (Trie.root (fold_left Trie.add keywords t)) p = true
  <-> Trie.contains_prefix_loop (Trie.root t) p = true
      \/ exists k, In k keywords /\ p `prefix_of` Py.lower k.
Proof.
  induction keywords as [|k keywords IH]; intros t p; cbn [fold_left].
  - split; [left; assumption | intros [H | (k & [] & _)]; exact H].
  - rewrite IH. unfold Trie.add. cbn [Trie.root]. rewrite add_loop_paths. split.
    + intros [[H | H] | (k' & Hk' & H)];
        [left; exact H | right; exists k | right; exists k']; auto using in_eq, in_cons.
    + intros [H | (k' & [<- | Hk'] & H)]; [left; left; exact H | left; right; exact H |].
      right. exists k'. split; assumption.
Qed.

(** The paths of [from_strings]: the empty one and the prefixes of the
    keywords, folded to lower case. *)
Lemma from_strings_paths keywords p :
  Trie.contains_prefix_loop (Trie.root (Trie.from_strings keywords)) p = true
  <-> p = [] \/ exists k, In k keywords /\ p `prefix_of` Py.lower k.
Proof.
  unfold Trie.from_strings. rewrite fold_add_paths.
  assert (Hnew : Trie.contains_prefix_loop (Trie.root Trie.new) p = true <-> p = []).
  { destruct p as [|c p]; cbn; [tauto|]. rewrite lookup_empty. split; discriminate. }
  rewrite Hnew. reflexivity.
Qed.

Lemma from_strings_paths_lower keywords p :
  Trie.contains_prefix_loop (Trie.root (Trie.from_strings keywords)) p = true ->
  Py.lower p = p.
Proof.
  intros [-> | (k & _ & Hp)]%from_strings_paths; [reflexivity|].
  eapply lower_prefix, Hp.
Qed.

(** C8.  With strings matched without regard to letter case, [chars_after]
    returns, in increasing order, the characters that extend the path of the
    string to a path of the trie, and the empty list when the string has no
    path; [max_match_for] returns (in lower case) the longest prefix of the
    string that is a path of the trie, terminal or not, and the empty string
    when the first character already has no path.  In a trie built from
    keywords the paths are the prefixes of the keywords.  Over prefix,
    prerelease and preordain the characters after pre are f, o, r; over
    prefix and preface the longest match for prefrontal is pref. *)
Theorem trie_chars_after_max_match_for_spec :
  (forall (t : Trie.t) (s : str),
      StronglySorted (fun a b => Py.code a < Py.code b) (Trie.chars_after t s)
      /\ (forall c, In c (Trie.chars_after t s)
                    <-> Trie.contains_prefix_loop (Trie.root t) (Py.lower s ++ [c]) = true)
      /\ (Trie.contains_prefix t s = false -> Trie.chars_after t s = [])
      /\ (exists n, (n <= length s)%nat
            /\ Trie.max_match_for t s = Py.lower (take n s)
            /\ Trie.contains_prefix t (take n s) = true
            /\ forall m, (n < m <= length s)%nat ->
                         Trie.contains_prefix t (take m s) = false)
      /\ (forall c rest, s = c :: rest -> Trie.contains_prefix t [c] = false ->
                         Trie.max_match_for t s = []))
  /\ (forall (keywords : list str) (s : str) (c : ascii),
         let t := Trie.from_strings keywords in
         (In c (Trie.chars_after t s)
          <-> Py.lower_char c = c /\ Trie.contains_prefix t (s ++ [c]) = true)
         /\ (Trie.contains_prefix t s = true
             <-> s = [] \/ exists k, In k keywords /\ Py.lower s `prefix_of` Py.lower k))
  /\ Trie.chars_after (Trie.from_strings [$"prefix"; $"prerelease"; $"preordain"]) $"pre"
     = ["f"%char; "o"%char; "r"%char]
  /\ Trie.chars_after (Trie.from_strings [$"prefix"; $"prerelease"; $"preordain"]) $"q" = []
  /\ Trie.max_match_for (Trie.from_strings [$"prefix"; $"preface"]) $"prefrontal" = $"pref"
  /\ Trie.max_match_for (Trie.from_strings [$"prefix"; $"preface"]) $"zzzz" = [].
Proof.
  split; [| split; [| repeat split; vm_compute; reflexivity]].
  - intros t s. unfold Trie.chars_after, Trie.contains_prefix, Trie.max_match_for.
    split; [apply chars_after_loop_sorted|].
    split; [intros c; apply chars_after_loop_in|].
    split; [apply chars_after_loop_no_path|].
    split.
    + destruct (max_match_for_loop_spec (Py.lower s) (Trie.root t) [])
        as (k & Hk & Heq & Hpath & Hmax).
      rewrite length_lower in Hk, Hmax.
      exists k. unfold Py.lower in *. rewrite <- !firstn_map.
      split; [exact Hk|]. split; [exact Heq|]. split; [exact Hpath|].
      intros m Hm. rewrite <- firstn_map. apply Hmax, Hm.
    + intros c rest -> Hc. cbn in *.
      destruct (Trie.children (Trie.root t) !! Py.lower_char c); [discriminate | reflexivity].
  - intros keywords s c t. split.
    + unfold Trie.chars_after, Trie.contains_prefix.
      rewrite chars_after_loop_in, lower_app. cbn [Py.lower map]. split.
      * intros Hpath. pose proof (from_strings_paths_lower _ _ Hpath) as Hlow.
        rewrite lower_app, lower_idem in Hlow. apply app_inv_head in Hlow.
        injection Hlow as Hc. rewrite Hc. split; [reflexivity | exact Hpath].
      * intros [-> Hpath]. exact Hpath.
    + unfold Trie.contains_prefix. subst t. rewrite from_strings_paths.
      split; (intros [H | H]; [left | right; exact H]).
      * destruct s; [reflexivity | discriminate].
      * subst s. reflexivity.
Qed.

(** ** Lexer *)

Lemma next_char_ok (lexer : Lexer.t) :
  -1 <= Lexer.column lexer ->
  exists lexer1,
    Lexer.next_char lexer = Ok lexer1
    /\ Lexer.char lexer1 = lookahead lexer 1
    /\ -1 <= Lexer.column lexer1
    /\ (forall k, lookahead lexer1 k = lookahead lexer (k + 1))
    /\ Lexer.position lexer1 = Lexer.position lexer
    /\ Lexer.lineno lexer1 = Lexer.lineno lexer
    /\ Lexer.token lexer1 = Lexer.token lexer.
Proof.
  destruct lexer as [src ws eol line ch ln col tok pos]. cbn. intros Hcol.
  unfold Lexer.next_char, lookahead. cbn. destruct line as [|c0 line'].
  - eexists. split; [reflexivity|]. cbn. repeat split. lia.
  - remember (c0 :: line') as line eqn:Hline.
    assert (Hshift : forall k, col + 1 + k = col + (k + 1)) by (intros; lia).
    destruct (col + 1 >=? Py.len line) eqn:Hend.
    + eexists. split; [reflexivity|]. cbn.
      repeat split; [lia|]. intros k. rewrite Hshift, Hline. reflexivity.
    + assert (Hin : 0 <= col + 1 < Py.len line) by lia.
      destruct (Py.getitem line (col + 1)) as [c|] eqn:Hget.
      * eexists. split; [reflexivity|]. cbn.
        repeat split; [lia|]. intros k. rewrite Hshift, Hline. reflexivity.
      * exfalso. unfold Py.getitem in Hget.
        replace ((0 <=? col + 1) && (col + 1 <? Py.len line)) with true in Hget
          by (symmetry; apply andb_true_iff; split; [apply Z.leb_le | apply Z.ltb_lt]; lia).
        apply nth_error_None in Hget. unfold Py.len in Hin. lia.
Qed.

Lemma hour_start_cases c1 :
  Py.char_in c1 Lexer.HOUR_STARTS = true -> c1 = "0"%char \/ c1 = "1"%char \/ c1 = "2"%char.
Proof.
  unfold Py.char_in, Lexer.HOUR_STARTS. cbn [list_ascii_of_string existsb].
  rewrite !orb_true_iff, !Ascii.eqb_eq. intuition discriminate.
Qed.

Lemma is_hour_end_digit c1 c :
  Py.char_in c1 Lexer.HOUR_STARTS = true ->
  Lexer.is_hour_end c (Some c1) = digit_upto (if Ascii.eqb c1 "2" then 3 else 9) c.
Proof.
  intros [-> | [-> | ->]]%hour_start_cases;
    (destruct c as [[[] [] [] [] [] [] [] []]|]; reflexivity).
Qed.

Lemma is_minute_start_digit c : Lexer.is_minute_start c = digit_upto 5 c.
Proof. destruct c as [[[] [] [] [] [] [] [] []]|]; reflexivity. Qed.

Lemma is_minute_end_digit c : Lexer.is_minute_end c = digit_upto 9 c.
Proof. destruct c as [[[] [] [] [] [] [] [] []]|]; reflexivity. Qed.

Lemma unexpected_char_error_expected {A} (lexer : Lexer.t) (expected : list ascii) :
  exists pre,
    @Lexer.unexpected_char_error A lexer (Some expected) 0
    = Raise (LexerError (pre ++ Lexer.expected_one_of (map Lexer.quoted expected))).
Proof. eexists. reflexivity. Qed.

(** The four outcomes of [time_token] on a lexer whose current character
    starts an hour. *)
Lemma time_token_cases (lexer : Lexer.t) (c1 : ascii) (pos : Position.t) :
  -1 <= Lexer.column lexer ->
  Lexer.char lexer = Some c1 ->
  Py.char_in c1 Lexer.HOUR_STARTS = true ->
  Lexer.position lexer = Some pos ->
  let c2 := lookahead lexer 1 in
  let c3 := lookahead lexer 2 in
  let c4 := lookahead lexer 3 in
  let hour_ends := if Ascii.eqb c1 "2" then Lexer.HOUR_ENDS_2X else Lexer.HOUR_ENDS in
  (Lexer.is_hour_end c2 (Some c1) = false ->
   exists pre, Lexer.time_token lexer
     = Raise (LexerError (pre ++ Lexer.expected_one_of (map Lexer.quoted hour_ends))))
  /\ (Lexer.is_hour_end c2 (Some c1) = true -> Lexer.is_minute_start c3 = false ->
      exists pre, Lexer.time_token lexer
        = Raise (LexerError (pre ++ Lexer.expected_one_of
                                      (map Lexer.quoted Lexer.MINUTE_STARTS))))
  /\ (Lexer.is_hour_end c2 (Some c1) = true -> Lexer.is_minute_start c3 = true ->
      Lexer.is_minute_end c4 = false ->
      exists pre, Lexer.time_token lexer
        = Raise (LexerError (pre ++ Lexer.expected_one_of
                                      (map Lexer.quoted Lexer.MINUTE_ENDS))))
  /\ (Lexer.is_hour_end c2 (Some c1) = true -> Lexer.is_minute_start c3 = true ->
      Lexer.is_minute_end c4 = true ->
      exists d2 d3 d4 lexer',
        c2 = Some d2 /\ c3 = Some d3 /\ c4 = Some d4
        /\ Lexer.time_token lexer = Ok lexer'
        /\ Lexer.token lexer' = Some (Token.Build TokenType.TIME [c1; d2; d3; d4] pos)).
Proof.
  intros Hcol Hchar Hstart Hpos c2 c3 c4 hour_ends.
  destruct (next_char_ok lexer Hcol) as (l1 & N1 & C1 & Hcol1 & A1 & P1 & _ & _).
  destruct (next_char_ok l1 Hcol1) as (l2 & N2 & C2 & Hcol2 & A2 & P2 & _ & _).
  destruct (next_char_ok l2 Hcol2) as (l3 & N3 & C3 & Hcol3 & A3 & P3 & _ & _).
  destruct (next_char_ok l3 Hcol3) as (l4 & N4 & C4 & Hcol4 & A4 & P4 & _ & _).
  assert (E2 : Lexer.char l1 = c2) by exact C1.
  assert (E3 : Lexer.char l2 = c3) by (rewrite C2, A1; reflexivity).
  assert (E4 : Lexer.char l3 = c4) by (rewrite C3, A2, A1; reflexivity).
  assert (Hexp : (if bool_decide (Some c1 = Some "2"%char)
                  then Lexer.HOUR_ENDS_2X else Lexer.HOUR_ENDS) = hour_ends).
  { subst hour_ends. destruct (hour_start_cases c1 Hstart) as [-> | [-> | ->]]; reflexivity. }
  assert (Hhour : Lexer.is_hour_end c2 (Some c1) = false ->
            exists pre, Lexer.hour_partial lexer
              = Raise (LexerError (pre ++ Lexer.expected_one_of (map Lexer.quoted hour_ends)))).
  { intros H. unfold Lexer.hour_partial. rewrite N1. cbn [bind].
    rewrite Hchar, E2, H. cbn [negb]. rewrite Hexp.
    apply unexpected_char_error_expected. }
  assert (Hhour' : forall d2, c2 = Some d2 -> Lexer.is_hour_end c2 (Some c1) = true ->
            Lexer.hour_partial lexer = Ok ([c1; d2], l2)).
  { intros d2 Hd2 H. unfold Lexer.hour_partial. rewrite N1. cbn [bind].
    rewrite Hchar, E2, H. cbn [negb]. rewrite Hd2. cbn [option_map Lexer.concat_chars bind].
    rewrite N2. reflexivity. }
  assert (Hsome : forall c f, f c = true ->
            (f = (fun c => Lexer.is_hour_end c (Some c1)) \/ f = Lexer.is_minute_start
             \/ f = Lexer.is_minute_end) -> exists d, c = Some d).
  { intros [d|] f Hf Hwhich; [eauto|].
    destruct Hwhich as [-> | [-> | ->]]; discriminate. }
  repeat split.
  - intros H. destruct (Hhour H) as [pre Hpre]. exists pre.
    unfold Lexer.time_token. rewrite Hpre. reflexivity.
  - intros H2 H3. destruct (Hsome c2 _ H2 (or_introl eq_refl)) as [d2 Hd2].
    unfold Lexer.time_token. rewrite (Hhour' d2 Hd2 H2). cbn [bind].
    unfold Lexer.minute_partial. rewrite E3, H3. cbn [negb].
    destruct (unexpected_char_error_expected (A := str * Lexer.t) l2 Lexer.MINUTE_STARTS)
      as [pre Hpre].
    rewrite Hpre. exists pre. reflexivity.
  - intros H2 H3 H4. destruct (Hsome c2 _ H2 (or_introl eq_refl)) as [d2 Hd2].
    unfold Lexer.time_token. rewrite (Hhour' d2 Hd2 H2). cbn [bind].
    unfold Lexer.minute_partial. rewrite E3, H3. cbn [negb].
    rewrite N3. cbn [bind]. rewrite E4, H4. cbn [negb].
    destruct (unexpected_char_error_expected (A := str * Lexer.t) l3 Lexer.MINUTE_ENDS)
      as [pre Hpre].
    rewrite Hpre. exists pre. reflexivity.
  - intros H2 H3 H4.
    destruct (Hsome c2 _ H2 (or_introl eq_refl)) as [d2 Hd2].
    destruct (Hsome c3 _ H3 (or_intror (or_introl eq_refl))) as [d3 Hd3].
    destruct (Hsome c4 _ H4 (or_intror (or_intror eq_refl))) as [d4 Hd4].
    exists d2, d3, d4. eexists. repeat split; try assumption.
    + unfold Lexer.time_token. rewrite (Hhour' d2 Hd2 H2). cbn [bind].
      unfold Lexer.minute_partial. rewrite E3, H3. cbn [negb].
      rewrite N3. cbn [bind]. rewrite E4, H4. cbn [negb].
      rewrite Hd3, Hd4. cbn [option_map Lexer.concat_chars bind].
      rewrite N4. cbn [bind]. unfold Lexer.make_token.
      rewrite P4, P3, P2, P1, Hpos. cbn [bind]. reflexivity.
    + reflexivity.
Qed.

Lemma digit_upto_code hi d :
  digit_upto hi (Some d) = true -> 48 <= Py.code d <= 48 + hi.
Proof. unfold digit_upto. rewrite andb_true_iff, !Z.leb_le. tauto. Qed.

(** [Time.from_string] on four digits reads the hour off the first two and
    the minute off the last two. *)
Lemma from_string_digits c1 c2 c3 c4 :
  Py.is_digit c1 = true -> Py.is_digit c2 = true ->
  Py.is_digit c3 = true -> Py.is_digit c4 = true ->
  Time.from_string [c1; c2; c3; c4]
  = Time.make (10 * (Py.code c1 - 48) + (Py.code c2 - 48))
              (10 * (Py.code c3 - 48) + (Py.code c4 - 48)).
Proof.
  intros H1 H2 H3 H4. unfold Time.from_string.
  change (Py.slice [c1; c2; c3; c4] 0 2) with [c1; c2].
  change (Py.slice_from [c1; c2; c3; c4] 2) with [c3; c4].
  unfold Py.int_of_str. cbn [forallb fold_left bind].
  rewrite H1, H2, H3, H4. cbn [andb bind].
  f_equal; lia.
Qed.

(** The lexeme of a TIME token denotes an hour of 00-23 and a minute of
    00-59. *)
Lemma time_lexeme_in_range c1 d2 d3 d4 :
  Py.char_in c1 Lexer.HOUR_STARTS = true ->
  digit_upto (if Ascii.eqb c1 "2" then 3 else 9) (Some d2) = true ->
  digit_upto 5 (Some d3) = true ->
  digit_upto 9 (Some d4) = true ->
  exists h m,
    Time.from_string [c1; d2; d3; d4] = Ok (Time.Build h m)
    /\ h = 10 * (Py.code c1 - 48) + (Py.code d2 - 48)
    /\ m = 10 * (Py.code d3 - 48) + (Py.code d4 - 48)
    /\ 0 <= h <= 23 /\ 0 <= m <= 59.
Proof.
  intros H1 H2%digit_upto_code H3%digit_upto_code H4%digit_upto_code.
  assert (Hc1 : 48 <= Py.code c1 <= 50
                /\ (Py.code c1 = 50 -> Py.code d2 <= 51)).
  { destruct (hour_start_cases c1 H1) as [-> | [-> | ->]].
    - change (Py.code "0") with 48. lia.
    - change (Py.code "1") with 49. lia.
    - change (Py.code "2") with 50. change (Ascii.eqb "2" "2") with true in H2. lia. }
  assert (Hd2 : 48 <= Py.code d2 <= 57).
  { destruct (Ascii.eqb c1 "2"); lia. }
  assert (Hdigit : forall c, 48 <= Py.code c <= 57 -> Py.is_digit c = true).
  { intros c Hc. unfold Py.is_digit. apply andb_true_iff. rewrite !Z.leb_le. lia. }
  do 2 eexists. split; [| split; [reflexivity | split; [reflexivity | lia]]].
  rewrite from_string_digits by (apply Hdigit; lia).
  unfold Time.make, Time.valid. cbn [Time.hour Time.minute].
  replace (_ && _ && _ && _) with true; [reflexivity|].
  symmetry. rewrite !andb_true_iff, !Z.leb_le. lia.
Qed.

Lemma skip_whitespace_stop (lexer : Lexer.t) :
  Lexer.char_is_whitespace lexer = false ->
  Lexer.char_is_end_of_line lexer = false ->
  Lexer.skip_whitespace (Lexer.fuel_of lexer) lexer = Ok lexer.
Proof.
  intros Hws Heol. unfold Lexer.fuel_of. rewrite Nat.add_succ_r.
  cbn [Lexer.skip_whitespace]. rewrite Hws, Heol. reflexivity.
Qed.

(** On a character that starts an hour, [next_token] is [time_token] at the
    marked position. *)
Lemma next_token_time (lexer : Lexer.t) (c1 : ascii) :
  Lexer.char lexer = Some c1 ->
  Py.char_in c1 Lexer.HOUR_STARTS = true ->
  Lexer.char_is_whitespace lexer = false ->
  Lexer.char_is_end_of_line lexer = false ->
  Lexer.next_token lexer
  = let* lexer' := Lexer.time_token (Lexer.mark_position (Lexer.set_token lexer None)) in
    match Lexer.token lexer' with
    | None => Lexer.unexpected_char_error lexer' None 0
    | Some _ => Ok lexer'
    end.
Proof.
  intros Hchar Hstart Hws Heol. unfold Lexer.next_token.
  rewrite skip_whitespace_stop by (destruct lexer; assumption).
  cbn [bind].
  replace (Lexer.char (Lexer.mark_position (Lexer.set_token lexer None)))
    with (Some c1) by (destruct lexer; symmetry; exact Hchar).
  destruct (hour_start_cases c1 Hstart) as [-> | [-> | ->]]; reflexivity.
Qed.

(** C7.  On a current character 0, 1 or 2, [next_token] gives a TIME token
    exactly when the next three characters are digits with the second in 0-3
    after a 2 and in 0-9 otherwise, the third in 0-5 and the fourth in 0-9;
    the lexeme then denotes an hour of 00-23 and a minute of 00-59.  The first
    character that breaks the rule raises a lexical error whose message ends
    with the list of the characters accepted at that place.  Lexing 0060 and
    2400 fails. *)
Theorem time_token_spec :
  (forall (lexer : Lexer.t) (c1 : ascii),
      -1 <= Lexer.column lexer ->
      Lexer.char lexer = Some c1 ->
      Py.char_in c1 $"012" = true ->
      Lexer.char_is_whitespace lexer = false ->
      Lexer.char_is_end_of_line lexer = false ->
      let c2 := lookahead lexer 1 in
      let c3 := lookahead lexer 2 in
      let c4 := lookahead lexer 3 in
      let hi := if Ascii.eqb c1 "2" then 3 else 9 in
      (digit_upto hi c2 = false ->
       exists pre, Lexer.next_token lexer
         = Raise (LexerError
                    (pre ++ if Ascii.eqb c1 "2"
                            then $"expected one of: '0', '1', '2', '3'"
                            else $"expected one of: '0', '1', '2', '3', '4', '5', '6', '7', '8', '9'")))
      /\ (digit_upto hi c2 = true -> digit_upto 5 c3 = false ->
          exists pre, Lexer.next_token lexer
            = Raise (LexerError (pre ++ $"expected one of: '0', '1', '2', '3', '4', '5'")))
      /\ (digit_upto hi c2 = true -> digit_upto 5 c3 = true -> digit_upto 9 c4 = false ->
          exists pre, Lexer.next_token lexer
            = Raise (LexerError
                       (pre ++ $"expected one of: '0', '1', '2', '3', '4', '5', '6', '7', '8', '9'")))
      /\ (digit_upto hi c2 = true -> digit_upto 5 c3 = true -> digit_upto 9 c4 = true ->
          exists d2 d3 d4 lexer' h m,
            c2 = Some d2 /\ c3 = Some d3 /\ c4 = Some d4
            /\ Lexer.next_token lexer = Ok lexer'
            /\ Lexer.token lexer'
               = Some (Token.Build TokenType.TIME [c1; d2; d3; d4]
                         (Position.Build (Lexer.column lexer) (Lexer.lineno lexer)))
            /\ Time.from_string [c1; d2; d3; d4] = Ok (Time.Build h m)
            /\ 0 <= h <= 23 /\ 0 <= m <= 59))
  /\ lexer_on $"0060"
     = Raise (LexerError
                ($"missing or unexpected character in input stream on line 0 column 2"
                 ++ [Lexer.NL; Lexer.NL] ++ $"     0060" ++ [Lexer.NL] ++ $"       ^"
                 ++ [Lexer.NL; Lexer.NL]
                 ++ $"expected one of: '0', '1', '2', '3', '4', '5'"))
  /\ lexer_on $"2400"
     = Raise (LexerError
                ($"missing or unexpected character in input stream on line 0 column 1"
                 ++ [Lexer.NL; Lexer.NL] ++ $"     2400" ++ [Lexer.NL] ++ $"      ^"
                 ++ [Lexer.NL; Lexer.NL]
                 ++ $"expected one of: '0', '1', '2', '3'"))
  /\ (exists lexer', lexer_on $"2359" = Ok lexer'
        /\ Lexer.token lexer'
           = Some (Token.Build TokenType.TIME $"2359" (Position.Build 0 0))).
Proof.
  split; [| split; [| split]].
  - intros lexer c1 Hcol Hchar Hstart Hws Heol c2 c3 c4 hi.
    change $"012" with Lexer.HOUR_STARTS in Hstart.
    rewrite (next_token_time lexer c1 Hchar Hstart Hws Heol).
    set (marked := Lexer.mark_position (Lexer.set_token lexer None)).
    destruct (time_token_cases marked c1
                (Position.Build (Lexer.column lexer) (Lexer.lineno lexer)))
      as (T1 & T2 & T3 & T4);
      try (subst marked; destruct lexer; solve [assumption | reflexivity]).
    replace (lookahead marked 1) with c2 in * by (subst marked; destruct lexer; reflexivity).
    replace (lookahead marked 2) with c3 in * by (subst marked; destruct lexer; reflexivity).
    replace (lookahead marked 3) with c4 in * by (subst marked; destruct lexer; reflexivity).
    rewrite (is_hour_end_digit c1 c2 Hstart) in *.
    rewrite is_minute_start_digit, is_minute_end_digit in *. fold hi in T1, T2, T3, T4.
    repeat split.
    + intros H2. destruct (T1 H2) as [pre ->]. exists pre. cbn [bind].
      destruct (Ascii.eqb c1 "2"); reflexivity.
    + intros H2 H3. destruct (T2 H2 H3) as [pre ->]. exists pre. reflexivity.
    + intros H2 H3 H4. destruct (T3 H2 H3 H4) as [pre ->]. exists pre. reflexivity.
    + intros H2 H3 H4.
      destruct (T4 H2 H3 H4) as (d2 & d3 & d4 & lexer' & E2 & E3 & E4 & Htok & Htoken).
      destruct (time_lexeme_in_range c1 d2 d3 d4 Hstart) as (h & m & Hfrom & _ & _ & Hh & Hm);
        try (rewrite <- ?E2, <- ?E3, <- ?E4; assumption).
      exists d2, d3, d4, lexer', h, m.
      rewrite Htok. cbn [bind]. rewrite Htoken. repeat split; assumption || lia.
  - vm_compute. reflexivity.
  - vm_compute. reflexivity.
  - eexists. split; vm_compute; reflexivity.
Qed.

Lemma time_token_spec_witness :
  let lexer := Lexer.Build [] $" " Lexer.NL $"1230" (Some "1"%char) 0 0 None None in
  -1 <= Lexer.column lexer
  /\ Lexer.char lexer = Some "1"%char
  /\ Py.char_in "1" $"012" = true
  /\ Lexer.char_is_whitespace lexer = false
  /\ Lexer.char_is_end_of_line lexer = false
  /\ exists d2 d3 d4 lexer' h m,
       lookahead lexer 1 = Some d2 /\ lookahead lexer 2 = Some d3
       /\ lookahead lexer 3 = Some d4
       /\ Lexer.next_token lexer = Ok lexer'
       /\ Lexer.token lexer'
          = Some (Token.Build TokenType.TIME ["1"%char; d2; d3; d4]
                    (Position.Build (Lexer.column lexer) (Lexer.lineno lexer)))
       /\ Time.from_string ["1"%char; d2; d3; d4] = Ok (Time.Build h m)
       /\ 0 <= h <= 23 /\ 0 <= m <= 59.
Proof.
  intros lexer. repeat (split; [first [reflexivity | cbn; lia]|]).
  apply (proj1 time_token_spec lexer "1"%char); first [reflexivity | cbn; lia].
Defined.

(** ** Parser *)

Lemma dow_int_map_range key d :
  Parser.dict_get Parser.dow_int_map key = Some d -> 0 <= d <= 6.
Proof.
  unfold Parser.dow_int_map. cbn [Parser.dict_get].
  repeat (destruct (Py.str_eqb _ key); [intros [= <-]; lia|]).
  discriminate.
Qed.

Lemma day_cases d : 0 <= d <= 6 -> d = 0 \/ d = 1 \/ d = 2 \/ d = 3 \/ d = 4 \/ d = 5 \/ d = 6.
Proof. lia. Qed.

(** The loop of [parse_days] ends within seven rounds, on the range of days. *)
Lemma days_loop_spec first last :
  0 <= first <= 6 -> 0 <= last <= 6 ->
  Parser.days_loop 7 [first] ((first + 1) mod 7) last = Ok (day_range first last).
Proof.
  intros Hf Hl.
  destruct (day_cases first Hf) as [->|[->|[->|[->|[->|[->| ->]]]]]];
    destruct (day_cases last Hl) as [->|[->|[->|[->|[->|[->| ->]]]]]]; reflexivity.
Qed.

(** A range of days starts at its first day, ends at its last, goes from
    each day to its successor modulo 7 and never holds a day twice. *)
Lemma day_range_shape first last :
  0 <= first <= 6 -> 0 <= last <= 6 ->
  head (day_range first last) = Some first
  /\ List.last (day_range first last) first = last
  /\ (length (day_range first last) <= 7)%nat
  /\ List.NoDup (day_range first last)
  /\ forall i d d', nth_error (day_range first last) i = Some d ->
                    nth_error (day_range first last) (S i) = Some d' ->
                    d' = (d + 1) mod 7.
Proof.
  intros Hf Hl.
  destruct (day_cases first Hf) as [->|[->|[->|[->|[->|[->| ->]]]]]];
    destruct (day_cases last Hl) as [->|[->|[->|[->|[->|[->| ->]]]]]];
    (split; [reflexivity|]; split; [reflexivity|]; split; [vm_compute; lia|]; split;
     [ apply NoDup_ListNoDup, (bool_decide_unpack _); vm_compute; exact I
     | intros [|[|[|[|[|[|[|i]]]]]]] d d' H1 H2; vm_compute in H1, H2;
       try discriminate; try (destruct i; discriminate);
       injection H1 as <-; injection H2 as <-; reflexivity ]).
Qed.

Lemma token_type_of (lexer : Lexer.t) tok :
  Lexer.token lexer = Some tok -> Parser.token_type lexer = Ok (Token.type tok).
Proof. unfold Parser.token_type. intros ->. reflexivity. Qed.

Lemma token_lexeme_of (lexer : Lexer.t) tok :
  Lexer.token lexer = Some tok -> Parser.token_lexeme lexer = Ok (Token.lexeme tok).
Proof. unfold Parser.token_lexeme. intros ->. reflexivity. Qed.

(** [parse_days] on the tokens of a range. *)
Lemma parse_days_range (lexer lexer1 lexer2 lexer3 : Lexer.t) (tok1 tok2 : Token.t) (x y : Z) :
  Lexer.token lexer = Some tok1 ->
  Token.type tok1 = TokenType.DAY_OF_WEEK ->
  Parser.dict_get Parser.dow_int_map (Py.lower (Token.lexeme tok1)) = Some x ->
  Lexer.next_token lexer = Ok lexer1 ->
  Parser.token_type lexer1 = Ok TokenType.DASH ->
  Lexer.next_token lexer1 = Ok lexer2 ->
  Lexer.token lexer2 = Some tok2 ->
  Token.type tok2 = TokenType.DAY_OF_WEEK ->
  Parser.dict_get Parser.dow_int_map (Py.lower (Token.lexeme tok2)) = Some y ->
  Lexer.next_token lexer2 = Ok lexer3 ->
  Parser.parse_days lexer = Ok (day_range x y, lexer3).
Proof.
  intros Ht1 Hty1 Hx N1 Hdash N2 Ht2 Hty2 Hy N3.
  unfold Parser.parse_days.
  rewrite (token_type_of _ _ Ht1), Hty1. cbn [bind TokenType.eqb negb].
  rewrite (token_lexeme_of _ _ Ht1). cbn [bind].
  unfold Parser.day_of_lexeme. rewrite Hx. cbn [bind].
  rewrite N1. cbn [bind]. rewrite Hdash. cbn [bind TokenType.eqb].
  rewrite N2. cbn [bind].
  rewrite (token_type_of _ _ Ht2), Hty2. cbn [bind TokenType.eqb negb].
  rewrite (token_lexeme_of _ _ Ht2). cbn [bind]. rewrite Hy. cbn [bind].
  rewrite N3. cbn [bind].
  rewrite days_loop_spec by (eapply dow_int_map_range; eassumption).
  reflexivity.
Qed.

(** C6.  Parsing a day range X-Y gives the list that starts at the day
    number of X and goes from each day to its successor modulo 7 until the
    day number of Y, both ends included, past day 6 back to day 0; wed-tue
    gives 3, 4, 5, 6, 0, 1, 2. *)
Theorem parse_days_spec :
  (forall (lexer lexer1 lexer2 lexer3 : Lexer.t) (tok1 tok2 : Token.t) (x y : Z),
      Lexer.token lexer = Some tok1 ->
      Token.type tok1 = TokenType.DAY_OF_WEEK ->
      Parser.dict_get Parser.dow_int_map (Py.lower (Token.lexeme tok1)) = Some x ->
      Lexer.next_token lexer = Ok lexer1 ->
      Parser.token_type lexer1 = Ok TokenType.DASH ->
      Lexer.next_token lexer1 = Ok lexer2 ->
      Lexer.token lexer2 = Some tok2 ->
      Token.type tok2 = TokenType.DAY_OF_WEEK ->
      Parser.dict_get Parser.dow_int_map (Py.lower (Token.lexeme tok2)) = Some y ->
      Lexer.next_token lexer2 = Ok lexer3 ->
      Parser.parse_days lexer = Ok (day_range x y, lexer3)
      /\ head (day_range x y) = Some x
      /\ List.last (day_range x y) x = y
      /\ List.NoDup (day_range x y)
      /\ forall i d d', nth_error (day_range x y) i = Some d ->
                        nth_error (day_range x y) (S i) = Some d' ->
                        d' = (d + 1) mod 7)
  /\ (forall X Y : str,
         In X Lexer.DAYS_OF_WEEK -> In Y Lexer.DAYS_OF_WEEK ->
         exists x y,
           Parser.dict_get Parser.dow_int_map X = Some x
           /\ Parser.dict_get Parser.dow_int_map Y = Some y
           /\ parse_days_of (X ++ $"-" ++ Y) = Ok (day_range x y, TokenType.END_INPUT))
  /\ parse_days_of $"wed-tue" = Ok ([3; 4; 5; 6; 0; 1; 2], TokenType.END_INPUT)
  /\ parse_days_of $"Wed-TUE" = Ok ([3; 4; 5; 6; 0; 1; 2], TokenType.END_INPUT).
Proof.
  split; [| split; [| split]].
  - intros lexer lexer1 lexer2 lexer3 tok1 tok2 x y Ht1 Hty1 Hx N1 Hdash N2 Ht2 Hty2 Hy N3.
    split; [eapply parse_days_range; eassumption|].
    destruct (day_range_shape x y) as (Hhead & Hlast & _ & Hnodup & Hsucc);
      [eapply dow_int_map_range; eassumption .. |].
    repeat split; assumption.
  - intros X Y HX HY. unfold Lexer.DAYS_OF_WEEK in HX, HY. cbn [In] in HX, HY.
    repeat (destruct HX as [<- | HX]; [| try contradiction]);
      repeat (destruct HY as [<- | HY]; [| try contradiction]);
      (do 2 eexists; split; [reflexivity | split; [reflexivity | vm_compute; reflexivity]]).
  - vm_compute. reflexivity.
  - vm_compute. reflexivity.
Qed.

Lemma parse_days_spec_witness :
  let lexer := lexer_after 0 $"fri-mon" in
  Lexer.next_token lexer = Ok (lexer_after 1 $"fri-mon")
  /\ Lexer.next_token (lexer_after 1 $"fri-mon") = Ok (lexer_after 2 $"fri-mon")
  /\ Lexer.next_token (lexer_after 2 $"fri-mon") = Ok (lexer_after 3 $"fri-mon")
  /\ Parser.parse_days lexer = Ok (day_range 5 1, lexer_after 3 $"fri-mon")
  /\ day_range 5 1 = [5; 6; 0; 1].
Proof.
  intros lexer.
  assert (N1 : Lexer.next_token lexer = Ok (lexer_after 1 $"fri-mon"))
    by (vm_compute; reflexivity).
  assert (N2 : Lexer.next_token (lexer_after 1 $"fri-mon") = Ok (lexer_after 2 $"fri-mon"))
    by (vm_compute; reflexivity).
  assert (N3 : Lexer.next_token (lexer_after 2 $"fri-mon") = Ok (lexer_after 3 $"fri-mon"))
    by (vm_compute; reflexivity).
  split; [exact N1|]. split; [exact N2|]. split; [exact N3|].
  split; [| vm_compute; reflexivity].
  refine (proj1 (proj1 parse_days_spec lexer _ _ _
                   (Token.Build TokenType.DAY_OF_WEEK $"fri" (Position.Build 0 0))
                   (Token.Build TokenType.DAY_OF_WEEK $"mon" (Position.Build 4 0))
                   5 1 _ _ _ N1 _ N2 _ _ _ N3));
    vm_compute; reflexivity.
Defined.

(** A TIME token that no dash follows is an interval that ends at the end of
    the day. *)
Lemma parse_interval_bare_time (lexer lexer1 : Lexer.t) (tok : Token.t) (start : Time.t)
                               (ty : TokenType.t) :
  Lexer.token lexer = Some tok ->
  Token.type tok = TokenType.TIME ->
  Time.from_string (Token.lexeme tok) = Ok start ->
  Lexer.next_token lexer = Ok lexer1 ->
  Parser.token_type lexer1 = Ok ty ->
  ty <> TokenType.DASH ->
  Parser.parse_interval lexer = Ok (Interval.Build start Time.end_of_day, lexer1).
Proof.
  intros Htok Hty Hstart N1 Hty1 Hnodash. unfold Parser.parse_interval.
  rewrite (token_type_of _ _ Htok), Hty. cbn [bind TokenType.eqb].
  rewrite (token_lexeme_of _ _ Htok). cbn [bind]. rewrite Hstart. cbn [bind].
  rewrite N1. cbn [bind]. rewrite Hty1. cbn [bind].
  destruct ty; try reflexivity. contradiction.
Qed.

(** A dash and a TIME token are an interval that starts at the start of the
    day. *)
Lemma parse_interval_dash_time (lexer lexer1 lexer2 : Lexer.t) (tok : Token.t)
                               (end_ : Time.t) :
  Parser.token_type lexer = Ok TokenType.DASH ->
  Lexer.next_token lexer = Ok lexer1 ->
  Lexer.token lexer1 = Some tok ->
  Token.type tok = TokenType.TIME ->
  Time.from_string (Token.lexeme tok) = Ok end_ ->
  Lexer.next_token lexer1 = Ok lexer2 ->
  Parser.parse_interval lexer = Ok (Interval.Build Time.start_of_day end_, lexer2).
Proof.
  intros Hdash N1 Htok Hty Hend N2. unfold Parser.parse_interval.
  rewrite Hdash. cbn [bind TokenType.eqb]. rewrite N1. cbn [bind].
  rewrite (token_type_of _ _ Htok), Hty. cbn [bind TokenType.eqb negb].
  rewrite (token_lexeme_of _ _ Htok). cbn [bind]. rewrite Hend. cbn [bind].
  rewrite N2. reflexivity.
Qed.

(** C5.  The example text parses to the schedule whose allowed list is
    Sunday to Friday 00:00-23:59 followed by Saturday 00:00-14:00 and whose
    forbidden list is Monday to Friday 08:00-20:00.  A TIME alone is an
    interval ending at [end_of_day], 23:59; a dash and a TIME are an interval
    starting at [start_of_day], 00:00. *)
Theorem from_dsl_example_spec :
  (forall local_timezone tz : str,
      from_dsl local_timezone example_dsl tz
      = Ok (Schedule.Build
              (map (fun d => WeekdayInterval.Build d
                               (Interval.Build (Time.Build 0 0) (Time.Build 23 59)))
                   [0; 1; 2; 3; 4; 5]
               ++ [WeekdayInterval.Build 6 (Interval.Build (Time.Build 0 0) (Time.Build 14 0))])
              (map (fun d => WeekdayInterval.Build d
                               (Interval.Build (Time.Build 8 0) (Time.Build 20 0)))
                   [1; 2; 3; 4; 5])
              tz))
  /\ (forall (lexer lexer1 : Lexer.t) (tok : Token.t) (start : Time.t) (ty : TokenType.t),
         Lexer.token lexer = Some tok ->
         Token.type tok = TokenType.TIME ->
         Time.from_string (Token.lexeme tok) = Ok start ->
         Lexer.next_token lexer = Ok lexer1 ->
         Parser.token_type lexer1 = Ok ty ->
         ty <> TokenType.DASH ->
         Parser.parse_interval lexer = Ok (Interval.Build start (Time.Build 23 59), lexer1))
  /\ (forall (lexer lexer1 lexer2 : Lexer.t) (tok : Token.t) (end_ : Time.t),
         Parser.token_type lexer = Ok TokenType.DASH ->
         Lexer.next_token lexer = Ok lexer1 ->
         Lexer.token lexer1 = Some tok ->
         Token.type tok = TokenType.TIME ->
         Time.from_string (Token.lexeme tok) = Ok end_ ->
         Lexer.next_token lexer1 = Ok lexer2 ->
         Parser.parse_interval lexer = Ok (Interval.Build (Time.Build 0 0) end_, lexer2))
  /\ Time.end_of_day = Time.Build 23 59
  /\ Time.start_of_day = Time.Build 0 0.
Proof.
  split; [| split; [| split; [| split; reflexivity]]].
  - intros local_timezone tz. vm_compute. reflexivity.
  - exact parse_interval_bare_time.
  - exact parse_interval_dash_time.
Qed.

Lemma from_dsl_example_spec_witness :
  let lexer := lexer_after 2 $"sat allow -1400 0900" in
  Parser.token_type lexer = Ok TokenType.DASH
  /\ Parser.parse_interval lexer
     = Ok (Interval.Build (Time.Build 0 0) (Time.Build 14 0),
           lexer_after 4 $"sat allow -1400 0900")
  /\ Parser.parse_interval (lexer_after 4 $"sat allow -1400 0900")
     = Ok (Interval.Build (Time.Build 9 0) (Time.Build 23 59),
           lexer_after 5 $"sat allow -1400 0900").
Proof.
  intros lexer.
  destruct from_dsl_example_spec as (_ & Hbare & Hdash & _).
  split; [vm_compute; reflexivity|]. split.
  - apply (Hdash lexer (lexer_after 3 $"sat allow -1400 0900") _
             (Token.Build TokenType.TIME $"1400" (Position.Build 11 0)));
      vm_compute; reflexivity.
  - apply (Hbare (lexer_after 4 $"sat allow -1400 0900") _
             (Token.Build TokenType.TIME $"0900" (Position.Build 16 0)) _
             TokenType.END_INPUT);
      solve [vm_compute; reflexivity | discriminate].
Defined.

Lemma is_allowed_at_spec_witness :
  let a := WeekdayInterval.Build 0 (Interval.Build (Time.Build 8 0) (Time.Build 12 0)) in
  let b := WeekdayInterval.Build 0 (Interval.Build (Time.Build 10 0) (Time.Build 18 0)) in
  let f := WeekdayInterval.Build 0 (Interval.Build (Time.Build 11 0) (Time.Build 11 30)) in
  let s := Schedule.Build [a; b] [f] $"UTC" in
  let s' := Schedule.Build [b; a] [f] $"UTC" in
  In f (Schedule.forbidden s)
  /\ WeekdayInterval.contains f (pendulum.in_tz (fun _ => pendulum.UTC) (moment_at 0 11 15) (Schedule.tz s))
     = true
  /\ Schedule.is_allowed_at (fun _ => pendulum.UTC) s (moment_at 0 11 15) = false
  /\ Schedule.is_allowed_at (fun _ => pendulum.UTC) s (moment_at 0 10 30)
     = Schedule.is_allowed_at (fun _ => pendulum.UTC) s' (moment_at 0 10 30).
Proof.
  intros a b f s s'.
  destruct (is_allowed_at_spec (fun _ => pendulum.UTC)) as (_ & Hforbidden & Horder).
  split; [left; reflexivity|]. split; [reflexivity|]. split.
  - apply (Hforbidden s (moment_at 0 11 15) f); [left; reflexivity | reflexivity].
  - apply (Horder s s' (moment_at 0 10 30)); [apply perm_swap | reflexivity | reflexivity].
Defined.

Lemma trie_chars_after_max_match_for_spec_witness :
  let t := Trie.from_strings [$"prefix"; $"preface"] in
  Trie.contains_prefix t $"q" = false
  /\ Trie.chars_after t $"q" = []
  /\ Trie.contains_prefix t $"z" = false
  /\ Trie.max_match_for t $"zeal" = [].
Proof.
  intros t.
  destruct (proj1 trie_chars_after_max_match_for_spec t $"q") as (_ & _ & Hnone & _).
  destruct (proj1 trie_chars_after_max_match_for_spec t $"zeal") as (_ & _ & _ & _ & Hfirst).
  assert (Hq : Trie.contains_prefix t $"q" = false) by (vm_compute; reflexivity).
  assert (Hz : Trie.contains_prefix t $"z" = false) by (vm_compute; reflexivity).
  split; [exact Hq|]. split; [exact (Hnone Hq)|]. split; [exact Hz|].
  exact (Hfirst "z"%char $"eal" eq_refl Hz).
Defined.

(** ** The loops of the lexer end *)

Lemma readline_length src :
  (length (Lexer.readline src).1 + length (Lexer.readline src).2 = length src)%nat
  /\ (src <> [] -> (Lexer.readline src).1 <> []).
Proof.
  induction src as [|c src [IHlen IHne]]; cbn; [split; [reflexivity | congruence]|].
  destruct (Ascii.eqb c Lexer.NL); cbn; [split; [reflexivity | discriminate]|].
  destruct (Lexer.readline src) as [l r]. cbn in *. split; [lia | discriminate].
Qed.

Lemma skip_whitespace_none n (lexer : Lexer.t) :
  Lexer.char lexer = None -> Lexer.skip_whitespace (S n) lexer = Ok lexer.
Proof.
  intros H. cbn [Lexer.skip_whitespace].
  unfold Lexer.char_is_whitespace, Lexer.char_is_end_of_line. rewrite H. reflexivity.
Qed.

(** [next_char] on a lexer whose column is not below -1: the lexer that it
    gives. *)
Lemma next_char_shape (lexer : Lexer.t) :
  -1 <= Lexer.column lexer ->
  exists lexer1,
    Lexer.next_char lexer = Ok lexer1
    /\ Lexer.source lexer1 = Lexer.source lexer
    /\ Lexer.line lexer1 = Lexer.line lexer
    /\ Lexer.whitespace lexer1 = Lexer.whitespace lexer
    /\ Lexer.end_of_line lexer1 = Lexer.end_of_line lexer
    /\ Lexer.position lexer1 = Lexer.position lexer
    /\ 0 <= Lexer.column lexer1
    /\ match Lexer.line lexer with
       | [] => Lexer.char lexer1 = None
       | _ =>
           Lexer.column lexer1 = Lexer.column lexer + 1
           /\ (Py.len (Lexer.line lexer) <= Lexer.column lexer + 1 ->
               Lexer.char lexer1 = Some (Lexer.end_of_line lexer))
       end.
Proof.
  intros Hcol. destruct (next_char_ok lexer Hcol) as (lexer1 & Hnext & Hchar & _).
  exists lexer1. split; [exact Hnext|].
  destruct lexer as [src ws eol line ch ln col tok pos].
  unfold Lexer.next_char, lookahead in *. cbn in *. destruct line as [|c0 line'].
  - injection Hnext as <-. cbn. repeat split. lia.
  - remember (c0 :: line') as line eqn:Hline.
    destruct (col + 1 >=? Py.len line) eqn:Hend; rewrite Z.geb_leb in Hend.
    + injection Hnext as <-. cbn. repeat split; lia.
    + apply Z.leb_gt in Hend. destruct (Py.getitem line (col + 1)); [| discriminate].
      injection Hnext as <-. cbn. repeat split; lia.
Qed.

Lemma next_line_shape (lexer : Lexer.t) :
  exists lexer1,
    Lexer.next_line lexer = Ok lexer1
    /\ Lexer.source lexer1 = (Lexer.readline (Lexer.source lexer)).2
    /\ Lexer.line lexer1 = (Lexer.readline (Lexer.source lexer)).1
    /\ Lexer.whitespace lexer1 = Lexer.whitespace lexer
    /\ Lexer.end_of_line lexer1 = Lexer.end_of_line lexer
    /\ 0 <= Lexer.column lexer1
    /\ match Lexer.line lexer1 with
       | [] => Lexer.char lexer1 = None
       | _ => Lexer.column lexer1 = 0
       end.
Proof.
  unfold Lexer.next_line. destruct (Lexer.readline (Lexer.source lexer)) as [l r].
  set (start := Lexer.set_lineno _ _).
  destruct (next_char_shape start)
    as (lexer1 & Hnext & Hsrc & Hline & Hws & Heol & _ & Hcol & Hshape).
  { subst start. destruct lexer. cbn. lia. }
  exists lexer1. split; [exact Hnext|].
  rewrite Hsrc, Hline, Hws, Heol. subst start. destruct lexer. cbn in *.
  repeat split; try assumption.
  destruct l; [exact Hshape | destruct Hshape as [-> _]; reflexivity].
Qed.

(** [skip_whitespace] ends, on a character that is neither whitespace nor the
    end of a line, within the rounds that [skip_measure] allows. *)
Lemma skip_whitespace_ok n : forall lexer : Lexer.t,
  -1 <= Lexer.column lexer ->
  (skip_measure lexer + 2 <= n)%nat ->
  exists lexer',
    Lexer.skip_whitespace n lexer = Ok lexer'
    /\ -1 <= Lexer.column lexer'
    /\ Lexer.end_of_line lexer' = Lexer.end_of_line lexer
    /\ Lexer.char_is_whitespace lexer' = false
    /\ Lexer.char_is_end_of_line lexer' = false.
Proof.
  induction n as [|n IH]; intros lexer Hcol Hn; [lia|].
  assert (Hnone : forall l : Lexer.t, 0 <= Lexer.column l -> Lexer.char l = None ->
            Lexer.end_of_line l = Lexer.end_of_line lexer ->
            exists lexer', Lexer.skip_whitespace n l = Ok lexer'
              /\ -1 <= Lexer.column lexer'
              /\ Lexer.end_of_line lexer' = Lexer.end_of_line lexer
              /\ Lexer.char_is_whitespace lexer' = false
              /\ Lexer.char_is_end_of_line lexer' = false).
  { intros l Hl Hc He. destruct n as [|n']; [lia|]. exists l.
    rewrite skip_whitespace_none by exact Hc.
    unfold Lexer.char_is_whitespace, Lexer.char_is_end_of_line. rewrite Hc.
    repeat split; [lia | exact He]. }
  cbn [Lexer.skip_whitespace].
  destruct (Lexer.char_is_end_of_line lexer) eqn:Heol.
  - rewrite orb_true_r.
    destruct (next_line_shape lexer)
      as (lexer1 & Hnext & Hsrc & Hline & Hws & Heol1 & Hcol1 & Hshape).
    rewrite Hnext. cbn [bind].
    destruct (Lexer.line lexer1) as [|c0 l1] eqn:Hl1; [apply Hnone; assumption|].
    rewrite <- Heol1. apply IH; [lia|].
    destruct (readline_length (Lexer.source lexer)) as [Hlen _].
    rewrite <- Hsrc, <- Hline in Hlen.
    unfold skip_measure in *. rewrite Heol in Hn. rewrite Hl1, Hshape.
    unfold Py.len. cbn [length] in *.
    destruct (Lexer.char_is_end_of_line lexer1); lia.
  - rewrite orb_false_r. destruct (Lexer.char_is_whitespace lexer) eqn:Hws0.
    + destruct (next_char_shape lexer Hcol)
        as (lexer1 & Hnext & Hsrc & Hline & Hws & Heol1 & _ & Hcol1 & Hshape).
      rewrite Hnext. cbn [bind].
      destruct (Lexer.line lexer) as [|c0 l0] eqn:Hl0; [apply Hnone; assumption|].
      destruct Hshape as [Hcolumn Hend].
      rewrite <- Heol1. apply IH; [lia|].
      unfold skip_measure in *. rewrite Heol, Hl0 in Hn. rewrite Hsrc, Hline, Hcolumn.
      unfold Py.len in *.
      destruct (Z_le_gt_dec (Z.of_nat (length (c0 :: l0))) (Lexer.column lexer + 1)) as [Hle|Hgt].
      * assert (Hiseol : Lexer.char_is_end_of_line lexer1 = true).
        { unfold Lexer.char_is_end_of_line. rewrite (Hend Hle), Heol1.
          apply Ascii.eqb_refl. }
        rewrite Hiseol. lia.
      * destruct (Lexer.char_is_end_of_line lexer1); lia.
    + exists lexer. repeat split; assumption.
Qed.


(** [skip_whitespace] never runs out of the fuel that [next_token] gives it. *)
Lemma skip_whitespace_total (lexer : Lexer.t) :
  -1 <= Lexer.column lexer ->
  exists lexer',
    Lexer.skip_whitespace (Lexer.fuel_of lexer) lexer = Ok lexer'
    /\ -1 <= Lexer.column lexer'
    /\ Lexer.end_of_line lexer' = Lexer.end_of_line lexer
    /\ Lexer.char_is_whitespace lexer' = false
    /\ Lexer.char_is_end_of_line lexer' = false.
Proof.
  intros Hcol. apply skip_whitespace_ok; [exact Hcol|].
  unfold skip_measure, Lexer.fuel_of, Py.len.
  destruct (Lexer.line lexer) as [|c0 l0]; cbn [length];
    destruct (Lexer.char_is_end_of_line lexer); lia.
Qed.

(** The loop of [extract_ascii_identifier] ends when the end-of-line
    character is not a letter. *)
Lemma extract_loop_ok n : forall lexer : Lexer.t,
  -1 <= Lexer.column lexer ->
  Py.char_in (Lexer.end_of_line lexer) Py.ascii_letters = false ->
  (Z.to_nat (Py.len (Lexer.line lexer) - Lexer.column lexer) + 2 <= n)%nat ->
  exists lexer',
    Lexer.extract_loop n lexer = Ok lexer'
    /\ Lexer.position lexer' = Lexer.position lexer.
Proof.
  induction n as [|n IH]; intros lexer Hcol Heol Hn; [lia|].
  cbn [Lexer.extract_loop].
  destruct (Lexer.char lexer) as [c|]; [| exists lexer; split; reflexivity].
  destruct (Py.char_in c Py.ascii_letters); [| exists lexer; split; reflexivity].
  destruct (next_char_shape lexer Hcol)
    as (lexer1 & Hnext & Hsrc & Hline & Hws & Heol1 & Hpos & Hcol1 & Hshape).
  rewrite Hnext. cbn [bind]. rewrite <- Hpos.
  destruct (Lexer.line lexer) as [|c0 l0] eqn:Hl0.
  - destruct n as [|n']; [lia|]. exists lexer1. cbn [Lexer.extract_loop].
    rewrite Hshape. split; reflexivity.
  - destruct Hshape as [Hcolumn Hend].
    destruct (Z_le_gt_dec (Py.len (c0 :: l0)) (Lexer.column lexer + 1)) as [Hle|Hgt].
    + destruct n as [|n']; [lia|]. exists lexer1. cbn [Lexer.extract_loop].
      rewrite (Hend Hle), Heol. split; reflexivity.
    + apply IH; [lia | rewrite Heol1; exact Heol |]. rewrite Hline, Hcolumn. lia.
Qed.

(** [next_token] never runs out of fuel: from a lexer whose column is not
    below -1 and whose end-of-line character is not a letter, it returns a
    lexer that holds a token or it raises a lexical error. *)
Lemma next_token_total (lexer : Lexer.t) :
  -1 <= Lexer.column lexer ->
  Py.char_in (Lexer.end_of_line lexer) Py.ascii_letters = false ->
  (exists lexer', Lexer.next_token lexer = Ok lexer' /\ is_Some (Lexer.token lexer'))
  \/ (exists message, Lexer.next_token lexer = Raise (LexerError message)).
Proof.
  intros Hcol Heol. unfold Lexer.next_token.
  assert (Hcol0 : -1 <= Lexer.column (Lexer.set_token lexer None))
    by (destruct lexer; exact Hcol).
  destruct (skip_whitespace_total (Lexer.set_token lexer None) Hcol0)
    as (skipped & Hskip & Hcol1 & Heol1 & _ & _).
  rewrite Hskip. cbn [bind].
  set (marked := Lexer.mark_position skipped).
  set (pos := Position.Build (Lexer.column skipped) (Lexer.lineno skipped)).
  assert (Hpos : Lexer.position marked = Some pos) by (destruct skipped; reflexivity).
  assert (Hcolm : -1 <= Lexer.column marked) by (destruct skipped; exact Hcol1).
  assert (Heolm : Py.char_in (Lexer.end_of_line marked) Py.ascii_letters = false).
  { assert (Lexer.end_of_line marked = Lexer.end_of_line lexer) as ->
      by (subst marked; destruct skipped, lexer; cbn in *; congruence).
    exact Heol. }
  assert (Hfinal : forall l : Lexer.t,
            (exists lexer', match Lexer.token l with
                            | None => Lexer.unexpected_char_error l None 0
                            | Some _ => Ok l
                            end = Ok lexer' /\ is_Some (Lexer.token lexer'))
            \/ (exists message, match Lexer.token l with
                                | None => Lexer.unexpected_char_error l None 0
                                | Some _ => Ok l
                                end = Raise (LexerError message))).
  { intros l. destruct (Lexer.token l) eqn:Htok; [left | right].
    - exists l. rewrite Htok. split; [reflexivity | eauto].
    - eexists. reflexivity. }
  assert (Htoken : forall (l : Lexer.t) ty lexeme,
            Lexer.position l = Some pos ->
            exists lexer',
              (let* self := (let* tok := Lexer.make_token l ty lexeme in
                             Ok (Lexer.set_token l (Some tok))) in
               match Lexer.token self with
               | None => Lexer.unexpected_char_error self None 0
               | Some _ => Ok self
               end) = Ok lexer' /\ is_Some (Lexer.token lexer')).
  { intros l ty lexeme Hl. unfold Lexer.make_token. rewrite Hl. cbn [bind].
    eexists. destruct l. cbn. split; [reflexivity | eauto]. }
  destruct (Lexer.char marked) as [c|] eqn:Hchar.
  - destruct (Lexer.is_ascii_identifier_start c).
    + unfold Lexer.allow_or_forbid_or_day_of_week_token, Lexer.extract_ascii_identifier.
      destruct (extract_loop_ok (Lexer.fuel_of marked) marked Hcolm Heolm)
        as (extracted & Hextract & Hpos').
      { unfold Lexer.fuel_of, Py.len. lia. }
      rewrite Hextract. cbn [bind]. rewrite Hpos in Hpos'.
      destruct (Trie.contains Lexer.KEYWORDS _); cbn [negb].
      * destruct (Py.str_eqb _ _); [left; apply Htoken, Hpos'|].
        destruct (Py.str_eqb _ _); [left; apply Htoken, Hpos'|].
        destruct (Py.str_in _ _); [left; apply Htoken, Hpos'|].
        cbn [bind]. apply Hfinal.
      * right. destruct (Trie.contains_prefix Lexer.KEYWORDS _); eexists; reflexivity.
    + destruct (Lexer.is_hour_start (Some c)) eqn:Hhour.
      * destruct (time_token_cases marked c pos Hcolm Hchar Hhour Hpos) as (T1 & T2 & T3 & T4).
        destruct (Lexer.is_hour_end (lookahead marked 1) (Some c));
          [| right; destruct (T1 eq_refl) as [pre ->]; eexists; reflexivity].
        destruct (Lexer.is_minute_start (lookahead marked 2));
          [| right; destruct (T2 eq_refl eq_refl) as [pre ->]; eexists; reflexivity].
        destruct (Lexer.is_minute_end (lookahead marked 3));
          [| right; destruct (T3 eq_refl eq_refl eq_refl) as [pre ->]; eexists; reflexivity].
        destruct (T4 eq_refl eq_refl eq_refl) as (d2 & d3 & d4 & lexer' & _ & _ & _ & -> & Htok).
        left. exists lexer'. cbn [bind]. rewrite Htok. split; [reflexivity | eauto].
      * destruct (Ascii.eqb c "-"); [| cbn [bind]; apply Hfinal].
        destruct (next_char_ok marked Hcolm) as (l1 & -> & _ & _ & _ & Hp & _).
        cbn [bind]. left. apply Htoken. rewrite Hp. exact Hpos.
  - destruct (next_char_ok marked Hcolm) as (l1 & -> & _ & _ & _ & Hp & _).
    cbn [bind]. left. apply Htoken. rewrite Hp. exact Hpos.
Qed.

(** * Further properties of the code *)

(** ** Trie: membership *)

(** The words of a trie after [add]: the words it had, and the string
    added. *)
Lemma add_loop_contains s : forall n u,
  Py.truthy (Trie.contains_loop (Trie.add_loop n s) u) = true
  <-> Py.truthy (Trie.contains_loop n u) = true \/ u = s.
Proof.
  induction s as [|a s IH]; intros n u.
  - destruct u as [|c u]; cbn.
    + split; [right; reflexivity | reflexivity].
    + split; [left; assumption | intros [H | H]; [assumption | discriminate]].
  - destruct u as [|c u]; cbn.
    + split; [left; assumption | intros [H | H]; [assumption | discriminate]].
    + destruct (decide (a = c)) as [->|Hne].
      * rewrite lookup_insert_eq, IH.
        destruct (Trie.children n !! c) as [nxt|] eqn:Hlook.
        -- split; (intros [H | H]; [left; exact H | right; congruence]).
        -- split.
           ++ intros [H | H]; [| right; congruence].
              destruct u; cbn in H; [discriminate|].
              rewrite lookup_empty in H. discriminate.
           ++ intros [H | H]; [discriminate | right; congruence].
      * rewrite lookup_insert_ne by exact Hne.
        split; [left; assumption | intros [H | H]; [assumption | congruence]].
Qed.

Lemma contains_add (t : Trie.t) (s u : str) :
  Trie.contains (Trie.add t s) u = true
  <-> Trie.contains t u = true \/ Py.lower u = Py.lower s.
Proof.
  unfold Trie.contains, Trie.dunder_contains, Trie.add. cbn [Trie.root].
  apply add_loop_contains.
Qed.

Lemma contains_fold_add keywords : forall (t : Trie.t) u,
  Trie.contains (fold_left Trie.add keywords t) u = true
  <-> Trie.contains t u = true \/ exists k, In k keywords /\ Py.lower u = Py.lower k.
Proof.
  induction keywords as [|k keywords IH]; intros t u; cbn [fold_left].
  - split; [left; assumption | intros [H | (k & [] & _)]; exact H].
  - rewrite IH, contains_add. split.
    + intros [[H | H] | (k' & Hk' & H)];
        [left; exact H | right; exists k | right; exists k']; auto using in_eq, in_cons.
    + intros [H | (k' & [<- | Hk'] & H)]; [left; left; exact H | left; right; exact H |].
      right. exists k'. split; assumption.
Qed.

Lemma contains_new u : Trie.contains Trie.new u = false.
Proof.
  unfold Trie.contains, Trie.dunder_contains, Trie.new. cbn [Trie.root].
  destruct (Py.lower u) as [|c r]; cbn; [reflexivity|].
  rewrite lookup_empty. reflexivity.
Qed.

(** The words of [from_strings]: the keywords, without regard to letter
    case. *)
Lemma contains_from_strings keywords u :
  Trie.contains (Trie.from_strings keywords) u = true
  <-> exists k, In k keywords /\ Py.lower u = Py.lower k.
Proof.
  unfold Trie.from_strings. rewrite contains_fold_add, contains_new.
  split; [intros [H | H]; [discriminate | exact H] | right; assumption].
Qed.

Lemma contains_loop_prefix u : forall n,
  Py.truthy (Trie.contains_loop n u) = true -> Trie.contains_prefix_loop n u = true.
Proof.
  induction u as [|c u IH]; intros n; cbn; [reflexivity|].
  destruct (Trie.children n !! c); [apply IH | discriminate].
Qed.

Lemma contains_prefix_loop_app p q : forall n,
  Trie.contains_prefix_loop n (p ++ q) = true -> Trie.contains_prefix_loop n p = true.
Proof.
  induction p as [|c p IH]; intros n; cbn; [reflexivity|].
  destruct (Trie.children n !! c); [apply IH | discriminate].
Qed.

(** X1.  After [add(s)] the trie contains [s], in any letter case, and
    otherwise exactly what it contained before; nothing is ever removed. *)
Theorem trie_add_contains (t : Trie.t) (s u : str) :
  Trie.contains (Trie.add t s) s = true
  /\ (Trie.contains (Trie.add t s) u = true
      <-> Trie.contains t u = true \/ Py.lower u = Py.lower s)
  /\ (Trie.contains_prefix (Trie.add t s) u = true
      <-> Trie.contains_prefix t u = true \/ Py.lower u `prefix_of` Py.lower s).
Proof.
  split; [apply contains_add; right; reflexivity|].
  split; [apply contains_add|].
  unfold Trie.contains_prefix, Trie.add. cbn [Trie.root]. apply add_loop_paths.
Qed.

(** X2.  A trie built by [from_strings] contains a string exactly when it
    equals one of the keywords up to letter case; in particular the empty
    string is contained only if it is a keyword, and a new trie contains
    nothing. *)
Theorem trie_from_strings_contains (keywords : list str) (u : str) :
  (Trie.contains (Trie.from_strings keywords) u = true
   <-> exists k, In k keywords /\ Py.lower u = Py.lower k)
  /\ (Trie.contains (Trie.from_strings keywords) [] = true <-> In [] keywords)
  /\ Trie.contains Trie.new u = false.
Proof.
  split; [apply contains_from_strings|]. split; [| apply contains_new].
  rewrite contains_from_strings. split.
  - intros (k & Hk & Hlow). destruct k; [exact Hk | discriminate].
  - intros H. exists []. split; [exact H | reflexivity].
Qed.

(** X3.  In every trie a contained string is a path, and every prefix of a
    path is a path. *)
Theorem trie_contains_prefix_closed (t : Trie.t) (p q : str) :
  (Trie.contains t p = true -> Trie.contains_prefix t p = true)
  /\ (Trie.contains_prefix t (p ++ q) = true -> Trie.contains_prefix t p = true)
  /\ Trie.contains_prefix t [] = true.
Proof.
  unfold Trie.contains, Trie.dunder_contains, Trie.contains_prefix.
  split; [apply contains_loop_prefix|]. split; [| reflexivity].
  rewrite lower_app. apply contains_prefix_loop_app.
Qed.

Lemma trie_contains_prefix_closed_witness :
  let t := Trie.from_strings [$"monday"; $"mon"] in
  Trie.contains t $"MON" = true
  /\ Trie.contains_prefix t $"MON" = true
  /\ Trie.contains_prefix t ($"mo" ++ $"nd") = true
  /\ Trie.contains_prefix t $"mo" = true.
Proof.
  intros t.
  assert (H1 : Trie.contains t $"MON" = true) by (vm_compute; reflexivity).
  assert (H2 : Trie.contains_prefix t ($"mo" ++ $"nd") = true) by (vm_compute; reflexivity).
  split; [exact H1|].
  split; [exact (proj1 (trie_contains_prefix_closed t $"MON" []) H1)|].
  split; [exact H2|].
  exact (proj1 (proj2 (trie_contains_prefix_closed t $"mo" $"nd")) H2).
Defined.

(** X4.  In a trie built by [from_strings], a non-empty path that is not a
    contained string goes on: [chars_after] is not empty for it, so the
    lexer's list of expected characters never comes out empty. *)
Theorem trie_path_continues (keywords : list str) (s : str) :
  s <> [] ->
  Trie.contains_prefix (Trie.from_strings keywords) s = true ->
  Trie.contains (Trie.from_strings keywords) s = false ->
  Trie.chars_after (Trie.from_strings keywords) s <> [].
Proof.
  intros Hne Hpath Hnot.
  unfold Trie.contains_prefix in Hpath. apply from_strings_paths in Hpath.
  destruct Hpath as [Hnil | (k & Hk & [r Hr])].
  { destruct s; [contradiction | discriminate]. }
  destruct r as [|c r].
  - exfalso. rewrite app_nil_r in Hr.
    assert (Hin : Trie.contains (Trie.from_strings keywords) s = true)
      by (apply contains_from_strings; exists k; split; [exact Hk | congruence]).
    congruence.
  - assert (Hc : In c (Trie.chars_after (Trie.from_strings keywords) s)).
    { unfold Trie.chars_after. apply chars_after_loop_in, from_strings_paths.
      right. exists k. split; [exact Hk|]. exists r. rewrite Hr, <- app_assoc. reflexivity. }
    intros Hnil. rewrite Hnil in Hc. destruct Hc.
Qed.

Lemma trie_path_continues_witness :
  Trie.chars_after (Trie.from_strings [$"allow"; $"forbid"]) $"all" <> [].
Proof.
  apply (trie_path_continues [$"allow"; $"forbid"] $"all");
    [discriminate | vm_compute; reflexivity | vm_compute; reflexivity].
Defined.

(** ** Schedule: the minutes of the week *)

Lemma minute_of_week_eq dt :
  minute_of_week dt
  = 1440 * pendulum.day_of_week dt + 60 * pendulum.hour dt + pendulum.minute dt
  /\ 0 <= pendulum.hour dt <= 23 /\ 0 <= pendulum.minute dt <= 59.
Proof. unfold minute_of_week, minute_index. calendar. Qed.

Lemma same_minute_fields a b :
  minute_of_week a = minute_of_week b ->
  pendulum.day_of_week a = pendulum.day_of_week b
  /\ pendulum.hour a = pendulum.hour b /\ pendulum.minute a = pendulum.minute b.
Proof.
  intros H.
  destruct (minute_of_week_eq a) as (Ha & ? & ?), (minute_of_week_eq b) as (Hb & ? & ?).
  pose proof (day_of_week_range a). pose proof (day_of_week_range b). lia.
Qed.

Lemma contains_same_minute (w : WeekdayInterval.t) a b :
  minute_of_week a = minute_of_week b ->
  WeekdayInterval.contains w a = WeekdayInterval.contains w b.
Proof.
  intros (Hd & Hh & Hm)%same_minute_fields. unfold WeekdayInterval.contains.
  rewrite Hd, Hh, Hm. reflexivity.
Qed.

Lemma existsb_ext_in {A} (f g : A -> bool) l :
  (forall x, In x l -> f x = g x) -> existsb f l = existsb g l.
Proof.
  induction l as [|x l IH]; intros H; cbn; [reflexivity|].
  rewrite (H x (in_eq x l)), IH; [reflexivity|]. intros y Hy. apply H, in_cons, Hy.
Qed.

Lemma existsb_false_in {A} (f : A -> bool) l x :
  existsb f l = false -> In x l -> f x = false.
Proof.
  intros Hex Hin. destruct (f x) eqn:Hf; [|reflexivity].
  rewrite <- Hex. symmetry. apply existsb_exists. exists x. split; assumption.
Qed.

Lemma contains_covers (w : WeekdayInterval.t) dt :
  WeekdayInterval.valid w = true -> ordered_interval w = true ->
  WeekdayInterval.contains w dt = covers w (minute_index dt).
Proof.
  intros Hw Ho.
  destruct (weekday_interval_valid_bounds w Hw)
    as (Hd & Hs%time_valid_bounds & He%time_valid_bounds).
  destruct (minute_of_week_eq dt) as (Hmow & Hh & Hm). pose proof (day_of_week_range dt).
  unfold ordered_interval in Ho. apply Z.leb_le in Ho.
  apply eq_true_iff_eq. unfold covers. fold (minute_of_week dt). rewrite Hmow.
  unfold first_minute, last_minute in *. unfold WeekdayInterval.contains.
  rewrite !andb_true_iff, !orb_true_iff, !andb_true_iff, !negb_true_iff.
  rewrite !Z.eqb_eq, !Z.ltb_lt, !Z.leb_le, !Z.eqb_neq, Z.geb_le.
  lia.
Qed.

Lemma in_tz_same (tzdata : str -> pendulum.Timezone) dt tz :
  pendulum.tz dt = tzdata tz -> pendulum.in_tz tzdata dt tz = dt.
Proof. destruct dt as [ts z]. cbn. intros ->. reflexivity. Qed.

Lemma ordered_schedule_in (s : Schedule.t) :
  ordered_schedule s = true ->
  (forall w, In w (Schedule.allowed s) -> ordered_interval w = true)
  /\ (forall w, In w (Schedule.forbidden s) -> ordered_interval w = true).
Proof.
  unfold ordered_schedule. rewrite andb_true_iff, !forallb_forall. tauto.
Qed.

Lemma allowed_minute_mod (s : Schedule.t) k k' :
  k mod 10080 = k' mod 10080 -> allowed_minute s k = allowed_minute s k'.
Proof. intros H. unfold allowed_minute, covers. rewrite H. reflexivity. Qed.

Section MinuteFacts.
Context (tzdata : str -> pendulum.Timezone).

Lemma is_allowed_at_same_minute (s : Schedule.t) a b :
  minute_of_week (pendulum.in_tz tzdata a (Schedule.tz s))
  = minute_of_week (pendulum.in_tz tzdata b (Schedule.tz s)) ->
  Schedule.is_allowed_at tzdata s a = Schedule.is_allowed_at tzdata s b.
Proof.
  intros H. unfold Schedule.is_allowed_at.
  rewrite (existsb_ext_in _ (fun w => WeekdayInterval.contains w
                                        (pendulum.in_tz tzdata b (Schedule.tz s)))
             (Schedule.allowed s))
    by (intros w _; apply contains_same_minute, H).
  rewrite (existsb_ext_in _ (fun w => WeekdayInterval.contains w
                                        (pendulum.in_tz tzdata b (Schedule.tz s)))
             (Schedule.forbidden s))
    by (intros w _; apply contains_same_minute, H).
  reflexivity.
Qed.

Lemma is_allowed_at_minute (s : Schedule.t) t :
  Schedule.valid s = true -> ordered_schedule s = true ->
  Schedule.is_allowed_at tzdata s t
  = allowed_minute s (minute_index (pendulum.in_tz tzdata t (Schedule.tz s))).
Proof.
  intros Hv Ho. destruct (schedule_valid_in s Hv) as [Va Vf].
  destruct (ordered_schedule_in s Ho) as [Oa Of].
  unfold Schedule.is_allowed_at, allowed_minute.
  f_equal; [| f_equal]; apply existsb_ext_in; intros w Hw; apply contains_covers; auto.
Qed.

End MinuteFacts.

Lemma minute_index_day m :
  1440 * pendulum.day_number m <= minute_index m < 1440 * (pendulum.day_number m + 1).
Proof. unfold minute_index. calendar. Qed.

Lemma occurrence_wall m j (t : Time.t) :
  calm m = true -> Time.valid t = true -> 0 <= j <= 7 ->
  pendulum.wall (occurrence m j t)
  = ((pendulum.day_number m + j) * 1440 + 60 * Time.hour t + Time.minute t)
    * pendulum.US_PER_MINUTE
  /\ pendulum.wall (pendulum.add_minutes (occurrence m j t) 1)
     = ((pendulum.day_number m + j) * 1440 + 60 * Time.hour t + Time.minute t + 1)
       * pendulum.US_PER_MINUTE
  /\ pendulum.tz (occurrence m j t) = pendulum.tz m
  /\ pendulum.tz (pendulum.add_minutes (occurrence m j t) 1) = pendulum.tz m
  /\ pendulum.wall (occurrence m j t) - pendulum.wall m
     = pendulum.timestamp (occurrence m j t) - pendulum.timestamp m
  /\ pendulum.wall (pendulum.add_minutes (occurrence m j t) 1) - pendulum.wall m
     = pendulum.timestamp (pendulum.add_minutes (occurrence m j t) 1) - pendulum.timestamp m.
Proof.
  intros Hq Ht Hj. destruct (calm_occurrence m j t Hq Ht Hj) as (Hocc & Hwall & Hpast & _).
  rewrite Hwall, Hpast. unfold pendulum.add_minutes. rewrite Hocc.
  cbn [pendulum.timestamp pendulum.tz].
  unfold reading, pendulum.wall, pendulum.US_PER_DAY, pendulum.US_PER_HOUR,
    pendulum.US_PER_MINUTE.
  repeat split; lia.
Qed.

Lemma aligned_index dt k :
  pendulum.wall dt = k * pendulum.US_PER_MINUTE -> minute_index dt = k.
Proof. unfold minute_index. intros ->. apply Z.div_mul. discriminate. Qed.

(** The next start of a valid WeekdayInterval: its start time on the date
    of the moment or on one of the seven dates after it. *)
Lemma next_start_index (w : WeekdayInterval.t) (m : pendulum.DateTime) :
  WeekdayInterval.valid w = true ->
  calm m = true ->
  let s := Interval.start (WeekdayInterval.interval w) in
  exists j, 0 <= j <= 7
    /\ WeekdayInterval.next_start_after w m = Ok (occurrence m j s)
    /\ (pendulum.day_number m + j) mod 7 = WeekdayInterval.day_of_week w
    /\ (j = 0 -> pendulum.timestamp m <= pendulum.timestamp (occurrence m 0 s))
    /\ (j = 7 -> pendulum.timestamp (occurrence m 0 s) < pendulum.timestamp m).
Proof.
  intros Hw Hz s.
  destruct (weekday_interval_valid_bounds w Hw) as (Hd & Hs & He). fold s in Hs.
  destruct (next_after_cases w m Hw Hz) as (S1 & S2 & S3 & _). fold s in S1, S2, S3.
  destruct (Z.eq_dec (pendulum.day_of_week m) (WeekdayInterval.day_of_week w)) as [Heq|Hne].
  - destruct (Z_le_gt_dec (pendulum.timestamp m) (pendulum.timestamp (occurrence m 0 s)))
      as [Hle|Hgt].
    + exists 0. split; [lia|]. split; [apply S1; assumption|].
      split; [rewrite Z.add_0_r; exact Heq|]. split; [intros _; exact Hle | lia].
    + exists 7. split; [lia|]. split; [apply S2; [assumption | lia]|].
      split; [| split; [lia | intros _; lia]].
      rewrite <- Heq. unfold pendulum.day_of_week. Z.div_mod_to_equations. lia.
  - destruct (S3 Hne) as (k & Hk & Hdow & Hnext).
    exists k. split; [lia|]. split; [exact Hnext|].
    split; [| split; lia].
    unfold pendulum.day_of_week in Hdow. rewrite occurrence_day_number in Hdow by (assumption || lia).
    exact Hdow.
Qed.

Lemma next_end_index (w : WeekdayInterval.t) (m : pendulum.DateTime) :
  WeekdayInterval.valid w = true ->
  calm m = true ->
  let e := Interval.end_ (WeekdayInterval.interval w) in
  exists j, 0 <= j <= 7
    /\ WeekdayInterval.next_end_after w m = Ok (pendulum.add_minutes (occurrence m j e) 1)
    /\ (pendulum.day_number m + j) mod 7 = WeekdayInterval.day_of_week w
    /\ (j = 0 -> pendulum.timestamp m
                 < pendulum.timestamp (pendulum.add_minutes (occurrence m 0 e) 1))
    /\ (j = 7 -> pendulum.timestamp (pendulum.add_minutes (occurrence m 0 e) 1)
                 <= pendulum.timestamp m).
Proof.
  intros Hw Hz e.
  destruct (weekday_interval_valid_bounds w Hw) as (Hd & Hs & He). fold e in He.
  destruct (next_after_cases w m Hw Hz) as (_ & _ & _ & E1 & E2 & E3). fold e in E1, E2, E3.
  destruct (Z.eq_dec (pendulum.day_of_week m) (WeekdayInterval.day_of_week w)) as [Heq|Hne].
  - destruct (Z_lt_le_dec (pendulum.timestamp m)
                (pendulum.timestamp (pendulum.add_minutes (occurrence m 0 e) 1)))
      as [Hlt|Hge].
    + exists 0. split; [lia|]. split; [apply E1; assumption|].
      split; [rewrite Z.add_0_r; exact Heq|]. split; [intros _; exact Hlt | lia].
    + exists 7. split; [lia|]. split; [apply E2; assumption|].
      split; [| split; [lia | intros _; exact Hge]].
      rewrite <- Heq. unfold pendulum.day_of_week. Z.div_mod_to_equations. lia.
  - destruct (E3 Hne) as (k & Hk & Hdow & Hnext).
    exists k. split; [lia|]. split; [exact Hnext|].
    split; [| split; lia].
    unfold pendulum.day_of_week in Hdow. rewrite occurrence_day_number in Hdow by (assumption || lia).
    exact Hdow.
Qed.

(** No candidate of the search is before the moment, and all are in the
    zone of the moment. *)
Lemma candidate_not_before (s : Schedule.t) (m c : pendulum.DateTime) :
  Schedule.valid s = true -> is_candidate s m c ->
  pendulum.tz c = pendulum.tz m
  /\ pendulum.timestamp m <= pendulum.timestamp c.
Proof.
  intros Hv. destruct (schedule_valid_in s Hv) as [Va Vf].
  intros [-> | [(w & Hw & Hc) | (w & Hw & Hc)]]; [split; [reflexivity | lia] | |].
  - destruct (next_after_total w m (Va w Hw)) as [(r & Hr & Htz & Hle) _].
    rewrite Hr in Hc. injection Hc as <-. split; assumption.
  - destruct (next_after_total w m (Vf w Hw)) as [_ (r & Hr & Htz & Hlt)].
    rewrite Hr in Hc. injection Hc as <-. split; [assumption | lia].
Qed.

(** Every allowed minute at or after the minute of a calm moment has an
    allowed candidate that is not after it: the moment itself, the start of
    the allowed WeekdayInterval in which the run of allowed minutes begins,
    or the minute after the forbidden WeekdayInterval whose end begins
    it. *)
Lemma earlier_candidate (s : Schedule.t) (m : pendulum.DateTime) :
  Schedule.valid s = true -> ordered_schedule s = true ->
  calm m = true ->
  forall (n : nat) (k : Z),
    k = minute_index m + Z.of_nat n ->
    allowed_minute s k = true ->
    exists c, is_candidate s m c
      /\ pendulum.tz c = pendulum.tz m
      /\ pendulum.wall c - pendulum.wall m = pendulum.timestamp c - pendulum.timestamp m
      /\ allowed_minute s (minute_index c) = true
      /\ (c = m \/ (pendulum.wall c = minute_index c * pendulum.US_PER_MINUTE
                    /\ minute_index c <= k)).
Proof.
  intros Hv Ho Hq. destruct (schedule_valid_in s Hv) as [Va Vf].
  destruct (ordered_schedule_in s Ho) as [Oa Of].
  induction n as [|n IH]; intros k Hk Hallowed.
  - exists m. rewrite Z.add_0_r in Hk. subst k.
    split; [left; reflexivity|]. split; [reflexivity|]. split; [lia|].
    split; [exact Hallowed | left; reflexivity].
  - destruct (allowed_minute s (k - 1)) eqn:Hprev.
    + destruct (IH (k - 1) ltac:(lia) Hprev) as (c & Hc & Hoff & Hdiff & Hca & Hpos).
      exists c. split; [exact Hc|]. split; [exact Hoff|]. split; [exact Hdiff|].
      split; [exact Hca|].
      destruct Hpos as [-> | [Hal Hle]]; [left; reflexivity | right; split; [exact Hal | lia]].
    + pose proof (minute_index_day m) as Hday.
      unfold allowed_minute in Hallowed, Hprev.
      apply andb_true_iff in Hallowed as [Hsome Hnone].
      apply existsb_exists in Hsome as (wa & Hwa & Hcov).
      apply negb_true_iff in Hnone.
      apply andb_false_iff in Hprev as [Hprev | Hprev].
      * (* the run begins with the start of [wa] *)
        pose proof (existsb_false_in _ _ wa Hprev Hwa) as Hnot.
        destruct (next_start_index wa m (Va wa Hwa) Hq) as (j & Hj & Hnext & Hdow & _ & H7).
        destruct (weekday_interval_valid_bounds wa (Va wa Hwa)) as (Hd & Hsv & _).
        pose proof (time_valid_bounds _ Hsv) as Hs.
        assert (Hfirst : first_minute wa = k mod 10080).
        { unfold covers in Hcov, Hnot. pose proof (Oa wa Hwa) as Hord.
          unfold ordered_interval in Hord. apply Z.leb_le in Hord.
          apply andb_true_iff in Hcov as [C1 C2]. apply Z.leb_le in C1, C2.
          apply andb_false_iff in Hnot as [N | N]; apply Z.leb_gt in N;
            unfold first_minute, last_minute in *; Z.div_mod_to_equations; lia. }
        set (st := Interval.start (WeekdayInterval.interval wa)) in *.
        destruct (occurrence_wall m j st Hq Hsv Hj) as (Hwall & _ & Hoff & _ & Hdiff & _).
        destruct (occurrence_wall m 0 st Hq Hsv ltac:(lia)) as (Hwall0 & _ & _ & _ & Hdiff0 & _).
        pose proof (aligned_index _ _ Hwall) as Hidx.
        assert (Hseven : j = 7 ->
                  1440 * pendulum.day_number m + 60 * Time.hour st + Time.minute st
                  <= minute_index m).
        { intros Hj7. specialize (H7 Hj7). fold st in H7.
          assert (Hw : pendulum.wall (occurrence m 0 st) < pendulum.wall m) by lia.
          rewrite Hwall0 in Hw. unfold minute_index, pendulum.US_PER_MINUTE in *.
          Z.div_mod_to_equations. lia. }
        assert (Hcong : minute_index (occurrence m j st) mod 10080 = k mod 10080
                        /\ minute_index (occurrence m j st) <= k).
        { rewrite Hidx. unfold first_minute in Hfirst. fold st in Hfirst.
          Z.div_mod_to_equations. lia. }
        exists (occurrence m j st).
        split; [right; left; exists wa; split; [exact Hwa | exact Hnext]|].
        split; [exact Hoff|]. split; [exact Hdiff|].
        split.
        -- rewrite (allowed_minute_mod s _ k (proj1 Hcong)).
           unfold allowed_minute. apply andb_true_iff. split.
           ++ apply existsb_exists. exists wa. split; assumption.
           ++ rewrite Hnone. reflexivity.
        -- right. split; [rewrite Hidx; exact Hwall | exact (proj2 Hcong)].
      * (* the run begins after the end of a forbidden WeekdayInterval *)
        apply negb_false_iff, existsb_exists in Hprev as (wf & Hwf & Hcovf).
        pose proof (existsb_false_in _ _ wf Hnone Hwf) as Hnot.
        destruct (next_end_index wf m (Vf wf Hwf) Hq) as (j & Hj & Hnext & Hdow & _ & H7).
        destruct (weekday_interval_valid_bounds wf (Vf wf Hwf)) as (Hd & _ & Hev).
        pose proof (time_valid_bounds _ Hev) as He.
        assert (Hlast : last_minute wf = (k - 1) mod 10080).
        { unfold covers in Hcovf, Hnot. pose proof (Of wf Hwf) as Hord.
          unfold ordered_interval in Hord. apply Z.leb_le in Hord.
          apply andb_true_iff in Hcovf as [C1 C2]. apply Z.leb_le in C1, C2.
          apply andb_false_iff in Hnot as [N | N]; apply Z.leb_gt in N;
            unfold first_minute, last_minute in *; Z.div_mod_to_equations; lia. }
        set (en := Interval.end_ (WeekdayInterval.interval wf)) in *.
        destruct (occurrence_wall m j en Hq Hev Hj) as (_ & Hwall & _ & Hoff & _ & Hdiff).
        destruct (occurrence_wall m 0 en Hq Hev ltac:(lia)) as (_ & Hwall0 & _ & _ & _ & Hdiff0).
        pose proof (aligned_index _ _ Hwall) as Hidx.
        assert (Hseven : j = 7 ->
                  1440 * pendulum.day_number m + 60 * Time.hour en + Time.minute en + 1
                  <= minute_index m).
        { intros Hj7. specialize (H7 Hj7). fold en in H7.
          assert (Hw : pendulum.wall (pendulum.add_minutes (occurrence m 0 en) 1)
                       <= pendulum.wall m) by lia.
          rewrite Hwall0 in Hw. unfold minute_index, pendulum.US_PER_MINUTE in *.
          Z.div_mod_to_equations. lia. }
        assert (Hcong : minute_index (pendulum.add_minutes (occurrence m j en) 1) mod 10080
                        = k mod 10080
                        /\ minute_index (pendulum.add_minutes (occurrence m j en) 1) <= k).
        { rewrite Hidx. unfold last_minute in Hlast. fold en in Hlast.
          Z.div_mod_to_equations. lia. }
        exists (pendulum.add_minutes (occurrence m j en) 1).
        split; [right; right; exists wf; split; [exact Hwf | exact Hnext]|].
        split; [exact Hoff|]. split; [exact Hdiff|].
        split.
        -- rewrite (allowed_minute_mod s _ k (proj1 Hcong)).
           unfold allowed_minute. apply andb_true_iff. split.
           ++ apply existsb_exists. exists wa. split; assumption.
           ++ rewrite Hnone. reflexivity.
        -- right. split; [rewrite Hidx; exact Hwall | exact (proj2 Hcong)].
Qed.

(** Every minute of the week that a schedule allows has, for a calm moment,
    an allowed candidate less than a week after the moment. *)
Lemma week_candidate (s : Schedule.t) (m : pendulum.DateTime) (k : Z) :
  Schedule.valid s = true -> ordered_schedule s = true ->
  calm m = true ->
  allowed_minute s k = true ->
  exists c, is_candidate s m c
    /\ pendulum.tz c = pendulum.tz m
    /\ allowed_minute s (minute_index c) = true
    /\ pendulum.timestamp c < pendulum.timestamp m + 7 * pendulum.US_PER_DAY.
Proof.
  intros Hv Ho Hq Hallowed.
  set (n := (k - minute_index m) mod 10080).
  assert (Hn : 0 <= n < 10080) by (apply Z.mod_pos_bound; lia).
  assert (Hk : allowed_minute s (minute_index m + n) = true).
  { rewrite (allowed_minute_mod s _ k); [exact Hallowed|].
    subst n. Z.div_mod_to_equations. lia. }
  destruct (earlier_candidate s m Hv Ho Hq (Z.to_nat n) (minute_index m + n) ltac:(lia) Hk)
    as (c & Hc & Hoff & Hdiff & Hca & Hpos).
  exists c. split; [exact Hc|]. split; [exact Hoff|]. split; [exact Hca|].
  destruct Hpos as [-> | [Hal Hle]]; [unfold pendulum.US_PER_DAY; lia|].
  assert (Hm : minute_index m * pendulum.US_PER_MINUTE <= pendulum.wall m).
  { unfold minute_index, pendulum.US_PER_MINUTE. Z.div_mod_to_equations. lia. }
  unfold pendulum.US_PER_DAY, pendulum.US_PER_MINUTE in *. lia.
Qed.

Section SearchFacts.
Context (tzdata : str -> pendulum.Timezone).

(** The two outcomes of the search on a schedule of valid
    WeekdayIntervals. *)
Lemma next_moment_allowed_after_result (s : Schedule.t) (moment : pendulum.DateTime) :
  Schedule.valid s = true ->
  let m := pendulum.in_tz tzdata moment (Schedule.tz s) in
  (exists best,
      Schedule.next_moment_allowed_after tzdata s moment = Ok best
      /\ is_candidate s m best
      /\ Schedule.is_allowed_at tzdata s best = true
      /\ forall c, is_candidate s m c -> Schedule.is_allowed_at tzdata s c = true ->
                   pendulum.timestamp best <= pendulum.timestamp c)
  \/ (Schedule.next_moment_allowed_after tzdata s moment = Raise no_allowed_intervals
      /\ forall c, is_candidate s m c -> Schedule.is_allowed_at tzdata s c = false).
Proof.
  intros Hv m.
  destruct (next_moment_allowed_after_unfold tzdata s moment Hv) as (cands & Hin & _).
  fold m in Hin.
  destruct (next_moment_allowed_after_cases tzdata s moment Hv) as [Hraise Hok].
  fold m in Hraise, Hok.
  destruct (existsb (Schedule.is_allowed_at tzdata s) cands) eqn:Hex.
  - left. apply Hok. apply existsb_exists in Hex as (c & Hc & Ha).
    exists c. split; [apply Hin, Hc | exact Ha].
  - right. assert (Hnone : forall c, is_candidate s m c ->
                             Schedule.is_allowed_at tzdata s c = false).
    { intros c Hc. apply (existsb_false_in _ cands c Hex), Hin, Hc. }
    split; [apply Hraise, Hnone | exact Hnone].
Qed.

(** What the search returns is in the zone of the schedule, not before
    the moment, and allowed. *)
Lemma next_moment_allowed_after_sound (s : Schedule.t) (moment best : pendulum.DateTime) :
  Schedule.valid s = true ->
  Schedule.next_moment_allowed_after tzdata s moment = Ok best ->
  is_candidate s (pendulum.in_tz tzdata moment (Schedule.tz s)) best
  /\ pendulum.timestamp moment <= pendulum.timestamp best
  /\ pendulum.tz best = tzdata (Schedule.tz s)
  /\ Schedule.is_allowed_at tzdata s best = true
  /\ forall c, is_candidate s (pendulum.in_tz tzdata moment (Schedule.tz s)) c ->
               Schedule.is_allowed_at tzdata s c = true ->
               pendulum.timestamp best <= pendulum.timestamp c.
Proof.
  intros Hv Hnext.
  destruct (next_moment_allowed_after_result s moment Hv)
    as [(best' & Hbest & Hc & Ha & Hmin) | [Hraise _]]; [| congruence].
  rewrite Hnext in Hbest. injection Hbest as <-.
  destruct (candidate_not_before s _ best Hv Hc) as [Htz Hle].
  split; [exact Hc|]. split; [exact Hle|]. split; [exact Htz|]. split; [exact Ha | exact Hmin].
Qed.

(** For a calm moment, an allowed moment at or after it has an allowed
    candidate that is not after it. *)
Lemma allowed_has_candidate (s : Schedule.t) (moment t : pendulum.DateTime) :
  Schedule.valid s = true -> ordered_schedule s = true ->
  let m := pendulum.in_tz tzdata moment (Schedule.tz s) in
  calm m = true ->
  pendulum.timestamp moment <= pendulum.timestamp t ->
  Schedule.is_allowed_at tzdata s t = true ->
  exists c, is_candidate s m c
    /\ Schedule.is_allowed_at tzdata s c = true
    /\ pendulum.timestamp c <= pendulum.timestamp t.
Proof.
  intros Hv Ho m Hq Hle Hallowed.
  rewrite is_allowed_at_minute in Hallowed by assumption.
  set (t' := pendulum.in_tz tzdata t (Schedule.tz s)) in *.
  assert (Hback : forall c, pendulum.tz c = pendulum.tz m ->
                    allowed_minute s (minute_index c) = true ->
                    Schedule.is_allowed_at tzdata s c = true).
  { intros c Hoff Hca. rewrite is_allowed_at_minute by assumption.
    rewrite in_tz_same by (rewrite Hoff; reflexivity). exact Hca. }
  destruct (Z_le_gt_dec (pendulum.timestamp t)
              (pendulum.timestamp m + 11 * pendulum.US_PER_DAY)) as [Hnear | Hfar].
  - destruct (calm_near m t' Hq eq_refl) as [_ Hwt].
    { subst m t'. cbn [pendulum.in_tz pendulum.timestamp] in *.
      unfold pendulum.US_PER_DAY in *. lia. }
    assert (Hts : pendulum.timestamp m <= pendulum.timestamp t') by exact Hle.
    assert (Hidx : minute_index m <= minute_index t').
    { unfold minute_index, pendulum.US_PER_MINUTE. apply Z.div_le_mono; [reflexivity|].
      rewrite Hwt. unfold pendulum.wall. lia. }
    destruct (earlier_candidate s m Hv Ho Hq (Z.to_nat (minute_index t' - minute_index m))
                (minute_index t') ltac:(lia) Hallowed)
      as (c & Hc & Hoff & Hdiff & Hca & Hpos).
    exists c. split; [exact Hc|]. split; [apply Hback; assumption|].
    destruct Hpos as [-> | [Hal Hk]]; [exact Hle|].
    assert (Hw : pendulum.wall c <= pendulum.wall t').
    { rewrite Hal. unfold minute_index, pendulum.US_PER_MINUTE in *.
      Z.div_mod_to_equations. lia. }
    rewrite Hwt in Hw. unfold pendulum.wall in Hdiff at 2.
    change (pendulum.timestamp t') with (pendulum.timestamp t) in Hw. lia.
  - destruct (week_candidate s m (minute_index t') Hv Ho Hq Hallowed)
      as (c & Hc & Hoff & Hca & Hweek).
    exists c. split; [exact Hc|]. split; [apply Hback; assumption|].
    unfold pendulum.US_PER_DAY in *. lia.
Qed.

(** Between two moments with no transition of its zone from the one to the
    other, a schedule allows a moment exactly when it allows the moment [n]
    weeks of 168 hours later. *)
Lemma is_allowed_at_weeks (s : Schedule.t) (a b : pendulum.DateTime) (n : Z) :
  quiet (tzdata (Schedule.tz s))
        (Z.min (pendulum.timestamp a) (pendulum.timestamp b))
        (Z.max (pendulum.timestamp a) (pendulum.timestamp b)) = true ->
  pendulum.timestamp b = pendulum.timestamp a + n * (7 * pendulum.US_PER_DAY) ->
  Schedule.is_allowed_at tzdata s b = Schedule.is_allowed_at tzdata s a.
Proof.
  intros Hq Hts. apply is_allowed_at_same_minute.
  assert (Hoff : pendulum.utcoffset (pendulum.in_tz tzdata b (Schedule.tz s))
                 = pendulum.utcoffset (pendulum.in_tz tzdata a (Schedule.tz s))).
  { unfold pendulum.utcoffset, pendulum.in_tz. cbn [pendulum.tz pendulum.timestamp].
    apply (offset_from_quiet _ _ (Z.min (pendulum.timestamp a) (pendulum.timestamp b))
             (Z.max (pendulum.timestamp a) (pendulum.timestamp b)) _ _ Hq); lia. }
  unfold minute_of_week, minute_index, pendulum.wall. rewrite Hoff.
  cbn [pendulum.in_tz pendulum.timestamp]. rewrite Hts.
  unfold pendulum.US_PER_DAY, pendulum.US_PER_MINUTE.
  Z.div_mod_to_equations. lia.
Qed.

End SearchFacts.

(** The zone of New York on the Sunday 2017-03-12, whose clocks go from
    02:00 to 03:00: a schedule that allows Sundays from 02:30 to 04:00, asked
    on the Saturday at noon. *)
Lemma new_york_skipped_start :
  let tzdata := fun _ : str => America_New_York in
  let s := Schedule.Build
             [WeekdayInterval.Build 0 (Interval.Build (Time.Build 2 30) (Time.Build 4 0))]
             [] $"America/New_York" in
  Schedule.next_moment_allowed_after tzdata s (new_york_at 69 12 0) = Ok (new_york_at 70 3 30)
  /\ Schedule.is_allowed_at tzdata s (new_york_at 70 3 0) = true
  /\ pendulum.timestamp (new_york_at 69 12 0) <= pendulum.timestamp (new_york_at 70 3 0)
  /\ pendulum.timestamp (new_york_at 70 3 0) < pendulum.timestamp (new_york_at 70 3 30).
Proof. repeat split; vm_compute; congruence. Qed.

(** X5.  What [next_moment_allowed_after] returns, on a schedule of valid
    WeekdayIntervals, is in every zone a moment of the schedule's zone that
    is not before the given moment and that the schedule allows.  When no
    WeekdayInterval of the schedule ends before it starts and the schedule's
    zone has no transition from three days before the given moment to eleven
    days after it, it is the earliest such moment: the schedule allows no
    moment from the given one up to it.  Near a daylight-saving transition
    it need not be: in New York, with Sundays allowed from 02:30 to 04:00,
    the search from Saturday 2017-03-11 12:00 returns Sunday 03:30, although
    the schedule allows Sunday 03:00. *)
Theorem next_moment_allowed_after_earliest (tzdata : str -> pendulum.Timezone)
    (s : Schedule.t) (moment best : pendulum.DateTime) :
  Schedule.valid s = true ->
  Schedule.next_moment_allowed_after tzdata s moment = Ok best ->
  pendulum.timestamp moment <= pendulum.timestamp best
  /\ pendulum.tz best = tzdata (Schedule.tz s)
  /\ Schedule.is_allowed_at tzdata s best = true
  /\ (ordered_schedule s = true ->
      calm (pendulum.in_tz tzdata moment (Schedule.tz s)) = true ->
      forall t, pendulum.timestamp moment <= pendulum.timestamp t ->
                pendulum.timestamp t < pendulum.timestamp best ->
                Schedule.is_allowed_at tzdata s t = false)
  /\ (let tzdata := fun _ : str => America_New_York in
      let s := Schedule.Build
                 [WeekdayInterval.Build 0 (Interval.Build (Time.Build 2 30) (Time.Build 4 0))]
                 [] $"America/New_York" in
      Schedule.next_moment_allowed_after tzdata s (new_york_at 69 12 0)
      = Ok (new_york_at 70 3 30)
      /\ Schedule.is_allowed_at tzdata s (new_york_at 70 3 0) = true
      /\ pendulum.timestamp (new_york_at 69 12 0) <= pendulum.timestamp (new_york_at 70 3 0)
      /\ pendulum.timestamp (new_york_at 70 3 0) < pendulum.timestamp (new_york_at 70 3 30)).
Proof.
  intros Hv Hnext.
  destruct (next_moment_allowed_after_sound tzdata s moment best Hv Hnext)
    as (Hc & Hle & Htz & Ha & Hmin).
  split; [exact Hle|]. split; [exact Htz|]. split; [exact Ha|].
  split; [| exact new_york_skipped_start].
  intros Ho Hq t Hmt Hlt. destruct (Schedule.is_allowed_at tzdata s t) eqn:Hat; [|reflexivity].
  destruct (allowed_has_candidate tzdata s moment t Hv Ho Hq Hmt Hat) as (c & Hcc & Hca & Hct).
  specialize (Hmin c Hcc Hca). lia.
Qed.

Lemma next_moment_allowed_after_earliest_witness :
  let tzdata := fun _ : str => America_New_York in
  let s := Schedule.Build
             [WeekdayInterval.Build 1 (Interval.Build (Time.Build 9 0) (Time.Build 17 0))]
             [WeekdayInterval.Build 1 (Interval.Build (Time.Build 9 0) (Time.Build 11 59))]
             $"America/New_York" in
  pendulum.timestamp (new_york_at 98 13 0) <= pendulum.timestamp (new_york_at 99 12 0)
  /\ Schedule.is_allowed_at tzdata s (new_york_at 99 12 0) = true
  /\ forall t, pendulum.timestamp (new_york_at 98 13 0) <= pendulum.timestamp t ->
               pendulum.timestamp t < pendulum.timestamp (new_york_at 99 12 0) ->
               Schedule.is_allowed_at tzdata s t = false.
Proof.
  intros tzdata s.
  assert (Hv : Schedule.valid s = true) by reflexivity.
  assert (Hnext : Schedule.next_moment_allowed_after tzdata s (new_york_at 98 13 0)
                  = Ok (new_york_at 99 12 0)) by (vm_compute; reflexivity).
  destruct (next_moment_allowed_after_earliest tzdata s (new_york_at 98 13 0)
              (new_york_at 99 12 0) Hv Hnext) as (H1 & _ & H2 & H3 & _).
  split; [exact H1|]. split; [exact H2|]. apply H3; vm_compute; reflexivity.
Defined.

(** X6.  On a schedule of valid WeekdayIntervals none of which ends before
    it starts, when the schedule's zone has no transition from three days
    before the given moment to eleven days after it, the search raises the
    schedule-evaluation error exactly when the schedule allows no moment at
    all, and returns a moment exactly when the schedule allows some moment.
    Near a daylight-saving transition it can raise although the schedule
    allows moments: in New York, with Sundays allowed from 02:30 to 02:45
    only, the search from Saturday 2017-03-11 12:00 raises, and the schedule
    allows 02:30 on the Sunday before. *)
Theorem next_moment_allowed_after_raises_iff (tzdata : str -> pendulum.Timezone)
    (s : Schedule.t) (moment : pendulum.DateTime) :
  (Schedule.valid s = true -> ordered_schedule s = true ->
   calm (pendulum.in_tz tzdata moment (Schedule.tz s)) = true ->
   (Schedule.next_moment_allowed_after tzdata s moment = Raise no_allowed_intervals
    <-> forall t, Schedule.is_allowed_at tzdata s t = false)
   /\ ((exists best, Schedule.next_moment_allowed_after tzdata s moment = Ok best)
       <-> exists t, Schedule.is_allowed_at tzdata s t = true))
  /\ (let tzdata := fun _ : str => America_New_York in
      let s := Schedule.Build
                 [WeekdayInterval.Build 0 (Interval.Build (Time.Build 2 30) (Time.Build 2 45))]
                 [] $"America/New_York" in
      Schedule.next_moment_allowed_after tzdata s (new_york_at 69 12 0)
      = Raise no_allowed_intervals
      /\ Schedule.is_allowed_at tzdata s (new_york_at 63 2 30) = true).
Proof.
  split; [| split; vm_compute; reflexivity].
  intros Hv Ho Hq.
  assert (Hnever : Schedule.next_moment_allowed_after tzdata s moment
                   = Raise no_allowed_intervals ->
                   forall t, Schedule.is_allowed_at tzdata s t = false).
  { intros Hraise t.
    destruct (next_moment_allowed_after_result tzdata s moment Hv)
      as [(best & Hbest & _) | [_ Hnone]]; [congruence|].
    destruct (Schedule.is_allowed_at tzdata s t) eqn:Hat; [| reflexivity].
    rewrite is_allowed_at_minute in Hat by assumption.
    destruct (week_candidate s _ _ Hv Ho Hq Hat) as (c & Hc & Hoff & Hca & _).
    rewrite <- (Hnone c Hc). symmetry.
    rewrite is_allowed_at_minute by assumption.
    rewrite in_tz_same by (rewrite Hoff; reflexivity). exact Hca. }
  assert (Hsome : forall best,
             Schedule.next_moment_allowed_after tzdata s moment = Ok best ->
             Schedule.is_allowed_at tzdata s best = true).
  { intros best Hnext.
    destruct (next_moment_allowed_after_result tzdata s moment Hv)
      as [(best' & Hbest & _ & Ha & _) | [Hraise _]]; congruence. }
  split; split.
  - exact Hnever.
  - intros Hnone.
    destruct (next_moment_allowed_after_result tzdata s moment Hv)
      as [(best & Hbest & _ & Ha & _) | [Hraise _]]; [| exact Hraise].
    rewrite Hnone in Ha. discriminate.
  - intros (best & Hnext). exists best. apply Hsome, Hnext.
  - intros (t & Hat).
    destruct (next_moment_allowed_after_result tzdata s moment Hv)
      as [(best & Hbest & _) | [Hraise _]]; [exists best; exact Hbest|].
    rewrite (Hnever Hraise t) in Hat. discriminate.
Qed.

Lemma next_moment_allowed_after_raises_iff_witness :
  let tzdata := fun _ : str => America_New_York in
  let s := Schedule.Build
             [WeekdayInterval.Build 1 (Interval.Build (Time.Build 9 0) (Time.Build 17 0))]
             [WeekdayInterval.Build 1 (Interval.Build (Time.Build 9 0) (Time.Build 11 59))]
             $"America/New_York" in
  exists best,
    Schedule.next_moment_allowed_after tzdata s (new_york_at 101 0 0) = Ok best.
Proof.
  intros tzdata s.
  assert (Hv : Schedule.valid s = true) by reflexivity.
  assert (Ho : ordered_schedule s = true) by reflexivity.
  assert (Hq : calm (pendulum.in_tz tzdata (new_york_at 101 0 0) (Schedule.tz s)) = true)
    by (vm_compute; reflexivity).
  apply (proj2 (proj1 (next_moment_allowed_after_raises_iff tzdata s (new_york_at 101 0 0))
                  Hv Ho Hq)).
  exists (new_york_at 99 12 30). vm_compute. reflexivity.
Defined.

(** X7.  A schedule has the precision of a minute: it gives two moments
    the same answer when they are in the same minute of the week on the
    clock of its zone.  It is weekly between transitions: it gives a moment
    and the moment any number of weeks of 168 hours away the same answer
    when its zone has no transition from the one to the other, and so always
    in a zone without transitions.  Across a daylight-saving transition it
    is not: in New York, with Sundays allowed from 10:00 to 10:59, Sunday
    2017-03-05 10:30 is allowed and the moment 168 hours later, 11:30 on the
    clock, is not. *)
Theorem is_allowed_at_weekly (tzdata : str -> pendulum.Timezone) (s : Schedule.t)
    (a b : pendulum.DateTime) (n : Z) :
  (minute_of_week (pendulum.in_tz tzdata a (Schedule.tz s))
   = minute_of_week (pendulum.in_tz tzdata b (Schedule.tz s)) ->
   Schedule.is_allowed_at tzdata s a = Schedule.is_allowed_at tzdata s b)
  /\ (quiet (tzdata (Schedule.tz s))
            (Z.min (pendulum.timestamp a) (pendulum.timestamp b))
            (Z.max (pendulum.timestamp a) (pendulum.timestamp b)) = true ->
      pendulum.timestamp b = pendulum.timestamp a + n * (7 * pendulum.US_PER_DAY) ->
      Schedule.is_allowed_at tzdata s b = Schedule.is_allowed_at tzdata s a)
  /\ (forall lo hi, pendulum.transitions (tzdata (Schedule.tz s)) = [] ->
                    quiet (tzdata (Schedule.tz s)) lo hi = true)
  /\ (let tzdata := fun _ : str => America_New_York in
      let s := Schedule.Build
                 [WeekdayInterval.Build 0 (Interval.Build (Time.Build 10 0) (Time.Build 10 59))]
                 [] $"America/New_York" in
      let a := new_york_at 63 10 30 in
      let b := pendulum.Build (pendulum.timestamp a + 1 * (7 * pendulum.US_PER_DAY))
                              America_New_York in
      Schedule.is_allowed_at tzdata s a = true
      /\ Schedule.is_allowed_at tzdata s b = false
      /\ pendulum.hour b = 11 /\ pendulum.minute b = 30).
Proof.
  split; [apply is_allowed_at_same_minute|].
  split; [apply is_allowed_at_weeks|].
  split; [| repeat split; vm_compute; reflexivity].
  intros lo hi Hz. unfold quiet. rewrite Hz. reflexivity.
Qed.

Lemma is_allowed_at_weekly_witness :
  let tzdata := fun _ : str => America_New_York in
  let s := Schedule.Build
             [WeekdayInterval.Build 1 (Interval.Build (Time.Build 9 0) (Time.Build 17 0))]
             [] $"America/New_York" in
  let a := new_york_at 99 14 0 in
  let b := pendulum.Build (pendulum.timestamp a + 2 * (7 * pendulum.US_PER_DAY)) pendulum.UTC in
  Schedule.is_allowed_at tzdata s b = Schedule.is_allowed_at tzdata s a.
Proof.
  intros tzdata s a b.
  apply (proj1 (proj2 (is_allowed_at_weekly tzdata s a b 2))); vm_compute; reflexivity.
Defined.

(** X8.  A valid WeekdayInterval that does not end before it starts
    contains exactly the moments of its day from its first minute to its
    last, whatever their seconds.  One whose start hour is after its end
    hour does not wrap around: it contains, on its day, the rest of its
    start hour from the start minute on and the end hour up to the end
    minute, and nothing else; one that starts and ends in the same hour,
    with the start minute after the end minute, contains nothing. *)
Theorem weekday_interval_contains_minutes (w : WeekdayInterval.t) (dt : pendulum.DateTime) :
  WeekdayInterval.valid w = true ->
  let s := Interval.start (WeekdayInterval.interval w) in
  let e := Interval.end_ (WeekdayInterval.interval w) in
  (ordered_interval w = true ->
   (WeekdayInterval.contains w dt = true
    <-> first_minute w <= minute_of_week dt <= last_minute w))
  /\ (Time.hour e < Time.hour s ->
      (WeekdayInterval.contains w dt = true
       <-> pendulum.day_of_week dt = WeekdayInterval.day_of_week w
           /\ ((pendulum.hour dt = Time.hour s /\ Time.minute s <= pendulum.minute dt)
               \/ (pendulum.hour dt = Time.hour e /\ pendulum.minute dt <= Time.minute e))))
  /\ (Time.hour e = Time.hour s -> Time.minute e < Time.minute s ->
      WeekdayInterval.contains w dt = false).
Proof.
  intros Hw s e. split; [| split].
  - intros Ho. rewrite (contains_covers w dt Hw Ho). unfold covers.
    fold (minute_of_week dt). rewrite andb_true_iff, !Z.leb_le. reflexivity.
  - intros Hinv. unfold WeekdayInterval.contains. fold s e.
    rewrite !andb_true_iff, !orb_true_iff, !andb_true_iff, !negb_true_iff.
    rewrite !Z.eqb_eq, !Z.ltb_lt, !Z.leb_le, !Z.eqb_neq, Z.geb_le.
    lia.
  - intros Hh Hm. apply not_true_is_false. unfold WeekdayInterval.contains. fold s e.
    rewrite !andb_true_iff, !orb_true_iff, !andb_true_iff, !negb_true_iff.
    rewrite !Z.eqb_eq, !Z.ltb_lt, !Z.leb_le, !Z.eqb_neq, Z.geb_le.
    lia.
Qed.

Lemma weekday_interval_contains_minutes_witness :
  let w := WeekdayInterval.Build 2 (Interval.Build (Time.Build 22 30) (Time.Build 6 15)) in
  let dt := pendulum.Build (2 * pendulum.US_PER_DAY + 6 * pendulum.US_PER_HOUR + 7)
                           pendulum.UTC in
  WeekdayInterval.contains w dt = true
  /\ WeekdayInterval.contains w (moment_at 2 23 0) = false.
Proof.
  intros w dt.
  destruct (weekday_interval_contains_minutes w dt eq_refl) as (_ & Hinv & _).
  destruct (weekday_interval_contains_minutes w (moment_at 2 23 0) eq_refl) as (_ & Hinv' & _).
  split.
  - apply Hinv; [cbn; lia|]. split; [reflexivity|]. right. split; [reflexivity|].
    apply Z.leb_le. reflexivity.
  - apply not_true_is_false. intros Hc. apply Hinv' in Hc; [| cbn; lia].
    destruct Hc as (_ & [[Hc _] | [Hc _]]); vm_compute in Hc; discriminate.
Defined.

Section AllowedNow.
Context (tzdata : str -> pendulum.Timezone).

(** When the schedule allows the moment, the search returns it. *)
Lemma next_moment_allowed_after_now (s : Schedule.t) (moment : pendulum.DateTime) :
  Schedule.valid s = true ->
  Schedule.is_allowed_at tzdata s moment = true ->
  Schedule.next_moment_allowed_after tzdata s moment
  = Ok (pendulum.in_tz tzdata moment (Schedule.tz s)).
Proof.
  intros Hv Ha. set (m := pendulum.in_tz tzdata moment (Schedule.tz s)).
  assert (Hm : Schedule.is_allowed_at tzdata s m = true) by exact Ha.
  assert (Hcand : is_candidate s m m) by (left; reflexivity).
  destruct (next_moment_allowed_after_result tzdata s moment Hv)
    as [(best & Hbest & Hc & _ & Hmin) | [_ Hnone]].
  - fold m in Hc, Hmin. rewrite Hbest. f_equal.
    destruct (candidate_not_before s m best Hv Hc) as [Hoff Hle].
    specialize (Hmin m Hcand Hm).
    destruct best as [ts z]. subst m. cbn in *. subst z.
    unfold pendulum.in_tz. f_equal. lia.
  - fold m in Hnone. rewrite (Hnone m Hcand) in Hm. discriminate.
Qed.

End AllowedNow.

(** X9.  When a schedule of valid WeekdayIntervals allows the moment,
    [next_moment_allowed_after] returns that very moment, on the
    schedule's clock; whenever it returns the instant it was given, the
    schedule allows that instant; and the search from a moment that it has
    returned returns that moment again. *)
Theorem next_moment_allowed_after_allowed_now (tzdata : str -> pendulum.Timezone) (s : Schedule.t)
    (moment : pendulum.DateTime) :
  Schedule.valid s = true ->
  (Schedule.is_allowed_at tzdata s moment = true ->
   Schedule.next_moment_allowed_after tzdata s moment
   = Ok (pendulum.in_tz tzdata moment (Schedule.tz s)))
  /\ (forall best,
         Schedule.next_moment_allowed_after tzdata s moment = Ok best ->
         pendulum.timestamp best = pendulum.timestamp moment ->
         Schedule.is_allowed_at tzdata s moment = true)
  /\ (forall best,
         Schedule.next_moment_allowed_after tzdata s moment = Ok best ->
         Schedule.next_moment_allowed_after tzdata s best = Ok best).
Proof.
  intros Hv. split; [apply next_moment_allowed_after_now, Hv|].
  split; intros best Hnext.
  - intros Hts.
    destruct (next_moment_allowed_after_result tzdata s moment Hv)
      as [(best' & Hbest & _ & Ha & _) | [Hraise _]]; [| congruence].
    rewrite Hnext in Hbest. injection Hbest as <-.
    unfold Schedule.is_allowed_at in *. unfold pendulum.in_tz in *. rewrite <- Hts. exact Ha.
  - destruct (next_moment_allowed_after_result tzdata s moment Hv)
      as [(best' & Hbest & Hc & Ha & _) | [Hraise _]]; [| congruence].
    rewrite Hnext in Hbest. injection Hbest as <-.
    destruct (candidate_not_before s _ best Hv Hc) as [Hoff _].
    rewrite (next_moment_allowed_after_now tzdata s best Hv Ha).
    rewrite in_tz_same; [reflexivity | exact Hoff].
Qed.

Lemma next_moment_allowed_after_allowed_now_witness :
  let s := Schedule.Build
             [WeekdayInterval.Build 1 (Interval.Build (Time.Build 9 0) (Time.Build 17 0))]
             [] $"America/New_York" in
  let moment := pendulum.Build (71 * pendulum.US_PER_DAY + 13 * pendulum.US_PER_HOUR + 1)
                               pendulum.UTC in
  Schedule.next_moment_allowed_after (fun _ => America_New_York) s moment
  = Ok (pendulum.Build (71 * pendulum.US_PER_DAY + 13 * pendulum.US_PER_HOUR + 1)
                       America_New_York).
Proof.
  intros s moment.
  apply (proj1 (next_moment_allowed_after_allowed_now (fun _ => America_New_York)
                  s moment eq_refl)).
  reflexivity.
Defined.

Lemma always_allowed_eq (local_timezone tz : str) :
  Schedule.always_allowed local_timezone tz
  = Ok (Schedule.Build
          (map (fun d => WeekdayInterval.Build d
                           (Interval.Build Time.start_of_day Time.end_of_day))
               [0; 1; 2; 3; 4; 5; 6])
          [] (match tz with [] => local_timezone | _ => tz end)).
Proof. reflexivity. Qed.

(** X10.  [Schedule.always_allowed] builds, in the zone given or in the
    local zone when the name given is empty, the schedule that allows
    00:00-23:59 on each of the seven days and forbids nothing; its
    WeekdayIntervals are valid, it allows every moment, and so its next
    allowed moment after any moment is that moment. *)
Theorem always_allowed_spec (tzdata : str -> pendulum.Timezone) (local_timezone tz : str)
    (moment : pendulum.DateTime) :
  exists s,
    Schedule.always_allowed local_timezone tz = Ok s
    /\ Schedule.valid s = true
    /\ Schedule.allowed s
       = map (fun d => WeekdayInterval.Build d
                         (Interval.Build Time.start_of_day Time.end_of_day))
             [0; 1; 2; 3; 4; 5; 6]
    /\ Schedule.forbidden s = []
    /\ Schedule.tz s = (if Py.len tz =? 0 then local_timezone else tz)
    /\ Schedule.is_allowed_at tzdata s moment = true
    /\ Schedule.next_moment_allowed_after tzdata s moment
       = Ok (pendulum.in_tz tzdata moment (Schedule.tz s)).
Proof.
  eexists. split; [apply always_allowed_eq|].
  set (s := Schedule.Build _ _ _).
  assert (Hv : Schedule.valid s = true) by reflexivity.
  assert (Ha : Schedule.is_allowed_at tzdata s moment = true).
  { rewrite is_allowed_at_minute by reflexivity.
    set (k := minute_index _). unfold allowed_minute, covers. subst s.
    cbn [Schedule.allowed Schedule.forbidden map existsb negb].
    unfold first_minute, last_minute.
    cbn [WeekdayInterval.day_of_week WeekdayInterval.interval Interval.start Interval.end_
         Time.start_of_day Time.end_of_day Time.hour Time.minute].
    rewrite andb_true_r, !orb_true_iff, !andb_true_iff, !Z.leb_le.
    Z.div_mod_to_equations. lia. }
  split; [exact Hv|]. split; [reflexivity|]. split; [reflexivity|].
  split; [destruct tz; reflexivity|].
  split; [exact Ha | apply next_moment_allowed_after_now; assumption].
Qed.

(** [add_agenda_on_days] on days of the week. *)
Lemma add_agenda_on_days_ok (s : Schedule.t) (agenda : Agenda.t) (days : list Z) :
  (forall d, In d days -> 0 <= d <= 6) ->
  Schedule.add_agenda_on_days s agenda days
  = Ok (Schedule.Build
          (Schedule.allowed s ++ agenda_weekday_intervals Directive.ALLOW [agenda] days)
          (Schedule.forbidden s ++ agenda_weekday_intervals Directive.FORBID [agenda] days)
          (Schedule.tz s)).
Proof.
  intros Hdays.
  assert (Hmap : mapM (fun '(interval, day_of_week) =>
                         WeekdayInterval.make day_of_week interval)
                      (Schedule.product (Agenda.intervals agenda) days)
                 = Ok (weekday_intervals_of (Agenda.intervals agenda) days)).
  { rewrite <- product_weekday_intervals. apply mapM_map.
    intros [i d] Hin. apply in_product in Hin as [_ Hd]. apply Hdays in Hd.
    unfold WeekdayInterval.make.
    replace ((0 <=? d) && (d <=? 6)) with true; [reflexivity|].
    symmetry. apply andb_true_iff. split; apply Z.leb_le; lia. }
  unfold Schedule.add_agenda_on_days. rewrite Hmap. cbn [bind].
  unfold agenda_weekday_intervals. cbn [flat_map].
  destruct (Agenda.directive agenda); rewrite !app_nil_r; reflexivity.
Qed.

Lemma agenda_weekday_intervals_cons directive agenda agendas days :
  agenda_weekday_intervals directive (agenda :: agendas) days
  = agenda_weekday_intervals directive [agenda] days
    ++ agenda_weekday_intervals directive agendas days.
Proof. unfold agenda_weekday_intervals. cbn [flat_map]. rewrite app_nil_r. reflexivity. Qed.

Lemma add_agendas_on_days_ok (agendas : list Agenda.t) (days : list Z) :
  (forall d, In d days -> 0 <= d <= 6) ->
  forall s : Schedule.t,
    Schedule.add_agendas_on_days s agendas days
    = Ok (Schedule.Build
            (Schedule.allowed s ++ agenda_weekday_intervals Directive.ALLOW agendas days)
            (Schedule.forbidden s ++ agenda_weekday_intervals Directive.FORBID agendas days)
            (Schedule.tz s)).
Proof.
  intros Hdays. induction agendas as [|agenda agendas IH]; intros s.
  - cbn. rewrite !app_nil_r. destruct s; reflexivity.
  - cbn [Schedule.add_agendas_on_days]. rewrite add_agenda_on_days_ok by exact Hdays.
    cbn [bind]. rewrite IH. cbn [Schedule.allowed Schedule.forbidden Schedule.tz].
    rewrite (agenda_weekday_intervals_cons Directive.ALLOW agenda agendas),
      (agenda_weekday_intervals_cons Directive.FORBID agenda agendas), !app_assoc.
    reflexivity.
Qed.

Lemma in_agenda_weekday_intervals directive agendas days w :
  In w (agenda_weekday_intervals directive agendas days) <->
  exists agenda,
    In agenda agendas /\ Agenda.directive agenda = directive
    /\ In (WeekdayInterval.interval w) (Agenda.intervals agenda)
    /\ In (WeekdayInterval.day_of_week w) days.
Proof.
  unfold agenda_weekday_intervals. rewrite in_flat_map.
  assert (Hin : forall intervals,
            In w (weekday_intervals_of intervals days)
            <-> In (WeekdayInterval.interval w) intervals
                /\ In (WeekdayInterval.day_of_week w) days).
  { intros intervals. unfold weekday_intervals_of. rewrite in_flat_map. split.
    - intros (i & Hi & Hw). apply in_map_iff in Hw as (d & <- & Hd). split; assumption.
    - intros [Hi Hd]. exists (WeekdayInterval.interval w). split; [exact Hi|].
      apply in_map_iff. exists (WeekdayInterval.day_of_week w).
      split; [destruct w; reflexivity | exact Hd]. }
  split.
  - intros (agenda & Hagenda & Hw). exists agenda. split; [exact Hagenda|].
    destruct directive, (Agenda.directive agenda); try destruct Hw;
      (split; [reflexivity | apply Hin; assumption]).
  - intros (agenda & Hagenda & Hdir & Hi & Hd). exists agenda. split; [exact Hagenda|].
    rewrite Hdir. destruct directive; apply Hin; split; assumption.
Qed.

(** X11.  On days of the week, [add_agendas_on_days] appends to the allowed
    list the WeekdayIntervals of the ALLOW agendas and to the forbidden
    list those of the FORBID agendas, agenda after agenda in the order
    given, each agenda giving one WeekdayInterval per interval and day;
    what the schedule held stays in front, and the zone stays. *)
Theorem add_agendas_on_days_spec (s : Schedule.t) (agendas : list Agenda.t)
    (days : list Z) :
  (forall d, In d days -> 0 <= d <= 6) ->
  Schedule.add_agendas_on_days s agendas days
  = Ok (Schedule.Build
          (Schedule.allowed s ++ agenda_weekday_intervals Directive.ALLOW agendas days)
          (Schedule.forbidden s ++ agenda_weekday_intervals Directive.FORBID agendas days)
          (Schedule.tz s))
  /\ forall directive w,
       In w (agenda_weekday_intervals directive agendas days) <->
       exists agenda,
         In agenda agendas /\ Agenda.directive agenda = directive
         /\ In (WeekdayInterval.interval w) (Agenda.intervals agenda)
         /\ In (WeekdayInterval.day_of_week w) days.
Proof.
  intros Hdays. split; [apply add_agendas_on_days_ok, Hdays|].
  intros directive w. apply in_agenda_weekday_intervals.
Qed.

Lemma add_agendas_on_days_spec_witness :
  let agendas :=
    [Agenda.Build [Interval.Build Time.start_of_day Time.end_of_day] Directive.ALLOW;
     Agenda.Build [Interval.Build (Time.Build 8 0) (Time.Build 20 0)] Directive.FORBID;
     Agenda.Build [Interval.Build (Time.Build 12 0) (Time.Build 13 0)] Directive.ALLOW] in
  Schedule.add_agendas_on_days (Schedule.new $"UTC") agendas [1; 2]
  = Ok (Schedule.Build
          [WeekdayInterval.Build 1 (Interval.Build Time.start_of_day Time.end_of_day);
           WeekdayInterval.Build 2 (Interval.Build Time.start_of_day Time.end_of_day);
           WeekdayInterval.Build 1 (Interval.Build (Time.Build 12 0) (Time.Build 13 0));
           WeekdayInterval.Build 2 (Interval.Build (Time.Build 12 0) (Time.Build 13 0))]
          [WeekdayInterval.Build 1 (Interval.Build (Time.Build 8 0) (Time.Build 20 0));
           WeekdayInterval.Build 2 (Interval.Build (Time.Build 8 0) (Time.Build 20 0))]
          $"UTC").
Proof.
  intros agendas.
  assert (Hdays : forall d, In d [1; 2] -> 0 <= d <= 6) by (cbn; intros d H; lia).
  exact (proj1 (add_agendas_on_days_spec (Schedule.new $"UTC") agendas [1; 2] Hdays)).
Defined.

(** ** Lexer: what every call keeps *)

Lemma lexer_ok_set_token (l : Lexer.t) tok : lexer_ok l -> lexer_ok (Lexer.set_token l tok).
Proof. destruct l. exact (fun H => H). Qed.

Lemma lexer_ok_mark_position (l : Lexer.t) : lexer_ok l -> lexer_ok (Lexer.mark_position l).
Proof. destruct l. exact (fun H => H). Qed.

Lemma lexer_ok_line (l : Lexer.t) c :
  lexer_ok l -> Lexer.char l = Some c -> Lexer.line l <> [].
Proof.
  intros (_ & _ & Hchar & _) Hc Hline. unfold lookahead in Hchar.
  rewrite Hline in Hchar. congruence.
Qed.

Lemma lexer_ok_end (l : Lexer.t) :
  lexer_ok l -> Lexer.char l = None -> remaining l = 0%nat.
Proof.
  intros (_ & Hcol & Hchar & Hsrc) Hc. unfold remaining, lookahead in *.
  destruct (Lexer.line l) as [|c0 l0] eqn:Hl.
  - rewrite Hsrc by reflexivity. reflexivity.
  - exfalso. rewrite Hc in Hchar.
    destruct (_ >=? _) eqn:Hge; [discriminate|].
    rewrite Z.geb_leb in Hge. apply Z.leb_gt in Hge.
    unfold Py.getitem in Hchar.
    replace ((0 <=? Lexer.column l + 0) && (Lexer.column l + 0 <? Py.len (c0 :: l0)))
      with true in Hchar
      by (symmetry; apply andb_true_iff; split; [apply Z.leb_le | apply Z.ltb_lt]; lia).
    symmetry in Hchar. apply nth_error_None in Hchar. unfold Py.len in *. lia.
Qed.

(** [next_char] from the column before the line, as the constructor and
    [next_line] call it. *)
Lemma next_char_start (st : Lexer.t) :
  eol_ok (Lexer.end_of_line st) = true ->
  Lexer.column st = -1 ->
  (Lexer.line st = [] -> Lexer.source st = []) ->
  exists l1,
    Lexer.next_char st = Ok l1
    /\ lexer_ok l1
    /\ remaining l1 = (length (Lexer.source st)
                       + match Lexer.line st with [] => 0 | _ => length (Lexer.line st) + 1 end)%nat
    /\ Lexer.position l1 = Lexer.position st
    /\ Lexer.token l1 = Lexer.token st
    /\ Lexer.end_of_line l1 = Lexer.end_of_line st.
Proof.
  intros Heol Hcol Hsrc.
  destruct (next_char_ok st) as (l1 & N & C & _ & A & P & _ & T); [lia|].
  destruct (next_char_shape st) as (l1' & N' & S & L & W & E & _ & Hcol1 & Hshape); [lia|].
  rewrite N in N'. injection N' as <-.
  exists l1. split; [exact N|]. split; [| split; [| repeat split; assumption]].
  - split; [rewrite E; exact Heol|]. split; [exact Hcol1|].
    split; [rewrite A; exact C | rewrite L, S; exact Hsrc].
  - unfold remaining. rewrite S, L. destruct (Lexer.line st) as [|c0 l0]; [reflexivity|].
    destruct Hshape as [-> _]. rewrite Hcol. unfold Py.len. f_equal. lia.
Qed.

Lemma next_char_step (l : Lexer.t) :
  lexer_ok l ->
  exists l1,
    Lexer.next_char l = Ok l1
    /\ lexer_ok l1
    /\ (remaining l1 <= remaining l)%nat
    /\ (forall c, Lexer.char l = Some c -> c <> Lexer.end_of_line l ->
                  (remaining l1 < remaining l)%nat)
    /\ Lexer.position l1 = Lexer.position l
    /\ Lexer.token l1 = Lexer.token l
    /\ Lexer.end_of_line l1 = Lexer.end_of_line l.
Proof.
  intros (Heol & Hcol & Hchar & Hsrc).
  destruct (next_char_ok l) as (l1 & N & C & _ & A & P & _ & T); [lia|].
  destruct (next_char_shape l) as (l1' & N' & S & L & W & E & _ & Hcol1 & Hshape); [lia|].
  rewrite N in N'. injection N' as <-.
  exists l1. split; [exact N|].
  split; [| split; [| split; [| repeat split; assumption]]].
  - split; [rewrite E; exact Heol|]. split; [exact Hcol1|].
    split; [rewrite A; exact C | rewrite L, S; exact Hsrc].
  - unfold remaining. rewrite S, L. destruct (Lexer.line l) as [|c0 l0]; [lia|].
    destruct Hshape as [-> _]. lia.
  - intros c Hc Hne. unfold remaining. rewrite S, L. unfold lookahead in Hchar.
    destruct (Lexer.line l) as [|c0 l0]; [congruence|].
    destruct Hshape as [-> _].
    destruct (_ >=? _) eqn:Hge in Hchar; [congruence|].
    rewrite Z.geb_leb in Hge. apply Z.leb_gt in Hge. lia.
Qed.

Lemma next_line_step (l : Lexer.t) :
  lexer_ok l -> Lexer.line l <> [] ->
  exists l1,
    Lexer.next_line l = Ok l1
    /\ lexer_ok l1
    /\ (remaining l1 <= remaining l)%nat
    /\ Lexer.token l1 = Lexer.token l
    /\ Lexer.end_of_line l1 = Lexer.end_of_line l.
Proof.
  intros (Heol & Hcol & Hchar & Hsrc) Hline. unfold Lexer.next_line.
  destruct (readline_length (Lexer.source l)) as [Hlen Hne].
  destruct (Lexer.readline (Lexer.source l)) as [ln rest]. cbn [fst snd] in Hlen, Hne.
  set (st := Lexer.set_lineno _ _).
  destruct (next_char_start st) as (l1 & N & J & R & _ & T & E).
  - subst st. destruct l. exact Heol.
  - subst st. destruct l. reflexivity.
  - subst st. destruct l. cbn in *. intros ->.
    destruct source; [| exfalso; apply Hne; [discriminate | reflexivity]].
    cbn in Hlen. destruct rest; [reflexivity | discriminate].
  - exists l1. split; [exact N|]. split; [exact J|].
    split; [| split; [rewrite T | rewrite E]; subst st; destruct l; reflexivity].
    rewrite R. unfold remaining. subst st. destruct l. cbn in *.
    destruct line; [contradiction|]. destruct ln; cbn in *; lia.
Qed.

Lemma skip_whitespace_inv n : forall l l' : Lexer.t,
  Lexer.skip_whitespace n l = Ok l' -> lexer_ok l ->
  lexer_ok l'
  /\ (remaining l' <= remaining l)%nat
  /\ Lexer.token l' = Lexer.token l
  /\ Lexer.end_of_line l' = Lexer.end_of_line l.
Proof.
  induction n as [|n IH]; intros l l' Hskip J; [discriminate|].
  cbn [Lexer.skip_whitespace] in Hskip.
  destruct (Lexer.char_is_end_of_line l) eqn:Heol.
  - rewrite orb_true_r in Hskip.
    assert (Hline : Lexer.line l <> []).
    { unfold Lexer.char_is_end_of_line in Heol.
      destruct (Lexer.char l) as [c|] eqn:Hc; [| discriminate].
      exact (lexer_ok_line l c J Hc). }
    destruct (next_line_step l J Hline) as (l1 & N & J1 & R1 & T1 & E1).
    rewrite N in Hskip. cbn [bind] in Hskip.
    destruct (IH l1 l' Hskip J1) as (J' & R' & T' & E').
    split; [exact J'|]. split; [lia|]. split; congruence.
  - rewrite orb_false_r in Hskip. destruct (Lexer.char_is_whitespace l).
    + destruct (next_char_step l J) as (l1 & N & J1 & R1 & _ & _ & T1 & E1).
      rewrite N in Hskip. cbn [bind] in Hskip.
      destruct (IH l1 l' Hskip J1) as (J' & R' & T' & E').
      split; [exact J'|]. split; [lia|]. split; congruence.
    + injection Hskip as <-. split; [exact J|]. split; [lia|]. split; reflexivity.
Qed.

Lemma eol_ok_cases e :
  eol_ok e = true ->
  Py.char_in e Py.ascii_letters = false
  /\ Py.char_in e Lexer.HOUR_ENDS = false /\ e <> "-"%char.
Proof.
  unfold eol_ok. rewrite !andb_true_iff, !negb_true_iff, Ascii.eqb_neq. tauto.
Qed.

Lemma extract_loop_inv n : forall l l' : Lexer.t,
  Lexer.extract_loop n l = Ok l' -> lexer_ok l ->
  lexer_ok l'
  /\ (remaining l' <= remaining l)%nat
  /\ (forall c, Lexer.char l = Some c -> Py.char_in c Py.ascii_letters = true ->
                (remaining l' < remaining l)%nat)
  /\ Lexer.token l' = Lexer.token l
  /\ Lexer.position l' = Lexer.position l
  /\ Lexer.end_of_line l' = Lexer.end_of_line l.
Proof.
  induction n as [|n IH]; intros l l' Hloop J; [discriminate|].
  cbn [Lexer.extract_loop] in Hloop.
  destruct (Lexer.char l) as [c|] eqn:Hc.
  - destruct (Py.char_in c Py.ascii_letters) eqn:Hletter.
    + destruct (next_char_step l J) as (l1 & N & J1 & R1 & R1' & P1 & T1 & E1).
      rewrite N in Hloop. cbn [bind] in Hloop.
      destruct (IH l1 l' Hloop J1) as (J' & R' & _ & T' & P' & E').
      assert (Hne : c <> Lexer.end_of_line l).
      { intros ->. destruct J as (Heol%eol_ok_cases & _). destruct Heol as [Hl _]. congruence. }
      specialize (R1' c Hc Hne).
      split; [exact J'|]. split; [lia|]. split; [intros; lia|]. repeat split; congruence.
    + injection Hloop as <-.
      split; [exact J|]. split; [lia|]. split; [intros c' [= <-] Hl; congruence|].
      repeat split; reflexivity.
  - injection Hloop as <-. split; [exact J|]. split; [lia|]. split; [intros c' [=]|].
    repeat split; reflexivity.
Qed.

Lemma hour_start_not_eol c e :
  Py.char_in c Lexer.HOUR_STARTS = true -> eol_ok e = true -> c <> e.
Proof.
  intros [-> | [-> | ->]]%hour_start_cases He <-; discriminate.
Qed.

(** [time_token] on a character that starts an hour: a TIME token whose
    lexeme is a time of day, or a lexical error. *)
Lemma time_token_step (l : Lexer.t) (c1 : ascii) (pos : Position.t) :
  lexer_ok l ->
  Lexer.char l = Some c1 ->
  Py.char_in c1 Lexer.HOUR_STARTS = true ->
  Lexer.position l = Some pos ->
  (exists l' lexeme t,
      Lexer.time_token l = Ok l'
      /\ lexer_ok l'
      /\ (remaining l' < remaining l)%nat
      /\ Lexer.token l' = Some (Token.Build TokenType.TIME lexeme pos)
      /\ Lexer.position l' = Some pos
      /\ Lexer.end_of_line l' = Lexer.end_of_line l
      /\ Time.from_string lexeme = Ok t /\ Time.valid t = true)
  \/ exists message, Lexer.time_token l = Raise (LexerError message).
Proof.
  intros J Hchar Hstart Hpos.
  assert (Hne : c1 <> Lexer.end_of_line l)
    by (apply hour_start_not_eol; [exact Hstart | apply J]).
  destruct (next_char_step l J) as (l1 & N1 & J1 & R1 & R1' & P1 & _ & E1).
  specialize (R1' c1 Hchar Hne).
  destruct (next_char_step l1 J1) as (l2 & N2 & J2 & R2 & _ & P2 & _ & E2).
  destruct (next_char_step l2 J2) as (l3 & N3 & J3 & R3 & _ & P3 & _ & E3).
  destruct (next_char_step l3 J3) as (l4 & N4 & J4 & R4 & _ & P4 & _ & E4).
  unfold Lexer.time_token, Lexer.hour_partial. rewrite N1. cbn [bind]. rewrite Hchar.
  destruct (Lexer.is_hour_end (Lexer.char l1) (Some c1)) eqn:H2; cbn [negb];
    [| right; eexists; reflexivity].
  destruct (Lexer.char l1) as [d2|] eqn:C2; [| discriminate].
  cbn [option_map Lexer.concat_chars bind]. rewrite N2. cbn [bind].
  unfold Lexer.minute_partial.
  destruct (Lexer.is_minute_start (Lexer.char l2)) eqn:H3; cbn [negb];
    [| right; eexists; reflexivity].
  destruct (Lexer.char l2) as [d3|] eqn:C3; [| discriminate].
  rewrite N3. cbn [bind].
  destruct (Lexer.is_minute_end (Lexer.char l3)) eqn:H4; cbn [negb];
    [| right; eexists; reflexivity].
  destruct (Lexer.char l3) as [d4|] eqn:C4; [| discriminate].
  cbn [option_map Lexer.concat_chars bind]. rewrite N4. cbn [bind].
  unfold Lexer.make_token.
  assert (Hpos4 : Lexer.position l4 = Some pos) by congruence.
  rewrite Hpos4. cbn [bind app].
  rewrite is_hour_end_digit in H2 by exact Hstart.
  rewrite is_minute_start_digit in H3. rewrite is_minute_end_digit in H4.
  destruct (time_lexeme_in_range c1 d2 d3 d4 Hstart H2 H3 H4)
    as (h & m & Hfrom & _ & _ & Hh & Hm).
  left. eexists _, _, (Time.Build h m). split; [reflexivity|].
  split; [apply lexer_ok_set_token, J4|].
  split; [destruct l4; cbn in *; lia|].
  split; [destruct l4; reflexivity|].
  split; [destruct l4; exact Hpos4|].
  split; [destruct l4; cbn in *; congruence|].
  split; [exact Hfrom|].
  unfold Time.valid. cbn [Time.hour Time.minute].
  rewrite !andb_true_iff, !Z.leb_le. lia.
Qed.

(** The lexemes to which the lexer gives the type DAY_OF_WEEK are days. *)
Lemma day_of_lexeme_ok lexeme :
  Py.str_in (Py.lower lexeme) Lexer.DAYS_OF_WEEK = true ->
  exists d, Parser.day_of_lexeme lexeme = Ok d /\ 0 <= d <= 6.
Proof.
  intros Hin. unfold Parser.day_of_lexeme.
  destruct (Parser.dict_get Parser.dow_int_map (Py.lower lexeme)) as [d|] eqn:Hget.
  - exists d. split; [reflexivity | eapply dow_int_map_range; exact Hget].
  - exfalso. unfold Py.str_in in Hin. apply existsb_exists in Hin as (k & Hk & Heq).
    unfold Py.str_eqb in Heq. apply bool_decide_eq_true in Heq. rewrite Heq in Hget.
    unfold Lexer.DAYS_OF_WEEK in Hk. cbn [In] in Hk.
    repeat (destruct Hk as [<- | Hk]; [vm_compute in Hget; discriminate|]).
    exact Hk.
Qed.

Lemma from_string_ok (string : str) :
  exists l, Lexer.from_string string = Ok l /\ lexer_ok l /\ Lexer.token l = None
    /\ Lexer.end_of_line l = Lexer.NL.
Proof.
  unfold Lexer.from_string, Lexer.init.
  destruct (readline_length string) as [Hlen Hne].
  destruct (Lexer.readline string) as [ln rest]. cbn [fst snd] in Hlen, Hne.
  destruct (next_char_start (Lexer.Build rest [" "%char; "009"%char; "012"%char] Lexer.NL
                               ln None 0 (-1) None None))
    as (l1 & N & J & _ & _ & T & E); [reflexivity | reflexivity | |].
  - cbn. intros ->. destruct string; [| exfalso; apply Hne; [discriminate | reflexivity]].
    cbn in Hlen. destruct rest; [reflexivity | discriminate].
  - exists l1. split; [exact N|]. split; [exact J|]. split; [exact T | exact E].
Qed.

(** [next_token] on a lexer in order: a lexer in order that holds a token,
    with less to read unless the token is END_INPUT, or a lexical error. *)
Lemma next_token_step (l : Lexer.t) :
  lexer_ok l ->
  (exists l',
      Lexer.next_token l = Ok l'
      /\ lexer_ok l' /\ token_ok l'
      /\ (remaining l' <= remaining l)%nat
      /\ (token_is_end l' = false -> (remaining l' < remaining l)%nat)
      /\ (token_is_end l' = true -> remaining l' = 0%nat))
  \/ exists message, Lexer.next_token l = Raise (LexerError message).
Proof.
  intros J. unfold Lexer.next_token.
  assert (J0 : lexer_ok (Lexer.set_token l None)) by (apply lexer_ok_set_token, J).
  assert (R0 : remaining (Lexer.set_token l None) = remaining l) by (destruct l; reflexivity).
  destruct (skip_whitespace_total (Lexer.set_token l None)) as (skipped & Hskip & _);
    [destruct J0 as (_ & Hcol & _); lia|].
  destruct (skip_whitespace_inv _ _ _ Hskip J0) as (Js & Rs & Ts & Es).
  rewrite Hskip. cbn [bind].
  set (marked := Lexer.mark_position skipped).
  set (pos := Position.Build (Lexer.column skipped) (Lexer.lineno skipped)).
  assert (Jm : lexer_ok marked) by (apply lexer_ok_mark_position, Js).
  assert (Hpos : Lexer.position marked = Some pos) by (destruct skipped; reflexivity).
  assert (Rm : (remaining marked <= remaining l)%nat).
  { rewrite <- R0. replace (remaining marked) with (remaining skipped); [exact Rs|].
    destruct skipped; reflexivity. }
  assert (Tm : Lexer.token marked = None).
  { replace (Lexer.token marked) with (Lexer.token skipped) by (destruct skipped; reflexivity).
    rewrite Ts. destruct l; reflexivity. }
  assert (Hnone : forall self : Lexer.t, Lexer.token self = None ->
            exists message,
              match Lexer.token self with
              | None => Lexer.unexpected_char_error self None 0
              | Some _ => Ok self
              end = Raise (LexerError message)).
  { intros self ->. eexists. reflexivity. }
  assert (Htoken : forall (self : Lexer.t) ty lexeme,
            lexer_ok self -> Lexer.position self = Some pos ->
            (remaining self <= remaining l)%nat ->
            (ty <> TokenType.END_INPUT -> (remaining self < remaining l)%nat) ->
            (ty = TokenType.END_INPUT -> remaining self = 0%nat) ->
            (ty = TokenType.TIME ->
             exists t, Time.from_string lexeme = Ok t /\ Time.valid t = true) ->
            (ty = TokenType.DAY_OF_WEEK ->
             exists d, Parser.day_of_lexeme lexeme = Ok d /\ 0 <= d <= 6) ->
            exists l',
              (let* self := (let* tok := Lexer.make_token self ty lexeme in
                             Ok (Lexer.set_token self (Some tok))) in
               match Lexer.token self with
               | None => Lexer.unexpected_char_error self None 0
               | Some _ => Ok self
               end) = Ok l'
              /\ lexer_ok l' /\ token_ok l'
              /\ (remaining l' <= remaining l)%nat
              /\ (token_is_end l' = false -> (remaining l' < remaining l)%nat)
              /\ (token_is_end l' = true -> remaining l' = 0%nat)).
  { intros self ty lexeme Jself Hp Rle Rlt Rend Htime Hday.
    exists (Lexer.set_token self (Some (Token.Build ty lexeme pos))).
    unfold Lexer.make_token. rewrite Hp. cbn [bind].
    split; [destruct self; reflexivity|].
    split; [apply lexer_ok_set_token, Jself|].
    split.
    { exists (Token.Build ty lexeme pos), pos.
      split; [destruct self; reflexivity|]. split; [destruct self; exact Hp|].
      split; [exact Htime|]. split; [exact Hday|].
      intros Hty. rewrite <- (Rend Hty). destruct self; reflexivity. }
    replace (remaining (Lexer.set_token self (Some (Token.Build ty lexeme pos))))
      with (remaining self) by (destruct self; reflexivity).
    replace (token_is_end (Lexer.set_token self (Some (Token.Build ty lexeme pos))))
      with (TokenType.eqb ty TokenType.END_INPUT) by (destruct self; reflexivity).
    split; [exact Rle|]. split; intros Hty.
    - apply Rlt. intros ->. discriminate.
    - apply Rend. destruct ty; try discriminate. reflexivity. }
  destruct (Lexer.char marked) as [c|] eqn:Hchar.
  - destruct (eol_ok_cases _ (proj1 Jm)) as (Hletters & Hdigits & Hdash).
    destruct (Lexer.is_ascii_identifier_start c) eqn:Hletter.
    + unfold Lexer.allow_or_forbid_or_day_of_week_token, Lexer.extract_ascii_identifier.
      destruct (extract_loop_ok (Lexer.fuel_of marked) marked) as (extracted & Hextract & _);
        [destruct Jm as (_ & Hcol & _); lia | exact Hletters
         | destruct Jm as (_ & Hcol & _); unfold Lexer.fuel_of, Py.len; lia |].
      destruct (extract_loop_inv _ _ _ Hextract Jm) as (Je & Re & Re' & Te & Pe & Ee).
      specialize (Re' c Hchar Hletter).
      rewrite Hextract. cbn [bind].
      set (lexeme := Py.slice _ _ _).
      destruct (Trie.contains Lexer.KEYWORDS lexeme); cbn [negb];
        [| right; destruct (Trie.contains_prefix Lexer.KEYWORDS lexeme);
           eexists; reflexivity].
      destruct (Py.str_eqb (Py.lower lexeme) $"allow").
      { left. apply Htoken; try discriminate; [exact Je | congruence | lia | intros; lia]. }
      destruct (Py.str_eqb (Py.lower lexeme) $"forbid").
      { left. apply Htoken; try discriminate; [exact Je | congruence | lia | intros; lia]. }
      destruct (Py.str_in (Py.lower lexeme) Lexer.DAYS_OF_WEEK) eqn:Hday.
      { left. apply Htoken; try discriminate;
          [exact Je | congruence | lia | intros; lia | intros _; apply day_of_lexeme_ok, Hday]. }
      right. cbn [bind]. apply Hnone. congruence.
    + destruct (Lexer.is_hour_start (Some c)) eqn:Hhour.
      * destruct (time_token_step marked c pos Jm Hchar Hhour Hpos)
          as [(l' & lexeme & t & Htime & J' & R' & T' & P' & E' & Hfrom & Hvalid)
             | (message & Htime)].
        -- left. exists l'. rewrite Htime. cbn [bind]. rewrite T'.
           split; [reflexivity|]. split; [exact J'|].
           split.
           { exists (Token.Build TokenType.TIME lexeme pos), pos.
             split; [exact T'|]. split; [exact P'|].
             split; [intros _; exists t; split; assumption|].
             split; discriminate. }
           unfold token_is_end. rewrite T'. cbn [Token.type TokenType.eqb].
           split; [lia|]. split; [intros _; lia | discriminate].
        -- right. exists message. rewrite Htime. reflexivity.
      * destruct (Ascii.eqb c "-") eqn:Hminus.
        -- apply Ascii.eqb_eq in Hminus. subst c.
           destruct (next_char_step marked Jm) as (l1 & N & J1 & R1 & R1' & P1 & _ & _).
           specialize (R1' "-"%char Hchar (not_eq_sym Hdash)).
           rewrite N. cbn [bind]. left.
           apply Htoken; try discriminate; [exact J1 | congruence | lia | intros; lia].
        -- right. cbn [bind]. apply Hnone, Tm.
  - destruct (next_char_step marked Jm) as (l1 & N & J1 & R1 & _ & P1 & _ & _).
    rewrite N. cbn [bind]. left.
    apply Htoken; try discriminate; [exact J1 | congruence | lia | congruence |].
    intros _. pose proof (lexer_ok_end marked Jm Hchar). lia.
Qed.

(** ** Parser: every outcome *)

Lemma tokentype_eqb_eq a b : TokenType.eqb a b = true <-> a = b.
Proof. destruct a, b; cbn; split; congruence. Qed.

Lemma dsl_error_bind {A B} (o : outcome A) (k : A -> outcome B) :
  dsl_error o -> dsl_error (bind o k).
Proof. intros [(m & ->) | (m & ->)]; [left | right]; exists m; reflexivity. Qed.

Lemma unexpected_token_error {A} (l : Lexer.t) (expected : list TokenType.t) :
  token_ok l -> dsl_error (@Parser.unexpected_token A l expected).
Proof.
  intros (tok & pos & Ht & Hp & _). right.
  unfold Parser.unexpected_token, Lexer.build_position_error_string, Parser.token_type.
  rewrite Hp, Ht. cbn [bind]. eexists. reflexivity.
Qed.

Lemma pending_fuel (l : Lexer.t) : lexer_ok l -> (pending l < Lexer.fuel_of l)%nat.
Proof.
  intros (_ & Hcol & _). unfold pending, remaining, Lexer.fuel_of, Py.len.
  destruct (Lexer.line l); destruct (token_is_end l); cbn [length]; lia.
Qed.

Lemma next_token_pending (l : Lexer.t) :
  lexer_ok l -> token_is_end l = false ->
  (exists l',
      Lexer.next_token l = Ok l' /\ lexer_ok l' /\ token_ok l'
      /\ (pending l' < pending l)%nat)
  \/ exists message, Lexer.next_token l = Raise (LexerError message).
Proof.
  intros J Hend.
  destruct (next_token_step l J) as [(l' & N & J' & Hok & Rle & Rlt & _) | Herr];
    [left | right; exact Herr].
  exists l'. split; [exact N|]. split; [exact J'|]. split; [exact Hok|].
  unfold pending. rewrite Hend. destruct (token_is_end l'); [lia|].
  specialize (Rlt eq_refl). lia.
Qed.

Lemma in_day_range first last d : In d (day_range first last) -> 0 <= d <= 6.
Proof.
  unfold day_range. intros (i & <- & _)%in_map_iff. Z.div_mod_to_equations. lia.
Qed.

Lemma parse_days_step (l : Lexer.t) :
  lexer_ok l -> token_ok l ->
  parsed (fun days l' => (pending l' < pending l)%nat /\ days <> []
                         /\ forall d, In d days -> 0 <= d <= 6)
         (Parser.parse_days l).
Proof.
  intros J Hok. pose proof Hok as (tok & pos & Ht & _ & _ & Hday & _).
  unfold Parser.parse_days. rewrite (token_type_of _ _ Ht). cbn [bind].
  destruct (TokenType.eqb (Token.type tok) TokenType.DAY_OF_WEEK) eqn:Hty; cbn [negb];
    [| right; apply unexpected_token_error, Hok].
  apply tokentype_eqb_eq in Hty.
  rewrite (token_lexeme_of _ _ Ht). cbn [bind].
  destruct (Hday Hty) as (d1 & Hd1 & Hr1). rewrite Hd1. cbn [bind].
  destruct (next_token_pending l J) as [(l1 & N1 & J1 & Hok1 & P1) | (m & N1)];
    [unfold token_is_end; rewrite Ht, Hty; reflexivity | | rewrite N1; right; left; exists m; reflexivity].
  rewrite N1. cbn [bind].
  pose proof Hok1 as (tok1 & pos1 & Ht1 & _).
  rewrite (token_type_of _ _ Ht1). cbn [bind].
  destruct (TokenType.eqb (Token.type tok1) TokenType.DASH) eqn:Hty1.
  - apply tokentype_eqb_eq in Hty1.
    destruct (next_token_pending l1 J1) as [(l2 & N2 & J2 & Hok2 & P2) | (m & N2)];
      [unfold token_is_end; rewrite Ht1, Hty1; reflexivity | | rewrite N2; right; left; exists m; reflexivity].
    rewrite N2. cbn [bind].
    pose proof Hok2 as (tok2 & pos2 & Ht2 & _ & _ & Hday2 & _).
    rewrite (token_type_of _ _ Ht2). cbn [bind].
    destruct (TokenType.eqb (Token.type tok2) TokenType.DAY_OF_WEEK) eqn:Hty2; cbn [negb];
      [| right; apply unexpected_token_error, Hok2].
    apply tokentype_eqb_eq in Hty2.
    rewrite (token_lexeme_of _ _ Ht2). cbn [bind].
    destruct (Hday2 Hty2) as (d2 & Hd2 & Hr2). rewrite Hd2. cbn [bind].
    destruct (next_token_pending l2 J2) as [(l3 & N3 & J3 & Hok3 & P3) | (m & N3)];
      [unfold token_is_end; rewrite Ht2, Hty2; reflexivity | | rewrite N3; right; left; exists m; reflexivity].
    rewrite N3. cbn [bind]. rewrite days_loop_spec by assumption. cbn [bind].
    left. exists (day_range d1 d2), l3. split; [reflexivity|].
    split; [exact J3|]. split; [exact Hok3|]. split; [lia|]. split; [| apply in_day_range].
    destruct (day_range_shape d1 d2 Hr1 Hr2) as (Hhead & _).
    intros Hnil. rewrite Hnil in Hhead. discriminate.
  - left. exists [d1], l1. split; [reflexivity|].
    split; [exact J1|]. split; [exact Hok1|]. split; [lia|]. split; [discriminate|].
    intros d [<- | []]. exact Hr1.
Qed.

Lemma parse_interval_step (l : Lexer.t) :
  lexer_ok l -> token_ok l ->
  parsed (fun i l' => (pending l' < pending l)%nat /\ Interval.valid i = true)
         (Parser.parse_interval l).
Proof.
  intros J Hok. pose proof Hok as (tok & pos & Ht & _ & Htime & _).
  assert (Hvalid : forall a b, Time.valid a = true -> Time.valid b = true ->
            Interval.valid (Interval.Build a b) = true).
  { intros a b Ha Hb. unfold Interval.valid. cbn. rewrite Ha, Hb. reflexivity. }
  unfold Parser.parse_interval. rewrite (token_type_of _ _ Ht). cbn [bind].
  destruct (TokenType.eqb (Token.type tok) TokenType.TIME) eqn:Hty.
  - apply tokentype_eqb_eq in Hty.
    rewrite (token_lexeme_of _ _ Ht). cbn [bind].
    destruct (Htime Hty) as (start & Hs & Hvs). rewrite Hs. cbn [bind].
    destruct (next_token_pending l J) as [(l1 & N1 & J1 & Hok1 & P1) | (m & N1)];
      [unfold token_is_end; rewrite Ht, Hty; reflexivity | | rewrite N1; right; left; exists m; reflexivity].
    rewrite N1. cbn [bind].
    pose proof Hok1 as (tok1 & pos1 & Ht1 & _).
    rewrite (token_type_of _ _ Ht1). cbn [bind].
    destruct (TokenType.eqb (Token.type tok1) TokenType.DASH) eqn:Hty1.
    + apply tokentype_eqb_eq in Hty1.
      destruct (next_token_pending l1 J1) as [(l2 & N2 & J2 & Hok2 & P2) | (m & N2)];
        [unfold token_is_end; rewrite Ht1, Hty1; reflexivity | | rewrite N2; right; left; exists m; reflexivity].
      rewrite N2. cbn [bind].
      pose proof Hok2 as (tok2 & pos2 & Ht2 & _ & Htime2 & _).
      rewrite (token_type_of _ _ Ht2). cbn [bind].
      destruct (TokenType.eqb (Token.type tok2) TokenType.TIME) eqn:Hty2; cbn [negb];
        [| right; apply unexpected_token_error, Hok2].
      apply tokentype_eqb_eq in Hty2.
      rewrite (token_lexeme_of _ _ Ht2). cbn [bind].
      destruct (Htime2 Hty2) as (e & He & Hve). rewrite He. cbn [bind].
      destruct (next_token_pending l2 J2) as [(l3 & N3 & J3 & Hok3 & P3) | (m & N3)];
        [unfold token_is_end; rewrite Ht2, Hty2; reflexivity | | rewrite N3; right; left; exists m; reflexivity].
      rewrite N3. cbn [bind].
      left. exists (Interval.Build start e), l3. split; [reflexivity|].
      split; [exact J3|]. split; [exact Hok3|]. split; [lia | apply Hvalid; assumption].
    + left. exists (Interval.Build start Time.end_of_day), l1. split; [reflexivity|].
      split; [exact J1|]. split; [exact Hok1|]. split; [lia | apply Hvalid; [assumption | reflexivity]].
  - destruct (TokenType.eqb (Token.type tok) TokenType.DASH) eqn:Hty';
      [| right; apply unexpected_token_error, Hok].
    apply tokentype_eqb_eq in Hty'.
    destruct (next_token_pending l J) as [(l1 & N1 & J1 & Hok1 & P1) | (m & N1)];
      [unfold token_is_end; rewrite Ht, Hty'; reflexivity | | rewrite N1; right; left; exists m; reflexivity].
    rewrite N1. cbn [bind].
    pose proof Hok1 as (tok1 & pos1 & Ht1 & _ & Htime1 & _).
    rewrite (token_type_of _ _ Ht1). cbn [bind].
    destruct (TokenType.eqb (Token.type tok1) TokenType.TIME) eqn:Hty1; cbn [negb];
      [| right; apply unexpected_token_error, Hok1].
    apply tokentype_eqb_eq in Hty1.
    rewrite (token_lexeme_of _ _ Ht1). cbn [bind].
    destruct (Htime1 Hty1) as (e & He & Hve). rewrite He. cbn [bind].
    destruct (next_token_pending l1 J1) as [(l2 & N2 & J2 & Hok2 & P2) | (m & N2)];
      [unfold token_is_end; rewrite Ht1, Hty1; reflexivity | | rewrite N2; right; left; exists m; reflexivity].
    rewrite N2. cbn [bind].
    left. exists (Interval.Build Time.start_of_day e), l2. split; [reflexivity|].
    split; [exact J2|]. split; [exact Hok2|]. split; [lia | apply Hvalid; [reflexivity | assumption]].
Qed.

Lemma parse_intervals_loop_step fuel : forall acc (l : Lexer.t),
  lexer_ok l -> token_ok l -> (pending l < fuel)%nat ->
  parsed (fun intervals l' =>
            (pending l' <= pending l)%nat
            /\ (exists more, intervals = acc ++ more
                             /\ Forall (fun i => Interval.valid i = true) more)
            /\ token_type_in l' [TokenType.TIME; TokenType.DASH] = false)
         (Parser.parse_intervals_loop fuel acc l).
Proof.
  induction fuel as [|fuel IH]; intros acc l J Hok Hfuel; [lia|].
  cbn [Parser.parse_intervals_loop]. pose proof Hok as (tok & pos & Ht & _).
  rewrite (token_type_of _ _ Ht). cbn [bind].
  destruct (TokenType.eqb (Token.type tok) TokenType.TIME
            || TokenType.eqb (Token.type tok) TokenType.DASH) eqn:Hty.
  - destruct (parse_interval_step l J Hok) as [(i & l1 & Hi & J1 & Hok1 & P1 & Hv) | Herr];
      [| right; apply dsl_error_bind, Herr].
    rewrite Hi. cbn [bind].
    destruct (IH (acc ++ [i]) l1 J1 Hok1 ltac:(lia))
      as [(ivs & l' & Hloop & J' & Hok' & P' & (more & -> & Hmore) & Hty') | Herr];
      [| right; exact Herr].
    left. exists ((acc ++ [i]) ++ more), l'. split; [exact Hloop|].
    split; [exact J'|]. split; [exact Hok'|]. split; [lia|]. split; [| exact Hty'].
    exists (i :: more). rewrite <- app_assoc. split; [reflexivity | constructor; assumption].
  - left. exists acc, l. split; [reflexivity|]. split; [exact J|]. split; [exact Hok|].
    split; [lia|]. split; [exists []; rewrite app_nil_r; split; [reflexivity | constructor]|].
    unfold token_type_in. rewrite Ht. cbn [existsb]. rewrite orb_false_r. exact Hty.
Qed.

Lemma parse_intervals_step (l : Lexer.t) :
  lexer_ok l -> token_ok l ->
  parsed (fun intervals l' =>
            (pending l' < pending l)%nat
            /\ intervals <> []
            /\ Forall (fun i => Interval.valid i = true) intervals
            /\ token_type_in l' [TokenType.TIME; TokenType.DASH] = false)
         (Parser.parse_intervals l).
Proof.
  intros J Hok. unfold Parser.parse_intervals.
  destruct (parse_interval_step l J Hok) as [(i & l1 & Hi & J1 & Hok1 & P1 & Hv) | Herr];
    [| right; apply dsl_error_bind, Herr].
  rewrite Hi. cbn [bind app].
  destruct (parse_intervals_loop_step (Lexer.fuel_of l1) [i] l1 J1 Hok1 (pending_fuel l1 J1))
    as [(ivs & l' & Hloop & J' & Hok' & P' & (more & -> & Hmore) & Hty') | Herr];
    [| right; exact Herr].
  left. exists ([i] ++ more), l'. split; [exact Hloop|].
  split; [exact J'|]. split; [exact Hok'|]. split; [lia|]. split; [discriminate|].
  split; [constructor; assumption | exact Hty'].
Qed.

Lemma parse_agenda_step (l : Lexer.t) :
  lexer_ok l -> token_ok l ->
  parsed (fun agenda l' =>
            (pending l' < pending l)%nat /\ agenda_ok agenda
            /\ token_type_in l' [TokenType.TIME; TokenType.DASH] = false)
         (Parser.parse_agenda l).
Proof.
  intros J Hok. pose proof Hok as (tok & pos & Ht & _).
  unfold Parser.parse_agenda. rewrite (token_type_of _ _ Ht). cbn [bind].
  destruct (TokenType.eqb (Token.type tok) TokenType.ALLOW) eqn:Hty.
  - apply tokentype_eqb_eq in Hty.
    destruct (next_token_pending l J) as [(l1 & N1 & J1 & Hok1 & P1) | (m & N1)];
      [unfold token_is_end; rewrite Ht, Hty; reflexivity | | rewrite N1; right; left; exists m; reflexivity].
    rewrite N1. cbn [bind].
    destruct (parse_intervals_step l1 J1 Hok1)
      as [(ivs & l' & His & J' & Hok' & P' & Hne & Hv & Hty') | Herr];
      [| right; apply dsl_error_bind, Herr].
    rewrite His. cbn [bind]. left. exists (Agenda.Build ivs Directive.ALLOW), l'.
    split; [reflexivity|]. split; [exact J'|]. split; [exact Hok'|]. split; [lia|].
    split; [split; assumption | exact Hty'].
  - destruct (TokenType.eqb (Token.type tok) TokenType.FORBID) eqn:Hty2;
      [| right; apply unexpected_token_error, Hok].
    apply tokentype_eqb_eq in Hty2.
    destruct (next_token_pending l J) as [(l1 & N1 & J1 & Hok1 & P1) | (m & N1)];
      [unfold token_is_end; rewrite Ht, Hty2; reflexivity | | rewrite N1; right; left; exists m; reflexivity].
    rewrite N1. cbn [bind].
    destruct (parse_intervals_step l1 J1 Hok1)
      as [(ivs & l' & His & J' & Hok' & P' & Hne & Hv & Hty') | Herr];
      [| right; apply dsl_error_bind, Herr].
    rewrite His. cbn [bind]. left. exists (Agenda.Build ivs Directive.FORBID), l'.
    split; [reflexivity|]. split; [exact J'|]. split; [exact Hok'|]. split; [lia|].
    split; [split; assumption | exact Hty'].
Qed.

Lemma parse_agendas_loop_step fuel : forall acc (l : Lexer.t),
  lexer_ok l -> token_ok l -> (pending l < fuel)%nat ->
  token_type_in l [TokenType.TIME; TokenType.DASH] = false ->
  parsed (fun agendas l' =>
            (pending l' <= pending l)%nat
            /\ (exists more, agendas = acc ++ more /\ Forall agenda_ok more)
            /\ token_type_in l' [TokenType.TIME; TokenType.DASH;
                                 TokenType.ALLOW; TokenType.FORBID] = false)
         (Parser.parse_agendas_loop fuel acc l).
Proof.
  induction fuel as [|fuel IH]; intros acc l J Hok Hfuel Hnot; [lia|].
  cbn [Parser.parse_agendas_loop]. pose proof Hok as (tok & pos & Ht & _).
  rewrite (token_type_of _ _ Ht). cbn [bind].
  destruct (existsb (TokenType.eqb (Token.type tok)) [TokenType.ALLOW; TokenType.FORBID])
    eqn:Hty.
  - destruct (parse_agenda_step l J Hok) as [(a & l1 & Ha & J1 & Hok1 & P1 & Hv & Hn1) | Herr];
      [| right; apply dsl_error_bind, Herr].
    rewrite Ha. cbn [bind].
    destruct (IH (acc ++ [a]) l1 J1 Hok1 ltac:(lia) Hn1)
      as [(agendas & l' & Hloop & J' & Hok' & P' & (more & -> & Hmore) & Hty') | Herr];
      [| right; exact Herr].
    left. exists ((acc ++ [a]) ++ more), l'. split; [exact Hloop|].
    split; [exact J'|]. split; [exact Hok'|]. split; [lia|]. split; [| exact Hty'].
    exists (a :: more). rewrite <- app_assoc. split; [reflexivity | constructor; assumption].
  - left. exists acc, l. split; [reflexivity|]. split; [exact J|]. split; [exact Hok|].
    split; [lia|]. split; [exists []; rewrite app_nil_r; split; [reflexivity | constructor]|].
    unfold token_type_in in *. rewrite Ht in *.
    destruct (Token.type tok); cbn in *; congruence.
Qed.

Lemma parse_agendas_step (l : Lexer.t) :
  lexer_ok l -> token_ok l ->
  parsed (fun agendas l' =>
            (pending l' < pending l)%nat
            /\ agendas <> [] /\ Forall agenda_ok agendas
            /\ token_type_in l' [TokenType.TIME; TokenType.DASH;
                                 TokenType.ALLOW; TokenType.FORBID] = false)
         (Parser.parse_agendas l).
Proof.
  intros J Hok. unfold Parser.parse_agendas.
  destruct (parse_agenda_step l J Hok) as [(a & l1 & Ha & J1 & Hok1 & P1 & Hv & Hn1) | Herr];
    [| right; apply dsl_error_bind, Herr].
  rewrite Ha. cbn [bind app].
  destruct (parse_agendas_loop_step (Lexer.fuel_of l1) [a] l1 J1 Hok1 (pending_fuel l1 J1) Hn1)
    as [(agendas & l' & Hloop & J' & Hok' & P' & (more & -> & Hmore) & Hty') | Herr];
    [| right; exact Herr].
  left. exists ([a] ++ more), l'. split; [exact Hloop|].
  split; [exact J'|]. split; [exact Hok'|]. split; [lia|]. split; [discriminate|].
  split; [constructor; assumption | exact Hty'].
Qed.

(** The agendas of the parser, on days of the week, keep a schedule valid
    and add to it. *)
Lemma add_agendas_valid (s : Schedule.t) (agendas : list Agenda.t) (days : list Z) :
  Schedule.valid s = true -> Forall agenda_ok agendas ->
  (forall d, In d days -> 0 <= d <= 6) ->
  exists s',
    Schedule.add_agendas_on_days s agendas days = Ok s'
    /\ Schedule.valid s' = true
    /\ Schedule.tz s' = Schedule.tz s
    /\ exists a f,
         Schedule.allowed s' = Schedule.allowed s ++ a
         /\ Schedule.forbidden s' = Schedule.forbidden s ++ f
         /\ (agendas <> [] -> days <> [] -> a <> [] \/ f <> []).
Proof.
  intros Hv Hagendas Hdays. eexists. split; [apply add_agendas_on_days_ok, Hdays|].
  cbn [Schedule.allowed Schedule.forbidden Schedule.tz].
  assert (Hvalid : forall directive w,
            In w (agenda_weekday_intervals directive agendas days) ->
            WeekdayInterval.valid w = true).
  { intros directive w (agenda & Hin & _ & Hi & Hd)%in_agenda_weekday_intervals.
    rewrite Forall_forall in Hagendas. destruct (Hagendas agenda) as [_ Hall].
    { apply list_elem_of_In, Hin. }
    rewrite Forall_forall in Hall. specialize (Hall _ (proj2 (list_elem_of_In _ _) Hi)).
    apply Hdays in Hd. unfold WeekdayInterval.valid.
    rewrite Hall, !andb_true_iff, !Z.leb_le. lia. }
  split; [| split; [reflexivity|]].
  - unfold Schedule.valid in *. cbn [Schedule.allowed Schedule.forbidden].
    apply andb_true_iff in Hv as [Ha Hf].
    rewrite !forallb_app, Ha, Hf. cbn [andb].
    apply andb_true_iff. split; apply forallb_forall; apply Hvalid.
  - do 2 eexists. split; [reflexivity|]. split; [reflexivity|].
    intros Hne Hd. destruct agendas as [|agenda rest]; [contradiction|].
    destruct days as [|d days']; [contradiction|].
    apply Forall_cons in Hagendas as [[Hi _] _].
    destruct agenda as [[|i ivs] directive]; [contradiction|].
    destruct directive; [left | right]; discriminate.
Qed.

Lemma parse_schedule_loop_step fuel : forall (s : Schedule.t) (l : Lexer.t),
  lexer_ok l -> token_ok l -> (pending l < fuel)%nat ->
  token_type_in l [TokenType.TIME; TokenType.DASH; TokenType.ALLOW; TokenType.FORBID] = false ->
  Schedule.valid s = true ->
  parsed (fun s' l' =>
            Schedule.valid s' = true
            /\ Schedule.tz s' = Schedule.tz s
            /\ (exists a f, Schedule.allowed s' = Schedule.allowed s ++ a
                            /\ Schedule.forbidden s' = Schedule.forbidden s ++ f)
            /\ token_is_end l' = true)
         (Parser.parse_schedule_loop fuel s l).
Proof.
  induction fuel as [|fuel IH]; intros s l J Hok Hfuel Hnot Hv; [lia|].
  cbn [Parser.parse_schedule_loop]. pose proof Hok as (tok & pos & Ht & _).
  rewrite (token_type_of _ _ Ht). cbn [bind].
  destruct (TokenType.eqb (Token.type tok) TokenType.DAY_OF_WEEK) eqn:Hty.
  - destruct (parse_days_step l J Hok) as [(days & l1 & Hd & J1 & Hok1 & P1 & _ & Hr) | Herr];
      [| right; apply dsl_error_bind, Herr].
    rewrite Hd. cbn [bind].
    destruct (parse_agendas_step l1 J1 Hok1)
      as [(agendas & l2 & Ha & J2 & Hok2 & P2 & _ & Hall & Hn2) | Herr];
      [| right; apply dsl_error_bind, Herr].
    rewrite Ha. cbn [bind].
    destruct (add_agendas_valid s agendas days Hv Hall Hr)
      as (s1 & Hadd & Hv1 & Htz1 & a1 & f1 & Ha1 & Hf1 & _).
    rewrite Hadd. cbn [bind].
    destruct (IH s1 l2 J2 Hok2 ltac:(lia) Hn2 Hv1)
      as [(s' & l' & Hloop & J' & Hok' & Hv' & Htz' & (a2 & f2 & Ha2 & Hf2) & Hend) | Herr];
      [| right; exact Herr].
    left. exists s', l'. split; [exact Hloop|]. split; [exact J'|]. split; [exact Hok'|].
    split; [exact Hv'|]. split; [congruence|]. split; [| exact Hend].
    exists (a1 ++ a2), (f1 ++ f2). rewrite Ha2, Hf2, Ha1, Hf1, <- !app_assoc. split; reflexivity.
  - left. exists s, l. split; [reflexivity|]. split; [exact J|]. split; [exact Hok|].
    split; [exact Hv|]. split; [reflexivity|].
    split; [exists [], []; rewrite !app_nil_r; split; reflexivity|].
    unfold token_type_in, token_is_end in *. rewrite Ht in *.
    destruct (Token.type tok); cbn in *; congruence.
Qed.

Lemma parse_schedule_step (local_timezone : str) (l : Lexer.t) :
  lexer_ok l -> token_ok l ->
  parsed (fun s l' =>
            Schedule.valid s = true
            /\ Schedule.tz s = local_timezone
            /\ (Schedule.allowed s <> [] \/ Schedule.forbidden s <> [])
            /\ token_is_end l' = true)
         (Parser.parse_schedule local_timezone l).
Proof.
  intros J Hok. unfold Parser.parse_schedule.
  destruct (parse_days_step l J Hok) as [(days & l1 & Hd & J1 & Hok1 & P1 & Hne & Hr) | Herr];
    [| right; apply dsl_error_bind, Herr].
  rewrite Hd. cbn [bind].
  destruct (parse_agendas_step l1 J1 Hok1)
    as [(agendas & l2 & Ha & J2 & Hok2 & P2 & Hnea & Hall & Hn2) | Herr];
    [| right; apply dsl_error_bind, Herr].
  rewrite Ha. cbn [bind].
  destruct (add_agendas_valid (Schedule.new local_timezone) agendas days eq_refl Hall Hr)
    as (s1 & Hadd & Hv1 & Htz1 & a1 & f1 & Ha1 & Hf1 & Hsome).
  rewrite Hadd. cbn [bind].
  destruct (parse_schedule_loop_step (Lexer.fuel_of l2) s1 l2 J2 Hok2 (pending_fuel l2 J2) Hn2 Hv1)
    as [(s' & l' & Hloop & J' & Hok' & Hv' & Htz' & (a2 & f2 & Ha2 & Hf2) & Hend) | Herr];
    [| right; exact Herr].
  left. exists s', l'. split; [exact Hloop|]. split; [exact J'|]. split; [exact Hok'|].
  split; [exact Hv'|]. split; [rewrite Htz', Htz1; reflexivity|]. split; [| exact Hend].
  rewrite Ha2, Hf2, Ha1, Hf1. cbn [Schedule.new Schedule.allowed Schedule.forbidden app].
  destruct (Hsome Hnea Hne) as [H | H]; [left | right];
    intros Happ; apply app_eq_nil in Happ as [Happ _]; contradiction.
Qed.

Lemma parse_step (local_timezone : str) (l : Lexer.t) :
  lexer_ok l ->
  parsed (fun s l' =>
            Schedule.valid s = true
            /\ Schedule.tz s = local_timezone
            /\ (Schedule.allowed s <> [] \/ Schedule.forbidden s <> [])
            /\ token_is_end l' = true)
         (Parser.parse local_timezone l).
Proof.
  intros J. unfold Parser.parse.
  destruct (next_token_step l J) as [(l1 & N & J1 & Hok1 & _) | (m & N)];
    [| rewrite N; right; left; exists m; reflexivity].
  rewrite N. cbn [bind]. apply parse_schedule_step; assumption.
Qed.

(** X12.  [Lexer.from_string] gives, on every string, a lexer in order, and
    every [next_token] on a lexer in order either gives again a lexer in
    order that holds a token with its position, or raises a lexical error:
    it raises no other exception and always ends.  The lexeme of a TIME token
    is a time of day that [Time.from_string] accepts and that of a
    DAY_OF_WEEK token a day that the parser knows; a token other than
    END_INPUT leaves less to read, and END_INPUT comes only when nothing is
    left. *)
Theorem next_token_robust :
  (forall string : str,
      exists l, Lexer.from_string string = Ok l /\ lexer_ok l)
  /\ (forall l : Lexer.t,
         lexer_ok l ->
         (exists l',
             Lexer.next_token l = Ok l'
             /\ lexer_ok l' /\ token_ok l'
             /\ (remaining l' <= remaining l)%nat
             /\ (token_is_end l' = false -> (remaining l' < remaining l)%nat)
             /\ (token_is_end l' = true -> remaining l' = 0%nat))
         \/ exists message, Lexer.next_token l = Raise (LexerError message)).
Proof.
  split; [| exact next_token_step].
  intros string. destruct (from_string_ok string) as (l & Hl & J & _).
  exists l. split; assumption.
Qed.

Lemma next_token_robust_witness :
  let l := lexer_of (Lexer.from_string $"  Mon-fri allow 0800") in
  (exists l',
      Lexer.next_token l = Ok l'
      /\ lexer_ok l' /\ token_ok l'
      /\ (remaining l' <= remaining l)%nat
      /\ (token_is_end l' = false -> (remaining l' < remaining l)%nat)
      /\ (token_is_end l' = true -> remaining l' = 0%nat))
  \/ exists message, Lexer.next_token l = Raise (LexerError message).
Proof.
  intros l. apply (proj2 next_token_robust l).
  split; [reflexivity|]. split; [vm_compute; discriminate|].
  split; [reflexivity | discriminate].
Defined.

(** X13.  [Parser.parse] on a lexer in order either raises a lexical or a
    syntax error, or returns a schedule in the local zone, with at least
    one WeekdayInterval, all its WeekdayIntervals valid, having read the
    whole input: the lexer is left on END_INPUT with nothing to read.  It
    raises no other exception and always ends. *)
Theorem parse_total (local_timezone : str) (l : Lexer.t) :
  lexer_ok l ->
  (exists s l',
      Parser.parse local_timezone l = Ok (s, l')
      /\ Schedule.valid s = true
      /\ Schedule.tz s = local_timezone
      /\ (Schedule.allowed s <> [] \/ Schedule.forbidden s <> [])
      /\ Parser.token_type l' = Ok TokenType.END_INPUT
      /\ remaining l' = 0%nat)
  \/ dsl_error (Parser.parse local_timezone l).
Proof.
  intros J.
  destruct (parse_step local_timezone l J)
    as [(s & l' & Hparse & _ & (tok & pos & Ht & _ & _ & _ & Hrem) & Hv & Htz & Hne & Hend) | Herr];
    [left | right; exact Herr].
  exists s, l'. split; [exact Hparse|]. split; [exact Hv|]. split; [exact Htz|].
  split; [exact Hne|].
  unfold token_is_end in Hend. rewrite Ht in Hend. apply tokentype_eqb_eq in Hend.
  split; [rewrite (token_type_of _ _ Ht), Hend; reflexivity | apply Hrem, Hend].
Qed.

Lemma parse_total_witness :
  let l := lexer_of (Lexer.from_string $"sat allow -1400") in
  (exists s l',
      Parser.parse $"UTC" l = Ok (s, l')
      /\ Schedule.valid s = true
      /\ Schedule.tz s = $"UTC"
      /\ (Schedule.allowed s <> [] \/ Schedule.forbidden s <> [])
      /\ Parser.token_type l' = Ok TokenType.END_INPUT
      /\ remaining l' = 0%nat)
  \/ dsl_error (Parser.parse $"UTC" l).
Proof.
  intros l. apply (parse_total $"UTC" l).
  split; [reflexivity|]. split; [vm_compute; discriminate|].
  split; [reflexivity | discriminate].
Defined.

(** X14.  On every string and for every zone name, [from_dsl] either
    raises a lexical or a syntax error, or returns a schedule with at least
    one WeekdayInterval, all its WeekdayIntervals valid, whose zone is the
    name as it was given: [from_dsl] stores the name and looks nothing up. *)
Theorem from_dsl_outcomes (local_timezone string tz : str) :
  (exists s,
      from_dsl local_timezone string tz = Ok s
      /\ Schedule.valid s = true
      /\ Schedule.tz s = tz
      /\ (Schedule.allowed s <> [] \/ Schedule.forbidden s <> []))
  \/ dsl_error (from_dsl local_timezone string tz).
Proof.
  unfold from_dsl. destruct (from_string_ok string) as (l & Hl & J & _).
  rewrite Hl. cbn [bind].
  destruct (parse_step local_timezone l J)
    as [(s & l' & Hparse & _ & _ & Hv & _ & Hne & _) | Herr];
    [left | right; apply dsl_error_bind, Herr].
  rewrite Hparse. cbn [bind]. eexists. split; [reflexivity|].
  split; [exact Hv|]. split; [reflexivity | exact Hne].
Qed.

(** X15.  Adding an agenda changes what a schedule allows in one direction
    only: after a FORBID agenda every moment allowed was allowed before, and
    after an ALLOW agenda every moment allowed before is still allowed. *)
Theorem add_agenda_on_days_monotone (tzdata : str -> pendulum.Timezone) (s s' : Schedule.t)
    (agenda : Agenda.t) (days : list Z) (t : pendulum.DateTime) :
  Schedule.add_agenda_on_days s agenda days = Ok s' ->
  (Agenda.directive agenda = Directive.FORBID ->
   Schedule.is_allowed_at tzdata s' t = true -> Schedule.is_allowed_at tzdata s t = true)
  /\ (Agenda.directive agenda = Directive.ALLOW ->
      Schedule.is_allowed_at tzdata s t = true -> Schedule.is_allowed_at tzdata s' t = true).
Proof.
  unfold Schedule.add_agenda_on_days. destruct (mapM _ _) as [added | e |]; cbn [bind];
    [| discriminate | discriminate].
  destruct (Agenda.directive agenda); intros [= <-]; (split; [| intros Hd; try discriminate]);
    try (intros Hd; discriminate); unfold Schedule.is_allowed_at;
    cbn [Schedule.allowed Schedule.forbidden Schedule.tz];
    rewrite !existsb_app, !andb_true_iff, !negb_true_iff, ?orb_true_iff, ?orb_false_iff;
    tauto.
Qed.

Lemma add_agenda_on_days_monotone_witness :
  let s := Schedule.Build
             [WeekdayInterval.Build 1 (Interval.Build Time.start_of_day Time.end_of_day)]
             [] $"UTC" in
  let agenda := Agenda.Build [Interval.Build (Time.Build 8 0) (Time.Build 20 0)]
                             Directive.FORBID in
  let s' := Schedule.Build (Schedule.allowed s)
              [WeekdayInterval.Build 1 (Interval.Build (Time.Build 8 0) (Time.Build 20 0))]
              $"UTC" in
  Schedule.add_agenda_on_days s agenda [1] = Ok s'
  /\ Schedule.is_allowed_at (fun _ => pendulum.UTC) s' (moment_at 1 21 0) = true
  /\ Schedule.is_allowed_at (fun _ => pendulum.UTC) s (moment_at 1 21 0) = true.
Proof.
  intros s agenda s'.
  assert (Hadd : Schedule.add_agenda_on_days s agenda [1] = Ok s') by reflexivity.
  assert (Hat : Schedule.is_allowed_at (fun _ => pendulum.UTC) s' (moment_at 1 21 0) = true)
    by reflexivity.
  split; [exact Hadd|]. split; [exact Hat|].
  exact (proj1 (add_agenda_on_days_monotone (fun _ => pendulum.UTC) s s' agenda [1] (moment_at 1 21 0)
                  Hadd) eq_refl Hat).
Defined.

(** X16.  On a schedule of valid WeekdayIntervals none of which ends before
    it starts, the search is monotone from a moment around which the
    schedule's zone has no transition, from three days before it to eleven
    days after it: when the search returns a moment for a later moment, it
    returns for this one a moment that is not later. *)
Theorem next_moment_allowed_after_monotone (tzdata : str -> pendulum.Timezone)
    (s : Schedule.t) (m1 m2 b2 : pendulum.DateTime) :
  Schedule.valid s = true -> ordered_schedule s = true ->
  calm (pendulum.in_tz tzdata m1 (Schedule.tz s)) = true ->
  pendulum.timestamp m1 <= pendulum.timestamp m2 ->
  Schedule.next_moment_allowed_after tzdata s m2 = Ok b2 ->
  exists b1,
    Schedule.next_moment_allowed_after tzdata s m1 = Ok b1
    /\ pendulum.timestamp b1 <= pendulum.timestamp b2.
Proof.
  intros Hv Ho Hq Hle H2.
  destruct (next_moment_allowed_after_sound tzdata s m2 b2 Hv H2) as (_ & Hm2 & _ & Ha2 & _).
  destruct (allowed_has_candidate tzdata s m1 b2 Hv Ho Hq ltac:(lia) Ha2)
    as (c & Hc & Hca & Hcb).
  destruct (next_moment_allowed_after_result tzdata s m1 Hv)
    as [(b1 & Hb1 & _ & _ & Hmin) | [_ Hnone]].
  - exists b1. split; [exact Hb1|]. specialize (Hmin c Hc Hca). lia.
  - rewrite (Hnone c Hc) in Hca. discriminate.
Qed.

Lemma next_moment_allowed_after_monotone_witness :
  let tzdata := fun _ : str => America_New_York in
  let s := Schedule.Build
             [WeekdayInterval.Build 1 (Interval.Build (Time.Build 9 0) (Time.Build 17 0))]
             [WeekdayInterval.Build 1 (Interval.Build (Time.Build 9 0) (Time.Build 11 59))]
             $"America/New_York" in
  exists b1,
    Schedule.next_moment_allowed_after tzdata s (new_york_at 98 13 0) = Ok b1
    /\ pendulum.timestamp b1 <= pendulum.timestamp (new_york_at 106 12 0).
Proof.
  intros tzdata s.
  apply (next_moment_allowed_after_monotone tzdata s (new_york_at 98 13 0)
           (new_york_at 99 18 0) (new_york_at 106 12 0));
    [reflexivity | reflexivity | vm_compute; reflexivity | | vm_compute; reflexivity].
  vm_compute. discriminate.
Defined.

(** ** Lexer: the text of an error *)

Lemma nth_error_rstrip (s : str) (e c : ascii) : forall k,
  nth_error s k = Some c -> c <> e -> nth_error (Py.rstrip s e) k = Some c.
Proof.
  induction s as [|x rest IH]; intros k Hk Hne; [destruct k; discriminate|].
  cbn [Py.rstrip]. destruct k as [|k]; cbn [nth_error] in Hk.
  - injection Hk as ->. destruct (Py.rstrip rest e); [| reflexivity].
    destruct (Ascii.eqb_spec c e); [contradiction | reflexivity].
  - specialize (IH k Hk Hne). destruct (Py.rstrip rest e); [destruct k; discriminate|].
    exact IH.
Qed.

Lemma length_rstrip (s : str) (e : ascii) : (length (Py.rstrip s e) <= length s)%nat.
Proof.
  induction s as [|x rest IH]; cbn [Py.rstrip]; [reflexivity|].
  destruct (Py.rstrip rest e); [destruct (Ascii.eqb x e); cbn; lia | cbn in *; lia].
Qed.

Lemma slice_window (s : str) (i n : Z) :
  0 <= i -> 0 <= n ->
  (length (Py.slice s i (i + n)) <= Z.to_nat n)%nat
  /\ forall k c, 0 <= k < n -> Py.getitem s (i + k) = Some c ->
                 nth_error (Py.slice s i (i + n)) (Z.to_nat k) = Some c.
Proof.
  intros Hi Hn. unfold Py.slice, Py.clamp.
  destruct (Z.ltb_spec i 0) as [|_]; [lia|].
  destruct (Z.ltb_spec (i + n) 0) as [|_]; [lia|].
  split.
  - etransitivity; [apply firstn_le_length | lia].
  - intros k c Hk Hget. unfold Py.getitem in Hget.
    destruct ((0 <=? i + k) && (i + k <? Py.len s)) eqn:Hin.
    + apply andb_true_iff in Hin as [_ Hlt%Z.ltb_lt].
      rewrite nth_error_firstn, nth_error_skipn.
      replace (Z.to_nat k <? Z.to_nat (Z.min (i + n) (Py.len s) - Z.min i (Py.len s)))%nat
        with true by (symmetry; apply Nat.ltb_lt; lia).
      rewrite <- Hget. f_equal. lia.
    + destruct ((- Py.len s <=? i + k) && (i + k <? 0)) eqn:Hneg; [| discriminate].
      apply andb_true_iff in Hneg as [_ Hlt%Z.ltb_lt]. lia.
Qed.

(** The drawing of [build_error_string]. *)
Lemma build_error_string_shape (l : Lexer.t) (column : Z) :
  0 <= column ->
  exists line_part,
    Lexer.build_error_string l column
    = Py.times " " 5 ++ line_part ++ [Lexer.NL]
      ++ Py.times " " 5 ++ Py.times " " (Z.min column 39) ++ $"^"
    /\ (length line_part <= 80)%nat
    /\ (forall c, Py.getitem (Lexer.line l) column = Some c -> c <> Lexer.end_of_line l ->
                  nth_error line_part (Z.to_nat (Z.min column 39)) = Some c).
Proof.
  intros Hcol. unfold Lexer.build_error_string.
  set (col_start := Z.max 0 (column - 39)).
  assert (Hoff : column - col_start = Z.min column 39) by (subst col_start; lia).
  destruct (slice_window (Lexer.line l) col_start 80) as [Hlen Hnth];
    [subst col_start; lia | lia |].
  exists (Py.rstrip (Py.slice (Lexer.line l) col_start (col_start + 80))
            (Lexer.end_of_line l)).
  split; [rewrite Hoff, <- !app_assoc; reflexivity|].
  split; [etransitivity; [apply length_rstrip | exact Hlen]|].
  intros c Hget Hne. apply nth_error_rstrip; [| exact Hne].
  rewrite <- Hoff. apply Hnth; [lia|].
  replace (col_start + (column - col_start)) with column by lia. exact Hget.
Qed.

(** X17.  The text that [build_error_string] draws for a column of the
    current line: five spaces and a window of at most 80 characters of the
    line, then on the next line five spaces, as many spaces as the column
    is from the left of the window, 39 at most, and a caret; the caret
    stands under the character of that column, when the line has one there
    that is not the end of the line.  [unexpected_char_error] raises a
    lexical error that shows this text for the current column. *)
Theorem build_error_string_caret (l : Lexer.t) (column : Z) :
  0 <= column ->
  exists line_part,
    Lexer.build_error_string l column
    = Py.times " " 5 ++ line_part ++ [Lexer.NL]
      ++ Py.times " " 5 ++ Py.times " " (Z.min column 39) ++ $"^"
    /\ (length line_part <= 80)%nat
    /\ (forall c, Py.getitem (Lexer.line l) column = Some c -> c <> Lexer.end_of_line l ->
                  nth_error line_part (Z.to_nat (Z.min column 39)) = Some c)
    /\ exists before,
         @Lexer.unexpected_char_error unit l None 0
         = Raise (LexerError (before ++ Lexer.build_error_string l (Lexer.column l))).
Proof.
  intros Hcol. destruct (build_error_string_shape l column Hcol) as (line_part & H1 & H2 & H3).
  exists line_part. split; [exact H1|]. split; [exact H2|]. split; [exact H3|].
  unfold Lexer.unexpected_char_error, Lexer.unexpected_char_message.
  rewrite Z.add_0_r. eexists. reflexivity.
Qed.

Lemma build_error_string_caret_witness :
  let l := lexer_of (Lexer.from_string $"monday allow 0860") in
  exists line_part,
    Lexer.build_error_string l 15
    = Py.times " " 5 ++ line_part ++ [Lexer.NL]
      ++ Py.times " " 5 ++ Py.times " " 15 ++ $"^"
    /\ nth_error line_part 15 = Some "6"%char.
Proof.
  intros l.
  destruct (build_error_string_caret l 15 ltac:(lia)) as (line_part & Heq & _ & Hnth & _).
  exists line_part. split; [exact Heq|].
  apply Hnth; [reflexivity | discriminate].
Defined.

(** ** Lexer: reading a text *)

Lemma readline_cons c text :
  Lexer.readline (c :: text)
  = if Ascii.eqb c Lexer.NL then ([c], text)
    else (c :: (Lexer.readline text).1, (Lexer.readline text).2).
Proof. cbn [Lexer.readline]. destruct (Lexer.readline text). reflexivity. Qed.

Lemma at_text_char (l : Lexer.t) c text : at_text l (c :: text) -> Lexer.char l = Some c.
Proof.
  intros ((_ & Hcol & Hchar & _) & _ & _ & pre & Hline & Hcolumn & _).
  assert (Hl : exists rest, Lexer.line l = pre ++ c :: rest).
  { rewrite Hline, readline_cons. destruct (Ascii.eqb c Lexer.NL); eexists; reflexivity. }
  destruct Hl as [rest Hl].
  assert (Hne : Lexer.line l <> []) by (rewrite Hl; destruct pre; discriminate).
  specialize (Hcolumn Hne).
  rewrite Hchar. unfold lookahead. destruct (Lexer.line l) as [|c0 l0] eqn:Hl0; [contradiction|].
  rewrite Hcolumn, Z.add_0_r, Hl.
  assert (Hlen : Py.len (pre ++ c :: rest) = Py.len pre + 1 + Py.len rest).
  { unfold Py.len. rewrite length_app. cbn [length]. lia. }
  assert (Hpos : 0 <= Py.len pre /\ 0 <= Py.len rest) by (unfold Py.len; lia).
  destruct (_ >=? _) eqn:Hge; [rewrite Z.geb_leb in Hge; apply Z.leb_le in Hge; lia|].
  unfold Py.getitem.
  replace ((0 <=? Py.len pre) && (Py.len pre <? Py.len (pre ++ c :: rest))) with true
    by (symmetry; apply andb_true_iff; split; [apply Z.leb_le | apply Z.ltb_lt]; lia).
  unfold Py.len. rewrite Nat2Z.id, nth_error_app2, Nat.sub_diag by lia. reflexivity.
Qed.

Lemma at_text_end (l : Lexer.t) :
  at_text l [] -> Lexer.char l = None \/ (Lexer.char l = Some Lexer.NL /\ Lexer.line l <> []).
Proof.
  intros ((_ & Hcol & Hchar & _) & Heol & _ & pre & Hline & Hcolumn & _).
  cbn in Hline. rewrite app_nil_r in Hline. rewrite Hchar. unfold lookahead.
  destruct (Lexer.line l) as [|c0 l0] eqn:Hl; [left; reflexivity|].
  right. rewrite Hcolumn by discriminate. rewrite <- Hline, Z.add_0_r.
  replace (Py.len (c0 :: l0) >=? Py.len (c0 :: l0)) with true
    by (symmetry; rewrite Z.geb_leb; apply Z.leb_refl).
  rewrite Heol. split; [reflexivity | discriminate].
Qed.

Lemma next_char_text (l : Lexer.t) c text :
  at_text l (c :: text) -> c <> Lexer.NL ->
  exists l1,
    Lexer.next_char l = Ok l1
    /\ at_text l1 text
    /\ Lexer.position l1 = Lexer.position l
    /\ Lexer.token l1 = Lexer.token l
    /\ Lexer.line l1 = Lexer.line l
    /\ Lexer.column l1 = Lexer.column l + 1.
Proof.
  intros (J & Heol & Hws & pre & Hline & Hcolumn & Hsource) Hne.
  destruct (next_char_step l J) as (l1 & N & J1 & _ & _ & P1 & T1 & E1).
  destruct (next_char_shape l) as (l1' & N' & S & L & W & _ & _ & _ & Hshape);
    [destruct J as (_ & Hcol & _); lia|].
  rewrite N in N'. injection N' as <-.
  rewrite readline_cons in Hline, Hsource.
  replace (Ascii.eqb c Lexer.NL) with false in Hline, Hsource
    by (symmetry; apply Ascii.eqb_neq, Hne).
  cbn [fst snd] in Hline, Hsource.
  assert (Hnonempty : Lexer.line l <> []) by (rewrite Hline; destruct pre; discriminate).
  assert (Hcol1 : Lexer.column l1 = Lexer.column l + 1).
  { destruct (Lexer.line l); [contradiction | apply Hshape]. }
  exists l1. split; [exact N|]. split; [| repeat split; assumption].
  split; [exact J1|]. split; [congruence|]. split; [congruence|].
  exists (pre ++ [c]). rewrite L, S, Hcol1, Hcolumn by exact Hnonempty.
  split; [rewrite Hline, <- app_assoc; reflexivity|].
  split; [intros _; unfold Py.len; rewrite length_app; cbn [length]; lia | exact Hsource].
Qed.

Lemma at_text_set_token (l : Lexer.t) tok text :
  at_text l text -> at_text (Lexer.set_token l tok) text.
Proof. destruct l. exact (fun H => H). Qed.

Lemma at_text_mark_position (l : Lexer.t) text :
  at_text l text -> at_text (Lexer.mark_position l) text.
Proof. destruct l. exact (fun H => H). Qed.

(** [next_line] when the stream holds [text]. *)
Lemma next_line_source (l : Lexer.t) text :
  lexer_ok l -> Lexer.line l <> [] ->
  Lexer.end_of_line l = Lexer.NL ->
  Lexer.whitespace l = [" "%char; "009"%char; "012"%char] ->
  Lexer.source l = text ->
  exists l1,
    Lexer.next_line l = Ok l1 /\ at_text l1 text /\ Lexer.token l1 = Lexer.token l
    /\ (text = [] -> Lexer.char l1 = None).
Proof.
  intros J Hline Heol Hws Hsrc.
  destruct (next_line_step l J Hline) as (l1 & N & J1 & _ & T1 & E1).
  destruct (next_line_shape l) as (l1' & N' & S & L & W & _ & _ & Hshape).
  rewrite N in N'. injection N' as <-. rewrite Hsrc in S, L.
  exists l1. split; [exact N|]. split; [| split; [exact T1|]].
  - split; [exact J1|]. split; [congruence|]. split; [congruence|].
    exists []. split; [exact L|]. split; [| exact S].
    intros Hne. destruct (Lexer.line l1); [contradiction | exact Hshape].
  - intros ->. cbn in L. rewrite L in Hshape. exact Hshape.
Qed.

Lemma blank_cases c :
  is_blank c = true ->
  c = Lexer.NL
  \/ (c <> Lexer.NL /\ Py.char_in c [" "%char; "009"%char; "012"%char] = true).
Proof.
  unfold is_blank. destruct (Ascii.eqb_spec c Lexer.NL) as [-> | Hne]; [left; reflexivity|].
  rewrite orb_false_r. right. split; assumption.
Qed.

(** [skip_whitespace] passes the blanks in front of the text. *)
Lemma skip_whitespace_text (ws : str) :
  Forall (fun c => is_blank c = true) ws ->
  forall n (l l' : Lexer.t) text,
    at_text l (ws ++ text) ->
    match text with [] => True | c :: _ => is_blank c = false end ->
    Lexer.skip_whitespace n l = Ok l' ->
    at_text l' text /\ Lexer.token l' = Lexer.token l /\ (text = [] -> Lexer.char l' = None).
Proof.
  induction 1 as [|w ws Hw Hws IH]; intros n l l' text Hat Hhead Hskip.
  - cbn [app] in Hat. destruct n as [|n]; [discriminate|].
    cbn [Lexer.skip_whitespace] in Hskip. destruct text as [|c text].
    + destruct (at_text_end l Hat) as [Hnone | [Hnl Hline]].
      * unfold Lexer.char_is_whitespace, Lexer.char_is_end_of_line in Hskip.
        rewrite Hnone in Hskip. cbn in Hskip. injection Hskip as <-.
        split; [exact Hat|]. split; [reflexivity | intros _; exact Hnone].
      * destruct Hat as (J & Heol & Hwsp & pre & _ & _ & Hsource).
        assert (Hiseol : Lexer.char_is_end_of_line l = true).
        { unfold Lexer.char_is_end_of_line. rewrite Hnl, Heol. reflexivity. }
        rewrite Hiseol, orb_true_r in Hskip.
        destruct (next_line_source l [] J Hline Heol Hwsp Hsource) as (l1 & N & Hat1 & T1 & Hc1).
        rewrite N in Hskip. cbn [bind] in Hskip.
        destruct n as [|n]; [discriminate|].
        rewrite skip_whitespace_none in Hskip by (apply Hc1; reflexivity).
        injection Hskip as <-. split; [exact Hat1|]. split; [exact T1 | exact Hc1].
    + pose proof (at_text_char l c text Hat) as Hc.
      destruct Hat as (J & Heol & Hwsp & Hrest).
      unfold Lexer.char_is_whitespace, Lexer.char_is_end_of_line in Hskip.
      rewrite Hc, Hwsp, Heol in Hskip. unfold is_blank in Hhead.
      apply orb_false_iff in Hhead as [H1 H2]. rewrite H1, H2 in Hskip. cbn in Hskip.
      injection Hskip as <-.
      split; [split; [exact J | split; [exact Heol | split; [exact Hwsp | exact Hrest]]]|].
      split; [reflexivity | discriminate].
  - cbn [app] in Hat. pose proof (at_text_char l w _ Hat) as Hc.
    destruct n as [|n]; [discriminate|]. cbn [Lexer.skip_whitespace] in Hskip.
    pose proof Hat as (J & Heol & Hwsp & pre & Hline & _ & Hsource).
    unfold Lexer.char_is_whitespace, Lexer.char_is_end_of_line in Hskip.
    rewrite Hc, Hwsp, Heol in Hskip.
    destruct (blank_cases w Hw) as [-> | [Hne Hin]].
    + rewrite Ascii.eqb_refl, orb_true_r in Hskip.
      rewrite readline_cons, Ascii.eqb_refl in Hline, Hsource. cbn [fst snd] in Hline, Hsource.
      destruct (next_line_source l (ws ++ text) J) as (l1 & N & Hat1 & T1 & _);
        [rewrite Hline; destruct pre; discriminate | assumption .. |].
      rewrite N in Hskip. cbn [bind] in Hskip.
      destruct (IH n l1 l' text Hat1 Hhead Hskip) as (Hat' & T' & Hc').
      split; [exact Hat'|]. split; [congruence | exact Hc'].
    + replace (Ascii.eqb w Lexer.NL) with false in Hskip
        by (symmetry; apply Ascii.eqb_neq, Hne).
      rewrite Hin in Hskip. cbn [orb] in Hskip.
      destruct (next_char_text l w (ws ++ text) Hat Hne) as (l1 & N & Hat1 & _ & T1 & _).
      rewrite N in Hskip. cbn [bind] in Hskip.
      destruct (IH n l1 l' text Hat1 Hhead Hskip) as (Hat' & T' & Hc').
      split; [exact Hat'|]. split; [congruence | exact Hc'].
Qed.

Lemma letter_not_newline c : Py.char_in c Py.ascii_letters = true -> c <> Lexer.NL.
Proof. intros H ->. discriminate. Qed.

(** The loop of [extract_ascii_identifier] passes the letters in front of
    the text. *)
Lemma extract_loop_text (w : str) :
  Forall (fun c => Py.char_in c Py.ascii_letters = true) w ->
  forall n (l l' : Lexer.t) text,
    at_text l (w ++ text) -> no_letter_ahead text ->
    Lexer.extract_loop n l = Ok l' ->
    at_text l' text
    /\ Lexer.line l' = Lexer.line l
    /\ Lexer.column l' = Lexer.column l + Py.len w
    /\ Lexer.position l' = Lexer.position l
    /\ Lexer.token l' = Lexer.token l.
Proof.
  induction 1 as [|c w Hc Hw IH]; intros n l l' text Hat Hahead Hloop.
  - cbn [app] in Hat. destruct n as [|n]; [discriminate|].
    cbn [Lexer.extract_loop] in Hloop.
    assert (Hstop : Ok l = Ok l').
    { destruct text as [|c text].
      - destruct (at_text_end l Hat) as [Hnone | [Hnl _]].
        + rewrite Hnone in Hloop. exact Hloop.
        + rewrite Hnl in Hloop. exact Hloop.
      - rewrite (at_text_char l c text Hat) in Hloop. unfold no_letter_ahead in Hahead.
        rewrite Hahead in Hloop. exact Hloop. }
    injection Hstop as <-. split; [exact Hat|]. split; [reflexivity|].
    split; [unfold Py.len; cbn; lia | split; reflexivity].
  - cbn [app] in Hat. destruct n as [|n]; [discriminate|].
    cbn [Lexer.extract_loop] in Hloop.
    rewrite (at_text_char l c _ Hat), Hc in Hloop.
    destruct (next_char_text l c (w ++ text) Hat (letter_not_newline c Hc))
      as (l1 & N & Hat1 & P1 & T1 & L1 & C1).
    rewrite N in Hloop. cbn [bind] in Hloop.
    destruct (IH n l1 l' text Hat1 Hahead Hloop) as (Hat' & L' & C' & P' & T').
    split; [exact Hat'|]. split; [congruence|].
    split; [rewrite C', C1; unfold Py.len; cbn [length]; lia|]. split; congruence.
Qed.

Lemma readline_letters (w text : str) :
  Forall (fun c => Py.char_in c Py.ascii_letters = true) w ->
  Lexer.readline (w ++ text) = (w ++ (Lexer.readline text).1, (Lexer.readline text).2).
Proof.
  induction 1 as [|c w Hc Hw IH]; [cbn [app]; destruct (Lexer.readline text); reflexivity|].
  cbn [app]. rewrite readline_cons, IH.
  replace (Ascii.eqb c Lexer.NL) with false
    by (symmetry; apply Ascii.eqb_neq, letter_not_newline, Hc).
  reflexivity.
Qed.

Lemma slice_middle (pre w rest : str) :
  Py.slice (pre ++ w ++ rest) (Py.len pre) (Py.len pre + Py.len w) = w.
Proof.
  unfold Py.slice, Py.clamp, Py.len. rewrite !length_app.
  destruct (Z.ltb_spec (Z.of_nat (length pre)) 0) as [|_]; [lia|].
  destruct (Z.ltb_spec (Z.of_nat (length pre) + Z.of_nat (length w)) 0) as [|_]; [lia|].
  replace (Z.to_nat (Z.min _ _ - Z.min _ _)) with (length w) by lia.
  replace (Z.to_nat (Z.min (Z.of_nat (length pre)) _)) with (length pre) by lia.
  rewrite drop_app_length, take_app_length. reflexivity.
Qed.

(** The strings that the trie of keywords contains are those to which
    the lexer gives a type. *)
Lemma keyword_contains (w : str) :
  Trie.contains Lexer.KEYWORDS w = true <-> keyword_type (Py.lower w) <> None.
Proof.
  unfold Lexer.KEYWORDS. rewrite contains_from_strings. split.
  - intros (k & Hk & Hlow). rewrite Hlow. unfold Lexer.DAYS_OF_WEEK in Hk.
    cbn [app In] in Hk.
    repeat (destruct Hk as [<- | Hk]; [vm_compute; discriminate|]). destruct Hk.
  - unfold keyword_type, Py.str_eqb. intros Hty.
    destruct (bool_decide_reflect (Py.lower w = $"allow")) as [Ha | _].
    { exists $"allow". split; [left; reflexivity | rewrite Ha; reflexivity]. }
    destruct (bool_decide_reflect (Py.lower w = $"forbid")) as [Hf | _].
    { exists $"forbid". split; [right; left; reflexivity | rewrite Hf; reflexivity]. }
    destruct (Py.str_in (Py.lower w) Lexer.DAYS_OF_WEEK) eqn:Hin; [| contradiction].
    unfold Py.str_in in Hin. apply existsb_exists in Hin as (k & Hk & Heq).
    apply bool_decide_eq_true in Heq. exists k. split; [right; right; exact Hk|].
    rewrite <- Heq. symmetry. apply lower_idem.
Qed.

(** The keyword token of a word of letters: its type is that of its
    lower-case form, its lexeme the word as it is written. *)
Lemma keyword_token_text (l : Lexer.t) (w text : str) (pos : Position.t) :
  at_text l (w ++ text) ->
  Forall (fun c => Py.char_in c Py.ascii_letters = true) w ->
  no_letter_ahead text ->
  Lexer.position l = Some pos ->
  match keyword_type (Py.lower w) with
  | Some ty =>
      exists l',
        Lexer.allow_or_forbid_or_day_of_week_token l = Ok l'
        /\ at_text l' text
        /\ Lexer.token l' = Some (Token.Build ty w pos)
  | None =>
      exists message,
        Lexer.allow_or_forbid_or_day_of_week_token l = Raise (LexerError message)
  end.
Proof.
  intros Hat Hw Hahead Hpos.
  pose proof Hat as (J & Heol & _ & pre & Hline & Hcolumn & _).
  unfold Lexer.allow_or_forbid_or_day_of_week_token, Lexer.extract_ascii_identifier.
  destruct (extract_loop_ok (Lexer.fuel_of l) l) as (extracted & Hextract & _).
  { destruct J as (_ & Hcol & _). lia. }
  { rewrite Heol. reflexivity. }
  { destruct J as (_ & Hcol & _). unfold Lexer.fuel_of, Py.len. lia. }
  destruct (extract_loop_text w Hw _ l extracted text Hat Hahead Hextract)
    as (Hat' & L' & C' & P' & T').
  rewrite Hextract. cbn [bind].
  assert (Hlexeme : Py.slice (Lexer.line extracted) (Lexer.column l) (Lexer.column extracted)
                    = w).
  { destruct w as [|c w']; [| rewrite readline_letters in Hline by exact Hw].
    - rewrite C'. unfold Py.len at 1. cbn [length]. rewrite Z.add_0_r.
      unfold Py.slice. rewrite Z.sub_diag. reflexivity.
    - cbn [fst] in Hline. rewrite L', C', Hcolumn, Hline
        by (rewrite Hline; destruct pre; discriminate).
      apply slice_middle. }
  rewrite Hlexeme.
  destruct (keyword_type (Py.lower w)) as [ty|] eqn:Hty.
  - replace (Trie.contains Lexer.KEYWORDS w) with true
      by (symmetry; apply keyword_contains; congruence).
    cbn [negb]. unfold keyword_type in Hty. unfold Lexer.make_token. rewrite P', Hpos.
    destruct (Py.str_eqb (Py.lower w) $"allow");
      [injection Hty as <-; eexists; split; [reflexivity|];
       split; [apply at_text_set_token, Hat' | destruct extracted; reflexivity]|].
    destruct (Py.str_eqb (Py.lower w) $"forbid");
      [injection Hty as <-; eexists; split; [reflexivity|];
       split; [apply at_text_set_token, Hat' | destruct extracted; reflexivity]|].
    destruct (Py.str_in (Py.lower w) Lexer.DAYS_OF_WEEK); [| discriminate].
    injection Hty as <-. eexists. split; [reflexivity|].
    split; [apply at_text_set_token, Hat' | destruct extracted; reflexivity].
  - replace (Trie.contains Lexer.KEYWORDS w) with false.
    + cbn [negb]. destruct (Trie.contains_prefix Lexer.KEYWORDS w); eexists; reflexivity.
    + symmetry. apply not_true_is_false. intros Hc. apply keyword_contains in Hc.
      contradiction.
Qed.

Lemma time_token_text (l : Lexer.t) (c1 c2 c3 c4 : ascii) (text : str) (pos : Position.t) :
  at_text l ([c1; c2; c3; c4] ++ text) ->
  Lexer.position l = Some pos ->
  Py.char_in c1 Lexer.HOUR_STARTS = true ->
  Lexer.is_hour_end (Some c2) (Some c1) = true ->
  Lexer.is_minute_start (Some c3) = true ->
  Lexer.is_minute_end (Some c4) = true ->
  exists l',
    Lexer.time_token l = Ok l'
    /\ at_text l' text
    /\ Lexer.token l' = Some (Token.Build TokenType.TIME [c1; c2; c3; c4] pos).
Proof.
  intros Hat Hpos H1 H2 H3 H4. cbn [app] in Hat.
  assert (N1 : c1 <> Lexer.NL)
    by (destruct (hour_start_cases c1 H1) as [-> | [-> | ->]]; discriminate).
  assert (N2 : c2 <> Lexer.NL)
    by (intros ->; destruct (hour_start_cases c1 H1) as [-> | [-> | ->]]; discriminate).
  assert (N3 : c3 <> Lexer.NL) by (intros ->; discriminate).
  assert (N4 : c4 <> Lexer.NL) by (intros ->; discriminate).
  destruct (next_char_text l c1 _ Hat N1) as (l1 & E1 & Hat1 & P1 & _).
  destruct (next_char_text l1 c2 _ Hat1 N2) as (l2 & E2 & Hat2 & P2 & _).
  destruct (next_char_text l2 c3 _ Hat2 N3) as (l3 & E3 & Hat3 & P3 & _).
  destruct (next_char_text l3 c4 _ Hat3 N4) as (l4 & E4 & Hat4 & P4 & _).
  unfold Lexer.time_token, Lexer.hour_partial. rewrite E1. cbn [bind].
  rewrite (at_text_char l c1 _ Hat), (at_text_char l1 c2 _ Hat1), H2.
  cbn [negb option_map Lexer.concat_chars bind]. rewrite E2. cbn [bind].
  unfold Lexer.minute_partial. rewrite (at_text_char l2 c3 _ Hat2), H3. cbn [negb].
  rewrite E3. cbn [bind]. rewrite (at_text_char l3 c4 _ Hat3), H4.
  cbn [negb option_map Lexer.concat_chars bind]. rewrite E4. cbn [bind].
  unfold Lexer.make_token.
  replace (Lexer.position l4) with (Some pos) by congruence.
  cbn [bind app]. eexists. split; [reflexivity|].
  split; [apply at_text_set_token, Hat4 | destruct l4; reflexivity].
Qed.

Lemma from_string_text (string : str) :
  exists l, Lexer.from_string string = Ok l /\ at_text l string /\ Lexer.token l = None.
Proof.
  destruct (from_string_ok string) as (l & Hl & J & T & E).
  exists l. split; [exact Hl|]. split; [| exact T].
  split; [exact J|]. split; [exact E|].
  unfold Lexer.from_string, Lexer.init in Hl.
  destruct (Lexer.readline string) as [ln rest].
  destruct (next_char_shape (Lexer.Build rest [" "%char; "009"%char; "012"%char] Lexer.NL
                               ln None 0 (-1) None None))
    as (l1 & N & S & L & W & _ & _ & _ & Hshape); [cbn; lia|].
  rewrite N in Hl. injection Hl as <-. cbn in S, L, W, Hshape.
  split; [exact W|]. exists []. split; [exact L|]. split; [| exact S].
  intros Hne. rewrite L in Hne. destruct ln; [contradiction|].
  destruct Hshape as [-> _]. reflexivity.
Qed.

(** [next_token] after the blanks: the lexer stands on the text, with its
    position marked and no token. *)
Lemma next_token_skip (l0 : Lexer.t) (ws text : str) :
  at_text l0 (ws ++ text) ->
  Forall (fun c => is_blank c = true) ws ->
  match text with [] => True | c :: _ => is_blank c = false end ->
  exists marked pos,
    at_text marked text
    /\ Lexer.position marked = Some pos
    /\ Position.column pos = Lexer.column marked
    /\ Lexer.token marked = None
    /\ (text = [] -> Lexer.char marked = None)
    /\ Lexer.next_token l0
       = let* self :=
           match Lexer.char marked with
           | None =>
               let* self := Lexer.next_char marked in
               let* tok := Lexer.make_token self TokenType.END_INPUT [] in
               Ok (Lexer.set_token self (Some tok))
           | Some c =>
               if Lexer.is_ascii_identifier_start c
               then Lexer.allow_or_forbid_or_day_of_week_token marked
               else if Lexer.is_hour_start (Some c) then Lexer.time_token marked
               else if Ascii.eqb c "-"%char then
                 let* self := Lexer.next_char marked in
                 let* tok := Lexer.make_token self TokenType.DASH $"-" in
                 Ok (Lexer.set_token self (Some tok))
               else Ok marked
           end in
         match Lexer.token self with
         | None => Lexer.unexpected_char_error self None 0
         | Some _ => Ok self
         end.
Proof.
  intros Hat Hws Hhead.
  assert (Hat0 : at_text (Lexer.set_token l0 None) (ws ++ text))
    by (apply at_text_set_token, Hat).
  destruct (skip_whitespace_total (Lexer.set_token l0 None)) as (skipped & Hskip & _).
  { destruct Hat0 as ((_ & Hcol & _) & _). lia. }
  destruct (skip_whitespace_text ws Hws _ _ _ text Hat0 Hhead Hskip) as (Hats & Ts & Hend).
  exists (Lexer.mark_position skipped),
    (Position.Build (Lexer.column skipped) (Lexer.lineno skipped)).
  split; [apply at_text_mark_position, Hats|].
  split; [destruct skipped; reflexivity|].
  split; [destruct skipped; reflexivity|].
  split; [destruct skipped, l0; exact Ts|].
  split; [intros H; specialize (Hend H); destruct skipped; exact Hend|].
  unfold Lexer.next_token. rewrite Hskip. reflexivity.
Qed.

Lemma letter_not_blank c : Py.char_in c Py.ascii_letters = true -> is_blank c = false.
Proof.
  intros Hl. apply not_true_is_false. intros [-> | [_ Hin]]%blank_cases; [discriminate|].
  unfold Py.char_in in Hin. cbn [existsb] in Hin.
  rewrite !orb_true_iff, !Ascii.eqb_eq in Hin.
  destruct Hin as [-> | [-> | [-> | Hf]]]; discriminate.
Qed.

Lemma next_token_keyword (l0 : Lexer.t) (ws w text : str) :
  at_text l0 (ws ++ w ++ text) ->
  Forall (fun c => is_blank c = true) ws ->
  w <> [] ->
  Forall (fun c => Py.char_in c Py.ascii_letters = true) w ->
  no_letter_ahead text ->
  match keyword_type (Py.lower w) with
  | Some ty =>
      exists l pos,
        Lexer.next_token l0 = Ok l /\ at_text l text
        /\ Lexer.token l = Some (Token.Build ty w pos)
  | None => exists message, Lexer.next_token l0 = Raise (LexerError message)
  end.
Proof.
  intros Hat Hws Hne Hw Hahead.
  destruct w as [|c w']; [contradiction|].
  pose proof (Forall_inv Hw) as Hc. cbn beta in Hc.
  destruct (next_token_skip l0 ws ((c :: w') ++ text) Hat Hws (letter_not_blank c Hc))
    as (marked & pos & Hatm & Hpos & _ & _ & _ & ->).
  rewrite (at_text_char marked c _ Hatm).
  unfold Lexer.is_ascii_identifier_start. rewrite Hc.
  pose proof (keyword_token_text marked (c :: w') text pos Hatm Hw Hahead Hpos) as Htok.
  destruct (keyword_type (Py.lower (c :: w'))) as [ty|].
  - destruct Htok as (l' & -> & Hat' & T'). cbn [bind]. rewrite T'.
    exists l', pos. split; [reflexivity|]. split; assumption.
  - destruct Htok as (message & ->). exists message. reflexivity.
Qed.

Lemma next_token_time_text (l0 : Lexer.t) (ws : str) (c1 c2 c3 c4 : ascii) (text : str) :
  at_text l0 (ws ++ [c1; c2; c3; c4] ++ text) ->
  Forall (fun c => is_blank c = true) ws ->
  Py.char_in c1 Lexer.HOUR_STARTS = true ->
  Lexer.is_hour_end (Some c2) (Some c1) = true ->
  Lexer.is_minute_start (Some c3) = true ->
  Lexer.is_minute_end (Some c4) = true ->
  exists l pos,
    Lexer.next_token l0 = Ok l /\ at_text l text
    /\ Lexer.token l = Some (Token.Build TokenType.TIME [c1; c2; c3; c4] pos).
Proof.
  intros Hat Hws H1 H2 H3 H4.
  destruct (next_token_skip l0 ws ([c1; c2; c3; c4] ++ text) Hat Hws)
    as (marked & pos & Hatm & Hpos & _ & _ & _ & ->).
  { destruct (hour_start_cases c1 H1) as [-> | [-> | ->]]; reflexivity. }
  rewrite (at_text_char marked c1 _ Hatm).
  replace (Lexer.is_ascii_identifier_start c1) with false
    by (destruct (hour_start_cases c1 H1) as [-> | [-> | ->]]; reflexivity).
  unfold Lexer.is_hour_start. rewrite H1.
  destruct (time_token_text marked c1 c2 c3 c4 text pos Hatm Hpos H1 H2 H3 H4)
    as (l' & -> & Hat' & T').
  cbn [bind]. rewrite T'. exists l', pos. split; [reflexivity|]. split; assumption.
Qed.

Lemma next_token_dash (l0 : Lexer.t) (ws text : str) :
  at_text l0 (ws ++ "-"%char :: text) ->
  Forall (fun c => is_blank c = true) ws ->
  exists l pos,
    Lexer.next_token l0 = Ok l /\ at_text l text
    /\ Lexer.token l = Some (Token.Build TokenType.DASH $"-" pos).
Proof.
  intros Hat Hws.
  destruct (next_token_skip l0 ws ("-"%char :: text) Hat Hws eq_refl)
    as (marked & pos & Hatm & Hpos & _ & _ & _ & ->).
  rewrite (at_text_char marked _ _ Hatm).
  change (Lexer.is_ascii_identifier_start "-") with false.
  change (Lexer.is_hour_start (Some "-"%char)) with false.
  change (Ascii.eqb "-" "-") with true. cbn iota.
  destruct (next_char_text marked "-"%char text Hatm) as (l1 & -> & Hat1 & P1 & _);
    [discriminate|].
  cbn [bind]. unfold Lexer.make_token. rewrite P1, Hpos. cbn [bind].
  eexists _, pos. split; [destruct l1; reflexivity|].
  split; [apply at_text_set_token, Hat1 | destruct l1; reflexivity].
Qed.

Lemma next_token_end (l0 : Lexer.t) (ws : str) :
  at_text l0 ws ->
  Forall (fun c => is_blank c = true) ws ->
  exists l pos,
    Lexer.next_token l0 = Ok l /\ at_text l []
    /\ Lexer.token l = Some (Token.Build TokenType.END_INPUT [] pos).
Proof.
  intros Hat Hws. rewrite <- (app_nil_r ws) in Hat.
  destruct (next_token_skip l0 ws [] Hat Hws I)
    as (marked & pos & Hatm & Hpos & _ & _ & Hc & ->).
  rewrite (Hc eq_refl).
  pose proof Hatm as (J & Heol & Hwsp & pre & Hline & Hcolumn & Hsource).
  destruct (next_char_step marked J) as (l1 & N & J1 & _ & _ & P1 & _ & E1).
  destruct (next_char_shape marked) as (l1' & N' & S & L & W & _ & _ & _ & _);
    [destruct J as (_ & Hcol & _); lia|].
  rewrite N in N'. injection N' as <-.
  rewrite N. cbn [bind]. unfold Lexer.make_token. rewrite P1, Hpos. cbn [bind].
  eexists _, pos. split; [destruct l1; reflexivity|].
  split; [| destruct l1; reflexivity].
  apply at_text_set_token. split; [exact J1|]. split; [congruence|]. split; [congruence|].
  assert (Hempty : Lexer.line marked = []).
  { destruct (Lexer.line marked) as [|c0 line0] eqn:Hl; [reflexivity|].
    exfalso. destruct J as (_ & Hcol & Hchar & _). rewrite (Hc eq_refl) in Hchar.
    unfold lookahead in Hchar. rewrite Hl in Hchar.
    destruct (_ >=? _) eqn:Hge in Hchar; [discriminate|].
    rewrite Z.geb_leb in Hge. apply Z.leb_gt in Hge. unfold Py.getitem in Hchar.
    replace ((0 <=? Lexer.column marked + 0)
             && (Lexer.column marked + 0 <? Py.len (c0 :: line0))) with true in Hchar
      by (symmetry; apply andb_true_iff; split; [apply Z.leb_le | apply Z.ltb_lt]; lia).
    symmetry in Hchar. apply nth_error_None in Hchar. unfold Py.len in *. lia. }
  exists []. rewrite L, S, Hempty. split; [reflexivity|].
  split; [intros H; contradiction | exact Hsource].
Qed.

(** ** Writing a schedule and reading it back *)

Lemma render_app a b : render (a ++ b) = render a ++ render b.
Proof. unfold render. apply flat_map_app. Qed.

Lemma all_lexable_app a b after :
  all_lexable (a ++ b) after <-> all_lexable a (render b ++ after) /\ all_lexable b after.
Proof.
  induction a as [|t a IH]; cbn [app all_lexable]; [tauto|].
  rewrite IH, render_app, <- app_assoc. tauto.
Qed.

Lemma stream_type toks l : stream toks l -> Parser.token_type l = Ok (head_type toks).
Proof. destruct toks as [|[ty lexeme] rest]; [exact (fun H => H) | intros [H _]; exact H]. Qed.

(** The lexer gives the tokens of a text made of tokens that it can read,
    followed by blanks. *)
Lemma lex_stream (trailing : str) :
  Forall (fun c => is_blank c = true) trailing ->
  forall toks l0,
    all_lexable toks trailing ->
    at_text l0 (render toks ++ trailing) ->
    exists l, Lexer.next_token l0 = Ok l /\ stream (map snd toks) l.
Proof.
  intros Htrailing. induction toks as [|[sep [ty lexeme]] rest IH]; intros l0 Hall Hat.
  - cbn in Hat. destruct (next_token_end l0 trailing Hat Htrailing) as (l & pos & N & _ & T).
    exists l. split; [exact N|]. cbn. unfold Parser.token_type. rewrite T. reflexivity.
  - destruct Hall as [[Hsep Hlex] Hrest]. cbn [fst snd] in Hsep, Hlex.
    cbn [render flat_map fst snd] in Hat. fold (render rest) in Hat.
    rewrite <- !app_assoc in Hat.
    assert (Hnext : exists l pos,
               Lexer.next_token l0 = Ok l /\ at_text l (render rest ++ trailing)
               /\ Lexer.token l = Some (Token.Build ty lexeme pos)).
    { destruct ty; try contradiction.
      - destruct Hlex as (Hne & Hletters & Hty & Hahead).
        pose proof (next_token_keyword l0 sep lexeme _ Hat Hsep Hne Hletters Hahead) as H.
        rewrite Hty in H. exact H.
      - destruct Hlex as (Hne & Hletters & Hty & Hahead).
        pose proof (next_token_keyword l0 sep lexeme _ Hat Hsep Hne Hletters Hahead) as H.
        rewrite Hty in H. exact H.
      - destruct Hlex as (Hne & Hletters & Hty & Hahead).
        pose proof (next_token_keyword l0 sep lexeme _ Hat Hsep Hne Hletters Hahead) as H.
        rewrite Hty in H. exact H.
      - destruct Hlex as (c1 & c2 & c3 & c4 & -> & H1 & H2 & H3 & H4).
        exact (next_token_time_text l0 sep c1 c2 c3 c4 _ Hat Hsep H1 H2 H3 H4).
      - rewrite Hlex in *. exact (next_token_dash l0 sep _ Hat Hsep). }
    destruct Hnext as (l & pos & N & Hatl & T).
    destruct (IH l Hrest Hatl) as (l' & N' & Hstream).
    exists l. split; [exact N|]. cbn [map snd stream].
    unfold Parser.token_type, Parser.token_lexeme. rewrite T.
    split; [reflexivity|]. split; [reflexivity|]. exists l'. split; assumption.
Qed.

Lemma digit_cases k : 0 <= k <= 9 -> In k [0; 1; 2; 3; 4; 5; 6; 7; 8; 9].
Proof. intros H. cbn [In]. lia. Qed.

Ltac digit_case H :=
  cbn [In] in H; repeat (destruct H as [<- | H]; [reflexivity|]); destruct H.

Lemma code_digit n : 0 <= n <= 9 -> Py.code (digit n) = 48 + n /\ Py.is_digit (digit n) = true.
Proof. intros H%digit_cases. split; digit_case H. Qed.

(** The text of a time of day is a lexeme of the type TIME, and reads
    back as that time. *)
Lemma time_text_ok (t : Time.t) :
  Time.valid t = true ->
  Time.from_string (time_text t) = Ok t
  /\ exists c1 c2 c3 c4,
       time_text t = [c1; c2; c3; c4]
       /\ Py.char_in c1 Lexer.HOUR_STARTS = true
       /\ Lexer.is_hour_end (Some c2) (Some c1) = true
       /\ Lexer.is_minute_start (Some c3) = true
       /\ Lexer.is_minute_end (Some c4) = true.
Proof.
  intros Hv. pose proof (time_valid_bounds t Hv) as [Hh Hm].
  destruct t as [h m]. cbn [Time.hour Time.minute] in *. unfold time_text.
  cbn [Time.hour Time.minute].
  assert (Ha : 0 <= h / 10 <= 2 /\ 0 <= h mod 10 <= 9 /\ (h / 10 = 2 -> h mod 10 <= 3)
               /\ 10 * (h / 10) + h mod 10 = h)
    by (Z.div_mod_to_equations; lia).
  assert (Hb : 0 <= m / 10 <= 5 /\ 0 <= m mod 10 <= 9 /\ 10 * (m / 10) + m mod 10 = m)
    by (Z.div_mod_to_equations; lia).
  destruct Ha as (Ha1 & Ha2 & Ha3 & Ha4). destruct Hb as (Hb1 & Hb2 & Hb3).
  split.
  - destruct (code_digit (h / 10)) as [C1 D1]; [lia|].
    destruct (code_digit (h mod 10)) as [C2 D2]; [lia|].
    destruct (code_digit (m / 10)) as [C3 D3]; [lia|].
    destruct (code_digit (m mod 10)) as [C4 D4]; [lia|].
    rewrite from_string_digits by assumption. rewrite C1, C2, C3, C4.
    replace (10 * (48 + h / 10 - 48) + (48 + h mod 10 - 48)) with h by lia.
    replace (10 * (48 + m / 10 - 48) + (48 + m mod 10 - 48)) with m by lia.
    unfold Time.make. rewrite Hv. reflexivity.
  - do 4 eexists. split; [reflexivity|].
    assert (H1 : h / 10 = 0 \/ h / 10 = 1 \/ h / 10 = 2) by lia.
    assert (H3 : m / 10 = 0 \/ m / 10 = 1 \/ m / 10 = 2 \/ m / 10 = 3 \/ m / 10 = 4
                 \/ m / 10 = 5) by lia.
    split; [destruct H1 as [-> | [-> | ->]]; reflexivity|].
    split.
    + destruct H1 as [-> | [-> | H2]].
      * pose proof (digit_cases _ Ha2) as Hc. digit_case Hc.
      * pose proof (digit_cases _ Ha2) as Hc. digit_case Hc.
      * specialize (Ha3 H2). rewrite H2.
        assert (H4 : h mod 10 = 0 \/ h mod 10 = 1 \/ h mod 10 = 2 \/ h mod 10 = 3) by lia.
        destruct H4 as [-> | [-> | [-> | ->]]]; reflexivity.
    + split.
      * destruct H3 as [-> | [-> | [-> | [-> | [-> | ->]]]]]; reflexivity.
      * pose proof (digit_cases _ Hb2) as Hc. digit_case Hc.
Qed.

(** The name of a day is a lexeme of the type DAY_OF_WEEK, and the parser
    reads it back as that day. *)
Lemma day_name_ok d :
  0 <= d <= 6 ->
  day_name d <> []
  /\ Forall (fun c => Py.char_in c Py.ascii_letters = true) (day_name d)
  /\ keyword_type (Py.lower (day_name d)) = Some TokenType.DAY_OF_WEEK
  /\ Parser.day_of_lexeme (day_name d) = Ok d.
Proof.
  intros [-> | [-> | [-> | [-> | [-> | [-> | ->]]]]]]%day_cases;
    (split; [discriminate|]; split; [repeat constructor|];
     split; vm_compute; reflexivity).
Qed.

Lemma interval_tokens_lexable (i : Interval.t) after :
  Interval.valid i = true -> all_lexable (interval_tokens i) after.
Proof.
  unfold Interval.valid. intros [Hs He]%andb_true_iff.
  destruct (time_text_ok _ Hs) as [_ Hstart]. destruct (time_text_ok _ He) as [_ Hend].
  unfold interval_tokens. cbn [all_lexable lexable fst snd].
  split; [split; [repeat constructor | exact Hstart]|].
  split; [split; [constructor | reflexivity]|].
  split; [split; [constructor | exact Hend] | exact I].
Qed.

Lemma intervals_tokens_lexable (intervals : list Interval.t) after :
  Forall (fun i => Interval.valid i = true) intervals ->
  all_lexable (flat_map interval_tokens intervals) after.
Proof.
  induction 1 as [|i intervals Hi _ IH]; [exact I|].
  cbn [flat_map]. apply all_lexable_app. split; [apply interval_tokens_lexable, Hi | exact IH].
Qed.

Lemma agenda_tokens_lexable (a : Agenda.t) after :
  agenda_ok a -> all_lexable (agenda_tokens a) after.
Proof.
  intros [Hne Hv]. unfold agenda_tokens. cbn [all_lexable].
  split; [| apply intervals_tokens_lexable, Hv].
  split; [repeat constructor|]. cbn [fst snd].
  destruct (Agenda.intervals a) as [|i intervals]; [contradiction|].
  destruct (Agenda.directive a); cbn [directive_token fst snd];
    (split; [discriminate|]; split; [repeat constructor|]; split; [vm_compute; reflexivity|];
     reflexivity).
Qed.

Lemma agendas_tokens_lexable (agendas : list Agenda.t) after :
  Forall agenda_ok agendas -> all_lexable (flat_map agenda_tokens agendas) after.
Proof.
  induction 1 as [|a agendas Ha _ IH]; [exact I|].
  cbn [flat_map]. apply all_lexable_app. split; [apply agenda_tokens_lexable, Ha | exact IH].
Qed.

Lemma group_tokens_lexable (sep : str) (g : (Z * option Z) * list Agenda.t) after :
  Forall (fun c => is_blank c = true) sep -> group_ok g ->
  all_lexable (group_tokens sep g) after.
Proof.
  intros Hsep ([Hd He] & Hne & Hv). unfold group_tokens. apply all_lexable_app.
  split; [| apply agendas_tokens_lexable, Hv].
  assert (Hahead : no_letter_ahead (render (flat_map agenda_tokens g.2) ++ after)).
  { destruct g.2 as [|a agendas]; [contradiction | reflexivity]. }
  destruct g as [[d [e|]] agendas]; cbn [fst snd] in *; unfold days_tokens;
    cbn [all_lexable lexable fst snd].
  - destruct (day_name_ok d Hd) as (D1 & D2 & D3 & _).
    destruct (day_name_ok e He) as (E1 & E2 & E3 & _).
    split; [split; [exact Hsep | split; [exact D1 | split; [exact D2 | split; [exact D3 | reflexivity]]]]|].
    split; [split; [constructor | reflexivity]|].
    split; [| exact I].
    split; [constructor | split; [exact E1 | split; [exact E2 | split; [exact E3 | exact Hahead]]]].
  - destruct (day_name_ok d Hd) as (D1 & D2 & D3 & _).
    split; [| exact I].
    split; [exact Hsep | split; [exact D1 | split; [exact D2 | split; [exact D3 | exact Hahead]]]].
Qed.

Lemma groups_tokens_lexable (groups : list ((Z * option Z) * list Agenda.t)) after :
  Forall group_ok groups ->
  all_lexable (flat_map (group_tokens [Lexer.NL]) groups) after.
Proof.
  induction 1 as [|g groups Hg _ IH]; [exact I|].
  cbn [flat_map]. apply all_lexable_app.
  split; [apply group_tokens_lexable; [repeat constructor | exact Hg] | exact IH].
Qed.

Lemma schedule_tokens_lexable (groups : list ((Z * option Z) * list Agenda.t)) after :
  Forall group_ok groups -> all_lexable (schedule_tokens groups) after.
Proof.
  intros Hgroups. destruct Hgroups as [|g groups Hg Hrest]; [exact I|].
  cbn [schedule_tokens]. apply all_lexable_app.
  split; [apply group_tokens_lexable; [constructor | exact Hg]
         | apply groups_tokens_lexable, Hrest].
Qed.

Lemma parsed_inv {A} (post : A -> Lexer.t -> Prop) (o : outcome (A * Lexer.t)) a l :
  parsed post o -> o = Ok (a, l) -> lexer_ok l /\ token_ok l /\ post a l.
Proof.
  intros [(a' & l' & -> & J & Hok & Hp) | [(m & ->) | (m & ->)]] [=]; subst; auto.
Qed.

Lemma next_token_inv (l l' : Lexer.t) :
  lexer_ok l -> Lexer.next_token l = Ok l' -> lexer_ok l' /\ token_ok l'.
Proof.
  intros J N. destruct (next_token_step l J) as [(l1 & N1 & J1 & Hok1 & _) | (m & N1)];
    rewrite N in N1; [injection N1 as <-; split; assumption | discriminate].
Qed.

Lemma parse_days_stream (sep : str) (days : Z * option Z) rest (l : Lexer.t) :
  days_ok days ->
  TokenType.eqb (head_type rest) TokenType.DASH = false ->
  stream (map snd (days_tokens sep days) ++ rest) l ->
  exists l', Parser.parse_days l = Ok (group_days days, l') /\ stream rest l'.
Proof.
  intros [Hd He] Hrest Hs. destruct days as [d [e|]]; cbn [fst snd] in *;
    cbn [days_tokens map snd app stream] in Hs.
  - destruct Hs as (Ht & Hl & l1 & N1 & Ht1 & _ & l2 & N2 & Ht2 & Hl2 & l3 & N3 & Hs).
    destruct (day_name_ok d Hd) as (_ & _ & _ & Dd).
    destruct (day_name_ok e He) as (_ & _ & _ & De).
    exists l3. split; [| exact Hs].
    unfold Parser.parse_days. rewrite Ht. cbn [bind TokenType.eqb negb].
    rewrite Hl. cbn [bind]. rewrite Dd. cbn [bind]. rewrite N1. cbn [bind].
    rewrite Ht1. cbn [bind TokenType.eqb]. rewrite N2. cbn [bind].
    rewrite Ht2. cbn [bind TokenType.eqb negb]. rewrite Hl2. cbn [bind].
    rewrite De. cbn [bind]. rewrite N3. cbn [bind].
    rewrite days_loop_spec by assumption. reflexivity.
  - destruct Hs as (Ht & Hl & l1 & N1 & Hs).
    destruct (day_name_ok d Hd) as (_ & _ & _ & Dd).
    exists l1. split; [| exact Hs].
    unfold Parser.parse_days. rewrite Ht. cbn [bind TokenType.eqb negb].
    rewrite Hl. cbn [bind]. rewrite Dd. cbn [bind]. rewrite N1. cbn [bind].
    rewrite (stream_type _ _ Hs). cbn [bind]. rewrite Hrest. reflexivity.
Qed.

Lemma parse_interval_stream (i : Interval.t) rest (l : Lexer.t) :
  Interval.valid i = true ->
  stream (map snd (interval_tokens i) ++ rest) l ->
  exists l', Parser.parse_interval l = Ok (i, l') /\ stream rest l'.
Proof.
  unfold Interval.valid. intros [Hstart Hend]%andb_true_iff Hs.
  cbn [interval_tokens map snd app stream] in Hs.
  destruct Hs as (Ht & Hl & l1 & N1 & Ht1 & _ & l2 & N2 & Ht2 & Hl2 & l3 & N3 & Hs).
  exists l3. split; [| exact Hs].
  unfold Parser.parse_interval. rewrite Ht. cbn [bind TokenType.eqb].
  rewrite Hl. cbn [bind]. rewrite (proj1 (time_text_ok _ Hstart)). cbn [bind].
  rewrite N1. cbn [bind]. rewrite Ht1. cbn [bind TokenType.eqb]. rewrite N2. cbn [bind].
  rewrite Ht2. cbn [bind TokenType.eqb negb]. rewrite Hl2. cbn [bind].
  rewrite (proj1 (time_text_ok _ Hend)). cbn [bind]. rewrite N3. cbn [bind].
  destruct i. reflexivity.
Qed.

Lemma parse_intervals_loop_stream (intervals : list Interval.t) :
  Forall (fun i => Interval.valid i = true) intervals ->
  forall rest fuel acc (l : Lexer.t),
    existsb (TokenType.eqb (head_type rest)) [TokenType.TIME; TokenType.DASH] = false ->
    stream (map snd (flat_map interval_tokens intervals) ++ rest) l ->
    lexer_ok l -> token_ok l -> (pending l < fuel)%nat ->
    exists l',
      Parser.parse_intervals_loop fuel acc l = Ok (acc ++ intervals, l') /\ stream rest l'.
Proof.
  induction 1 as [|i intervals Hi _ IH]; intros rest fuel acc l Hrest Hs J Hok Hfuel;
    (destruct fuel as [|fuel]; [lia|]); cbn [Parser.parse_intervals_loop].
  - cbn [flat_map map app] in Hs. rewrite (stream_type _ _ Hs). cbn [bind].
    cbn [existsb] in Hrest. rewrite orb_false_r in Hrest. rewrite Hrest.
    exists l. rewrite app_nil_r. split; [reflexivity | exact Hs].
  - cbn [flat_map] in Hs. rewrite map_app, <- app_assoc in Hs.
    rewrite (stream_type _ _ Hs). cbn [bind interval_tokens map snd app head_type fst].
    cbn [TokenType.eqb orb].
    destruct (parse_interval_stream i _ l Hi Hs) as (l1 & Hparse & Hs1).
    destruct (parsed_inv _ _ _ _ (parse_interval_step l J Hok) Hparse) as (J1 & Hok1 & P1 & _).
    rewrite Hparse. cbn [bind].
    destruct (IH rest fuel (acc ++ [i]) l1 Hrest Hs1 J1 Hok1 ltac:(lia)) as (l' & Hloop & Hs').
    exists l'. rewrite Hloop, <- app_assoc. split; [reflexivity | exact Hs'].
Qed.

Lemma parse_intervals_stream (intervals : list Interval.t) rest (l : Lexer.t) :
  intervals <> [] ->
  Forall (fun i => Interval.valid i = true) intervals ->
  existsb (TokenType.eqb (head_type rest)) [TokenType.TIME; TokenType.DASH] = false ->
  stream (map snd (flat_map interval_tokens intervals) ++ rest) l ->
  lexer_ok l -> token_ok l ->
  exists l', Parser.parse_intervals l = Ok (intervals, l') /\ stream rest l'.
Proof.
  intros Hne Hv Hrest Hs J Hok. destruct Hv as [|i intervals Hi Hv]; [contradiction|].
  cbn [flat_map] in Hs. rewrite map_app, <- app_assoc in Hs.
  destruct (parse_interval_stream i _ l Hi Hs) as (l1 & Hparse & Hs1).
  destruct (parsed_inv _ _ _ _ (parse_interval_step l J Hok) Hparse) as (J1 & Hok1 & _).
  unfold Parser.parse_intervals. rewrite Hparse. cbn [bind app].
  exact (parse_intervals_loop_stream intervals Hv rest _ [i] l1 Hrest Hs1 J1 Hok1
           (pending_fuel l1 J1)).
Qed.

Lemma parse_agenda_stream (a : Agenda.t) rest (l : Lexer.t) :
  agenda_ok a ->
  existsb (TokenType.eqb (head_type rest)) [TokenType.TIME; TokenType.DASH] = false ->
  stream (map snd (agenda_tokens a) ++ rest) l ->
  lexer_ok l ->
  exists l', Parser.parse_agenda l = Ok (a, l') /\ stream rest l'.
Proof.
  intros [Hne Hv] Hrest Hs J. unfold agenda_tokens in Hs.
  cbn [map snd app stream] in Hs. destruct a as [intervals directive]. cbn [Agenda.intervals Agenda.directive] in *.
  destruct directive; cbn [directive_token] in Hs;
    destruct Hs as (Ht & _ & l1 & N1 & Hs);
    destruct (next_token_inv l l1 J N1) as [J1 Hok1];
    destruct (parse_intervals_stream intervals rest l1 Hne Hv Hrest Hs J1 Hok1)
      as (l' & Hparse & Hs');
    exists l'; (split; [| exact Hs']);
    unfold Parser.parse_agenda; rewrite Ht; cbn [bind TokenType.eqb];
    rewrite N1; cbn [bind]; rewrite Hparse; reflexivity.
Qed.

Lemma head_type_agendas (agendas : list Agenda.t) rest :
  existsb (TokenType.eqb (head_type rest)) [TokenType.TIME; TokenType.DASH] = false ->
  existsb (TokenType.eqb (head_type (map snd (flat_map agenda_tokens agendas) ++ rest)))
          [TokenType.TIME; TokenType.DASH] = false.
Proof.
  intros Hrest. destruct agendas as [|[intervals []] agendas]; [exact Hrest | reflexivity ..].
Qed.

Lemma parse_agendas_loop_stream (agendas : list Agenda.t) :
  Forall agenda_ok agendas ->
  forall rest fuel acc (l : Lexer.t),
    existsb (TokenType.eqb (head_type rest))
            [TokenType.TIME; TokenType.DASH; TokenType.ALLOW; TokenType.FORBID] = false ->
    stream (map snd (flat_map agenda_tokens agendas) ++ rest) l ->
    lexer_ok l -> token_ok l -> (pending l < fuel)%nat ->
    exists l',
      Parser.parse_agendas_loop fuel acc l = Ok (acc ++ agendas, l') /\ stream rest l'.
Proof.
  induction 1 as [|a agendas Ha _ IH]; intros rest fuel acc l Hrest Hs J Hok Hfuel;
    (destruct fuel as [|fuel]; [lia|]); cbn [Parser.parse_agendas_loop].
  - cbn [flat_map map app] in Hs. rewrite (stream_type _ _ Hs). cbn [bind].
    replace (existsb _ [TokenType.ALLOW; TokenType.FORBID]) with false
      by (destruct (head_type rest); cbn in *; congruence).
    exists l. rewrite app_nil_r. split; [reflexivity | exact Hs].
  - cbn [flat_map] in Hs. rewrite map_app, <- app_assoc in Hs.
    assert (Hrest2 : existsb (TokenType.eqb (head_type rest))
                             [TokenType.TIME; TokenType.DASH] = false)
      by (destruct (head_type rest); cbn in *; congruence).
    rewrite (stream_type _ _ Hs). cbn [bind].
    replace (existsb _ [TokenType.ALLOW; TokenType.FORBID]) with true
      by (destruct a as [intervals []]; reflexivity).
    destruct (parse_agenda_stream a _ l Ha (head_type_agendas agendas rest Hrest2) Hs J)
      as (l1 & Hparse & Hs1).
    destruct (parsed_inv _ _ _ _ (parse_agenda_step l J Hok) Hparse) as (J1 & Hok1 & P1 & _).
    rewrite Hparse. cbn [bind].
    destruct (IH rest fuel (acc ++ [a]) l1 Hrest Hs1 J1 Hok1 ltac:(lia)) as (l' & Hloop & Hs').
    exists l'. rewrite Hloop, <- app_assoc. split; [reflexivity | exact Hs'].
Qed.

Lemma parse_agendas_stream (agendas : list Agenda.t) rest (l : Lexer.t) :
  agendas <> [] -> Forall agenda_ok agendas ->
  existsb (TokenType.eqb (head_type rest))
          [TokenType.TIME; TokenType.DASH; TokenType.ALLOW; TokenType.FORBID] = false ->
  stream (map snd (flat_map agenda_tokens agendas) ++ rest) l ->
  lexer_ok l -> token_ok l ->
  exists l', Parser.parse_agendas l = Ok (agendas, l') /\ stream rest l'.
Proof.
  intros Hne Hv Hrest Hs J Hok. destruct Hv as [|a agendas Ha Hv]; [contradiction|].
  cbn [flat_map] in Hs. rewrite map_app, <- app_assoc in Hs.
  assert (Hrest2 : existsb (TokenType.eqb (head_type rest))
                           [TokenType.TIME; TokenType.DASH] = false)
    by (destruct (head_type rest); cbn in *; congruence).
  destruct (parse_agenda_stream a _ l Ha (head_type_agendas agendas rest Hrest2) Hs J)
    as (l1 & Hparse & Hs1).
  destruct (parsed_inv _ _ _ _ (parse_agenda_step l J Hok) Hparse) as (J1 & Hok1 & _).
  unfold Parser.parse_agendas. rewrite Hparse. cbn [bind app].
  exact (parse_agendas_loop_stream agendas Hv rest _ [a] l1 Hrest Hs1 J1 Hok1
           (pending_fuel l1 J1)).
Qed.

Lemma head_type_groups (sep : str) (groups : list ((Z * option Z) * list Agenda.t)) :
  existsb (TokenType.eqb (head_type (map snd (flat_map (group_tokens sep) groups))))
          [TokenType.TIME; TokenType.DASH; TokenType.ALLOW; TokenType.FORBID] = false.
Proof. destruct groups as [|[[d [e|]] agendas] groups]; reflexivity. Qed.

Lemma group_days_range (days : Z * option Z) :
  days_ok days -> forall d, In d (group_days days) -> 0 <= d <= 6.
Proof.
  destruct days as [d [e|]]; intros [Hd He] x; cbn [group_days fst snd] in *.
  - apply in_day_range.
  - intros [<- | []]. exact Hd.
Qed.

(** One group of days and agendas, read and added to the schedule. *)
Lemma parse_group_stream (sep : str) (g : (Z * option Z) * list Agenda.t) rest
    (l : Lexer.t) (s : Schedule.t) :
  group_ok g ->
  existsb (TokenType.eqb (head_type rest))
          [TokenType.TIME; TokenType.DASH; TokenType.ALLOW; TokenType.FORBID] = false ->
  stream (map snd (group_tokens sep g) ++ rest) l ->
  lexer_ok l -> token_ok l ->
  exists l1 l2,
    Parser.parse_days l = Ok (group_days g.1, l1)
    /\ Parser.parse_agendas l1 = Ok (g.2, l2)
    /\ Schedule.add_agendas_on_days s g.2 (group_days g.1)
       = Ok (Schedule.Build
               (Schedule.allowed s
                ++ agenda_weekday_intervals Directive.ALLOW g.2 (group_days g.1))
               (Schedule.forbidden s
                ++ agenda_weekday_intervals Directive.FORBID g.2 (group_days g.1))
               (Schedule.tz s))
    /\ stream rest l2 /\ lexer_ok l2 /\ token_ok l2 /\ (pending l2 < pending l)%nat.
Proof.
  intros (Hdays & Hne & Hv) Hrest Hs J Hok. unfold group_tokens in Hs.
  rewrite map_app, <- app_assoc in Hs.
  destruct (parse_days_stream sep g.1 (map snd (flat_map agenda_tokens g.2) ++ rest) l Hdays)
    as (l1 & Hparse1 & Hs1); [| exact Hs |].
  { destruct g.2 as [|[intervals []] agendas]; [contradiction | reflexivity ..]. }
  destruct (parsed_inv _ _ _ _ (parse_days_step l J Hok) Hparse1) as (J1 & Hok1 & P1 & _).
  destruct (parse_agendas_stream g.2 rest l1 Hne Hv Hrest Hs1 J1 Hok1) as (l2 & Hparse2 & Hs2).
  destruct (parsed_inv _ _ _ _ (parse_agendas_step l1 J1 Hok1) Hparse2) as (J2 & Hok2 & P2 & _).
  exists l1, l2. split; [exact Hparse1|]. split; [exact Hparse2|].
  split; [apply add_agendas_on_days_ok, group_days_range, Hdays|].
  split; [exact Hs2|]. split; [exact J2|]. split; [exact Hok2 | lia].
Qed.

Lemma parse_schedule_loop_stream (groups : list ((Z * option Z) * list Agenda.t)) :
  Forall group_ok groups ->
  forall fuel (s : Schedule.t) (l : Lexer.t),
    stream (map snd (flat_map (group_tokens [Lexer.NL]) groups)) l ->
    lexer_ok l -> token_ok l -> (pending l < fuel)%nat ->
    exists l',
      Parser.parse_schedule_loop fuel s l
      = Ok (Schedule.Build
              (Schedule.allowed s ++ Schedule.allowed (schedule_of [] groups))
              (Schedule.forbidden s ++ Schedule.forbidden (schedule_of [] groups))
              (Schedule.tz s), l').
Proof.
  induction 1 as [|g groups Hg _ IH]; intros fuel s l Hs J Hok Hfuel;
    (destruct fuel as [|fuel]; [lia|]); cbn [Parser.parse_schedule_loop].
  - cbn in Hs. rewrite Hs. cbn [bind TokenType.eqb]. exists l.
    cbn. rewrite !app_nil_r. destruct s; reflexivity.
  - cbn [flat_map] in Hs. rewrite map_app in Hs.
    rewrite (stream_type _ _ Hs).
    replace (head_type _) with TokenType.DAY_OF_WEEK
      by (destruct g as [[d [e|]] agendas]; reflexivity).
    cbn [bind TokenType.eqb].
    destruct (parse_group_stream [Lexer.NL] g _ l s Hg (head_type_groups _ groups) Hs J Hok)
      as (l1 & l2 & -> & Hparse2 & Hadd & Hs2 & J2 & Hok2 & P2).
    cbn [bind]. rewrite Hparse2. cbn [bind]. rewrite Hadd. cbn [bind].
    assert (Hfuel2 : (pending l2 < fuel)%nat) by lia.
    match goal with
    | |- context [Parser.parse_schedule_loop _ ?s1 _] =>
        destruct (IH fuel s1 l2 Hs2 J2 Hok2 Hfuel2) as (l' & ->)
    end.
    exists l'. cbn [schedule_of Schedule.allowed Schedule.forbidden Schedule.tz flat_map].
    rewrite <- !app_assoc. reflexivity.
Qed.

(** X18.  Wherever the lexer stands in a text given to [from_string],
    [next_token] passes the blanks (spaces, tabs, form feeds, newlines) and
    then: a word of letters followed by no letter gives the token ALLOW,
    FORBID or DAY_OF_WEEK when its lower-case form is allow, forbid or one
    of the names of the days, with the word as it is written for lexeme,
    and a lexical error otherwise; a dash gives the token DASH; four digits
    of a time give the token TIME; the end of the text gives END_INPUT.  In
    each case the lexer is left on the text that follows the token. *)
Theorem next_token_text_spec (l0 : Lexer.t) (ws : str) :
  Forall (fun c => is_blank c = true) ws ->
  (forall string, exists l, Lexer.from_string string = Ok l /\ at_text l string)
  /\ (forall w text,
         at_text l0 (ws ++ w ++ text) ->
         w <> [] -> Forall (fun c => Py.char_in c Py.ascii_letters = true) w ->
         no_letter_ahead text ->
         match keyword_type (Py.lower w) with
         | Some ty =>
             exists l pos,
               Lexer.next_token l0 = Ok l /\ at_text l text
               /\ Lexer.token l = Some (Token.Build ty w pos)
         | None => exists message, Lexer.next_token l0 = Raise (LexerError message)
         end)
  /\ (forall text,
         at_text l0 (ws ++ $"-" ++ text) ->
         exists l pos,
           Lexer.next_token l0 = Ok l /\ at_text l text
           /\ Lexer.token l = Some (Token.Build TokenType.DASH $"-" pos))
  /\ (forall (t : Time.t) text,
         Time.valid t = true ->
         at_text l0 (ws ++ time_text t ++ text) ->
         exists l pos,
           Lexer.next_token l0 = Ok l /\ at_text l text
           /\ Lexer.token l = Some (Token.Build TokenType.TIME (time_text t) pos))
  /\ (at_text l0 ws ->
      exists l pos,
        Lexer.next_token l0 = Ok l /\ at_text l []
        /\ Lexer.token l = Some (Token.Build TokenType.END_INPUT [] pos)).
Proof.
  intros Hws. split; [| split; [| split; [| split]]].
  - intros string. destruct (from_string_text string) as (l & Hl & Hat & _).
    exists l. split; assumption.
  - intros w text Hat Hne Hw Hahead. exact (next_token_keyword l0 ws w text Hat Hws Hne Hw Hahead).
  - intros text Hat. exact (next_token_dash l0 ws text Hat Hws).
  - intros t text Hv Hat.
    destruct (time_text_ok t Hv) as (_ & c1 & c2 & c3 & c4 & Heq & H1 & H2 & H3 & H4).
    rewrite Heq in *. exact (next_token_time_text l0 ws c1 c2 c3 c4 text Hat Hws H1 H2 H3 H4).
  - intros Hat. exact (next_token_end l0 ws Hat Hws).
Qed.

Lemma next_token_text_spec_witness :
  let l0 := lexer_of (Lexer.from_string $"  FriDay-mon") in
  exists l pos,
    Lexer.next_token l0 = Ok l /\ at_text l $"-mon"
    /\ Lexer.token l = Some (Token.Build TokenType.DAY_OF_WEEK $"FriDay" pos).
Proof.
  intros l0.
  assert (Hws : Forall (fun c => is_blank c = true) $"  ") by (repeat constructor).
  assert (Hat : at_text l0 ($"  " ++ $"FriDay" ++ $"-mon")).
  { split; [| split; [reflexivity | split; [reflexivity|]]].
    - split; [reflexivity|]. split; [vm_compute; discriminate|].
      split; [reflexivity | discriminate].
    - exists []. split; [reflexivity|]. split; reflexivity. }
  exact (proj1 (proj2 (next_token_text_spec l0 $"  " Hws)) $"FriDay" $"-mon" Hat
           ltac:(discriminate) ltac:(repeat constructor) eq_refl).
Defined.

(** X19.  Writing and reading back: the text of a schedule, one line per
    group of days and agendas, each group a day or a range of days by
    their full names followed by its agendas, each agenda [allow] or
    [forbid] followed by its intervals written HHMM-HHMM, with blanks
    after it or not, is read by [from_dsl] as the schedule that holds, for
    every group in order and every agenda of the group in order, one
    WeekdayInterval per interval of the agenda and day of the group, in the
    allowed list for ALLOW and the forbidden list for FORBID. *)
Theorem from_dsl_unparse (local_timezone tz : str)
    (groups : list ((Z * option Z) * list Agenda.t)) (trailing : str) :
  groups <> [] -> Forall group_ok groups ->
  Forall (fun c => is_blank c = true) trailing ->
  from_dsl local_timezone (unparse groups ++ trailing) tz = Ok (schedule_of tz groups).
Proof.
  intros Hne Hgroups Htrailing.
  destruct (from_string_text (unparse groups ++ trailing)) as (l0 & Hl0 & Hat & _).
  destruct (lex_stream trailing Htrailing (schedule_tokens groups) l0
              (schedule_tokens_lexable groups trailing Hgroups) Hat) as (l & N & Hs).
  destruct (next_token_inv l0 l (proj1 Hat) N) as [J Hok].
  unfold from_dsl. rewrite Hl0. cbn [bind]. unfold Parser.parse. rewrite N. cbn [bind].
  destruct Hgroups as [|g groups Hg Hrest]; [contradiction|].
  cbn [schedule_tokens] in Hs. rewrite map_app in Hs.
  destruct (parse_group_stream [] g _ l (Schedule.new local_timezone) Hg
              (head_type_groups _ groups) Hs J Hok)
    as (l1 & l2 & Hparse1 & Hparse2 & Hadd & Hs2 & J2 & Hok2 & _).
  unfold Parser.parse_schedule. rewrite Hparse1. cbn [bind]. rewrite Hparse2. cbn [bind].
  rewrite Hadd. cbn [bind].
  match goal with
  | |- context [Parser.parse_schedule_loop _ ?s1 _] =>
      destruct (parse_schedule_loop_stream groups Hrest _ s1 l2 Hs2 J2 Hok2
                  (pending_fuel l2 J2)) as (l' & ->)
  end.
  cbn [bind]. reflexivity.
Qed.

Lemma from_dsl_unparse_witness :
  let groups :=
    [((1, Some 5),
      [Agenda.Build [Interval.Build Time.start_of_day Time.end_of_day] Directive.ALLOW;
       Agenda.Build [Interval.Build (Time.Build 8 0) (Time.Build 20 0)] Directive.FORBID]);
     ((6, None),
      [Agenda.Build [Interval.Build Time.start_of_day (Time.Build 14 0);
                     Interval.Build (Time.Build 18 30) (Time.Build 19 45)]
                    Directive.ALLOW])] in
  unparse groups
  = $"monday-friday allow 0000-2359 forbid 0800-2000" ++ [Lexer.NL]
    ++ $"saturday allow 0000-1400 1830-1945"
  /\ from_dsl $"UTC" (unparse groups ++ [Lexer.NL]) $"Europe/Paris"
     = Ok (schedule_of $"Europe/Paris" groups).
Proof.
  intros groups. split; [reflexivity|].
  apply (from_dsl_unparse $"UTC" $"Europe/Paris" groups [Lexer.NL]).
  - discriminate.
  - repeat constructor; cbn; try lia; discriminate.
  - repeat constructor.
Defined.

Lemma digit_of_code c : Py.is_digit c = true -> digit (Py.code c - 48) = c.
Proof. destruct c as [[] [] [] [] [] [] [] []]; intros H; try discriminate H; reflexivity. Qed.

(** X20.  [Time.from_string] and the text HHMM of a time of day are
    inverse to each other: the text of every valid time reads back as that
    time, and when four digits read as a time, that time is valid and its
    text is those four digits.  Four digits whose first two are above 23 or
    whose last two are above 59 raise the validation error. *)
Theorem time_from_string_round_trip :
  (forall t : Time.t, Time.valid t = true -> Time.from_string (time_text t) = Ok t)
  /\ (forall c1 c2 c3 c4 (t : Time.t),
         Py.is_digit c1 = true -> Py.is_digit c2 = true ->
         Py.is_digit c3 = true -> Py.is_digit c4 = true ->
         Time.from_string [c1; c2; c3; c4] = Ok t ->
         Time.valid t = true /\ time_text t = [c1; c2; c3; c4])
  /\ (forall c1 c2 c3 c4,
         Py.is_digit c1 = true -> Py.is_digit c2 = true ->
         Py.is_digit c3 = true -> Py.is_digit c4 = true ->
         23 < 10 * (Py.code c1 - 48) + (Py.code c2 - 48)
         \/ 59 < 10 * (Py.code c3 - 48) + (Py.code c4 - 48) ->
         exists message, Time.from_string [c1; c2; c3; c4] = Raise (ValueError message)).
Proof.
  split; [intros t Hv; apply (time_text_ok t Hv)|].
  assert (Hcode : forall c, Py.is_digit c = true -> 0 <= Py.code c - 48 <= 9).
  { intros c. unfold Py.is_digit. rewrite andb_true_iff, !Z.leb_le. lia. }
  split.
  - intros c1 c2 c3 c4 t D1 D2 D3 D4 Hfrom.
    rewrite from_string_digits in Hfrom by assumption. unfold Time.make in Hfrom.
    destruct (Time.valid _) eqn:Hv in Hfrom; [| discriminate]. injection Hfrom as <-.
    split; [exact Hv|].
    pose proof (Hcode c1 D1). pose proof (Hcode c2 D2).
    pose proof (Hcode c3 D3). pose proof (Hcode c4 D4).
    unfold time_text. cbn [Time.hour Time.minute].
    replace ((10 * (Py.code c1 - 48) + (Py.code c2 - 48)) / 10) with (Py.code c1 - 48)
      by (Z.div_mod_to_equations; lia).
    replace ((10 * (Py.code c1 - 48) + (Py.code c2 - 48)) mod 10) with (Py.code c2 - 48)
      by (Z.div_mod_to_equations; lia).
    replace ((10 * (Py.code c3 - 48) + (Py.code c4 - 48)) / 10) with (Py.code c3 - 48)
      by (Z.div_mod_to_equations; lia).
    replace ((10 * (Py.code c3 - 48) + (Py.code c4 - 48)) mod 10) with (Py.code c4 - 48)
      by (Z.div_mod_to_equations; lia).
    rewrite !digit_of_code by assumption. reflexivity.
  - intros c1 c2 c3 c4 D1 D2 D3 D4 Hbig.
    rewrite from_string_digits by assumption. unfold Time.make, Time.valid.
    cbn [Time.hour Time.minute].
    replace (_ && _ && _ && _) with false; [eexists; reflexivity|].
    symmetry. apply not_true_is_false. rewrite !andb_true_iff, !Z.leb_le. lia.
Qed.

Lemma time_from_string_round_trip_witness :
  Time.from_string $"2359" = Ok Time.end_of_day
  /\ time_text Time.end_of_day = $"2359"
  /\ exists message, Time.from_string $"0960" = Raise (ValueError message).
Proof.
  destruct time_from_string_round_trip as (H1 & H2 & H3).
  split; [exact (H1 Time.end_of_day eq_refl)|].
  split; [exact (proj2 (H2 "2"%char "3"%char "5"%char "9"%char Time.end_of_day
                          eq_refl eq_refl eq_refl eq_refl (H1 Time.end_of_day eq_refl)))|].
  apply (H3 "0"%char "9"%char "6"%char "0"%char); try reflexivity.
  right. vm_compute. reflexivity.
Defined.

Lemma occurrence_fields m (t : Time.t) :
  calm m = true ->
  Time.valid t = true ->
  pendulum.day_of_week (occurrence m 0 t) = pendulum.day_of_week m
  /\ pendulum.hour (occurrence m 0 t) = Time.hour t
  /\ pendulum.minute (occurrence m 0 t) = Time.minute t
  /\ pendulum.wall (occurrence m 0 t) = reading m 0 t
  /\ pendulum.wall (occurrence m 0 t) - pendulum.wall m
     = pendulum.timestamp (occurrence m 0 t) - pendulum.timestamp m.
Proof.
  intros Hq Ht.
  destruct (calm_occurrence m 0 t Hq Ht ltac:(lia)) as (_ & Hwall & _).
  destruct (occurrence_on_clock m 0 t Ht Hwall) as (Hd & Hh & Hm).
  destruct (occurrence_wall m 0 t Hq Ht ltac:(lia)) as (_ & _ & _ & _ & Hdiff & _).
  unfold pendulum.day_of_week. rewrite Hd, Z.add_0_r. repeat split; assumption.
Qed.

(** X21.  A WeekdayInterval whose start hour is after its end hour makes
    the search skip allowed moments: on the schedule that allows such a
    valid WeekdayInterval and forbids nothing, from a moment of its day
    before its end hour around which the zone has no transition (from three
    days before it to eleven days after it),
    [next_moment_allowed_after] returns the start of the interval on that
    day, although the schedule allows the earlier beginning of the end hour.
    [from_dsl] builds such schedules: it does not compare the two times of
    an interval. *)
Theorem next_moment_allowed_after_inverted (tzdata : str -> pendulum.Timezone)
    (w : WeekdayInterval.t) (tz : str) (moment : pendulum.DateTime) :
  WeekdayInterval.valid w = true ->
  calm (pendulum.in_tz tzdata moment tz) = true ->
  let s := Schedule.Build [w] [] tz in
  let m := pendulum.in_tz tzdata moment tz in
  let start := Interval.start (WeekdayInterval.interval w) in
  let end_hour := Time.Build (Time.hour (Interval.end_ (WeekdayInterval.interval w))) 0 in
  Time.hour end_hour < Time.hour start ->
  pendulum.day_of_week m = WeekdayInterval.day_of_week w ->
  pendulum.hour m < Time.hour end_hour ->
  Schedule.next_moment_allowed_after tzdata s moment = Ok (occurrence m 0 start)
  /\ Schedule.is_allowed_at tzdata s (occurrence m 0 end_hour) = true
  /\ pendulum.timestamp moment <= pendulum.timestamp (occurrence m 0 end_hour)
  /\ pendulum.timestamp (occurrence m 0 end_hour) < pendulum.timestamp (occurrence m 0 start)
  /\ from_dsl $"UTC" $"sunday allow 1030-0815" tz
     = Ok (Schedule.Build
             [WeekdayInterval.Build 0 (Interval.Build (Time.Build 10 30) (Time.Build 8 15))]
             [] tz).
Proof.
  intros Hw Hq s m start end_hour Hinv Hdow Hhour.
  assert (Hqm : calm m = true) by exact Hq.
  destruct (weekday_interval_valid_bounds w Hw) as (Hd & Hs & He).
  fold start in Hs.
  pose proof (time_valid_bounds _ Hs) as [Hsh Hsm].
  pose proof (time_valid_bounds _ He) as [Heh Hem].
  assert (Hend : Time.valid end_hour = true).
  { unfold Time.valid. subst end_hour. cbn [Time.hour Time.minute] in *.
    rewrite !andb_true_iff, !Z.leb_le. lia. }
  assert (Hv : Schedule.valid s = true).
  { unfold Schedule.valid. subst s. cbn. rewrite Hw. reflexivity. }
  assert (Hallowed : forall t,
             pendulum.tz t = tzdata tz ->
             Schedule.is_allowed_at tzdata s t = WeekdayInterval.contains w t).
  { intros t Hoff. unfold Schedule.is_allowed_at. subst s.
    cbn [Schedule.allowed Schedule.forbidden Schedule.tz existsb negb].
    rewrite in_tz_same by exact Hoff. rewrite orb_false_r, andb_true_r. reflexivity. }
  assert (Hcontains : forall t,
             WeekdayInterval.contains w t = true <->
             pendulum.day_of_week t = WeekdayInterval.day_of_week w
             /\ ((pendulum.hour t = Time.hour start /\ Time.minute start <= pendulum.minute t)
                 \/ (pendulum.hour t = Time.hour end_hour
                     /\ pendulum.minute t
                        <= Time.minute (Interval.end_ (WeekdayInterval.interval w))))).
  { intros t. unfold WeekdayInterval.contains. fold start.
    subst end_hour. cbn [Time.hour] in *.
    rewrite !andb_true_iff, !orb_true_iff, !andb_true_iff, !negb_true_iff.
    rewrite !Z.eqb_eq, !Z.ltb_lt, !Z.leb_le, !Z.eqb_neq, Z.geb_le.
    lia. }
  destruct (occurrence_fields m start Hqm Hs) as (S1 & S2 & S3 & S4 & D2).
  destruct (occurrence_fields m end_hour Hqm Hend) as (E1 & E2 & E3 & E4 & D1).
  assert (Hle : pendulum.timestamp m <= pendulum.timestamp (occurrence m 0 end_hour)
                /\ pendulum.timestamp (occurrence m 0 end_hour)
                   < pendulum.timestamp (occurrence m 0 start)).
  { rewrite S4 in D2. rewrite E4 in D1.
    pose proof (wall_day m) as Hday.
    assert (Hhm : pendulum.wall m
                  < pendulum.day_number m * pendulum.US_PER_DAY
                    + Time.hour end_hour * pendulum.US_PER_HOUR).
    { unfold pendulum.hour, pendulum.day_number, pendulum.US_PER_DAY, pendulum.US_PER_HOUR in *.
      Z.div_mod_to_equations. lia. }
    subst end_hour. unfold reading in *. cbn [Time.hour Time.minute] in *.
    unfold pendulum.US_PER_DAY, pendulum.US_PER_HOUR, pendulum.US_PER_MINUTE in *. lia. }
  assert (Hstart : WeekdayInterval.next_start_after w m = Ok (occurrence m 0 start)).
  { destruct (next_after_cases w m Hw Hqm) as (S & _). apply S; [exact Hdow | fold start; lia]. }
  assert (Hnot : Schedule.is_allowed_at tzdata s m = false).
  { rewrite Hallowed by reflexivity. apply not_true_is_false. intros Hc.
    apply Hcontains in Hc. lia. }
  split; [| split; [| split; [exact (proj1 Hle) | split; [exact (proj2 Hle) | reflexivity]]]].
  - destruct (next_moment_allowed_after_result tzdata s moment Hv)
      as [(best & Hbest & Hc & Ha & _) | [_ Hnone]].
    + rewrite Hbest. f_equal.
      destruct Hc as [-> | [(w' & Hw' & Hc) | (w' & [] & _)]].
      * exfalso. change (Schedule.is_allowed_at tzdata s m = true) in Ha. congruence.
      * destruct Hw' as [<- | []].
        change (WeekdayInterval.next_start_after w m = Ok best) in Hc. congruence.
    + exfalso. specialize (Hnone (occurrence m 0 start)).
      rewrite Hallowed in Hnone by reflexivity.
      assert (Hc : WeekdayInterval.contains w (occurrence m 0 start) = true)
        by (apply Hcontains; lia).
      rewrite Hnone in Hc; [discriminate|].
      right. left. exists w. split; [left; reflexivity | exact Hstart].
  - rewrite Hallowed by reflexivity. apply Hcontains.
    subst end_hour. cbn [Time.hour Time.minute] in *. lia.
Qed.

Lemma next_moment_allowed_after_inverted_witness :
  let tzdata := fun _ : str => America_New_York in
  let w := WeekdayInterval.Build 0 (Interval.Build (Time.Build 10 30) (Time.Build 8 15)) in
  let s := Schedule.Build [w] [] $"America/New_York" in
  Schedule.next_moment_allowed_after tzdata s (new_york_at 98 7 0)
  = Ok (new_york_at 98 10 30)
  /\ Schedule.is_allowed_at tzdata s (new_york_at 98 8 0) = true.
Proof.
  intros tzdata w s.
  assert (Hw : WeekdayInterval.valid w = true) by reflexivity.
  assert (Hq : calm (pendulum.in_tz tzdata (new_york_at 98 7 0) $"America/New_York") = true)
    by (vm_compute; reflexivity).
  destruct (next_moment_allowed_after_inverted tzdata w $"America/New_York"
              (new_york_at 98 7 0) Hw Hq)
    as (H1 & H2 & _); [cbn; lia | vm_compute; reflexivity | vm_compute; reflexivity |].
  split; [exact H1 | exact H2].
Defined.

(** ** The place of a token *)

Lemma at_text_getitem (l : Lexer.t) c text :
  at_text l (c :: text) -> Py.getitem (Lexer.line l) (Lexer.column l) = Some c.
Proof.
  intros (_ & _ & _ & pre & Hline & Hcolumn & _).
  assert (Hl : exists rest, Lexer.line l = pre ++ c :: rest).
  { rewrite Hline, readline_cons. destruct (Ascii.eqb c Lexer.NL); eexists; reflexivity. }
  destruct Hl as [rest Hl].
  rewrite Hcolumn by (rewrite Hl; destruct pre; discriminate). rewrite Hl.
  unfold Py.getitem, Py.len. rewrite length_app. cbn [length].
  replace ((0 <=? Z.of_nat (length pre))
           && (Z.of_nat (length pre) <? Z.of_nat (length pre + S (length rest)))) with true
    by (symmetry; apply andb_true_iff; split; [apply Z.leb_le | apply Z.ltb_lt]; lia).
  rewrite Nat2Z.id, nth_error_app2, Nat.sub_diag by lia. reflexivity.
Qed.

Lemma next_char_frame (l l1 : Lexer.t) :
  -1 <= Lexer.column l -> Lexer.next_char l = Ok l1 ->
  Lexer.line l1 = Lexer.line l
  /\ Lexer.position l1 = Lexer.position l
  /\ Lexer.end_of_line l1 = Lexer.end_of_line l
  /\ Lexer.token l1 = Lexer.token l
  /\ 0 <= Lexer.column l1.
Proof.
  intros Hcol N.
  destruct (next_char_shape l Hcol) as (l1' & N' & _ & L & _ & E & P & C & _).
  destruct (next_char_ok l Hcol) as (l1'' & N'' & _ & _ & _ & _ & _ & T).
  rewrite N in N', N''. injection N' as <-. injection N'' as <-.
  repeat split; assumption.
Qed.

Lemma extract_loop_frame n : forall l l' : Lexer.t,
  0 <= Lexer.column l -> Lexer.extract_loop n l = Ok l' ->
  Lexer.line l' = Lexer.line l
  /\ Lexer.position l' = Lexer.position l
  /\ Lexer.end_of_line l' = Lexer.end_of_line l
  /\ Lexer.token l' = Lexer.token l.
Proof.
  induction n as [|n IH]; intros l l' Hcol Hloop; [discriminate|].
  cbn [Lexer.extract_loop] in Hloop.
  destruct (Lexer.char l) as [c|]; [| injection Hloop as <-; repeat split].
  destruct (Py.char_in c Py.ascii_letters); [| injection Hloop as <-; repeat split].
  destruct (Lexer.next_char l) as [l1 | e |] eqn:N; cbn [bind] in Hloop; try discriminate.
  destruct (next_char_frame l l1 ltac:(lia) N) as (L1 & P1 & E1 & T1 & C1).
  destruct (IH l1 l' C1 Hloop) as (L' & P' & E' & T').
  repeat split; congruence.
Qed.

(** A token, once made, carries the position that the lexer marked, and
    the lexer is still on the line of that position. *)
Lemma token_frame (marked self l : Lexer.t) ty lexeme :
  Lexer.line self = Lexer.line marked ->
  Lexer.position self = Lexer.position marked ->
  Lexer.end_of_line self = Lexer.end_of_line marked ->
  (let* tok := Lexer.make_token self ty lexeme in Ok (Lexer.set_token self (Some tok))) = Ok l ->
  Lexer.line l = Lexer.line marked
  /\ Lexer.position l = Lexer.position marked
  /\ Lexer.end_of_line l = Lexer.end_of_line marked
  /\ exists tok, Lexer.token l = Some tok /\ Lexer.position l = Some (Token.position tok).
Proof.
  intros L P E. unfold Lexer.make_token.
  destruct (Lexer.position self) as [p|] eqn:Hp; cbn [bind]; [| discriminate].
  intros [= <-]. destruct self. cbn in *. subst.
  repeat split; try assumption. eexists. split; reflexivity.
Qed.

Lemma allow_or_forbid_or_day_of_week_token_frame (l l' : Lexer.t) :
  0 <= Lexer.column l -> Lexer.token l = None ->
  Lexer.allow_or_forbid_or_day_of_week_token l = Ok l' ->
  Lexer.line l' = Lexer.line l
  /\ Lexer.position l' = Lexer.position l
  /\ Lexer.end_of_line l' = Lexer.end_of_line l
  /\ (Lexer.token l' = None
      \/ exists tok, Lexer.token l' = Some tok /\ Lexer.position l' = Some (Token.position tok)).
Proof.
  intros Hcol Htok.
  unfold Lexer.allow_or_forbid_or_day_of_week_token, Lexer.extract_ascii_identifier.
  destruct (Lexer.extract_loop _ l) as [extracted | e |] eqn:Hextract; cbn [bind];
    try discriminate.
  destruct (extract_loop_frame _ _ _ Hcol Hextract) as (L & P & E & T).
  destruct (Trie.contains Lexer.KEYWORDS _); cbn [negb];
    [| destruct (Trie.contains_prefix Lexer.KEYWORDS _); discriminate].
  assert (Hmade : forall ty lexeme,
             (let* tok := Lexer.make_token extracted ty lexeme in
              Ok (Lexer.set_token extracted (Some tok))) = Ok l' ->
             Lexer.line l' = Lexer.line l
             /\ Lexer.position l' = Lexer.position l
             /\ Lexer.end_of_line l' = Lexer.end_of_line l
             /\ (Lexer.token l' = None
                 \/ exists tok, Lexer.token l' = Some tok
                                /\ Lexer.position l' = Some (Token.position tok))).
  { intros ty lexeme H. destruct (token_frame l extracted l' ty lexeme L P E H)
      as (L' & P' & E' & Hex).
    repeat split; try assumption. right. exact Hex. }
  destruct (Py.str_eqb _ _); [apply Hmade|].
  destruct (Py.str_eqb _ _); [apply Hmade|].
  destruct (Py.str_in _ _); [apply Hmade|].
  intros [= <-]. repeat split; try assumption. left. congruence.
Qed.

Lemma time_token_frame (l l' : Lexer.t) :
  0 <= Lexer.column l ->
  Lexer.time_token l = Ok l' ->
  Lexer.line l' = Lexer.line l
  /\ Lexer.position l' = Lexer.position l
  /\ Lexer.end_of_line l' = Lexer.end_of_line l
  /\ exists tok, Lexer.token l' = Some tok /\ Lexer.position l' = Some (Token.position tok).
Proof.
  intros Hcol. unfold Lexer.time_token, Lexer.hour_partial, Lexer.minute_partial.
  destruct (Lexer.next_char l) as [l1 | e |] eqn:N1; cbn [bind]; try discriminate.
  destruct (next_char_frame l l1 ltac:(lia) N1) as (L1 & P1 & E1 & _ & C1).
  destruct (negb (Lexer.is_hour_end _ _)); [discriminate|].
  destruct (Lexer.concat_chars _ _) as [hour_part | e |]; cbn [bind]; try discriminate.
  destruct (Lexer.next_char l1) as [l2 | e |] eqn:N2; cbn [bind]; try discriminate.
  destruct (next_char_frame l1 l2 ltac:(lia) N2) as (L2 & P2 & E2 & _ & C2).
  destruct (negb (Lexer.is_minute_start _)); [discriminate|].
  destruct (Lexer.next_char l2) as [l3 | e |] eqn:N3; cbn [bind]; try discriminate.
  destruct (next_char_frame l2 l3 ltac:(lia) N3) as (L3 & P3 & E3 & _ & C3).
  destruct (negb (Lexer.is_minute_end _)); [discriminate|].
  destruct (Lexer.concat_chars _ _) as [minute_part | e |]; cbn [bind]; try discriminate.
  destruct (Lexer.next_char l3) as [l4 | e |] eqn:N4; cbn [bind]; try discriminate.
  destruct (next_char_frame l3 l4 ltac:(lia) N4) as (L4 & P4 & E4 & _ & C4).
  apply token_frame; congruence.
Qed.

(** The token that [next_token] gives from a text stands, on the
    lexer's line, at the column of its position. *)
Lemma next_token_located (l0 l : Lexer.t) (ws : str) (c : ascii) (text : str) :
  at_text l0 (ws ++ c :: text) ->
  Forall (fun c => is_blank c = true) ws ->
  is_blank c = false ->
  Lexer.next_token l0 = Ok l ->
  exists tok,
    Lexer.token l = Some tok
    /\ Lexer.position l = Some (Token.position tok)
    /\ 0 <= Position.column (Token.position tok)
    /\ Py.getitem (Lexer.line l) (Position.column (Token.position tok)) = Some c
    /\ Lexer.end_of_line l = Lexer.NL.
Proof.
  intros Hat Hws Hc N.
  destruct (next_token_skip l0 ws (c :: text) Hat Hws Hc)
    as (marked & pos & Hatm & Hpos & Hcolpos & Tm & _ & Heq).
  rewrite Heq in N. clear Heq. rewrite (at_text_char marked c _ Hatm) in N.
  pose proof (at_text_getitem marked c text Hatm) as Hget.
  pose proof Hatm as ((_ & Hcol & _) & Heol & _).
  assert (Hdone : forall self : Lexer.t,
             Lexer.line self = Lexer.line marked ->
             Lexer.position self = Lexer.position marked ->
             Lexer.end_of_line self = Lexer.end_of_line marked ->
             (Lexer.token self = None
              \/ exists tok, Lexer.token self = Some tok
                             /\ Lexer.position self = Some (Token.position tok)) ->
             match Lexer.token self with
             | None => Lexer.unexpected_char_error self None 0
             | Some _ => Ok self
             end = Ok l ->
             exists tok,
               Lexer.token l = Some tok
               /\ Lexer.position l = Some (Token.position tok)
               /\ 0 <= Position.column (Token.position tok)
               /\ Py.getitem (Lexer.line l) (Position.column (Token.position tok)) = Some c
               /\ Lexer.end_of_line l = Lexer.NL).
  { intros self L P E [Hnone | (tok & Htok & Hp)] H.
    - rewrite Hnone in H. discriminate.
    - rewrite Htok in H. injection H as <-. exists tok. split; [exact Htok|].
      split; [exact Hp|].
      assert (Hsame : Token.position tok = pos) by congruence.
      rewrite Hsame, Hcolpos, L, E. repeat split; assumption. }
  destruct (Lexer.is_ascii_identifier_start c).
  - destruct (Lexer.allow_or_forbid_or_day_of_week_token marked) as [self | e |] eqn:Hinner;
      cbn [bind] in N; try discriminate.
    destruct (allow_or_forbid_or_day_of_week_token_frame marked self Hcol Tm Hinner)
      as (L & P & E & Hex).
    exact (Hdone self L P E Hex N).
  - destruct (Lexer.is_hour_start (Some c)).
    + destruct (Lexer.time_token marked) as [self | e |] eqn:Hinner;
        cbn [bind] in N; try discriminate.
      destruct (time_token_frame marked self Hcol Hinner) as (L & P & E & Hex).
      exact (Hdone self L P E (or_intror Hex) N).
    + destruct (Ascii.eqb c "-").
      * destruct (Lexer.next_char marked) as [l1 | e |] eqn:N1; cbn [bind] in N;
          try discriminate.
        destruct (next_char_frame marked l1 ltac:(lia) N1) as (L1 & P1 & E1 & _ & _).
        destruct (let* tok := Lexer.make_token l1 TokenType.DASH $"-" in
                  Ok (Lexer.set_token l1 (Some tok))) as [self | e |] eqn:Hinner;
          cbn [bind] in N; try discriminate.
        destruct (token_frame marked l1 self _ _ L1 P1 E1 Hinner) as (L & P & E & Hex).
        exact (Hdone self L P E (or_intror Hex) N).
      * cbn [bind] in N. rewrite Tm in N. discriminate.
Qed.

(** X22.  A syntax error points at the token that was not expected: when
    [next_token] has given a token from a text, the message that
    [unexpected_token] raises draws the lexer's line, in a window of at
    most 80 characters, with the caret under the first character of that
    token, which is where the position of the token says. *)
Theorem syntax_error_caret (l0 l : Lexer.t) (ws : str) (c : ascii) (text : str)
    (expected : list TokenType.t) :
  at_text l0 (ws ++ c :: text) ->
  Forall (fun c => is_blank c = true) ws ->
  is_blank c = false ->
  Lexer.next_token l0 = Ok l ->
  exists tok before line_part after,
    Lexer.token l = Some tok
    /\ Py.getitem (Lexer.line l) (Position.column (Token.position tok)) = Some c
    /\ @Parser.unexpected_token unit l expected
       = Raise (ParserError
                  (before
                   ++ (Py.times " " 5 ++ line_part ++ [Lexer.NL]
                       ++ Py.times " " 5
                       ++ Py.times " " (Z.min (Position.column (Token.position tok)) 39)
                       ++ $"^")
                   ++ after))
    /\ (length line_part <= 80)%nat
    /\ nth_error line_part (Z.to_nat (Z.min (Position.column (Token.position tok)) 39))
       = Some c.
Proof.
  intros Hat Hws Hc N.
  destruct (next_token_located l0 l ws c text Hat Hws Hc N)
    as (tok & Htok & Hpos & Hcol & Hget & Heol).
  destruct (build_error_string_shape l (Position.column (Token.position tok)) Hcol)
    as (line_part & Hdraw & Hlen & Hnth).
  exists tok.
  exists ($"missing or unexpected token in token stream on line "
          ++ Py.str_of_int (Lexer.lineno l) ++ $" column "
          ++ Py.str_of_int (Lexer.column l) ++ [Lexer.NL; Lexer.NL]).
  exists line_part.
  exists ([Lexer.NL; Lexer.NL] ++ Lexer.expected_one_of (map TokenType.name expected)
          ++ [Lexer.NL] ++ $"got: " ++ TokenType.name (Token.type tok)).
  split; [exact Htok|]. split; [exact Hget|].
  split; [| split; [exact Hlen|]].
  - unfold Parser.unexpected_token, Lexer.build_position_error_string, Parser.token_type.
    rewrite Hpos, Htok. cbn [bind]. rewrite Hdraw. rewrite <- !app_assoc. reflexivity.
  - apply Hnth; [exact Hget|]. rewrite Heol. intros ->. discriminate.
Qed.

Lemma syntax_error_caret_witness :
  let l0 := lexer_of (Lexer.next_token (lexer_of (Lexer.from_string $"mon 0800"))) in
  let l := lexer_of (Lexer.next_token l0) in
  exists tok before line_part after,
    Lexer.token l = Some tok
    /\ Py.getitem (Lexer.line l) (Position.column (Token.position tok)) = Some "0"%char
    /\ @Parser.unexpected_token unit l [TokenType.ALLOW; TokenType.FORBID]
       = Raise (ParserError
                  (before
                   ++ (Py.times " " 5 ++ line_part ++ [Lexer.NL]
                       ++ Py.times " " 5
                       ++ Py.times " " (Z.min (Position.column (Token.position tok)) 39)
                       ++ $"^")
                   ++ after))
    /\ (length line_part <= 80)%nat
    /\ nth_error line_part (Z.to_nat (Z.min (Position.column (Token.position tok)) 39))
       = Some "0"%char.
Proof.
  intros l0 l.
  apply (syntax_error_caret l0 l $" " "0"%char $"800").
  - split; [| split; [reflexivity | split; [reflexivity|]]].
    + split; [reflexivity|]. split; [vm_compute; discriminate|].
      split; [vm_compute; reflexivity | discriminate].
    + exists $"mon". split; [vm_compute; reflexivity|]. split; vm_compute; reflexivity.
  - repeat constructor.
  - reflexivity.
  - vm_compute. reflexivity.
Defined.
